(* ===== verification/_CoqProject ===== *)
-Q . S2P
Prelude.v
CwTypes.v
CwStrings.v
CwMath.v
BassetHub.v
BassetReward.v
BassetAirdrop.v
CwApi.v
Paging.v
Reference.v
SignedInt.v
HubMath.v
HubState.v
HubSlashing.v
HubScenario.v
HubSlashingSpec.v
HubBond.v
HubUnbond.v
HubConfig.v
HubContract.v
HubPick.v
HubBondSpec.v
HubUnbondSpec.v
HubRelease.v
HubSolvency.v
HubWithdraw.v
HubInvariant.v
HubQueries.v
HubAdmin.v
HubBacking.v
HubFunds.v
HubPayout.v
TaxQuerier.v
MockQuerier.v
RewardState.v
RewardContract.v
UnitTests.v
RewardSpec.v
RewardQueries.v
AirdropContract.v
AirdropSpec.v
AirdropQueries.v
TokenContract.v
TokenSpec.v
System.v
SystemDemo.v
SystemSpec.v
