(* ===== verification/Prelude.v ===== *)
(** * Anchor bAsset contracts: a verification library

    The repository holds four CosmWasm contracts that turn staked coins of
    the Terra chain into a transferable token (a bAsset), and two packages
    they share:

    - the hub (contracts/anchor_basset_hub) takes payments, delegates them
      to whitelisted validators and mints tokens at its exchange rate; it
      collects requests to unbond in batches, undelegates a batch once per
      epoch, and pays the users when the undelegated coins have arrived;
    - the token (contracts/anchor_basset_token) is a CW20 token that reports
      every change of a balance to the reward contract;
    - the reward contract (contracts/anchor_basset_reward) mirrors the
      balances and shares the staking rewards by balance, through a global
      index;
    - the airdrop registry (contracts/anchor_airdrop_registry) builds the
      messages with which the hub claims and swaps airdrops;
    - packages/basset holds the messages, the hub's books and the tax
      computation, packages/signed_integers a signed difference.

    The contracts call each other by messages in the responses of their
    handlers (hub to token: mint and burn; token to hub: the hook of a send;
    token to reward: balance changes; hub to reward: swap and index update;
    registry to hub: airdrop claims) and by queries (the token asks the hub
    for the reward contract, the reward contract asks it for the token, the
    hub asks the token for its supply).

    ** How the code is represented

    A handler is a computation of the monad [M] below: it takes the storage
    and returns a response with the new storage, an error value, or a panic
    ([expect], [unwrap], checked arithmetic: the crates are built with
    overflow checks).  A failing call leaves no storage behind, as the chain
    discards its writes.  The storage of a contract is a record with one
    field per item or bucket; buckets are finite maps from the key bytes.
    [u64], [u128] and [Decimal] (18 digits) are natural numbers with the
    bounds of their types checked by the operations.

    Code outside the repository is an argument: the arithmetic of
    cosmwasm_std and cosmwasm_bignumber is the class [CwMath] (CwMath.v),
    serialisation, address conversion, ordered ranges and the random number
    generator are the class [CwApi] (CwApi.v), the CW20 implementation is
    the class [Cw20Legacy] (TokenContract.v), the decoders of the messages of
    token and registry are [SystemWire] (System.v), and the answers to
    queries are a [Querier] given to each call.  [CwMathLaws], [CwApiLaws],
    [CwAddrLaws] (CwApi.v, for chains whose addresses have one length),
    [Cw20Laws] and [Cw20SupplyLaws] (TokenSpec.v) and [SystemWireLaws] state
    the documented behaviour that the proofs use; Reference.v, TokenSpec.v
    and SystemDemo.v give implementations that satisfy the laws, with which
    the witnesses evaluate the handlers.

    ** Files

    - Prelude.v: results, the monad, inversion tactics, loops, sums over
      lists and maps, division.  CwTypes.v: types, messages, responses, storage items.
      CwStrings.v: decimal strings.  CwMath.v, CwApi.v: the interfaces
      above.  Reference.v: their reference implementations.  Paging.v: the
      byte order of keys, key ranges, and the client that follows pages.
    - BassetHub.v, BassetReward.v, BassetAirdrop.v, TaxQuerier.v:
      packages/basset/src/hub.rs, reward.rs, airdrop.rs, tax_querier.rs.
      MockQuerier.v: mock_querier.rs, the chain of the package's test.
      SignedInt.v: packages/signed_integers.  UnitTests.v: the unit tests
      that stand in the source files, evaluated on the model.
    - The hub: HubMath.v (math.rs), HubState.v (state.rs), HubSlashing.v
      (slashing and the supply query of contract.rs), HubBond.v (bond.rs),
      HubUnbond.v (unbond.rs), HubConfig.v (config.rs), HubContract.v (the
      rest of contract.rs: entry points, index update, airdrops, queries).
      HubScenario.v: a concrete hub for the witnesses.
    - Theorems on the hub: HubSlashingSpec.v, HubPick.v, HubBondSpec.v,
      HubUnbondSpec.v, HubRelease.v, HubSolvency.v, HubWithdraw.v,
      HubInvariant.v, HubQueries.v (what the queries report), HubAdmin.v,
      HubBacking.v (backing across all messages), HubFunds.v (the coins the
      hub holds), HubPayout.v (withdrawals go through).
    - The reward contract: RewardState.v (state.rs, math.rs, querier.rs),
      RewardContract.v (user.rs, global.rs, contract.rs), theorems in
      RewardSpec.v and RewardQueries.v.
    - The token: TokenContract.v (contract.rs, handler.rs, querier.rs,
      state.rs, msg.rs), theorems in TokenSpec.v.
    - The registry: AirdropContract.v (contract.rs, state.rs), theorems in
      AirdropSpec.v and AirdropQueries.v.
    - The system: System.v (the four contracts and the dispatch of their
      messages as a step relation), SystemDemo.v (a concrete deployment),
      theorems in SystemSpec.v.

    ** What the theorems show

    - Books of the hub: a slashing check lowers the bond to what the chain
      reports and recomputes the rate, unless no delegation is reported; the
      rate is the bond per token rounded down; a bond and a request to unbond
      have exactly the effects [bond_effect] and [unbond_effect], keep every
      token backed while something is bonded, never favour the caller beyond
      the error of the division, and succeed under the conditions
      [bond_enabled] and [unbond_enabled], the slashing check included.
    - Undelegation: whatever is drawn at random, [pick_validator] undelegates
      exactly the claim and no more than each delegation holds.
    - Release and withdrawal: [process_withdraw_rate] releases exactly the
      maximal run of ready batches ([release_effect]); when coins are missing
      each batch gets its proportional share within the stated bounds
      ([release_fair]); the users together are owed no more than their
      batches; a withdrawal pays an entry once and touches nobody else; the
      coins that arrived are settled with every withdrawal.
    - Coins of the hub: on a chain that reports the hub's balance truthfully
      ([hub_chain]: any messages, any arrivals, [precise_release] at every
      withdrawal) what all users are owed from the released batches is
      covered by the recorded balance, which the hub holds ([hub_solvent]),
      so that a withdrawal succeeds whenever the release does
      ([withdraw_succeeds]).
    - Where the code falls short: ready batches worth nothing together block
      every withdrawal ([worthless_batches_block_withdrawals]), and so does a
      surplus that rounds to nothing ([small_surplus_blocks_release]); a
      batch of which nothing arrived is released for one coin
      ([slashed_batch_owes_a_coin]); a balance too large for a [Decimal] is
      locked in the reward contract ([large_holder_locked]); the initial
      balances of a token are never reported to the reward contract
      ([initial_balances_stranded]).
    - Queries: following the pages of the history, of the holders and of the
      airdrops reads every entry once; requests are reported as they were
      made; the withdrawable amount is what a withdrawal pays, up to the
      batches undelegated exactly one unbonding period ago.
    - [hub_invariant]: over all reachable states ([hub_reachable]: instantiate
      followed by any messages with any senders and any answers of the
      chain) the history, the wait lists and the current batch agree.
    - Administration: every message checks its sender, only the owner and the
      hub administer, the whitelist never becomes empty, deregistering
      redelegates.
    - Rewards: over all reachable states the balances add up and accrued
      rewards are covered; an index update distributes the new rewards by
      balance; a claim pays what is reported and succeeds while the numbers
      fit; balance changes are neutral.
    - Token and rewards: the reports of the token lead from its old balances
      to its new ones, and the reward contract that executes them agrees
      with the token afterwards.
    - Registry: the list of tokens and the stored infos agree, and only the
      owner changes them.
    - System: from the instantiation of the four contracts ([genesis], the
      token without initial balances) on, between transactions the reward
      contract has the token's balances and supply ([system_agrees]) and all
      tokens are backed ([system_backed]), whatever anybody sends and the
      chain answers, for owners who connect the contracts to each other only
      and do not register the token as an airdrop ([trusted_hub],
      [trusted_registry]).

    ** Bounds and fuel

    Three loops of the code are not structural and get fuel: the [while] of
    [pick_validator] two more than the number of delegations, the two
    [loop]s of [process_withdraw_rate] two more than the number of recorded
    batches.  [release_loops_terminate] shows that the latter have an
    evaluation without fuel ([loop_evals]) in at most one iteration per
    recorded batch and one more, whose result they return;
    [pick_validator_complete] and [pick_validator_loop_terminates] show that
    the former returns its picks and that more fuel changes nothing.  The
    solvency theorems carry the condition [precise] when coins are missing:
    each batch's share is computed with a weight of 18 digits, so that the
    missing coins times the number of batches must stay below 10^18; and
    some coin must have arrived.  The client [follow] of the pages gets one
    query more than there are entries.  The executable dispatcher of
    System.v takes the number of messages to run; the theorems are about
    the step relation and need no bound.

    ** Not modelled

    The JSON text of messages and query answers (only that decoding inverts
    encoding, and that the text of a string ends at its quote); the keys by
    which the storage libraries lay out items and buckets, each of which is
    a field of the storage; the bank, staking and oracle modules of the chain, whose
    answers are arguments; packages/basset/src/contract_error.rs, whose type
    no contract uses; lib.rs files and schema generators; the scenario tests
    and mock chains under testing/.

    ** Plan

    Next: the rewards of the composed system (what the reward contract pays
    is covered by the coins the hub withdrew to it) and the mock chains of
    the contracts' tests. *)
From stdpp Require Export base numbers list gmap strings pretty.
From Stdlib Require Export Lia Sorted Permutation.

(** ** Results: a value, an error value, or a Rust panic *)

(** [result E A] is what a Rust function of type [Result<A, E>] does:
    return [Ok], return [Err], or panic ([expect], [unwrap] on [None],
    a checked arithmetic overflow).  A panic aborts the call and, unlike
    an [Err], cannot be caught by [unwrap_or_default] or [if let Ok]. *)
Inductive result (E A : Type) : Type :=
  | Ok (a : A)
  | Err (e : E)
  | Panic (msg : string).
Arguments Ok {E A} _.
Arguments Err {E A} _.
Arguments Panic {E A} _.

#[export] Instance result_ret {E} : MRet (result E) := λ A a, Ok a.
#[export] Instance result_bind {E} : MBind (result E) := λ A B f m,
  match m with
  | Ok a => f a
  | Err e => Err e
  | Panic p => Panic p
  end.
#[export] Instance result_fmap {E} : FMap (result E) := λ A B f m,
  match m with
  | Ok a => Ok (f a)
  | Err e => Err e
  | Panic p => Panic p
  end.

#[export] Instance result_eq_dec {E A} `{EqDecision E, EqDecision A} :
  EqDecision (result E A).
Proof. solve_decision. Defined.

(** [r.unwrap_or_default()]-like recovery: only an [Err] is recovered. *)
Definition unwrap_or {E A} (r : result E A) (d : A) : result E A :=
  match r with
  | Err _ => Ok d
  | _ => r
  end.

(** [r.unwrap()] on a [Result]: an error becomes a panic. *)
Definition unwrap {E A} (r : result E A) : result E A :=
  match r with
  | Err _ => Panic "called `Result::unwrap()` on an `Err` value"
  | _ => r
  end.

(** [r.expect(msg)] on a [Result]. *)
Definition expect_res {E A} (msg : string) (r : result E A) : result E A :=
  match r with
  | Err _ => Panic msg
  | _ => r
  end.

(** [o.expect(msg)] on an [Option]. *)
Definition expect_opt {E A} (msg : string) (o : option A) : result E A :=
  match o with
  | Some a => Ok a
  | None => Panic msg
  end.

(** [o.ok_or_else(|| e)]. *)
Definition ok_or {E A} (e : E) (o : option A) : result E A :=
  match o with
  | Some a => Ok a
  | None => Err e
  end.

(** [if c { return Err(e) }]. *)
Definition throw_if {E} (c : bool) (e : E) : result E () :=
  if c then Err e else Ok ().

Definition is_Ok {E A} (r : result E A) : Prop := ∃ a, r = Ok a.
Definition is_Panic {E A} (r : result E A) : Prop := ∃ msg, r = Panic msg.
Definition is_Err {E A} (r : result E A) : Prop := ∃ e, r = Err e.

Lemma result_bind_Ok {E A B} (m : result E A) (f : A → result E B) b :
  m ≫= f = Ok b ↔ ∃ a, m = Ok a ∧ f a = Ok b.
Proof. destruct m; cbn; naive_solver. Qed.

Lemma throw_if_Ok {E} c (e : E) u : throw_if c e = Ok u ↔ c = false.
Proof. destruct c, u; cbn; naive_solver. Qed.

Lemma expect_opt_Ok {E A} msg (o : option A) a :
  expect_opt (E:=E) msg o = Ok a ↔ o = Some a.
Proof. destruct o; cbn; naive_solver. Qed.

Lemma expect_res_Ok {E A} msg (r : result E A) a : expect_res msg r = Ok a ↔ r = Ok a.
Proof. destruct r; cbn; naive_solver. Qed.

Lemma unwrap_Ok {E A} (r : result E A) a : unwrap r = Ok a ↔ r = Ok a.
Proof. destruct r; cbn; naive_solver. Qed.

Lemma ok_or_Ok {E A} (e : E) (o : option A) a : ok_or e o = Ok a ↔ o = Some a.
Proof. destruct o; cbn; naive_solver. Qed.

(** A guard [x != y] that did not fire. *)
Lemma bool_decide_neq_false {A} `{EqDecision A} (x y : A) : bool_decide (x ≠ y) = false → x = y.
Proof. intros E%bool_decide_eq_false. destruct (decide (x = y)); tauto. Qed.

(** ** Stateful computations: a handler over its contract's storage *)

(** A handler reads and writes the contract's storage and may fail.  When
    it fails no storage is returned: the chain discards the writes of a
    failed call. *)
Definition M (S E A : Type) : Type := S → result E (A * S).

#[export] Instance M_ret {S E} : MRet (M S E) := λ A a s, Ok (a, s).
#[export] Instance M_bind {S E} : MBind (M S E) := λ A B f m s,
  match m s with
  | Ok (a, s') => f a s'
  | Err e => Err e
  | Panic p => Panic p
  end.

Definition lift {S E A} (r : result E A) : M S E A := λ s,
  match r with
  | Ok a => Ok (a, s)
  | Err e => Err e
  | Panic p => Panic p
  end.

Definition gets {S E A} (f : S → A) : M S E A := λ s, Ok (f s, s).
Definition modify {S E} (f : S → S) : M S E () := λ s, Ok ((), f s).

(** A read-only computation over the storage, run inside a handler. *)
Definition reading {S E A} (f : S → result E A) : M S E A := λ s, lift (f s) s.

Lemma M_bind_Ok {S E A B} (m : M S E A) (f : A → M S E B) s r :
  (m ≫= f) s = Ok r ↔ ∃ a s', m s = Ok (a, s') ∧ f a s' = Ok r.
Proof.
  unfold mbind, M_bind. destruct (m s) as [[a s']| |]; naive_solver.
Qed.

Lemma lift_Ok {S E A} (r : result E A) (s : S) a s' :
  lift r s = Ok (a, s') ↔ r = Ok a ∧ s' = s.
Proof. unfold lift. destruct r; naive_solver. Qed.

Lemma reading_Ok {S E A} (f : S → result E A) (s : S) a s' :
  reading f s = Ok (a, s') ↔ f s = Ok a ∧ s' = s.
Proof. unfold reading. apply lift_Ok. Qed.

Lemma gets_Ok {S E A} (f : S → A) (s : S) a s' :
  gets (E:=E) f s = Ok (a, s') ↔ a = f s ∧ s' = s.
Proof. unfold gets. naive_solver. Qed.

Lemma modify_Ok {S E} (f : S → S) (s : S) u s' :
  modify (E:=E) f s = Ok (u, s') ↔ s' = f s.
Proof. unfold modify. destruct u. naive_solver. Qed.

Lemma M_ret_Ok {S E A} (a : A) (s : S) r :
  mret (M:=M S E) a s = Ok r ↔ r = (a, s).
Proof. unfold mret, M_ret. naive_solver. Qed.

(** [inv_ok] inverts every hypothesis that says a computation returned
    [Ok]: it splits binds, guards, lifts and reads until only calls of
    named operations are left, and substitutes the storages it learns. *)
Ltac inv_ok_step :=
  match goal with
  | H : Ok _ = Ok _ |- _ => injection H as H; try subst
  | H : (_, _) = (_, _) |- _ => injection H as H; try subst
  | H : Err _ = Ok _ |- _ => discriminate H
  | H : Panic _ = Ok _ |- _ => discriminate H
  | H : mbind (M:=M _ _) _ _ _ = Ok _ |- _ =>
      apply M_bind_Ok in H; destruct H as (? & ? & ? & H); cbn beta in H
  | H : mbind (M:=result _) _ _ = Ok _ |- _ =>
      apply result_bind_Ok in H; destruct H as (? & ? & H); cbn beta in H
  | H : lift _ _ = Ok (_, _) |- _ => apply lift_Ok in H; destruct H as [H ?]; subst
  | H : reading _ _ = Ok (_, _) |- _ => apply reading_Ok in H; destruct H as [H ?]; subst
  | H : gets _ _ = Ok (_, _) |- _ => apply gets_Ok in H; destruct H as [? ?]; subst
  | H : modify _ _ = Ok (_, _) |- _ => apply modify_Ok in H; subst
  | H : mret (M:=M _ _) _ _ = Ok _ |- _ => apply M_ret_Ok in H; try subst
  | H : mret (M:=result _) _ = Ok _ |- _ => injection H as H; try subst
  | H : throw_if _ _ = Ok _ |- _ => apply throw_if_Ok in H
  | H : expect_opt _ _ = Ok _ |- _ => apply expect_opt_Ok in H
  | H : expect_res _ _ = Ok _ |- _ => apply (proj1 (expect_res_Ok _ _ _)) in H
  | H : unwrap _ = Ok _ |- _ => apply (proj1 (unwrap_Ok _ _)) in H
  | H : ok_or _ _ = Ok _ |- _ => apply ok_or_Ok in H
  end.

(** Later files extend [inv_ok] with the inversions of their operations. *)
Ltac inv_ok_hook := fail.
Ltac inv_ok := repeat first [inv_ok_step | inv_ok_hook].

(** Linear arithmetic with division and modulo by constants or variables. *)
Ltac divlia := zify; Z.to_euclidean_division_equations; lia.
Ltac divnia := zify; Z.to_euclidean_division_equations; nia.

(** [compute_elem H] evaluates the list of a membership [H]. *)
Ltac compute_elem H :=
  match type of H with
  | _ ∈ ?l =>
      let l' := eval vm_compute in l in
      let E := fresh in
      assert (l = l') as E by (vm_compute; reflexivity); rewrite E in H; clear E
  end.

(** [same_read] identifies the results of reading the same thing twice. *)
Ltac same_read :=
  repeat match goal with
  | H : ?x = Some ?a, H' : ?x = Some ?b |- _ =>
      assert_fails (constr_eq a b); assert (b = a) by congruence; subst; try clear H'
  | H : ?x = Ok ?a, H' : ?x = Ok ?b |- _ =>
      assert_fails (constr_eq a b); assert (b = a) by congruence; subst; try clear H'
  end.

(** ** Loops *)

(** A Rust [loop]: [body] is one iteration, which goes on with new values of
    the loop's variables ([inl]) or breaks with the result ([inr]).  The loop
    evaluates to [r] in [n] iterations: a loop that does not end has no
    evaluation. *)
Inductive loop_evals {E A R} (body : A → result E (A + R)) : nat → A → result E R → Prop :=
  | loop_break a r : body a = Ok (inr r) → loop_evals body 1 a (Ok r)
  | loop_error a e : body a = Err e → loop_evals body 1 a (Err e)
  | loop_panic a msg : body a = Panic msg → loop_evals body 1 a (Panic msg)
  | loop_next n a a' r :
      body a = Ok (inl a') → loop_evals body n a' r → loop_evals body (S n) a r.

Section loops.
  Context {E A R : Type} (body : A → result E (A + R)).

(** A loop whose iterations decrease a measure ends. *)
Lemma loop_ends (inv : A → Prop) (μ : A → nat) :
  (∀ a a', inv a → body a = Ok (inl a') → inv a' ∧ (μ a' < μ a)%nat) →
  ∀ a, inv a → ∃ n r, (n ≤ S (μ a))%nat ∧ loop_evals body n a r.
Proof.
  intros Hstep a. remember (μ a) as m eqn:Hm. revert a Hm.
  induction (lt_wf m) as [m _ IH]. intros a -> Ha.
  destruct (body a) as [[a'|r]|e|msg] eqn:Hb.
  - destruct (Hstep a a' Ha Hb) as [Ha' Hlt].
    destruct (IH (μ a') Hlt a' eq_refl Ha') as (n & r & Hn & Hr).
    exists (S n), r. split; [lia|by eapply loop_next].
  - exists 1%nat, (Ok r). split; [lia|by apply loop_break].
  - exists 1%nat, (Err e). split; [lia|by apply loop_error].
  - exists 1%nat, (Panic msg). split; [lia|by apply loop_panic].
Qed.

(** A function with fuel that runs the iterations computes the loop's result. *)
Lemma loop_fuel (f : nat → A → result E R) :
  (∀ fuel a, f (S fuel) a =
     match body a with
     | Ok (inl a') => f fuel a'
     | Ok (inr r) => Ok r
     | Err e => Err e
     | Panic msg => Panic msg
     end) →
  ∀ n a r fuel, loop_evals body n a r → (n ≤ fuel)%nat → f fuel a = r.
Proof.
  intros Hf n a r fuel Hev. revert fuel.
  induction Hev as [a r Hb|a e Hb|a msg Hb|n a a' r Hb _ IH]; intros [|fuel] Hn; try lia;
    rewrite Hf, Hb; try done. apply IH. lia.
Qed.
End loops.

(** ** Sums over lists *)

Definition sumN {A} (f : A → N) (l : list A) : N := foldr (λ x acc, f x + acc)%N 0%N l.

Lemma sumN_cons {A} (f : A → N) x l : sumN f (x :: l) = (f x + sumN f l)%N.
Proof. done. Qed.

Lemma sumN_app {A} (f : A → N) l k : sumN f (l ++ k) = (sumN f l + sumN f k)%N.
Proof. induction l as [|x l IH]; [done|]. rewrite <- app_comm_cons, !sumN_cons, IH. lia. Qed.

Lemma sumN_fmap {A B} (g : A → B) (f : B → N) l : sumN f (g <$> l) = sumN (λ x, f (g x)) l.
Proof. induction l as [|x l IH]; [done|]. rewrite fmap_cons, !sumN_cons. by f_equal. Qed.

#[export] Instance sumN_Permutation {A} (f : A → N) : Proper ((≡ₚ) ==> (=)) (sumN f).
Proof. induction 1; rewrite ?sumN_cons; lia. Qed.

Lemma sumN_ext {A} (f g : A → N) l : (∀ x, x ∈ l → f x = g x) → sumN f l = sumN g l.
Proof.
  induction l as [|x l IH]; intros E; [done|]. rewrite !sumN_cons.
  rewrite E, IH; [done| |]; set_solver.
Qed.

Lemma sumN_zero {A} (f : A → N) l : (∀ x, x ∈ l → f x = 0%N) → sumN f l = 0%N.
Proof.
  induction l as [|x l IH]; intros E; [done|]. rewrite sumN_cons.
  rewrite E, IH; [done| |]; set_solver.
Qed.

Lemma sumN_le {A} (f g : A → N) l :
  (∀ x, x ∈ l → (f x ≤ g x)%N) → (sumN f l ≤ sumN g l)%N.
Proof.
  induction l as [|x l IH]; intros E; [done|]. rewrite !sumN_cons.
  apply N.add_le_mono; [apply E | apply IH; intros ??; apply E]; set_solver.
Qed.

Lemma sumN_mul_l {A} c (f : A → N) l : sumN (λ x, c * f x)%N l = (c * sumN f l)%N.
Proof. induction l as [|x l IH]; [cbn; lia|]. rewrite !sumN_cons, IH. lia. Qed.

Lemma sumN_add {A} (f g : A → N) l : sumN (λ x, f x + g x)%N l = (sumN f l + sumN g l)%N.
Proof. induction l as [|x l IH]; [done|]. rewrite !sumN_cons, IH. lia. Qed.

Lemma sumN_elem_le {A} (f : A → N) l x : x ∈ l → (f x ≤ sumN f l)%N.
Proof.
  induction 1 as [y l|y z l _ IH]; rewrite sumN_cons; lia.
Qed.

Lemma sumN_seq_le {A} (f : nat → N) (g : A → N) l :
  (∀ k x, l !! k = Some x → (f k ≤ g x)%N) → (sumN f (seq 0 (length l)) ≤ sumN g l)%N.
Proof.
  revert f. induction l as [|x l IH]; intros f Hle; [done|].
  cbn [length seq]. rewrite !sumN_cons. apply N.add_le_mono; [by apply (Hle 0%nat)|].
  rewrite <- fmap_S_seq, sumN_fmap. apply IH. intros k y Hk. by apply (Hle (S k)).
Qed.

(** ** Sums over finite maps *)

Section sum_map.
  Context {Key V : Type} `{Countable Key}.
  Implicit Types (f g : Key → V → N) (m : gmap Key V).

Definition sum_map f m : N := sumN (λ kv, f kv.1 kv.2) (map_to_list m).

Lemma sum_map_empty f : sum_map f ∅ = 0%N.
Proof. unfold sum_map. by rewrite map_to_list_empty. Qed.

Lemma sum_map_insert_new f m k v :
  m !! k = None → sum_map f (<[k := v]> m) = (f k v + sum_map f m)%N.
Proof. intros Hk. unfold sum_map. by rewrite map_to_list_insert. Qed.

Lemma sum_map_delete f m k v :
  m !! k = Some v → sum_map f m = (f k v + sum_map f (delete k m))%N.
Proof.
  intros Hk. rewrite <- (insert_delete_id m k v Hk) at 1.
  by rewrite sum_map_insert_new by apply lookup_delete_eq.
Qed.

(** Writing one entry moves the sum by the change of that entry. *)
Lemma sum_map_insert f m k v :
  (sum_map f (<[k := v]> m) + default 0%N (f k <$> m !! k) = sum_map f m + f k v)%N.
Proof.
  destruct (m !! k) as [w|] eqn:Hk; cbn.
  - rewrite <- insert_delete_eq, sum_map_insert_new by apply lookup_delete_eq.
    rewrite (sum_map_delete f m k w Hk). lia.
  - rewrite sum_map_insert_new by done. lia.
Qed.

Lemma sum_map_le f g m :
  (∀ k v, m !! k = Some v → (f k v ≤ g k v)%N) → (sum_map f m ≤ sum_map g m)%N.
Proof.
  intros Hle. apply sumN_le. intros [k v] Hin%elem_of_map_to_list. by apply Hle.
Qed.

Lemma sum_map_ext f g m :
  (∀ k v, m !! k = Some v → f k v = g k v) → sum_map f m = sum_map g m.
Proof.
  intros Heq. apply sumN_ext. intros [k v] Hin%elem_of_map_to_list. by apply Heq.
Qed.

Lemma sum_map_elem_le f m k v : m !! k = Some v → (f k v ≤ sum_map f m)%N.
Proof. intros Hk. rewrite (sum_map_delete f m k v Hk). lia. Qed.

Lemma sum_map_mul_r f m c : sum_map (λ k v, f k v * c)%N m = (sum_map f m * c)%N.
Proof.
  unfold sum_map. rewrite (sumN_ext _ (λ kv, c * f kv.1 kv.2)%N) by (intros; lia).
  rewrite (sumN_mul_l c (λ kv, f kv.1 kv.2)). lia.
Qed.

(** Rounding each entry down loses at least what rounding the sum loses. *)
Lemma sum_map_div_le f m c : (sum_map (λ k v, f k v / c) m ≤ sum_map f m / c)%N.
Proof.
  destruct (decide (c = 0%N)) as [->|Hc].
  - rewrite (sum_map_ext _ (λ _ _, 0%N)) by (intros; apply N.div_0_r).
    unfold sum_map at 1. rewrite sumN_zero by done. apply N.le_0_l.
  - apply N.div_le_lower_bound; [done|]. rewrite N.mul_comm, <- sum_map_mul_r.
    apply sum_map_le. intros k v _. rewrite N.mul_comm. apply N.Div0.mul_div_le.
Qed.
End sum_map.
