(* ===== verification/CwTypes.v ===== *)
(** * Data types of the CosmWasm interface

    The types of [cosmwasm_std] (and of [cw20], [terra_cosmwasm]) that the
    contracts build and take apart: integers, coins, addresses, messages,
    responses, the environment of a call and the answers to queries.  Only
    data is defined here; the operations of those packages are parameters
    (CwMath.v, CwApi.v). *)
From S2P Require Import Prelude.

(** ** Scalars *)

(** [Uint128] wraps a [u128]; [Decimal] is a fixed point number with 18
    fractional digits and is represented by its number of 10^-18 units. *)
Abbreviation u8 := N (only parsing).
Abbreviation u32 := N (only parsing).
Abbreviation u64 := N (only parsing).
Abbreviation Uint128 := N (only parsing).
Abbreviation Decimal := N (only parsing).

(** Bytes are numbers below 256. *)
Abbreviation Bytes := (list N) (only parsing).
Abbreviation Binary := (list N) (only parsing).
Abbreviation CanonicalAddr := (list N) (only parsing).

(** [Addr] is a newtype of [String], serialised as the string it holds. *)
Abbreviation Addr := string (only parsing).

Definition U64_MOD : N := 2 ^ 64.
Definition U128_MOD : N := 2 ^ 128.
Definition U256_MOD : N := 2 ^ 256.

(** [Decimal::one()]. *)
Definition DECIMAL_ONE : Decimal := 1000000000000000000.

(** ** Errors *)

Inductive StdError :=
  | GenericErr (msg : string)
  | NotFound (kind : string)
  | ParseErr (msg : string)
  | SerializeErr (msg : string)
  | Overflow (operand1 operand2 : N).

#[export] Instance StdError_eq_dec : EqDecision StdError.
Proof. solve_decision. Defined.

Abbreviation StdResult := (result StdError).

(** [StdError::generic_err]. *)
Definition generic_err (msg : string) : StdError := GenericErr msg.

(** ** Machine arithmetic on [u64], built with [overflow-checks = true] *)

Definition u64_add (a b : u64) : StdResult u64 :=
  if decide (a + b < U64_MOD)%N then Ok (a + b)%N
  else Panic "attempt to add with overflow".

Definition u64_sub (a b : u64) : StdResult u64 :=
  if decide (b ≤ a)%N then Ok (a - b)%N
  else Panic "attempt to subtract with overflow".

(** [idx.to_be_bytes()] of a [u64]: eight bytes, most significant first. *)
Definition to_be_bytes (n : u64) : Bytes :=
  (λ i, N.shiftr n (8 * i) `mod` 256)%N <$> [7; 6; 5; 4; 3; 2; 1; 0]%N.

Arguments to_be_bytes : simpl never.

(** The [Display] of the unsigned integers. *)
Definition uint_to_string (n : N) : string := pretty n.

(** ** Coins, addresses and queries *)

Record Coin := mkCoin { coin_denom : string; coin_amount : Uint128 }.

#[export] Instance Coin_eq_dec : EqDecision Coin.
Proof. solve_decision. Defined.

(** [Delegation] of [cosmwasm_std] (the delegator is always the contract). *)
Record Delegation := mkDelegation {
  delegation_validator : string;
  delegation_amount : Coin
}.

#[export] Instance Delegation_eq_dec : EqDecision Delegation.
Proof. solve_decision. Defined.

(** [cw20::TokenInfoResponse]: the contracts read the supply only. *)
Record TokenInfoResponse := mkTokenInfo { total_supply : Uint128 }.

(** [terra_cosmwasm::ExchangeRatesResponse] and its items. *)
Record ExchangeRateItem := mkExchangeRateItem {
  item_exchange_rate : Decimal;
  quote_denom : string
}.
Record ExchangeRatesResponse := mkExchangeRatesResponse {
  base_denom : string;
  exchange_rates : list ExchangeRateItem
}.

(** [cw20::Cw20ReceiveMsg]. *)
Record Cw20ReceiveMsg := mkCw20Receive {
  receive_sender : string;
  receive_amount : Uint128;
  receive_msg : Binary
}.

#[export] Instance Cw20ReceiveMsg_eq_dec : EqDecision Cw20ReceiveMsg.
Proof. solve_decision. Defined.

(** [cw20::Cw20ExecuteMsg]: the messages the hub sends to a token. *)
Inductive Cw20ExecuteMsg :=
  | Cw20_Burn (amount : Uint128)
  | Cw20_Mint (recipient : string) (amount : Uint128)
  | Cw20_Send (contract : string) (amount : Uint128) (msg : Binary).

#[export] Instance Cw20ExecuteMsg_eq_dec : EqDecision Cw20ExecuteMsg.
Proof. solve_decision. Defined.

(** ** Messages and responses *)

Inductive CosmosMsg :=
  | Bank_Send (to_address : string) (amount : list Coin)
  | Staking_Delegate (validator : string) (amount : Coin)
  | Staking_Undelegate (validator : string) (amount : Coin)
  | Staking_Redelegate (src_validator dst_validator : string) (amount : Coin)
  | Distribution_SetWithdrawAddress (address : string)
  | Distribution_WithdrawDelegatorReward (validator : string)
  | Wasm_Execute (contract_addr : string) (msg : Binary) (funds : list Coin)
  | Custom_Swap (offer_coin : Coin) (ask_denom : string).

#[export] Instance CosmosMsg_eq_dec : EqDecision CosmosMsg.
Proof. solve_decision. Defined.

(** A [Response]: the messages to dispatch after the call, in order, and
    the attributes logged.  [SubMsg::new] asks for no reply, so a sub-message
    is its message. *)
Record Response := mkResponse {
  messages : list CosmosMsg;
  attributes : list (string * string)
}.

#[export] Instance Response_eq_dec : EqDecision Response.
Proof. solve_decision. Defined.

(** [Response::default()]. *)
Definition Response_default : Response := mkResponse [] [].

Definition attr (key value : string) : string * string := (key, value).

(** ** The environment of a call *)

(** [block_time] is [env.block.time.seconds()]. *)
Record Env := mkEnv {
  block_height : u64;
  block_time : u64;
  contract_address : Addr
}.

Record MessageInfo := mkInfo { sender : Addr; funds : list Coin }.

(** ** Storage items *)

(** An [Item<T>] of [cw_storage_plus]: one typed cell of the storage. *)
Record Item (S T : Type) := mkItem {
  item_get : S → option T;
  item_set : T → S → S;
  item_kind : string
}.
Arguments mkItem {S T} _ _ _.
Arguments item_get {S T} _ _.
Arguments item_set {S T} _ _ _.
Arguments item_kind {S T} _.

Definition load {S T} (it : Item S T) (s : S) : StdResult T :=
  ok_or (NotFound (item_kind it)) (item_get it s).

Definition save {S T} (it : Item S T) (x : T) : M S StdError () :=
  modify (item_set it x).

Definition update {S T} (it : Item S T) (f : T → StdResult T) : M S StdError () :=
  x ← reading (load it);
  y ← lift (f x);
  save it y.

Lemma load_Ok {S T} (it : Item S T) s x : load it s = Ok x ↔ item_get it s = Some x.
Proof. apply ok_or_Ok. Qed.

Lemma update_Ok {S T} (it : Item S T) f s u s' :
  update it f s = Ok (u, s') ↔
  ∃ x y, item_get it s = Some x ∧ f x = Ok y ∧ s' = item_set it y s.
Proof.
  unfold update, save. split.
  - intros H. inv_ok. rewrite load_Ok in *. eauto.
  - intros (x & y & Hx & Hf & ->). destruct u.
    unfold mbind, M_bind, reading, load. rewrite Hx. cbn. by rewrite Hf.
Qed.

Lemma save_Ok {S T} (it : Item S T) x s u s' :
  save it x s = Ok (u, s') ↔ s' = item_set it x s.
Proof. apply modify_Ok. Qed.

(** ** Facts about machine arithmetic *)

Lemma u64_add_Ok a b c : u64_add a b = Ok c ↔ c = (a + b)%N ∧ (a + b < U64_MOD)%N.
Proof. unfold u64_add. case_decide; naive_solver. Qed.

Lemma u64_sub_Ok a b c : u64_sub a b = Ok c ↔ c = (a - b)%N ∧ (b ≤ a)%N.
Proof. unfold u64_sub. case_decide; naive_solver. Qed.

Lemma u64_add_lt a b : (a + b < U64_MOD)%N → u64_add a b = Ok (a + b)%N.
Proof. intros. unfold u64_add. by rewrite decide_True. Qed.

Lemma u64_sub_le a b : (b ≤ a)%N → u64_sub a b = Ok (a - b)%N.
Proof. intros. unfold u64_sub. by rewrite decide_True. Qed.

Lemma u64_add_cases a b : u64_add a b = Ok (a + b)%N ∨ ∃ msg, u64_add a b = Panic msg.
Proof. unfold u64_add. case_decide; eauto. Qed.

Ltac inv_cw_types :=
  match goal with
  | H : load _ _ = Ok _ |- _ => apply load_Ok in H; cbn in H
  | H : update _ _ _ = Ok (_, _) |- _ =>
      let G := fresh in let Hs := fresh in
      apply update_Ok in H; destruct H as (? & ? & G & ? & Hs); cbn in G; cbn in Hs; subst
  | H : save _ _ _ = Ok (_, _) |- _ => apply save_Ok in H; cbn in H; subst
  | H : u64_add _ _ = Ok _ |- _ => apply u64_add_Ok in H; destruct H as [? ?]; subst
  | H : u64_sub _ _ = Ok _ |- _ => apply u64_sub_Ok in H; destruct H as [? ?]; subst
  end.
Ltac inv_ok_hook ::= inv_cw_types.

(** Big-endian keys determine the number they encode. *)
Definition from_be_bytes (bs : Bytes) : N := foldl (λ acc b, acc * 256 + b)%N 0%N bs.

Lemma shiftr_byte n i :
  N.shiftr n (8 * i) = (256 * N.shiftr n (8 * (i + 1)) + N.shiftr n (8 * i) `mod` 256)%N.
Proof.
  assert (N.shiftr n (8 * (i + 1)) = N.shiftr n (8 * i) / 256)%N as ->.
  - rewrite !N.shiftr_div_pow2. change 256%N with (2 ^ 8)%N.
    rewrite N.Div0.div_div, <- N.pow_add_r. do 2 f_equal. lia.
  - apply N.div_mod'.
Qed.

Lemma from_to_be_bytes n : (n < U64_MOD)%N → from_be_bytes (to_be_bytes n) = n.
Proof.
  intros Hn. unfold from_be_bytes, to_be_bytes. cbn [fmap list_fmap foldl].
  assert (H8 : N.shiftr n (8 * (7 + 1)) = 0%N).
  { rewrite N.shiftr_div_pow2. by apply N.div_small. }
  pose proof (shiftr_byte n 7). pose proof (shiftr_byte n 6). pose proof (shiftr_byte n 5).
  pose proof (shiftr_byte n 4). pose proof (shiftr_byte n 3). pose proof (shiftr_byte n 2).
  pose proof (shiftr_byte n 1). pose proof (shiftr_byte n 0).
  assert (N.shiftr n (8 * 0) = n) by apply N.shiftr_0_r.
  change (7 + 1)%N with 8%N in *. change (6 + 1)%N with 7%N in *.
  change (5 + 1)%N with 6%N in *. change (4 + 1)%N with 5%N in *.
  change (3 + 1)%N with 4%N in *. change (2 + 1)%N with 3%N in *.
  change (1 + 1)%N with 2%N in *. change (0 + 1)%N with 1%N in *.
  lia.
Qed.

Lemma to_be_bytes_inj n m :
  (n < U64_MOD)%N → (m < U64_MOD)%N → to_be_bytes n = to_be_bytes m → n = m.
Proof.
  intros Hn Hm E. by rewrite <- (from_to_be_bytes n), <- (from_to_be_bytes m), E.
Qed.
