(* ===== verification/CwStrings.v ===== *)
(** * Decimal strings

    The strings that [Decimal] prints and parses, as the reward contract
    takes them apart: digits, [trim_end_matches('0')] and [split('.')]. *)
From S2P Require Import Prelude CwTypes.
From Stdlib Require Import Ascii String.

Open Scope N_scope.

Definition dot : ascii := "."%char.

Definition digit_char (d : N) : ascii := ascii_of_N (48 + d).
Definition digit_value (c : ascii) : option N :=
  let n := N_of_ascii c in
  if (48 <=? n) && (n <? 58) then Some (n - 48) else None.

(** The number a digit string denotes; [None] when a character is no digit. *)
Fixpoint digits_value_go (acc : N) (s : string) : option N :=
  match s with
  | EmptyString => Some acc
  | String c s => d ← digit_value c; digits_value_go (acc * 10 + d) s
  end.
Definition digits_value (s : string) : option N := digits_value_go 0 s.

(** [format!("{:0>k}", n)] for [n < 10^k]: exactly [k] digits. *)
Fixpoint fixed_digits_go (k : nat) (n : N) (acc : string) : string :=
  match k with
  | O => acc
  | S k => fixed_digits_go k (n / 10) (String (digit_char (n `mod` 10)) acc)
  end.
Definition fixed_digits (k : nat) (n : N) : string := fixed_digits_go k n EmptyString.

(** [s.trim_end_matches('0')]. *)
Fixpoint trim_zeros (s : string) : string :=
  match s with
  | EmptyString => EmptyString
  | String c s =>
      match trim_zeros s with
      | EmptyString => if ascii_dec c "0"%char then EmptyString else String c EmptyString
      | t => String c t
      end
  end.

(** [s.split('.')]: the parts between the dots, at least one. *)
Fixpoint split_dot (s : string) : list string :=
  match s with
  | EmptyString => [EmptyString]
  | String c s =>
      if ascii_dec c dot then EmptyString :: split_dot s
      else match split_dot s with
           | p :: ps => String c p :: ps
           | [] => [String c EmptyString]
           end
  end.

Fixpoint no_dot (s : string) : Prop :=
  match s with
  | EmptyString => True
  | String c s => c ≠ dot ∧ no_dot s
  end.

(** ** Splitting *)

Lemma split_no_dot s : no_dot s → split_dot s = [s].
Proof.
  induction s as [|c s IH]; cbn; [done|]. intros [Hc Hs]. destruct (ascii_dec c dot); [done|].
  by rewrite IH.
Qed.

Lemma split_one_dot s t :
  no_dot s → no_dot t → split_dot (String.append s (String dot t)) = [s; t].
Proof.
  intros Hs Ht. induction s as [|c s IH].
  - change (EmptyString :: split_dot t = [EmptyString; t]). by rewrite split_no_dot.
  - destruct Hs as [Hc Hs].
    change (String.append (String c s) (String dot t))
      with (String c (String.append s (String dot t))).
    cbn [split_dot]. destruct (ascii_dec c dot); [done|]. by rewrite IH.
Qed.

(** ** Digits *)

Lemma digit_value_char d : d < 10 → digit_value (digit_char d) = Some d.
Proof.
  intros Hd. unfold digit_value, digit_char. rewrite N_ascii_embedding by lia.
  destruct (N.leb_spec 48 (48 + d)); [|lia]. destruct (N.ltb_spec (48 + d) 58); [|lia].
  cbn. f_equal. lia.
Qed.

(** Reading back what was printed. *)
Lemma digits_value_fixed_go k n acc a :
  digits_value_go a (fixed_digits_go k n acc) =
  digits_value_go (a * 10 ^ N.of_nat k + n `mod` 10 ^ N.of_nat k) acc.
Proof.
  revert n acc. induction k as [|k IH]; intros n acc; cbn [fixed_digits_go].
  - rewrite N.mod_1_r. cbn. f_equal. lia.
  - rewrite IH. cbn [digits_value_go].
    rewrite digit_value_char by (apply N.mod_lt; lia). cbn. f_equal.
    rewrite Nat2N.inj_succ, N.pow_succ_r'.
    rewrite (N.Div0.mod_mul_r n 10 (10 ^ N.of_nat k)). lia.
Qed.

Lemma digits_value_fixed k n : n < 10 ^ N.of_nat k → digits_value (fixed_digits k n) = Some n.
Proof.
  intros Hn. unfold digits_value, fixed_digits. rewrite digits_value_fixed_go. cbn.
  by rewrite N.mod_small.
Qed.

Lemma length_fixed_digits_go k n acc :
  String.length (fixed_digits_go k n acc) = (k + String.length acc)%nat.
Proof. revert n acc. induction k as [|k IH]; intros; cbn; [done|]. rewrite IH. cbn. lia. Qed.

Lemma length_fixed_digits k n : String.length (fixed_digits k n) = k.
Proof. unfold fixed_digits. rewrite length_fixed_digits_go. cbn. lia. Qed.

(** Trimming removes zeros: the value is scaled back by the length removed. *)
Lemma trim_zeros_value s acc v :
  digits_value_go acc s = Some v →
  ∃ w, digits_value_go acc (trim_zeros s) = Some w ∧
    (String.length (trim_zeros s) ≤ String.length s)%nat ∧
    w * 10 ^ N.of_nat (String.length s - String.length (trim_zeros s)) = v.
Proof.
  revert acc v. induction s as [|c s IH]; intros acc v; cbn [digits_value_go trim_zeros].
  - intros [= ->]. exists v. cbn. split_and!; [done|lia|lia].
  - destruct (digit_value c) as [d|] eqn:Hd; [|done]. cbn. intros Hv.
    destruct (IH _ _ Hv) as (w & Hw & Hlen & Heq). destruct (trim_zeros s) as [|c' t] eqn:Ht.
    + cbn in Hw, Hlen, Heq. injection Hw as <-. destruct (ascii_dec c "0") as [->|].
      * injection Hd as <-. exists acc. cbn. split_and!; [done|lia|].
        rewrite Nat.sub_0_r in Heq. rewrite <- Heq, Nat2N.inj_succ, N.pow_succ_r'. lia.
      * exists (acc * 10 + d). cbn. rewrite Hd. split_and!; [done|lia|done].
    + exists w. cbn [digits_value_go]. rewrite Hd. cbn [mbind option_bind].
      split_and!; [done|cbn in *; lia|]. cbn in *. done.
Qed.

(** Only a number other than zero leaves digits after trimming. *)
Lemma trim_zeros_nonempty s v : digits_value s = Some v → v ≠ 0 → trim_zeros s ≠ EmptyString.
Proof.
  unfold digits_value. intros Hv Hnz Ht.
  destruct (trim_zeros_value s 0 v Hv) as (w & Hw & _ & Heq). rewrite Ht in Hw. cbn in Hw.
  injection Hw as <-. lia.
Qed.

Lemma digit_value_dot : digit_value dot = None.
Proof. done. Qed.

Lemma digits_no_dot s acc v : digits_value_go acc s = Some v → no_dot s.
Proof.
  revert acc. induction s as [|c s IH]; intros acc; cbn; [done|].
  destruct (digit_value c) as [d|] eqn:Hd; [|done]. cbn. intros Hv.
  split; [|by eapply IH]. intros ->. by rewrite digit_value_dot in Hd.
Qed.
