(* ===== verification/CwMath.v ===== *)
(** * Arithmetic of [cosmwasm_std] and [cosmwasm_bignumber]

    [Uint128], [Decimal] and [Decimal256] belong to packages outside the
    repository: their operations are the parameters of the class [CwMath],
    and [CwMathLaws] states what their documentation promises and the
    contracts rely on.  The contracts' theorems are proved for every
    implementation that satisfies the laws; Reference.v gives one. *)
From S2P Require Import Prelude CwTypes CwStrings.

Open Scope N_scope.

Class CwMath := {
  (** [impl Add for Uint128] *)
  Uint128_add : Uint128 → Uint128 → StdResult Uint128;
  (** [Uint128::checked_sub] *)
  Uint128_checked_sub : Uint128 → Uint128 → StdResult Uint128;
  (** [Uint128::multiply_ratio]: self, numerator, denominator *)
  Uint128_multiply_ratio : Uint128 → Uint128 → Uint128 → StdResult Uint128;
  (** [impl Mul<Decimal> for Uint128] and [impl Mul<Uint128> for Decimal] *)
  Uint128_mul_Decimal : Uint128 → Decimal → StdResult Uint128;
  (** [Decimal::from_ratio] *)
  Decimal_from_ratio : Uint128 → Uint128 → StdResult Decimal;
  (** [impl Display for Decimal], [impl FromStr for Decimal] *)
  Decimal_to_string : Decimal → string;
  Decimal_from_str : string → StdResult Decimal;
  (** [Decimal256] of [cosmwasm_bignumber], as its number of 10^-18 units *)
  Decimal256_from : Decimal → N;
  Decimal256_into : N → StdResult Decimal;
  Decimal256_add : N → N → StdResult N;
  Decimal256_sub : N → N → StdResult N;
  Decimal256_mul : N → N → StdResult N
}.

(** The result of an operation whose exact value is [v] and which panics
    when [v] does not fit below [bound]. *)
Definition exact_or_panic (bound v : N) (r : StdResult N) : Prop :=
  (v < bound → r = Ok v) ∧ (bound ≤ v → is_Panic r).

Class CwMathLaws `{CwMath} : Prop := {
  Uint128_add_spec a b : exact_or_panic U128_MOD (a + b) (Uint128_add a b);
  Uint128_checked_sub_spec a b :
    (b ≤ a → Uint128_checked_sub a b = Ok (a - b)) ∧
    (a < b → Uint128_checked_sub a b = Err (Overflow a b));
  Uint128_multiply_ratio_spec a n d :
    (d ≠ 0 → exact_or_panic U128_MOD (a * n / d) (Uint128_multiply_ratio a n d)) ∧
    (d = 0 → is_Panic (Uint128_multiply_ratio a n d));
  Uint128_mul_Decimal_spec a d :
    exact_or_panic U128_MOD (a * d / DECIMAL_ONE) (Uint128_mul_Decimal a d);
  Decimal_from_ratio_spec n d :
    (d ≠ 0 → exact_or_panic U128_MOD (n * DECIMAL_ONE / d) (Decimal_from_ratio n d)) ∧
    (d = 0 → is_Panic (Decimal_from_ratio n d));
  (** the whole part, and after a dot the fraction without trailing zeros *)
  Decimal_to_string_spec d :
    ∃ whole, no_dot whole ∧ Decimal_to_string d =
      if d `mod` DECIMAL_ONE =? 0 then whole
      else String.append whole
             (String dot (trim_zeros (fixed_digits 18 (d `mod` DECIMAL_ONE))));
  (** a fraction of at most 18 digits *)
  Decimal_from_str_spec frac v :
    frac ≠ EmptyString → (String.length frac ≤ 18)%nat → digits_value frac = Some v →
    Decimal_from_str (String.append "0." frac) =
      Ok (v * 10 ^ N.of_nat (18 - String.length frac));
  Decimal256_from_spec d : Decimal256_from d = d;
  Decimal256_into_spec d : exact_or_panic U128_MOD d (Decimal256_into d);
  Decimal256_add_spec a b : exact_or_panic U256_MOD (a + b) (Decimal256_add a b);
  Decimal256_sub_spec a b :
    (b ≤ a → Decimal256_sub a b = Ok (a - b)) ∧ (a < b → is_Panic (Decimal256_sub a b));
  Decimal256_mul_spec a b :
    (a * b < U256_MOD → Decimal256_mul a b = Ok (a * b / DECIMAL_ONE)) ∧
    (U256_MOD ≤ a * b → is_Panic (Decimal256_mul a b))
}.

(** [a -? b] is the checked subtraction of two [Uint128] ([?] at the call);
    [a +! b], [a *! d] and [a /! b] are the operators that panic. *)
Declare Scope cw_scope.
Delimit Scope cw_scope with cw.
Notation "a +! b" := (Uint128_add a b) (at level 50, left associativity) : cw_scope.
Notation "a -? b" := (Uint128_checked_sub a b) (at level 50, left associativity) : cw_scope.
Notation "a *! d" := (Uint128_mul_Decimal a d) (at level 40, left associativity) : cw_scope.
Notation "a /! b" := (Decimal_from_ratio a b) (at level 40, left associativity) : cw_scope.
Open Scope cw_scope.

(** ** Inversion of successful operations *)

Lemma exact_or_panic_Ok bound v r x :
  exact_or_panic bound v r → r = Ok x ↔ x = v ∧ v < bound.
Proof.
  intros [Hlt Hge]. destruct (N.lt_ge_cases v bound) as [Hv|Hv].
  - rewrite (Hlt Hv). naive_solver.
  - destruct (Hge Hv) as [msg ->]. split; [done | intros [_ ?]; lia].
Qed.

Section facts.
  Context `{CwMathLaws}.

Lemma Uint128_add_Ok a b c : a +! b = Ok c ↔ c = a + b ∧ a + b < U128_MOD.
Proof. apply exact_or_panic_Ok, Uint128_add_spec. Qed.

Lemma Uint128_checked_sub_Ok a b c : a -? b = Ok c ↔ c = a - b ∧ b ≤ a.
Proof.
  destruct (Uint128_checked_sub_spec a b) as [Hle Hgt].
  destruct (N.le_gt_cases b a) as [Hab|Hab].
  - rewrite (Hle Hab). naive_solver.
  - rewrite (Hgt Hab). split; [done | intros [_ ?]; lia].
Qed.

Lemma Uint128_mul_Decimal_Ok a d c :
  a *! d = Ok c ↔ c = a * d / DECIMAL_ONE ∧ a * d / DECIMAL_ONE < U128_MOD.
Proof. apply exact_or_panic_Ok, Uint128_mul_Decimal_spec. Qed.

Lemma Decimal_from_ratio_Ok n d c :
  n /! d = Ok c ↔
  d ≠ 0 ∧ c = n * DECIMAL_ONE / d ∧ n * DECIMAL_ONE / d < U128_MOD.
Proof.
  destruct (Decimal_from_ratio_spec n d) as [Hnz Hz].
  destruct (decide (d = 0)) as [->|Hd].
  - destruct (Hz eq_refl) as [msg ->]. naive_solver.
  - rewrite (exact_or_panic_Ok _ _ _ c (Hnz Hd)). naive_solver.
Qed.

Lemma Uint128_multiply_ratio_Ok a n d c :
  Uint128_multiply_ratio a n d = Ok c ↔
  d ≠ 0 ∧ c = a * n / d ∧ a * n / d < U128_MOD.
Proof.
  destruct (Uint128_multiply_ratio_spec a n d) as [Hnz Hz].
  destruct (decide (d = 0)) as [->|Hd].
  - destruct (Hz eq_refl) as [msg ->]. naive_solver.
  - rewrite (exact_or_panic_Ok _ _ _ c (Hnz Hd)). naive_solver.
Qed.

Lemma Decimal256_into_Ok d c : Decimal256_into d = Ok c ↔ c = d ∧ d < U128_MOD.
Proof. apply exact_or_panic_Ok, Decimal256_into_spec. Qed.

Lemma Decimal256_add_Ok a b c : Decimal256_add a b = Ok c ↔ c = a + b ∧ a + b < U256_MOD.
Proof. apply exact_or_panic_Ok, Decimal256_add_spec. Qed.

Lemma Decimal256_sub_Ok a b c : Decimal256_sub a b = Ok c ↔ c = a - b ∧ b ≤ a.
Proof.
  destruct (Decimal256_sub_spec a b) as [Hle Hgt].
  destruct (N.le_gt_cases b a) as [Hab|Hab].
  - rewrite (Hle Hab). naive_solver.
  - destruct (Hgt Hab) as [msg ->]. split; [done | intros [_ ?]; lia].
Qed.

Lemma Decimal256_mul_Ok a b c :
  Decimal256_mul a b = Ok c ↔ c = a * b / DECIMAL_ONE ∧ a * b < U256_MOD.
Proof.
  destruct (Decimal256_mul_spec a b) as [Hlt Hge].
  destruct (N.lt_ge_cases (a * b) U256_MOD) as [Hab|Hab].
  - rewrite (Hlt Hab). naive_solver.
  - destruct (Hge Hab) as [msg ->]. split; [done | intros [_ ?]; lia].
Qed.
End facts.

Ltac inv_cw_math :=
  match goal with
  | H : Uint128_add _ _ = Ok _ |- _ =>
      apply Uint128_add_Ok in H; destruct H as [? ?]; subst
  | H : Uint128_checked_sub _ _ = Ok _ |- _ =>
      apply Uint128_checked_sub_Ok in H; destruct H as [? ?]; subst
  | H : Uint128_mul_Decimal _ _ = Ok _ |- _ =>
      apply Uint128_mul_Decimal_Ok in H; destruct H as [? ?]; subst
  | H : Decimal_from_ratio _ _ = Ok _ |- _ =>
      apply Decimal_from_ratio_Ok in H; destruct H as (? & ? & ?); subst
  | H : Uint128_multiply_ratio _ _ _ = Ok _ |- _ =>
      apply Uint128_multiply_ratio_Ok in H; destruct H as (? & ? & ?); subst
  end.
Ltac inv_ok_hook ::= first [inv_cw_types | inv_cw_math].
