(* ===== verification/BassetHub.v ===== *)
(** * The hub's types (packages/basset/src/hub.rs)

    Messages, stored records and responses of the hub contract, and
    [State::update_exchange_rate], the one computation of that package. *)
From S2P Require Import Prelude CwTypes CwMath.

Open Scope N_scope.

Record InstantiateMsg := mkInstantiateMsg {
  im_epoch_period : u64;
  im_underlying_coin_denom : string;
  im_unbonding_period : u64;
  im_peg_recovery_fee : Decimal;
  im_er_threshold : Decimal;
  im_reward_denom : string;
  im_validator : string
}.

Record State := mkState {
  exchange_rate : Decimal;
  total_bond_amount : Uint128;
  last_index_modification : u64;
  prev_hub_balance : Uint128;
  actual_unbonded_amount : Uint128;
  last_unbonded_time : u64;
  last_processed_batch : u64
}.

Record Config := mkConfig {
  creator : CanonicalAddr;
  reward_contract : option CanonicalAddr;
  token_contract : option CanonicalAddr;
  airdrop_registry_contract : option CanonicalAddr
}.

Inductive ExecuteMsg :=
  | UpdateConfig (owner reward_contract token_contract airdrop_registry_contract : option string)
  | RegisterValidator (validator : string)
  | DeregisterValidator (validator : string)
  | UpdateParams (epoch_period unbonding_period : option u64)
      (peg_recovery_fee er_threshold : option Decimal)
  | Bond (validator : string)
  | UpdateGlobalIndex (airdrop_hooks : option (list Binary))
  | WithdrawUnbonded
  | CheckSlashing
  | Receive (msg : Cw20ReceiveMsg)
  | ClaimAirdrop (airdrop_token_contract airdrop_contract airdrop_swap_contract : string)
      (claim_msg swap_msg : Binary)
  | SwapHook (airdrop_token_contract airdrop_swap_contract : string) (swap_msg : Binary).

Inductive QueryMsg :=
  | QueryMsg_Config
  | QueryMsg_State
  | QueryMsg_WhitelistedValidators
  | QueryMsg_CurrentBatch
  | QueryMsg_WithdrawableUnbonded (address : string)
  | QueryMsg_Parameters
  | QueryMsg_UnbondRequests (address : string)
  | QueryMsg_AllHistory (start_from : option u64) (limit : option u32).

Inductive Cw20HookMsg :=
  | Unbond.

(** [pub type UnbondRequest = Vec<(u64, Uint128)>] *)
Abbreviation UnbondRequest := (list (N * N)) (only parsing).

Record UnbondHistory := mkUnbondHistory {
  batch_id : u64;
  time : u64;
  amount : Uint128;
  applied_exchange_rate : Decimal;
  withdraw_rate : Decimal;
  released : bool
}.

Record StateResponse := mkStateResponse {
  sr_exchange_rate : Decimal;
  sr_total_bond_amount : Uint128;
  sr_last_index_modification : u64;
  sr_prev_hub_balance : Uint128;
  sr_actual_unbonded_amount : Uint128;
  sr_last_unbonded_time : u64;
  sr_last_processed_batch : u64
}.

Record ConfigResponse := mkConfigResponse {
  cr_owner : string;
  cr_reward_contract : option string;
  cr_token_contract : option string;
  cr_airdrop_registry_contract : option string
}.

Record WhitelistedValidatorsResponse := mkWhitelistedValidatorsResponse {
  wvr_validators : list string
}.

Record CurrentBatchResponse := mkCurrentBatchResponse {
  cbr_id : u64;
  cbr_requested_with_fee : Uint128
}.

Record WithdrawableUnbondedResponse := mkWithdrawableUnbondedResponse {
  withdrawable : Uint128
}.

Record UnbondRequestsResponse := mkUnbondRequestsResponse {
  urr_address : string;
  urr_requests : UnbondRequest
}.

Record AllHistoryResponse := mkAllHistoryResponse { history : list UnbondHistory }.

#[export] Instance State_eq_dec : EqDecision State.
Proof. solve_decision. Defined.
#[export] Instance Config_eq_dec : EqDecision Config.
Proof. solve_decision. Defined.
#[export] Instance ExecuteMsg_eq_dec : EqDecision ExecuteMsg.
Proof. solve_decision. Defined.
#[export] Instance Cw20HookMsg_eq_dec : EqDecision Cw20HookMsg.
Proof. solve_decision. Defined.
#[export] Instance UnbondHistory_eq_dec : EqDecision UnbondHistory.
Proof. solve_decision. Defined.

(** ** Field updates of [State] *)

Definition with_exchange_rate (r : Decimal) (st : State) : State :=
  mkState r (total_bond_amount st) (last_index_modification st) (prev_hub_balance st)
    (actual_unbonded_amount st) (last_unbonded_time st) (last_processed_batch st).
Definition with_total_bond_amount (b : Uint128) (st : State) : State :=
  mkState (exchange_rate st) b (last_index_modification st) (prev_hub_balance st)
    (actual_unbonded_amount st) (last_unbonded_time st) (last_processed_batch st).
Definition with_last_index_modification (t : u64) (st : State) : State :=
  mkState (exchange_rate st) (total_bond_amount st) t (prev_hub_balance st)
    (actual_unbonded_amount st) (last_unbonded_time st) (last_processed_batch st).
Definition with_prev_hub_balance (b : Uint128) (st : State) : State :=
  mkState (exchange_rate st) (total_bond_amount st) (last_index_modification st) b
    (actual_unbonded_amount st) (last_unbonded_time st) (last_processed_batch st).
Definition with_actual_unbonded_amount (a : Uint128) (st : State) : State :=
  mkState (exchange_rate st) (total_bond_amount st) (last_index_modification st)
    (prev_hub_balance st) a (last_unbonded_time st) (last_processed_batch st).
Definition with_last_unbonded_time (t : u64) (st : State) : State :=
  mkState (exchange_rate st) (total_bond_amount st) (last_index_modification st)
    (prev_hub_balance st) (actual_unbonded_amount st) t (last_processed_batch st).
Definition with_last_processed_batch (i : u64) (st : State) : State :=
  mkState (exchange_rate st) (total_bond_amount st) (last_index_modification st)
    (prev_hub_balance st) (actual_unbonded_amount st) (last_unbonded_time st) i.

(** ** [State::update_exchange_rate] *)

Definition update_exchange_rate `{CwMath} (total_issued requested_with_fee : Uint128)
    (self : State) : StdResult State :=
  actual_supply ← total_issued +! requested_with_fee;
  if (total_bond_amount self =? 0) || (actual_supply =? 0) then
    mret (with_exchange_rate DECIMAL_ONE self)
  else
    rate ← total_bond_amount self /! actual_supply;
    mret (with_exchange_rate rate self).

(** The rate the hub means to keep: underlying coins per token, rounded
    down at 18 digits, and one when nothing is bonded or issued. *)
Definition fair_rate (bond supply : Uint128) : Decimal :=
  if (bond =? 0) || (supply =? 0) then DECIMAL_ONE else bond * DECIMAL_ONE / supply.

Lemma fair_rate_backed bond supply :
  bond ≠ 0 → supply * fair_rate bond supply ≤ bond * DECIMAL_ONE.
Proof.
  intros Hb. unfold fair_rate. destruct (N.eqb_spec bond 0); [done|]. cbn.
  destruct (N.eqb_spec supply 0) as [->|Hs]; [lia|].
  apply N.Div0.mul_div_le.
Qed.

Section rate.
  Context `{CwMathLaws}.

Lemma update_exchange_rate_Ok total_issued requested_with_fee st st' :
  update_exchange_rate total_issued requested_with_fee st = Ok st' ↔
  total_issued + requested_with_fee < U128_MOD ∧
  fair_rate (total_bond_amount st) (total_issued + requested_with_fee) < U128_MOD ∧
  st' = with_exchange_rate
          (fair_rate (total_bond_amount st) (total_issued + requested_with_fee)) st.
Proof.
  unfold update_exchange_rate, fair_rate. rewrite result_bind_Ok. split.
  - intros (s & Hs & E). apply Uint128_add_Ok in Hs as [-> Hlt].
    destruct ((total_bond_amount st =? 0) || _) eqn:Hz; inv_ok.
    + split_and!; done.
    + split_and!; done.
  - intros (Hlt & Hrate & ->). eexists. rewrite Uint128_add_Ok. split; [eauto|].
    destruct ((total_bond_amount st =? 0) || _) eqn:Hz; [done|].
    apply orb_false_iff in Hz as [_ Hz]. apply N.eqb_neq in Hz.
    rewrite result_bind_Ok. eexists. rewrite Decimal_from_ratio_Ok. eauto.
Qed.
End rate.

Ltac inv_basset_hub :=
  match goal with
  | H : update_exchange_rate _ _ _ = Ok _ |- _ =>
      apply update_exchange_rate_Ok in H; destruct H as (? & ? & ?); subst
  end.
Ltac inv_ok_hook ::= first [inv_cw_types | inv_cw_math | inv_basset_hub].
