(* ===== verification/BassetReward.v ===== *)
(** * The reward contract's messages (packages/basset/src/reward.rs) *)
From S2P Require Import Prelude CwTypes.

Record InstantiateMsg := mkInstantiateMsg {
  im_hub_contract : string;
  im_reward_denom : string
}.

Inductive ExecuteMsg :=
  | SwapToRewardDenom
  | UpdateGlobalIndex
  | IncreaseBalance (address : string) (amount : Uint128)
  | DecreaseBalance (address : string) (amount : Uint128)
  | ClaimRewards (recipient : option string).

Inductive QueryMsg :=
  | QueryMsg_Config
  | QueryMsg_State
  | QueryMsg_AccruedRewards (address : string)
  | QueryMsg_Holder (address : string)
  | QueryMsg_Holders (start_after : option string) (limit : option u32).

Record ConfigResponse := mkConfigResponse {
  cr_hub_contract : string;
  cr_reward_denom : string
}.

Record StateResponse := mkStateResponse {
  sr_global_index : Decimal;
  sr_total_balance : Uint128;
  sr_prev_reward_balance : Uint128
}.

Record AccruedRewardsResponse := mkAccruedRewardsResponse { rewards : Uint128 }.

Record HolderResponse := mkHolderResponse {
  hr_address : string;
  hr_balance : Uint128;
  hr_index : Decimal;
  hr_pending_rewards : Decimal
}.

Record HoldersResponse := mkHoldersResponse { holders : list HolderResponse }.

#[export] Instance ExecuteMsg_eq_dec : EqDecision ExecuteMsg.
Proof. solve_decision. Defined.
