(* ===== verification/BassetAirdrop.v ===== *)
(** * The airdrop registry's messages (packages/basset/src/airdrop.rs) *)
From S2P Require Import Prelude CwTypes.

Record InstantiateMsg := mkInstantiateMsg {
  im_hub_contract : string;
  im_reward_contract : string
}.

Record AirdropInfo := mkAirdropInfo {
  airdrop_token_contract : string;
  airdrop_contract : string;
  airdrop_swap_contract : string;
  swap_belief_price : option Decimal;
  swap_max_spread : option Decimal
}.

Inductive ExecuteMsg :=
  | FabricateMIRClaim (stage : u8) (amount : Uint128) (proof : list string)
  | FabricateANCClaim (stage : u8) (amount : Uint128) (proof : list string)
  | UpdateConfig (owner hub_contract reward_contract : option string)
  | AddAirdropInfo (airdrop_token : string) (airdrop_info : AirdropInfo)
  | RemoveAirdropInfo (airdrop_token : string)
  | UpdateAirdropInfo (airdrop_token : string) (airdrop_info : AirdropInfo).

Inductive MIRAirdropHandleMsg :=
  | MIR_Claim (stage : u8) (amount : Uint128) (proof : list string).

Inductive ANCAirdropHandleMsg :=
  | ANC_Claim (stage : u8) (amount : Uint128) (proof : list string).

Inductive PairHandleMsg :=
  | Swap (belief_price max_spread : option Decimal) (to : option string).

Inductive QueryMsg :=
  | QueryMsg_Config
  | QueryMsg_AirdropInfo (airdrop_token start_after : option string) (limit : option u32).

Record ConfigResponse := mkConfigResponse {
  cr_owner : string;
  cr_hub_contract : string;
  cr_reward_contract : string;
  cr_airdrop_tokens : list string
}.

Record AirdropInfoElem := mkAirdropInfoElem {
  aie_airdrop_token : string;
  aie_info : AirdropInfo
}.

Record AirdropInfoResponse := mkAirdropInfoResponse {
  airdrop_info : list AirdropInfoElem
}.

#[export] Instance AirdropInfo_eq_dec : EqDecision AirdropInfo.
Proof. solve_decision. Defined.
