(* ===== verification/CwApi.v ===== *)
(** * Host and library services the contracts call

    Serialisation ([to_vec], [to_binary], [from_slice], [from_binary]),
    address conversion, ordered iteration over storage and the random
    number generator are code outside the repository: parameters of the
    class [CwApi], with the documented behaviour the contracts rely on in
    [CwApiLaws].  A [Querier] answers the queries of one call: it is an
    argument of every handler that queries the chain. *)
From S2P Require Import Prelude CwTypes CwMath.
From S2P Require Import BassetAirdrop BassetReward BassetHub.

Open Scope N_scope.

(** ** Serialisation *)

Class Serde (A : Type) := {
  to_vec : A → StdResult Bytes;
  from_slice : Bytes → StdResult A
}.

Class SerdeLaws (A : Type) `{Serde A} : Prop :=
  to_vec_roundtrip a : ∃ b, to_vec a = Ok b ∧ from_slice b = Ok a.

(** [to_binary] and [from_binary] are the same functions on [Binary]. *)
Definition to_binary `{Serde A} (a : A) : StdResult Binary := to_vec a.
Definition from_binary `{Serde A} (b : Binary) : StdResult A := from_slice b.

(** The bytes [to_vec] produces. *)
Definition ser `{Serde A} (a : A) : Bytes :=
  match to_vec a with Ok b => b | _ => [] end.

Section serde.
  Context `{SerdeLaws A}.

Lemma to_vec_ser a : to_vec a = Ok (ser a).
Proof. destruct (to_vec_roundtrip a) as (b & E & _). unfold ser. by rewrite E. Qed.

Lemma to_vec_Ok a b : to_vec a = Ok b ↔ b = ser a.
Proof. rewrite to_vec_ser. naive_solver. Qed.

Lemma from_slice_ser a : from_slice (ser a) = Ok a.
Proof. destruct (to_vec_roundtrip a) as (b & E & D). unfold ser. by rewrite E. Qed.

#[export] Instance ser_inj : Inj (=) (=) (ser (A:=A)).
Proof.
  intros a b E. pose proof (from_slice_ser a) as Ha.
  rewrite E, from_slice_ser in Ha. by injection Ha as ->.
Qed.
End serde.

(** ** Keys are ordered by their bytes *)

Fixpoint bytes_le (a b : Bytes) : bool :=
  match a, b with
  | [], _ => true
  | _ :: _, [] => false
  | x :: a', y :: b' => if x =? y then bytes_le a' b' else x <? y
  end.

(** ** The services *)

Class CwApi := {
  serde_u64 :: Serde u64;
  serde_string :: Serde string;
  serde_bool :: Serde bool;
  serde_unbond_history :: Serde BassetHub.UnbondHistory;
  serde_hub_msg :: Serde BassetHub.ExecuteMsg;
  serde_hook_msg :: Serde BassetHub.Cw20HookMsg;
  serde_reward_msg :: Serde BassetReward.ExecuteMsg;
  serde_cw20_msg :: Serde Cw20ExecuteMsg;
  serde_mir_msg :: Serde BassetAirdrop.MIRAirdropHandleMsg;
  serde_anc_msg :: Serde BassetAirdrop.ANCAirdropHandleMsg;
  serde_pair_msg :: Serde BassetAirdrop.PairHandleMsg;
  (** [Api::addr_canonicalize], [Api::addr_humanize], [Api::addr_validate] *)
  addr_canonicalize : string → StdResult CanonicalAddr;
  addr_humanize : CanonicalAddr → StdResult Addr;
  addr_validate : string → StdResult Addr;
  (** [range(start, None, Order::Ascending)] over one namespace *)
  range : ∀ {V : Type}, gmap (list N) V → option Bytes → list (Bytes * V);
  (** [XorShiftRng::seed_from_u64(seed).gen_range(0, high)] *)
  gen_range : u64 → nat → StdResult nat
}.

(** [range(Some(Bound::exclusive(start)), None, Ascending)], and without a
    start the whole range. *)
Definition range_after `{CwApi} {V} (m : gmap (list N) V) (start : option Bytes) :
    list (Bytes * V) :=
  filter (λ kv, Some kv.1 ≠ start) (range m start).

(** The key is not below the start of the range. *)
Definition in_range (start : option Bytes) (k : Bytes) : Prop :=
  match start with Some b => bytes_le b k | None => True end.

#[export] Instance in_range_dec start k : Decision (in_range start k).
Proof. destruct start; cbn; apply _. Defined.

Class CwApiLaws `{CwApi} : Prop := {
  serde_u64_laws :: SerdeLaws u64;
  serde_string_laws :: SerdeLaws string;
  serde_bool_laws :: SerdeLaws bool;
  serde_unbond_history_laws :: SerdeLaws BassetHub.UnbondHistory;
  serde_hub_msg_laws :: SerdeLaws BassetHub.ExecuteMsg;
  serde_hook_msg_laws :: SerdeLaws BassetHub.Cw20HookMsg;
  serde_reward_msg_laws :: SerdeLaws BassetReward.ExecuteMsg;
  serde_cw20_msg_laws :: SerdeLaws Cw20ExecuteMsg;
  serde_mir_msg_laws :: SerdeLaws BassetAirdrop.MIRAirdropHandleMsg;
  serde_anc_msg_laws :: SerdeLaws BassetAirdrop.ANCAirdropHandleMsg;
  serde_pair_msg_laws :: SerdeLaws BassetAirdrop.PairHandleMsg;
  (** The JSON text of a string ends at its closing quote: it never continues
      to the text of another string. *)
  ser_string_prefix (a b : string) : ser a `prefix_of` ser b → a = b;
  (** An address the api produced from a canonical one maps back to it. *)
  addr_canonicalize_humanize c a : addr_humanize c = Ok a → addr_canonicalize a = Ok c;
  (** A validated address is the address that was validated. *)
  addr_validate_canonical a a' : addr_validate a = Ok a' → addr_canonicalize a' = addr_canonicalize a;
  (** Every entry from the start on, once, by ascending key. *)
  range_perm {V} (m : gmap (list N) V) start :
    range m start ≡ₚ filter (λ kv, in_range start kv.1) (map_to_list m);
  range_sorted {V} (m : gmap (list N) V) start :
    StronglySorted (λ a b, bytes_le a.1 b.1) (range m start);
  (** A number below [high]; panics on an empty interval. *)
  gen_range_lt seed high : high ≠ 0%nat → ∃ r, gen_range seed high = Ok r ∧ (r < high)%nat;
  gen_range_empty seed : is_Panic (gen_range seed 0%nat)
}.

(** What holds on chains, as Terra, whose canonical addresses have one length
    (20 bytes): besides, the canonical form of an address can be shown, and
    what is shown can be entered. *)
Class CwAddrLaws `{CwApi} : Prop := {
  addr_canonicalize_length a b c c' :
    addr_canonicalize a = Ok c → addr_canonicalize b = Ok c' → length c = length c';
  addr_humanize_canonicalize a c :
    addr_canonicalize a = Ok c → ∃ a', addr_humanize c = Ok a' ∧ is_Ok (addr_validate a')
}.

(** ** Queries *)

Record Querier := mkQuerier {
  (** [query_all_delegations(delegator)] *)
  query_all_delegations : Addr → StdResult (list Delegation);
  (** [query_delegation(delegator, validator)]: the delegated coin *)
  query_delegation : Addr → string → StdResult (option Coin);
  (** [query_all_validators()]: their addresses *)
  query_all_validators : StdResult (list string);
  (** [query_balance(address, denom)] and [query_all_balances(address)] *)
  query_balance : Addr → string → StdResult Coin;
  query_all_balances : Addr → StdResult (list Coin);
  (** smart queries [Cw20QueryMsg::TokenInfo] and [Cw20QueryMsg::Balance] *)
  query_token_info : string → StdResult TokenInfoResponse;
  query_cw20_balance : string → string → StdResult Uint128;
  (** the raw query of a hub's [config] cell *)
  query_raw_hub_config : string → StdResult BassetHub.Config;
  (** [TerraQuerier]: tax rate, tax cap and the exchange rates of the oracle *)
  query_tax_rate : StdResult Decimal;
  query_tax_cap : string → StdResult Uint128;
  terra_exchange_rates : string → list string → StdResult ExchangeRatesResponse
}.

(** ** Facts used by the contracts *)

(** [run_ok] shows that a computation returns [Ok]: it runs each step whose
    result is determined (by a hypothesis, a known test or a hint of the
    database [run_ok]) and leaves the bounds and guards it meets. *)
Create HintDb run_ok.
Ltac run_ok_step :=
  lazymatch goal with
  | |- mbind (M:=M _ _) _ _ _ = Ok _ => apply M_bind_Ok; do 2 eexists; split; [|cbn beta]
  | |- mbind (M:=result _) _ _ = Ok _ => apply result_bind_Ok; eexists; split; [|cbn beta]
  | |- lift _ _ = Ok _ => apply lift_Ok; split; [|reflexivity]
  | |- reading _ _ = Ok _ => apply reading_Ok; split; [|reflexivity]
  | |- gets _ _ = Ok _ => apply gets_Ok; split; reflexivity
  | |- modify _ _ = Ok _ => apply (modify_Ok _ _ () _); reflexivity
  | |- mret (M:=M _ _) _ _ = Ok _ => apply M_ret_Ok; reflexivity
  | |- mret (M:=result _) _ = Ok _ => reflexivity
  | |- load _ _ = Ok _ => apply load_Ok; cbn; (eassumption || reflexivity)
  | |- save _ _ _ = Ok _ => apply (save_Ok _ _ _ () _); reflexivity
  | |- update _ _ _ = Ok _ =>
      apply (update_Ok _ _ _ () _); do 2 eexists; split_and!;
        [cbn; (eassumption || reflexivity)| |reflexivity]
  | |- throw_if _ _ = Ok _ => apply (throw_if_Ok _ _ ())
  | |- ok_or _ _ = Ok _ => apply ok_or_Ok
  | |- expect_opt _ _ = Ok _ => apply expect_opt_Ok; try eassumption
  | |- expect_res _ _ = Ok _ => apply expect_res_Ok
  | |- unwrap _ = Ok _ => apply unwrap_Ok
  | |- to_vec _ = Ok _ => apply to_vec_Ok; reflexivity
  | |- to_binary _ = Ok _ => apply to_vec_Ok; reflexivity
  | |- Uint128_add _ _ = Ok _ => apply Uint128_add_Ok; split; [reflexivity|]
  | |- Uint128_checked_sub _ _ = Ok _ => apply Uint128_checked_sub_Ok; split; [reflexivity|]
  | |- Uint128_mul_Decimal _ _ = Ok _ => apply Uint128_mul_Decimal_Ok; split; [reflexivity|]
  | |- Decimal_from_ratio _ _ = Ok _ =>
      apply Decimal_from_ratio_Ok; split_and!; [|reflexivity|]
  | |- u64_add _ _ = Ok _ => apply u64_add_Ok; split; [reflexivity|]
  | |- u64_sub _ _ = Ok _ => apply u64_sub_Ok; split; [reflexivity|]
  | |- update_exchange_rate _ _ _ = Ok _ =>
      apply update_exchange_rate_Ok; split_and!; [| |reflexivity]
  | |- (let '(_, _) := (_, _) in _) _ = Ok _ => cbn beta iota
  | |- (if ?b then _ else _) _ = Ok _ =>
      first [ eassumption
            | match goal with
              | H : ?c = true |- _ => change b with c; rewrite H
              | H : ?c = false |- _ => change b with c; rewrite H
              end ]
  | |- _ = Ok _ => first [eassumption | solve [eauto with run_ok nocore]]
  | |- _ = Some _ => eassumption
  end.
Ltac run_ok := repeat run_ok_step.

Ltac inv_cw_api :=
  match goal with
  | H : to_vec _ = Ok _ |- _ => apply to_vec_Ok in H; subst
  | H : to_binary _ = Ok _ |- _ => apply to_vec_Ok in H; subst
  end.

Section facts.
  Context `{CwApiLaws}.

Lemma range_all {V} (m : gmap (list N) V) : range m None ≡ₚ map_to_list m.
Proof.
  rewrite range_perm. cbn. induction (map_to_list m) as [|x l IH]; [done|].
  rewrite filter_cons_True by done. by rewrite IH.
Qed.

Lemma elem_of_range {V} (m : gmap (list N) V) start k v :
  (k, v) ∈ range m start ↔ m !! k = Some v ∧ in_range start k.
Proof.
  rewrite range_perm, list_elem_of_filter, elem_of_map_to_list. naive_solver.
Qed.

Lemma gen_range_Ok seed high r : gen_range seed high = Ok r → (r < high)%nat.
Proof.
  intros E. destruct (decide (high = 0%nat)) as [->|Hh].
  - destruct (gen_range_empty seed) as [msg Hp]. congruence.
  - destruct (gen_range_lt seed high Hh) as (r' & E' & ?). congruence.
Qed.
End facts.
