(* ===== verification/Paging.v ===== *)
(** * Ordered ranges and pages

    The contracts list their stored entries in pages: a page is the first
    entries of a key range, and the last entry of a page is the cursor of
    the next query.  The byte order of the keys, what a range of keys is,
    and the client that follows the cursors until a page is empty: when
    each page continues where the last one stopped, the client reads every
    entry once and in order. *)
From stdpp Require Import sorting.
From S2P Require Import Prelude CwTypes CwMath BassetHub CwApi.

Open Scope N_scope.

(** ** The order of the keys *)

Lemma bytes_le_refl a : bytes_le a a.
Proof. induction a as [|x a IH]; [done|]. cbn. by rewrite N.eqb_refl. Qed.

Lemma bytes_le_total a b : bytes_le a b ∨ bytes_le b a.
Proof.
  revert b. induction a as [|x a IH]; intros [|y b]; cbn; auto.
  rewrite (N.eqb_sym y x). destruct (N.eqb_spec x y); [auto|].
  destruct (N.ltb_spec x y), (N.ltb_spec y x); cbn; auto; lia.
Qed.

Lemma bytes_le_trans a b c : bytes_le a b → bytes_le b c → bytes_le a c.
Proof.
  revert b c. induction a as [|x a IH]; intros [|y b] [|z c]; cbn; auto; try done.
  destruct (N.eqb_spec x y) as [->|Hxy], (N.eqb_spec y z) as [->|Hyz].
  - apply IH.
  - done.
  - destruct (N.eqb_spec x z); [done|]. auto.
  - destruct (N.ltb_spec x y), (N.ltb_spec y z); try done.
    destruct (N.eqb_spec x z); [lia|]. destruct (N.ltb_spec x z); [done|lia].
Qed.

Lemma bytes_le_antisym a b : bytes_le a b → bytes_le b a → a = b.
Proof.
  revert b. induction a as [|x a IH]; intros [|y b]; cbn; try done.
  rewrite (N.eqb_sym y x). destruct (N.eqb_spec x y) as [->|Hxy].
  - intros Hab Hba. f_equal. by apply IH.
  - destruct (N.ltb_spec x y), (N.ltb_spec y x); try done. lia.
Qed.

(** A byte at the end only matters against the keys that extend it. *)
Lemma bytes_le_snoc a x b : ¬ a `prefix_of` b → bytes_le (a ++ [x]) b = bytes_le a b.
Proof.
  revert b. induction a as [|y a IH]; intros b Hp; [by destruct Hp; apply prefix_nil|].
  destruct b as [|z b]; [done|]. cbn. destruct (N.eqb_spec y z) as [->|]; [|done].
  apply IH. intros Hab. by apply Hp, prefix_cons.
Qed.

Lemma bytes_le_snoc_self a x : bytes_le (a ++ [x]) a = false.
Proof. induction a as [|y a IH]; [done|]. cbn. by rewrite N.eqb_refl. Qed.

(** Big-endian keys of one length are ordered as the numbers they encode. *)
Lemma from_be_bytes_cons b bs :
  from_be_bytes (b :: bs) = b * 256 ^ N.of_nat (length bs) + from_be_bytes bs.
Proof.
  unfold from_be_bytes. cbn [foldl]. rewrite N.mul_0_l, N.add_0_l.
  enough (∀ acc, foldl (λ acc b, acc * 256 + b) acc bs =
    acc * 256 ^ N.of_nat (length bs) + foldl (λ acc b, acc * 256 + b) 0 bs) as -> by done.
  induction bs as [|c bs IH]; intros acc; cbn [foldl length]; [cbn; lia|].
  rewrite IH, (IH (0 * 256 + c)), Nat2N.inj_succ, N.pow_succ_r'. lia.
Qed.

Lemma from_be_bytes_lt bs :
  Forall (λ b, b < 256) bs → from_be_bytes bs < 256 ^ N.of_nat (length bs).
Proof.
  induction 1 as [|b bs Hb _ IH]; [done|].
  rewrite from_be_bytes_cons. cbn [length]. rewrite Nat2N.inj_succ, N.pow_succ_r'. nia.
Qed.

Lemma bytes_le_be a b :
  length a = length b → Forall (λ b, b < 256) a → Forall (λ b, b < 256) b →
  bytes_le a b ↔ from_be_bytes a ≤ from_be_bytes b.
Proof.
  intros Hlen Ha. revert b Hlen.
  induction Ha as [|x a Hx Ha IH]; intros [|y b] Hlen Hb; try done.
  inversion_clear Hb as [|? ? Hy Hb']. injection Hlen as Hlen. cbn [bytes_le].
  rewrite !from_be_bytes_cons, Hlen.
  pose proof (from_be_bytes_lt a Ha) as Hla. pose proof (from_be_bytes_lt b Hb') as Hlb.
  rewrite Hlen in Hla. set (p := 256 ^ N.of_nat (length b)) in *.
  destruct (N.eqb_spec x y) as [->|Hne]; [rewrite IH by done; lia|].
  rewrite Is_true_true, N.ltb_lt. split; intros; nia.
Qed.

Lemma to_be_bytes_length n : length (to_be_bytes n) = 8%nat.
Proof. done. Qed.

Lemma to_be_bytes_bytes n : Forall (λ b, b < 256) (to_be_bytes n).
Proof.
  unfold to_be_bytes. apply Forall_fmap, Forall_forall. intros i _. apply N.mod_lt. done.
Qed.

Lemma to_be_bytes_le i j :
  i < U64_MOD → j < U64_MOD → bytes_le (to_be_bytes i) (to_be_bytes j) ↔ i ≤ j.
Proof.
  intros Hi Hj. rewrite bytes_le_be by (done || apply to_be_bytes_bytes).
  by rewrite !from_to_be_bytes.
Qed.

(** ** Lists by index *)

(** A condition that holds from one index on keeps the rest of the list. *)
Lemma filter_drop {A} (P : A → Prop) `{∀ x, Decision (P x)} l n :
  (∀ i x, l !! i = Some x → P x ↔ (n ≤ i)%nat) → filter P l = drop n l.
Proof.
  revert n. induction l as [|x l IH]; intros n HP; [by destruct n|].
  rewrite filter_cons. destruct n as [|n]; cbn [drop].
  - rewrite decide_True by (apply (HP 0%nat); [done|lia]). f_equal.
    rewrite (IH 0%nat); [done|]. intros i y Hi. rewrite (HP (S i) y Hi). lia.
  - rewrite decide_False by (rewrite (HP 0%nat); [lia|done]).
    apply IH. intros i y Hi. rewrite (HP (S i) y Hi). lia.
Qed.

Lemma StronglySorted_lookup {A} (R : A → A → Prop) l i j x y :
  StronglySorted R l → (i < j)%nat → l !! i = Some x → l !! j = Some y → R x y.
Proof.
  intros Hl. revert i j. induction Hl as [|z l _ IH Hz]; intros i j Hij Hx Hy; [done|].
  destruct j as [|j]; [lia|]. destruct i as [|i]; cbn in Hx, Hy.
  - injection Hx as ->. rewrite Forall_forall in Hz. apply Hz. by eapply list_elem_of_lookup_2.
  - apply (IH i j); [lia|done|done].
Qed.

(** ** Ranges of keys *)

(** No key extends another one: so are keys of one length. *)
Definition prefix_free {V} (m : gmap (list N) V) : Prop :=
  ∀ k k', is_Some (m !! k) → is_Some (m !! k') → k `prefix_of` k' → k = k'.

Lemma same_length_prefix_free {V} (m : gmap (list N) V) :
  (∀ k k', is_Some (m !! k) → is_Some (m !! k') → length k = length k') → prefix_free m.
Proof.
  intros Hlen k k' Hk Hk' [e ->]. specialize (Hlen _ _ Hk Hk'). rewrite length_app in Hlen.
  destruct e; [by rewrite app_nil_r|cbn in Hlen; lia].
Qed.

Section ranges.
  Context `{CwApiLaws} {V : Type}.
  Implicit Types (m : gmap (list N) V) (k : list N) (v : V).

Lemma range_NoDup m start : NoDup (range m start).*1.
Proof.
  rewrite range_perm. apply NoDup_fmap_fst; [|apply NoDup_filter, NoDup_map_to_list].
  intros k v v'. rewrite !list_elem_of_filter, !elem_of_map_to_list. naive_solver.
Qed.

(** The range is the only ordered list of the entries from the start on. *)
Lemma range_unique m start l :
  l ≡ₚ range m start → StronglySorted (λ a b, bytes_le a.1 b.1) l → l = range m start.
Proof.
  intros Hp Hs. eapply StronglySorted_unique_strong; [|exact Hs|apply range_sorted|exact Hp].
  intros [k v] [k' v'] Hin Hin' Hle Hle'. cbn in *.
  assert (k = k') as <- by by apply bytes_le_antisym.
  rewrite Hp in Hin. apply elem_of_range in Hin as [Hk _], Hin' as [Hk' _]. congruence.
Qed.

Lemma StronglySorted_filter {A} (R : A → A → Prop) (P : A → Prop) `{∀ x, Decision (P x)} l :
  StronglySorted R l → StronglySorted R (filter P l).
Proof.
  induction 1 as [|x l Hl IH Hx]; [constructor|]. rewrite filter_cons.
  destruct (decide (P x)); [|done]. constructor; [done|].
  rewrite Forall_forall in *. intros y [_ Hy]%list_elem_of_filter. by apply Hx.
Qed.

Lemma range_from m start : range m start = filter (λ kv, in_range start kv.1) (range m None).
Proof.
  symmetry. apply range_unique.
  - by rewrite range_all, range_perm.
  - apply StronglySorted_filter, range_sorted.
Qed.

Lemma range_lookup m i k v : range m None !! i = Some (k, v) → m !! k = Some v.
Proof. intros Hi%list_elem_of_lookup_2. by apply elem_of_range in Hi as [Hk _]. Qed.

Lemma range_index_inj m i j k v v' :
  range m None !! i = Some (k, v) → range m None !! j = Some (k, v') → i = j.
Proof.
  intros Hi Hj. eapply (NoDup_lookup (range m None).*1); [apply range_NoDup| |];
    rewrite list_lookup_fmap; [by rewrite Hi|by rewrite Hj].
Qed.

(** The range after an entry is the rest of the list. *)
Lemma range_next m i k v x :
  prefix_free m → range m None !! i = Some (k, v) →
  range m (Some (k ++ [x])) = drop (S i) (range m None).
Proof.
  intros Hpf Hi. rewrite range_from. apply filter_drop. intros j [k' v'] Hj. cbn.
  pose proof (range_lookup _ _ _ _ Hi) as Hk. pose proof (range_lookup _ _ _ _ Hj) as Hk'.
  destruct (decide (k = k')) as [<-|Hne].
  { rewrite bytes_le_snoc_self. rewrite (range_index_inj m j i k v' v Hj Hi). split; [done|lia]. }
  rewrite bytes_le_snoc by (intros Hp; by apply Hne, Hpf; [eexists|eexists|]).
  destruct (Nat.lt_trichotomy i j) as [Hij|[->|Hij]].
  - split; [lia|intros _].
    by apply (StronglySorted_lookup _ _ i j _ _ (range_sorted m None) Hij Hi Hj).
  - congruence.
  - split; [|lia]. intros Hle. destruct Hne. apply bytes_le_antisym; [done|].
    by apply (StronglySorted_lookup _ _ j i _ _ (range_sorted m None) Hij Hj Hi).
Qed.

(** An exclusive start that is no key excludes nothing. *)
Lemma range_after_next m i k v x :
  prefix_free m → range m None !! i = Some (k, v) →
  range_after m (Some (k ++ [x])) = drop (S i) (range m None).
Proof.
  intros Hpf Hi. rewrite <- (range_next m i k v x) by done. unfold range_after.
  apply (filter_drop _ _ 0%nat). intros j [k' v'] Hj. split; [lia|intros _ [= ->]].
  apply list_elem_of_lookup_2, elem_of_range in Hj as [Hk' _].
  apply range_lookup in Hi as Hk.
  assert (k = k ++ [x]) as Hx by (apply Hpf; [by eexists|by eexists|by eexists]).
  apply (f_equal length) in Hx. rewrite length_app in Hx. cbn in Hx. lia.
Qed.

Lemma range_after_None m : range_after m None = range m None.
Proof. apply (filter_drop _ _ 0%nat). intros j kv _. split; [lia|done]. Qed.
End ranges.

(** ** Following the pages *)

(** A client that asks for a page, then for the page after its last entry,
    until a page is empty. *)
Fixpoint follow {A C} (query : option C → StdResult (list A)) (cursor : A → C)
    (fuel : nat) (start : option C) : StdResult (list A) :=
  match fuel with
  | O => Panic "out of pages"
  | S fuel =>
      page ← query start;
      match last page with
      | Some a =>
          rest ← follow query cursor fuel (Some (cursor a));
          mret (page ++ rest)
      | None => mret []
      end
  end.

(** The number of entries of a page: [limit.unwrap_or(DEFAULT).min(MAX)]. *)
Definition page_size (dflt max : u32) (limit : option u32) : nat :=
  N.to_nat (default dflt limit `min` max).

Lemma page_size_pos dflt max limit :
  dflt ≠ 0 → max ≠ 0 → limit ≠ Some 0 → page_size dflt max limit ≠ 0%nat.
Proof.
  intros Hd Hm Hl. unfold page_size. destruct limit as [l|]; cbn; [|lia].
  assert (l ≠ 0) by congruence. lia.
Qed.

Section follow.
  Context {A C : Type} (query : option C → StdResult (list A)) (cursor : A → C).
  Context (all : list A) (lim : nat) (Hlim : lim ≠ 0%nat).
  Hypothesis query_first : query None = Ok (take lim all).
  Hypothesis query_next : ∀ i a,
    all !! i = Some a → query (Some (cursor a)) = Ok (take lim (drop (S i) all)).

Lemma follow_from fuel n start :
  query start = Ok (take lim (drop n all)) → (length all - n < fuel)%nat →
  follow query cursor fuel start = Ok (drop n all).
Proof using Hlim query_next.
  revert n start. induction fuel as [|fuel IH]; intros n start Hq Hfuel; [lia|].
  cbn [follow]. rewrite Hq. cbn [mbind result_bind].
  set (page := take lim (drop n all)).
  assert (length page = (lim `min` (length all - n))%nat) as Hlen.
  { unfold page. by rewrite length_take, length_drop. }
  destruct (last page) as [a|] eqn:Hlast.
  - rewrite last_lookup in Hlast.
    assert (page ≠ []) as Hne by by intros E; rewrite E in Hlast.
    assert (length page ≠ 0%nat) as Hlen0 by (by intros E%nil_length_inv).
    assert (all !! (n + pred (length page))%nat = Some a) as Ha.
    { apply (lookup_take_Some (drop n all) lim) in Hlast as [Ha _]. by rewrite lookup_drop in Ha. }
    rewrite (IH (n + length page)%nat); [|rewrite (query_next _ _ Ha); do 3 f_equal; lia|lia].
    cbn [mbind result_bind mret result_ret]. unfold mret, result_ret. f_equal.
    rewrite <- drop_drop. rewrite <- (take_drop (length page) (drop n all)) at 2. f_equal.
    unfold page. rewrite length_take, length_drop.
    destruct (decide (lim ≤ length all - n)%nat); [by rewrite Nat.min_l|].
    rewrite Nat.min_r by lia. rewrite !take_ge; rewrite ?length_drop; lia || done.
  - apply last_None in Hlast. rewrite Hlast in Hlen. cbn in Hlen.
    rewrite drop_ge by lia. done.
Qed.

(** Enough queries read everything once and in order. *)
Lemma follow_all fuel :
  (length all < fuel)%nat → follow query cursor fuel None = Ok all.
Proof using All.
  intros Hfuel. rewrite (follow_from fuel 0%nat); [done|done|lia].
Qed.
End follow.
