(* ===== verification/Reference.v ===== *)
(** * A reference implementation of the services

    Concrete instances of [CwMath] and [CwApi] that satisfy the laws: they
    show the laws can hold together, and the witnesses evaluate the
    contracts with them. *)
From stdpp Require Import sorting.
From S2P Require Import Prelude CwTypes CwStrings CwMath BassetAirdrop BassetReward BassetHub CwApi Paging.

Open Scope N_scope.

(** ** Arithmetic *)

Definition checked_at (bound v : N) : StdResult N :=
  if decide (v < bound) then Ok v else Panic "overflow".

(** The decimal digits of a number, most significant first. *)
Fixpoint show_N_go (fuel : nat) (n : N) (acc : string) : string :=
  match fuel with
  | O => acc
  | S fuel =>
      let acc := String (digit_char (n `mod` 10)) acc in
      if n <? 10 then acc else show_N_go fuel (n / 10) acc
  end.
Definition show_N (n : N) : string := show_N_go (S (N.to_nat (N.log2 n))) n EmptyString.

Lemma digit_char_not_dot d : d < 10 → digit_char d ≠ dot.
Proof. intros Hd E. pose proof (digit_value_char d Hd) as Hv. by rewrite E in Hv. Qed.

Lemma show_N_go_no_dot fuel n acc : no_dot acc → no_dot (show_N_go fuel n acc).
Proof.
  revert n acc. induction fuel as [|fuel IH]; intros n acc Ha; cbn [show_N_go]; [done|].
  assert (no_dot (String (digit_char (n `mod` 10)) acc)) as Ha'.
  { split; [|done]. apply digit_char_not_dot, N.mod_lt. lia. }
  destruct (n <? 10); [done|]. by apply IH.
Qed.

(** [whole] or [whole.fraction] with at most 18 digits after the dot. *)
Definition parse_decimal (s : string) : StdResult N :=
  match split_dot s with
  | [whole] =>
      match digits_value whole with
      | Some w => checked_at U128_MOD (w * DECIMAL_ONE)
      | None => Err (GenericErr "Error parsing whole")
      end
  | [whole; frac] =>
      match digits_value whole, digits_value frac with
      | Some w, Some v =>
          if decide (String.length frac ≤ 18)%nat then
            checked_at U128_MOD (w * DECIMAL_ONE + v * 10 ^ N.of_nat (18 - String.length frac))
          else Err (GenericErr "Cannot parse more than 18 fractional digits")
      | _, _ => Err (GenericErr "Error parsing fractional")
      end
  | _ => Err (GenericErr "Unexpected number of dots")
  end.

#[export] Instance ref_math : CwMath := {|
  Uint128_add a b := checked_at U128_MOD (a + b);
  Uint128_checked_sub a b := if decide (b ≤ a) then Ok (a - b) else Err (Overflow a b);
  Uint128_multiply_ratio a n d :=
    if decide (d = 0) then Panic "division by zero" else checked_at U128_MOD (a * n / d);
  Uint128_mul_Decimal a d := checked_at U128_MOD (a * d / DECIMAL_ONE);
  Decimal_from_ratio n d :=
    if decide (d = 0) then Panic "Denominator must not be zero"
    else checked_at U128_MOD (n * DECIMAL_ONE / d);
  Decimal_to_string d :=
    let whole := show_N (d / DECIMAL_ONE) in
    if d `mod` DECIMAL_ONE =? 0 then whole
    else String.append whole (String dot (trim_zeros (fixed_digits 18 (d `mod` DECIMAL_ONE))));
  Decimal_from_str s := parse_decimal s;
  Decimal256_from d := d;
  Decimal256_into d := checked_at U128_MOD d;
  Decimal256_add a b := checked_at U256_MOD (a + b);
  Decimal256_sub a b := if decide (b ≤ a) then Ok (a - b) else Panic "overflow";
  Decimal256_mul a b :=
    if decide (a * b < U256_MOD) then Ok (a * b / DECIMAL_ONE) else Panic "overflow"
|}.

Lemma checked_at_spec bound v : exact_or_panic bound v (checked_at bound v).
Proof.
  unfold checked_at. split; intros ?; case_decide; try done; [lia|]. by eexists.
Qed.

Lemma digits_value_lt s v acc :
  digits_value_go acc s = Some v → v < (acc + 1) * 10 ^ N.of_nat (String.length s).
Proof.
  revert acc. induction s as [|c s IH]; intros acc; cbn [digits_value_go String.length].
  - intros [= ->]. cbn. lia.
  - destruct (digit_value c) as [d|] eqn:Hd; [|done]. cbn. intros Hv%IH.
    unfold digit_value in Hd. destruct (_ && _) eqn:Hb; [|done]. injection Hd as <-.
    apply andb_true_iff in Hb as [Hb1%N.leb_le Hb2%N.ltb_lt].
    rewrite Nat2N.inj_succ, N.pow_succ_r'. nia.
Qed.

Lemma ref_from_str frac v :
  (String.length frac ≤ 18)%nat → digits_value frac = Some v →
  parse_decimal (String.append "0." frac) = Ok (v * 10 ^ N.of_nat (18 - String.length frac)).
Proof.
  intros Hlen Hv. unfold parse_decimal.
  change (String.append "0." frac) with (String.append "0" (String dot frac)).
  rewrite split_one_dot; [|done|by eapply digits_no_dot].
  change (digits_value "0") with (Some 0). rewrite Hv. rewrite decide_True by done.
  unfold checked_at. rewrite decide_True; [f_equal; lia|].
  apply digits_value_lt in Hv. rewrite N.add_0_l, N.mul_1_l in Hv.
  assert (10 ^ 18 ≤ U128_MOD) as Hmax by (vm_compute; discriminate).
  eapply N.lt_le_trans; [|exact Hmax]. clear Hmax.
  assert (10 ^ 18 = 10 ^ N.of_nat (String.length frac) * 10 ^ N.of_nat (18 - String.length frac)) as ->.
  { rewrite <- N.pow_add_r. f_equal. lia. }
  rewrite N.mul_0_l, N.add_0_l. apply N.mul_lt_mono_pos_r; [|done].
  apply N.neq_0_lt_0, N.pow_nonzero. lia.
Qed.

#[export] Instance ref_math_laws : CwMathLaws.
Proof.
  split; intros; cbn [Uint128_add Uint128_checked_sub Uint128_multiply_ratio Uint128_mul_Decimal
    Decimal_from_ratio Decimal_to_string Decimal_from_str Decimal256_from Decimal256_into
    Decimal256_add Decimal256_sub Decimal256_mul ref_math]; try apply checked_at_spec; try done.
  4: { eexists. split; [|reflexivity]. by apply show_N_go_no_dot. }
  4: { by apply ref_from_str. }
  all: split; intros; subst; repeat case_decide; try done;
    try apply checked_at_spec; try lia; by eexists.
Qed.

(** ** Serialisation *)

(** Any countable type is serialised as the bits of its code. *)
Fixpoint pos_to_bytes (p : positive) : Bytes :=
  match p with
  | xH => []
  | xO p => 0 :: pos_to_bytes p
  | xI p => 1 :: pos_to_bytes p
  end.

Fixpoint bytes_to_pos (b : Bytes) : option positive :=
  match b with
  | [] => Some xH
  | 0 :: b => xO <$> bytes_to_pos b
  | 1 :: b => xI <$> bytes_to_pos b
  | _ => None
  end.

Lemma bytes_to_pos_to_bytes p : bytes_to_pos (pos_to_bytes p) = Some p.
Proof. induction p as [p IH|p IH|]; cbn; rewrite ?IH; done. Qed.

(** A tag in front tells the types apart. *)
Definition serde_countable `{Countable A} (tag : N) : Serde A := {|
  to_vec a := Ok (tag :: pos_to_bytes (encode a));
  from_slice b :=
    match b with
    | t :: b =>
        if decide (t = tag) then
          match bytes_to_pos b ≫= decode with
          | Some a => Ok a
          | None => Err (ParseErr "invalid bytes")
          end
        else Err (ParseErr "unknown variant")
    | [] => Err (ParseErr "unexpected end")
    end
|}.

Lemma serde_countable_laws `{Countable A} tag : SerdeLaws A (H:=serde_countable tag).
Proof.
  intros a. eexists. split; [done|]. cbn [from_slice serde_countable].
  rewrite decide_True by done.
  by rewrite bytes_to_pos_to_bytes; cbn; rewrite decode_encode.
Qed.

(** Numbers are serialised as their decimal digits, most significant first. *)
Fixpoint digits_go (fuel : nat) (n : N) (acc : Bytes) : Bytes :=
  match fuel with
  | O => acc
  | S fuel =>
      let acc := (48 + n `mod` 10) :: acc in
      if n <? 10 then acc else digits_go fuel (n / 10) acc
  end.
Definition digits (n : N) : Bytes := digits_go (S (N.to_nat (N.log2 n))) n [].
Definition undigits (b : Bytes) : N := foldl (λ acc d, acc * 10 + (d - 48)) 0 b.

Lemma foldl_digits_go fuel n acc :
  n < 2 ^ N.of_nat fuel →
  foldl (λ acc d, acc * 10 + (d - 48)) 0 (digits_go fuel n acc) =
  foldl (λ acc d, acc * 10 + (d - 48)) n acc.
Proof.
  revert n acc. induction fuel as [|fuel IH]; intros n acc Hn.
  - cbn in Hn. assert (n = 0) as -> by lia. done.
  - cbn [digits_go].
    assert (foldl (λ acc d, acc * 10 + (d - 48)) (n / 10) ((48 + n `mod` 10) :: acc) =
            foldl (λ acc d, acc * 10 + (d - 48)) n acc) as E.
    { cbn [foldl]. f_equal. rewrite (N.add_comm 48), N.add_sub, N.mul_comm.
      symmetry. apply N.div_mod'. }
    destruct (N.ltb_spec n 10).
    + rewrite <- E. rewrite (N.div_small n 10) by done. done.
    + rewrite IH; [done|].
      rewrite Nat2N.inj_succ, N.pow_succ_r' in Hn.
      apply N.Div0.div_lt_upper_bound. lia.
Qed.

Lemma undigits_digits n : undigits (digits n) = n.
Proof.
  unfold undigits, digits. rewrite foldl_digits_go; [done|].
  rewrite Nat2N.inj_succ, N2Nat.id.
  destruct (decide (n = 0)) as [->|Hn]; [done|].
  apply N.log2_spec. lia.
Qed.

Definition ref_serde_u64 : Serde u64 := {|
  to_vec n := Ok (digits n);
  from_slice b := Ok (undigits b)
|}.

(** Strings are serialised between quotes. *)
Definition string_to_bytes (s : string) : Bytes := Ascii.N_of_ascii <$> String.list_ascii_of_string s.
Definition bytes_to_string (b : Bytes) : string :=
  String.string_of_list_ascii (Ascii.ascii_of_N <$> b).

Lemma bytes_to_string_to_bytes s : bytes_to_string (string_to_bytes s) = s.
Proof.
  unfold bytes_to_string, string_to_bytes. rewrite <- list_fmap_compose.
  rewrite <- (String.string_of_list_ascii_of_string s) at 2. f_equal.
  rewrite <- (list_fmap_id (String.list_ascii_of_string s)) at 2.
  apply list_fmap_ext. intros i c _. apply Ascii.ascii_N_embedding.
Qed.

(** A quote or a backslash inside a string is escaped by a backslash. *)
Fixpoint escape (b : Bytes) : Bytes :=
  match b with
  | [] => []
  | c :: b => if (c =? 34) || (c =? 92) then 92 :: c :: escape b else c :: escape b
  end.

(** The bytes up to the closing quote. *)
Fixpoint unescape (b : Bytes) : Bytes :=
  match b with
  | [] => []
  | c :: b =>
      if c =? 34 then []
      else if c =? 92 then match b with x :: b => x :: unescape b | [] => [] end
      else c :: unescape b
  end.

Lemma unescape_escape b rest : unescape (escape b ++ 34 :: rest) = b.
Proof.
  induction b as [|c b IH]; [done|]. cbn.
  destruct (N.eqb_spec c 34) as [->|H34]; cbn; [by rewrite IH|].
  destruct (N.eqb_spec c 92) as [->|H92]; cbn; [by rewrite IH|].
  apply N.eqb_neq in H34 as ->, H92 as ->. by rewrite IH.
Qed.

Definition ref_serde_string : Serde string := {|
  to_vec s := Ok (34 :: escape (string_to_bytes s) ++ [34]);
  from_slice b := Ok (bytes_to_string (unescape (tail b)))
|}.

Lemma ref_serde_u64_laws : SerdeLaws u64 (H:=ref_serde_u64).
Proof. intros n. eexists. split; [done|]. apply (f_equal Ok), undigits_digits. Qed.

Lemma ref_serde_string_laws : SerdeLaws string (H:=ref_serde_string).
Proof.
  intros s. eexists. split; [done|]. cbn [from_slice ref_serde_string tail].
  by rewrite unescape_escape, bytes_to_string_to_bytes.
Qed.

Lemma ref_ser_prefix a b :
  ser (H:=ref_serde_string) a `prefix_of` ser (H:=ref_serde_string) b → a = b.
Proof.
  intros [k E]. cbn in E. injection E as E. apply (f_equal unescape) in E.
  rewrite <- app_assoc in E. cbn in E. rewrite !unescape_escape in E.
  apply (f_equal bytes_to_string) in E. rewrite !bytes_to_string_to_bytes in E. done.
Qed.

(** ** Codes of the message types *)

#[export] Instance Cw20ReceiveMsg_countable : Countable Cw20ReceiveMsg.
Proof.
  apply (inj_countable' (λ m, (receive_sender m, receive_amount m, receive_msg m))
    (λ '(s, a, m), mkCw20Receive s a m)). by intros [].
Defined.

#[export] Instance Cw20ExecuteMsg_countable : Countable Cw20ExecuteMsg.
Proof.
  apply (inj_countable'
    (λ m, match m with
          | Cw20_Burn a => inl a
          | Cw20_Mint r a => inr (inl (r, a))
          | Cw20_Send c a b => inr (inr (c, a, b))
          end)
    (λ m, match m with
          | inl a => Cw20_Burn a
          | inr (inl (r, a)) => Cw20_Mint r a
          | inr (inr (c, a, b)) => Cw20_Send c a b
          end)). by intros [].
Defined.

#[export] Instance hub_msg_countable : Countable BassetHub.ExecuteMsg.
Proof.
  apply (inj_countable'
    (λ m, match m with
          | BassetHub.UpdateConfig a b c d => inl (a, b, c, d)
          | RegisterValidator v => inr (inl (inl v))
          | DeregisterValidator v => inr (inl (inr v))
          | UpdateParams a b c d => inr (inr (inl (a, b, c, d)))
          | Bond v => inr (inr (inr (inl v)))
          | BassetHub.UpdateGlobalIndex h => inr (inr (inr (inr (inl h))))
          | WithdrawUnbonded => inr (inr (inr (inr (inr (inl false)))))
          | CheckSlashing => inr (inr (inr (inr (inr (inl true)))))
          | Receive m => inr (inr (inr (inr (inr (inr (inl m))))))
          | ClaimAirdrop a b c d e => inr (inr (inr (inr (inr (inr (inr (inl (a, b, c, d, e))))))))
          | SwapHook a b c => inr (inr (inr (inr (inr (inr (inr (inr (a, b, c))))))))
          end)
    (λ m, match m with
          | inl (a, b, c, d) => BassetHub.UpdateConfig a b c d
          | inr (inl (inl v)) => RegisterValidator v
          | inr (inl (inr v)) => DeregisterValidator v
          | inr (inr (inl (a, b, c, d))) => UpdateParams a b c d
          | inr (inr (inr (inl v))) => Bond v
          | inr (inr (inr (inr (inl h)))) => BassetHub.UpdateGlobalIndex h
          | inr (inr (inr (inr (inr (inl false))))) => WithdrawUnbonded
          | inr (inr (inr (inr (inr (inl true))))) => CheckSlashing
          | inr (inr (inr (inr (inr (inr (inl m)))))) => Receive m
          | inr (inr (inr (inr (inr (inr (inr (inl (a, b, c, d, e)))))))) => ClaimAirdrop a b c d e
          | inr (inr (inr (inr (inr (inr (inr (inr (a, b, c)))))))) => SwapHook a b c
          end)). by intros [].
Defined.

#[export] Instance hook_msg_countable : Countable Cw20HookMsg.
Proof. apply (inj_countable' (λ _, ()) (λ _, Unbond)). by intros []. Defined.

#[export] Instance UnbondHistory_countable : Countable UnbondHistory.
Proof.
  apply (inj_countable'
    (λ h, (batch_id h, time h, amount h, applied_exchange_rate h, withdraw_rate h, released h))
    (λ '(a, b, c, d, e, f), mkUnbondHistory a b c d e f)). by intros [].
Defined.

#[export] Instance reward_msg_countable : Countable BassetReward.ExecuteMsg.
Proof.
  apply (inj_countable'
    (λ m, match m with
          | SwapToRewardDenom => inl false
          | BassetReward.UpdateGlobalIndex => inl true
          | IncreaseBalance a n => inr (inl (a, n))
          | DecreaseBalance a n => inr (inr (inl (a, n)))
          | ClaimRewards r => inr (inr (inr r))
          end)
    (λ m, match m with
          | inl false => SwapToRewardDenom
          | inl true => BassetReward.UpdateGlobalIndex
          | inr (inl (a, n)) => IncreaseBalance a n
          | inr (inr (inl (a, n))) => DecreaseBalance a n
          | inr (inr (inr r)) => ClaimRewards r
          end)). by intros [].
Defined.

#[export] Instance mir_msg_eq_dec : EqDecision MIRAirdropHandleMsg.
Proof. solve_decision. Defined.
#[export] Instance anc_msg_eq_dec : EqDecision ANCAirdropHandleMsg.
Proof. solve_decision. Defined.
#[export] Instance pair_msg_eq_dec : EqDecision PairHandleMsg.
Proof. solve_decision. Defined.
#[export] Instance mir_msg_countable : Countable MIRAirdropHandleMsg.
Proof.
  apply (inj_countable' (λ '(MIR_Claim a b c), (a, b, c)) (λ '(a, b, c), MIR_Claim a b c)).
  by intros [].
Defined.
#[export] Instance anc_msg_countable : Countable ANCAirdropHandleMsg.
Proof.
  apply (inj_countable' (λ '(ANC_Claim a b c), (a, b, c)) (λ '(a, b, c), ANC_Claim a b c)).
  by intros [].
Defined.
#[export] Instance pair_msg_countable : Countable PairHandleMsg.
Proof.
  apply (inj_countable' (λ '(Swap a b c), (a, b, c)) (λ '(a, b, c), Swap a b c)).
  by intros [].
Defined.

(** ** Ordered iteration *)

Definition key_le {V} (a b : Bytes * V) : Prop := bytes_le a.1 b.1.

#[export] Instance key_le_dec {V} (a b : Bytes * V) : Decision (key_le a b).
Proof. unfold key_le. apply _. Defined.

#[export] Instance key_le_total {V} : Total (key_le (V:=V)).
Proof. intros a b. apply bytes_le_total. Qed.
#[export] Instance key_le_trans {V} : Transitive (key_le (V:=V)).
Proof. intros a b c. apply bytes_le_trans. Qed.

Definition ref_range {V} (m : gmap (list N) V) (start : option Bytes) : list (Bytes * V) :=
  merge_sort key_le (filter (λ kv, in_range start kv.1) (map_to_list m)).

(** ** The services *)

(** A canonical address is the bytes of the human one; the generator picks
    the seed modulo the length. *)
Definition ref_gen_range (seed : u64) (high : nat) : StdResult nat :=
  match high with
  | O => Panic "Rng.gen_range called with low >= high"
  | _ => Ok (N.to_nat (seed `mod` N.of_nat high))
  end.

(** Canonical addresses have 20 bytes: those of the name, filled up with zeros. *)
Definition ADDR_LEN : nat := 20.
Definition canonical (s : string) : CanonicalAddr :=
  string_to_bytes s ++ replicate (ADDR_LEN - length (string_to_bytes s)) 0.

Definition ref_canonicalize (s : string) : StdResult CanonicalAddr :=
  if decide ((length (string_to_bytes s) ≤ ADDR_LEN)%nat ∧ Forall (λ b, b ≠ 0) (string_to_bytes s))
  then Ok (canonical s) else Err (GenericErr "invalid address").

Definition ref_name (c : CanonicalAddr) : string := bytes_to_string (filter (λ b, b ≠ 0) c).

Definition ref_humanize (c : CanonicalAddr) : StdResult Addr :=
  if decide (ref_canonicalize (ref_name c) = Ok c) then Ok (ref_name c)
  else Err (GenericErr "invalid address").

Lemma filter_pad (b : Bytes) n :
  Forall (λ b, b ≠ 0) b → filter (λ b, b ≠ 0) (b ++ replicate n 0) = b.
Proof.
  induction 1 as [|c b Hc _ IH].
  - induction n as [|n IH]; [done|]. exact IH.
  - cbn [app]. by rewrite filter_cons_True, IH.
Qed.

Lemma ref_name_canonical s :
  Forall (λ b, b ≠ 0) (string_to_bytes s) → ref_name (canonical s) = s.
Proof.
  intros Hs. unfold ref_name, canonical. by rewrite filter_pad, bytes_to_string_to_bytes.
Qed.

#[export] Instance ref_api : CwApi := {|
  serde_u64 := ref_serde_u64;
  serde_string := ref_serde_string;
  serde_bool := serde_countable 2;
  serde_unbond_history := serde_countable 3;
  serde_hub_msg := serde_countable 4;
  serde_hook_msg := serde_countable 5;
  serde_reward_msg := serde_countable 6;
  serde_cw20_msg := serde_countable 7;
  serde_mir_msg := serde_countable 8;
  serde_anc_msg := serde_countable 9;
  serde_pair_msg := serde_countable 10;
  addr_canonicalize := ref_canonicalize;
  addr_humanize := ref_humanize;
  addr_validate s := _ ← ref_canonicalize s; Ok s;
  range := @ref_range;
  gen_range := ref_gen_range
|}.

#[export] Instance ref_api_laws : CwApiLaws.
Proof.
  split; try apply serde_countable_laws.
  - apply ref_serde_u64_laws.
  - apply ref_serde_string_laws.
  - apply ref_ser_prefix.
  - intros c a. cbn. unfold ref_humanize. case_decide; [|done]. by intros [= <-].
  - intros a a' (? & _ & [= <-])%result_bind_Ok. done.
  - intros V m start. apply merge_sort_Permutation.
  - intros V m start. apply (StronglySorted_merge_sort key_le).
  - intros seed high Hhigh. destruct high as [|high]; [done|].
    eexists. split; [done|]. pose proof (N.mod_lt seed (N.of_nat (S high))). lia.
  - intros seed. by eexists.
Qed.

#[export] Instance ref_addr_laws : CwAddrLaws.
Proof.
  split.
  - intros a b c c'. cbn. unfold ref_canonicalize. repeat (case_decide; [|done]).
    intros [= <-] [= <-]. unfold canonical. rewrite !length_app, !length_replicate. lia.
  - intros a c. cbn. unfold ref_canonicalize. case_decide as Ha; [|done]. intros [= <-].
    exists a. unfold ref_humanize, ref_canonicalize. rewrite ref_name_canonical by apply Ha.
    rewrite !(decide_True (P:=_ ∧ _)) by done. rewrite decide_True by done. split; [done|by eexists].
Qed.
