(* ===== verification/SignedInt.v ===== *)
(** * Signed differences (packages/signed_integers/src/signed_integer.rs) *)
From S2P Require Import Prelude CwTypes CwMath Reference.

Open Scope N_scope.

(** [SignedInt(magnitude, negative)]. *)
Record SignedInt := mkSignedInt { magnitude : Uint128; negative : bool }.

Definition from_subtraction `{CwMath} (minuend subtrahend : Uint128) : StdResult SignedInt :=
  match minuend -? subtrahend with
  | Err _ =>
      d ← unwrap (subtrahend -? minuend);
      mret (mkSignedInt d true)
  | Ok d => mret (mkSignedInt d false)
  | Panic msg => Panic msg
  end.

(** The integer a [SignedInt] stands for. *)
Definition signed_value (i : SignedInt) : Z :=
  if negative i then - Z.of_N (magnitude i) else Z.of_N (magnitude i).

Section facts.
  Context `{CwMathLaws}.

Lemma from_subtraction_eq a b :
  from_subtraction a b =
    Ok (if decide (b ≤ a) then mkSignedInt (a - b) false else mkSignedInt (b - a) true).
Proof.
  unfold from_subtraction.
  destruct (Uint128_checked_sub_spec a b) as [Hle Hgt].
  case_decide as Hab.
  - by rewrite Hle.
  - rewrite Hgt by lia. destruct (Uint128_checked_sub_spec b a) as [Hle' _].
    by rewrite Hle' by lia.
Qed.

Lemma from_subtraction_Ok a b i :
  from_subtraction a b = Ok i ↔
  i = if decide (b ≤ a) then mkSignedInt (a - b) false else mkSignedInt (b - a) true.
Proof. rewrite from_subtraction_eq. naive_solver. Qed.
End facts.

Ltac inv_signed :=
  match goal with
  | H : from_subtraction _ _ = Ok _ |- _ => apply from_subtraction_Ok in H; subst
  end.
