(* ===== verification/HubMath.v ===== *)
(** * Division of an amount by a rate (contracts/anchor_basset_hub/src/math.rs) *)
From S2P Require Import Prelude CwTypes CwMath Reference.

Open Scope N_scope.

Definition DECIMAL_FRACTIONAL : Uint128 := 1000000000.

(** [return a / b] *)
Definition decimal_division `{CwMath} (a : Uint128) (b : Decimal) : StdResult Uint128 :=
  denominator ← DECIMAL_FRACTIONAL *! b;
  decimal ← a /! denominator;
  DECIMAL_FRACTIONAL *! decimal.

(** The rate with nine fractional digits that the division really uses. *)
Definition coarse_rate (b : Decimal) : N := b / DECIMAL_FRACTIONAL.

Section facts.
  Context `{CwMathLaws}.

Lemma DECIMAL_ONE_square : DECIMAL_ONE = DECIMAL_FRACTIONAL * DECIMAL_FRACTIONAL.
Proof. done. Qed.

Lemma coarse_rate_alt b : DECIMAL_FRACTIONAL * b / DECIMAL_ONE = coarse_rate b.
Proof.
  unfold coarse_rate. rewrite DECIMAL_ONE_square.
  by rewrite N.Div0.div_mul_cancel_l.
Qed.

(** Two floors in a row: the quotient is that of one division. *)
Lemma double_floor a d :
  d ≠ 0 →
  DECIMAL_FRACTIONAL * (a * DECIMAL_ONE / d) / DECIMAL_ONE = a * DECIMAL_FRACTIONAL / d.
Proof.
  intros Hd. rewrite DECIMAL_ONE_square.
  rewrite N.Div0.div_mul_cancel_l by done.
  by rewrite N.Div0.div_div, N.mul_assoc, N.Div0.div_mul_cancel_r.
Qed.

Lemma decimal_division_Ok a b c :
  decimal_division a b = Ok c ↔
  coarse_rate b ≠ 0 ∧ coarse_rate b < U128_MOD ∧
  a * DECIMAL_ONE / coarse_rate b < U128_MOD ∧
  c = a * DECIMAL_FRACTIONAL / coarse_rate b.
Proof.
  unfold decimal_division. split.
  - intros E. inv_ok. rewrite !(coarse_rate_alt b) in *. by rewrite double_floor.
  - intros (Hnz & Hlt & Hq & ->). rewrite result_bind_Ok. exists (coarse_rate b).
    rewrite Uint128_mul_Decimal_Ok, coarse_rate_alt. split; [done|].
    rewrite result_bind_Ok. exists (a * DECIMAL_ONE / coarse_rate b).
    rewrite Decimal_from_ratio_Ok. split; [done|].
    rewrite Uint128_mul_Decimal_Ok, double_floor by done. split; [done|].
    eapply N.le_lt_trans; [|exact Hq]. apply N.Div0.div_le_mono.
    rewrite (N.mul_comm a), (N.mul_comm a). by apply N.mul_le_mono_r.
Qed.
End facts.

Ltac inv_hub_math :=
  match goal with
  | H : decimal_division _ _ = Ok _ |- _ =>
      apply decimal_division_Ok in H; destruct H as (? & ? & ? & ?); subst
  end.

(** Dividing by the coarse rate overshoots by at most one part in 10^9. *)
Lemma coarse_quotient_value a b :
  coarse_rate b ≠ 0 →
  let c := a * DECIMAL_FRACTIONAL / coarse_rate b in
  c * b ≤ a * DECIMAL_ONE + c * DECIMAL_FRACTIONAL.
Proof.
  intros Hk. cbn zeta. pose proof (N.div_mod' b DECIMAL_FRACTIONAL) as Hdm.
  pose proof (N.mod_lt b DECIMAL_FRACTIONAL ltac:(done)) as Hmod.
  fold (coarse_rate b) in Hdm. set (k := coarse_rate b) in *. rewrite DECIMAL_ONE_square.
  pose proof (N.Div0.mul_div_le (a * DECIMAL_FRACTIONAL) k) as Hle.
  revert Hdm Hmod Hle. generalize (b `mod` DECIMAL_FRACTIONAL) (a * DECIMAL_FRACTIONAL / k).
  clearbody k. generalize DECIMAL_FRACTIONAL. clear. intros; nia.
Qed.

Section accuracy.
  Context `{CwMathLaws}.

(** C37: [decimal_division a b] is the quotient of [a] by the rate [b]: it is at
    least the floor of the exact quotient; the result [c], valued at the
    rate, exceeds [a] by at most 10^-9 per unit of [c] (a relative error of
    10^-9 / [b], which grows as the rate falls: near [b] = 10^-9 it reaches
    one); and it is exactly the floor when [b] has at most nine fractional
    digits. *)
Theorem decimal_division_accurate a b c :
  decimal_division a b = Ok c →
  a * DECIMAL_ONE / b ≤ c ∧
  c * b ≤ a * DECIMAL_ONE + c * DECIMAL_FRACTIONAL ∧
  (b `mod` DECIMAL_FRACTIONAL = 0 → c = a * DECIMAL_ONE / b).
Proof.
  intros E. inv_hub_math. rename select (coarse_rate b ≠ 0) into Hk.
  pose proof (N.div_mod' b DECIMAL_FRACTIONAL) as Hdm. fold (coarse_rate b) in Hdm.
  assert (a * DECIMAL_ONE / (DECIMAL_FRACTIONAL * coarse_rate b) =
          a * DECIMAL_FRACTIONAL / coarse_rate b) as Hexact.
  { rewrite DECIMAL_ONE_square, N.mul_assoc, (N.mul_comm DECIMAL_FRACTIONAL (coarse_rate b)).
    by apply N.Div0.div_mul_cancel_r. }
  assert (0 < DECIMAL_FRACTIONAL) by done.
  split_and!.
  - rewrite <- Hexact. apply N.div_le_compat_l.
    split; [apply N.mul_pos_pos; [done|by apply N.neq_0_lt_0]|].
    rewrite Hdm at 2. apply N.le_add_r.
  - by apply coarse_quotient_value.
  - intros Hm. rewrite Hm in Hdm. rewrite N.add_0_r in Hdm. by rewrite Hdm at 2.
Qed.
End accuracy.

Lemma decimal_division_accurate_witness :
  decimal_division 1000 333333333333333333 = Ok 3000 ∧ 3000 * 333333333333333333 ≤
  1000 * DECIMAL_ONE + 3000 * DECIMAL_FRACTIONAL.
Proof.
  assert (decimal_division 1000 333333333333333333 = Ok 3000) as E by (vm_compute; reflexivity).
  split; [exact E|]. apply (decimal_division_accurate _ _ _ E).
Defined.
