(* ===== verification/HubState.v ===== *)
(** * The hub's storage (contracts/anchor_basset_hub/src/state.rs)

    The four [Item] cells, the wait lists of the users, the history of the
    undelegated batches and the whitelist of validators, with one
    definition per function of state.rs. *)
From S2P Require Import Prelude CwTypes CwMath BassetHub CwApi.

Open Scope N_scope.

Record Parameters := mkParameters {
  epoch_period : u64;
  underlying_coin_denom : string;
  unbonding_period : u64;
  peg_recovery_fee : Decimal;
  er_threshold : Decimal;
  reward_denom : string
}.

Record CurrentBatch := mkCurrentBatch {
  id : u64;
  requested_with_fee : Uint128
}.

#[export] Instance Parameters_eq_dec : EqDecision Parameters.
Proof. solve_decision. Defined.
#[export] Instance CurrentBatch_eq_dec : EqDecision CurrentBatch.
Proof. solve_decision. Defined.

(** The storage of the contract.  [wait_map] holds the buckets of the
    namespace [wait], one per serialised user address; the keys of a bucket
    are serialised batch ids.  [history_map] and [validators] are the
    namespaces [history_map] (keys: big-endian batch ids) and [validators]
    (keys: serialised addresses), which the contract fills with values it
    has serialised itself. *)
Record Storage := mkStorage {
  config_cell : option Config;
  parameters_cell : option Parameters;
  current_batch_cell : option CurrentBatch;
  state_cell : option State;
  wait_map : gmap (list N) (gmap (list N) Uint128);
  history_map : gmap (list N) Bytes;
  validators : gmap (list N) Bytes
}.

Definition empty_storage : Storage := mkStorage None None None None ∅ ∅ ∅.

Definition set_config (c : Config) (s : Storage) : Storage :=
  mkStorage (Some c) (parameters_cell s) (current_batch_cell s) (state_cell s)
    (wait_map s) (history_map s) (validators s).
Definition set_parameters (p : Parameters) (s : Storage) : Storage :=
  mkStorage (config_cell s) (Some p) (current_batch_cell s) (state_cell s)
    (wait_map s) (history_map s) (validators s).
Definition set_current_batch (b : CurrentBatch) (s : Storage) : Storage :=
  mkStorage (config_cell s) (parameters_cell s) (Some b) (state_cell s)
    (wait_map s) (history_map s) (validators s).
Definition set_state (st : State) (s : Storage) : Storage :=
  mkStorage (config_cell s) (parameters_cell s) (current_batch_cell s) (Some st)
    (wait_map s) (history_map s) (validators s).
Definition set_wait_map w (s : Storage) : Storage :=
  mkStorage (config_cell s) (parameters_cell s) (current_batch_cell s) (state_cell s)
    w (history_map s) (validators s).
Definition set_history_map h (s : Storage) : Storage :=
  mkStorage (config_cell s) (parameters_cell s) (current_batch_cell s) (state_cell s)
    (wait_map s) h (validators s).
Definition set_validators v (s : Storage) : Storage :=
  mkStorage (config_cell s) (parameters_cell s) (current_batch_cell s) (state_cell s)
    (wait_map s) (history_map s) v.

Definition CONFIG : Item Storage Config := mkItem config_cell set_config "Config".
Definition PARAMETERS : Item Storage Parameters :=
  mkItem parameters_cell set_parameters "Parameters".
Definition CURRENT_BATCH : Item Storage CurrentBatch :=
  mkItem current_batch_cell set_current_batch "CurrentBatch".
Definition STATE : Item Storage State := mkItem state_cell set_state "State".

(** A handler of the hub. *)
Abbreviation HubM := (M Storage StdError).

Section operations.
  Context `{CwMath, CwApi}.

(** ** Wait lists *)

(** The bucket of one user: [Bucket::multilevel(storage, &[PREFIX_WAIT_MAP, &addr])]. *)
Definition wait_bucket (addr : Bytes) (s : Storage) : gmap (list N) Uint128 :=
  default ∅ (wait_map s !! addr).

Definition set_wait_bucket (addr : Bytes) (b : gmap (list N) Uint128) (s : Storage) : Storage :=
  set_wait_map (<[addr := b]> (wait_map s)) s.

Definition store_unbond_wait_list (batch_id : u64) (sender_address : string)
    (amount : Uint128) : HubM () :=
  batch ← lift (to_vec batch_id);
  addr ← lift (to_vec sender_address);
  position_indexer ← gets (wait_bucket addr);
  new ← lift (default 0 (position_indexer !! batch) +! amount);
  modify (set_wait_bucket addr (<[batch := new]> position_indexer)).

Fixpoint remove_batches (addr : Bytes) (batch_id : list u64) : HubM () :=
  match batch_id with
  | [] => mret ()
  | b :: rest =>
      batch ← lift (to_vec b);
      position_indexer ← gets (wait_bucket addr);
      modify (set_wait_bucket addr (delete batch position_indexer));;
      remove_batches addr rest
  end.

Definition remove_unbond_wait_list (batch_id : list u64) (sender_address : Addr) : HubM () :=
  addr ← lift (to_vec sender_address);
  remove_batches addr batch_id.

Definition read_unbond_wait_list (batch_id : u64) (sender_addr : string) (s : Storage) :
    StdResult Uint128 :=
  vec ← to_vec sender_addr;
  batch ← to_vec batch_id;
  ok_or (NotFound "Uint128") (wait_bucket vec s !! batch).

(** ** Unbond history *)

Definition store_unbond_history (batch_id : u64) (history : UnbondHistory) : HubM () :=
  value ← lift (to_vec history);
  modify (λ s, set_history_map (<[to_be_bytes batch_id := value]> (history_map s)) s).

Definition read_unbond_history (epoc_id : u64) (s : Storage) : StdResult UnbondHistory :=
  match history_map s !! to_be_bytes epoc_id with
  | Some data => from_slice data
  | None => Err (generic_err "Burn requests not found for the specified time period")
  end.

(** ** Iteration over a user's wait list *)

(** The loop [res.range(None, None, Order::Ascending).map(|item| ...)]: the
    key of each entry is decoded and the body extends the accumulator. *)
Fixpoint fold_entries {A} (body : A → u64 → Uint128 → StdResult A) (acc : A)
    (entries : list (Bytes * Uint128)) : StdResult A :=
  match entries with
  | [] => mret acc
  | (k, v) :: rest =>
      user_batch ← unwrap (from_slice k);
      acc ← body acc user_batch v;
      fold_entries body acc rest
  end.

Definition get_unbond_requests (sender_addr : string) (s : Storage) : StdResult UnbondRequest :=
  vec ← to_vec sender_addr;
  fold_entries (λ requests user_batch value, mret (requests ++ [(user_batch, value)])) []
    (range (wait_bucket vec s) None).

(** [if let Ok(h) = read_unbond_history(storage, user_batch) { ... }] *)
Definition if_history {A} (user_batch : u64) (s : Storage) (acc : A)
    (f : UnbondHistory → StdResult A) : StdResult A :=
  match read_unbond_history user_batch s with
  | Ok h => f h
  | Err _ => mret acc
  | Panic msg => Panic msg
  end.

Definition get_unbond_batches (sender_addr : string) (s : Storage) : StdResult (list u64) :=
  vec ← to_vec sender_addr;
  fold_entries (λ deprecated_batches user_batch _,
      if_history user_batch s deprecated_batches (λ h,
        if released h then mret (deprecated_batches ++ [user_batch])
        else mret deprecated_batches)) []
    (range (wait_bucket vec s) None).

Definition get_finished_amount (sender_addr : string) (s : Storage) : StdResult Uint128 :=
  vec ← to_vec sender_addr;
  fold_entries (λ withdrawable_amount user_batch v,
      if_history user_batch s withdrawable_amount (λ h,
        if released h then
          share ← v *! withdraw_rate h;
          withdrawable_amount +! share
        else mret withdrawable_amount)) 0
    (range (wait_bucket vec s) None).

Definition query_get_finished_amount (sender_addr : string) (block_time : u64) (s : Storage) :
    StdResult Uint128 :=
  vec ← to_vec sender_addr;
  fold_entries (λ withdrawable_amount user_batch v,
      if_history user_batch s withdrawable_amount (λ h,
        if time h <? block_time then
          share ← v *! withdraw_rate h;
          withdrawable_amount +! share
        else mret withdrawable_amount)) 0
    (range (wait_bucket vec s) None).

(** ** The whitelist *)

Definition store_white_validators (validator_address : string) : HubM () :=
  vec ← lift (to_vec validator_address);
  value ← lift (to_vec true);
  modify (λ s, set_validators (<[vec := value]> (validators s)) s).

Definition remove_white_validators (validator_address : string) : HubM () :=
  vec ← lift (to_vec validator_address);
  modify (λ s, set_validators (delete vec (validators s)) s).

Fixpoint decode_keys (entries : list (Bytes * Bytes)) : StdResult (list string) :=
  match entries with
  | [] => mret []
  | (key, _) :: rest =>
      sender ← unwrap (from_slice (A:=string) key);
      senders ← decode_keys rest;
      mret (sender :: senders)
  end.

Definition read_validators (s : Storage) : StdResult (list string) :=
  decode_keys (range (validators s) None).

Definition is_valid_validator (validator_address : string) (s : Storage) : StdResult bool :=
  vec ← to_vec validator_address;
  match validators s !! vec with
  | Some _ => mret true
  | None => mret false
  end.

Definition read_valid_validators (s : Storage) : StdResult (list string) :=
  decode_keys (range (validators s) None).

(** ** Pagination over the history *)

Definition MAX_LIMIT : u32 := 100.
Definition DEFAULT_LIMIT : u32 := 10.

Definition convert (start_after : option u64) : option Bytes :=
  (λ idx, to_be_bytes idx ++ [1]) <$> start_after.

Fixpoint decode_histories (entries : list (Bytes * Bytes)) : StdResult (list UnbondHistory) :=
  match entries with
  | [] => mret []
  | (_, value) :: rest =>
      history ← unwrap (from_slice value);
      histories ← decode_histories rest;
      mret (history :: histories)
  end.

Definition all_unbond_history (start : option u64) (limit : option u32) (s : Storage) :
    StdResult (list UnbondHistory) :=
  let vec := convert start in
  let lim := N.to_nat (default DEFAULT_LIMIT limit `min` MAX_LIMIT) in
  decode_histories (take lim (range (history_map s) vec)).
End operations.

Ltac inv_ok_hook ::= first [inv_cw_types | inv_cw_math | inv_basset_hub | inv_cw_api].

(** ** Lemmas on the wait lists *)

Section wait_list.
  Context `{CwMathLaws, CwApiLaws}.
  Implicit Types (s : Storage) (addr k : list N) (u : string) (b : N).

Lemma wait_bucket_set addr addr' bk s :
  wait_bucket addr' (set_wait_bucket addr bk s) =
  if decide (addr = addr') then bk else wait_bucket addr' s.
Proof.
  unfold wait_bucket, set_wait_bucket. cbn. rewrite lookup_insert. by case_decide.
Qed.

Lemma store_unbond_wait_list_Ok b u a s r s' :
  store_unbond_wait_list b u a s = Ok (r, s') ↔
  let bk := wait_bucket (ser u) s in
  let new := default 0 (bk !! ser b) + a in
  new < U128_MOD ∧ s' = set_wait_bucket (ser u) (<[ser b := new]> bk) s.
Proof.
  unfold store_unbond_wait_list. cbn zeta. split.
  - intros E. inv_ok. done.
  - intros [Hlt ->]. destruct r. rewrite M_bind_Ok. exists (ser b), s.
    rewrite lift_Ok, to_vec_Ok. split; [done|]. rewrite M_bind_Ok. exists (ser u), s.
    rewrite lift_Ok, to_vec_Ok. split; [done|]. rewrite M_bind_Ok.
    exists (wait_bucket (ser u) s), s. split; [done|]. rewrite M_bind_Ok. eexists _, s.
    rewrite lift_Ok, Uint128_add_Ok. split; [done|]. done.
Qed.

(** What removing a list of batches leaves of a user's bucket. *)
Definition without_batches (bs : list N) (bk : gmap (list N) N) : gmap (list N) N :=
  foldl (λ bk b, delete (ser b) bk) bk bs.

Lemma lookup_without_batches bs bk k :
  without_batches bs bk !! k = if decide (k ∈ ser <$> bs) then None else bk !! k.
Proof.
  unfold without_batches. revert bk. induction bs as [|b bs IH]; intros bk; cbn.
  - by rewrite decide_False by apply not_elem_of_nil.
  - rewrite IH, lookup_delete. repeat case_decide; try done; set_solver.
Qed.

Lemma remove_batches_Ok addr bs s r s' :
  remove_batches addr bs s = Ok (r, s') →
  (∀ addr', wait_bucket addr' s' =
     if decide (addr = addr') then without_batches bs (wait_bucket addr' s)
     else wait_bucket addr' s) ∧
  s' = set_wait_map (wait_map s') s.
Proof.
  revert s. induction bs as [|b bs IH]; intros s E; cbn in E.
  - inv_ok. split; [intros addr'; by case_decide | by destruct s].
  - inv_ok. match goal with E : remove_batches _ _ _ = Ok _ |- _ => apply IH in E as [IHw IHs] end.
    split; [|by rewrite IHs].
    intros addr'. rewrite IHw. case_decide as Ha; [subst addr'|];
      rewrite wait_bucket_set; case_decide; done.
Qed.

Lemma remove_batches_total addr bs s : ∃ s', remove_batches addr bs s = Ok ((), s').
Proof.
  revert s. induction bs as [|b bs IH]; intros s; cbn; [by eexists|].
  unfold mbind, M_bind. rewrite to_vec_ser. cbn. apply IH.
Qed.

(** ** The history *)

Lemma read_store_unbond_history i j h s r s' :
  i < U64_MOD → j < U64_MOD →
  store_unbond_history i h s = Ok (r, s') →
  read_unbond_history j s' = if decide (i = j) then Ok h else read_unbond_history j s.
Proof.
  intros Hi Hj E. unfold store_unbond_history in E. inv_ok.
  unfold read_unbond_history. cbn. rewrite lookup_insert.
  case_decide as Hk; case_decide as Hij; subst; try done.
  - apply from_slice_ser.
  - by apply to_be_bytes_inj in Hk.
Qed.

Lemma store_unbond_history_Ok i h s r s' :
  store_unbond_history i h s = Ok (r, s') ↔
  s' = set_history_map (<[to_be_bytes i := ser h]> (history_map s)) s.
Proof.
  unfold store_unbond_history. split; intros E; [by inv_ok|]. subst. destruct r.
  unfold mbind, M_bind. by rewrite to_vec_ser.
Qed.

(** ** Folds over a wait list *)

(** The value a pure function takes at a decoded key. *)
Definition at_key {A} (d : A) (g : u64 → Uint128 → A) (kv : list N * N) : A :=
  match from_slice (A:=u64) kv.1 with Ok b => g b kv.2 | _ => d end.

Lemma fold_entries_sum body acc es x g :
  (∀ acc b v acc', body acc b v = Ok acc' → acc' = acc + g b v) →
  fold_entries body acc es = Ok x → x = acc + sumN (at_key 0 g) es.
Proof.
  intros Hbody. revert acc. induction es as [|[k v] es IH]; intros acc E; cbn in E.
  - inv_ok. cbn. lia.
  - inv_ok. match goal with E : fold_entries _ _ _ = Ok _ |- _ => apply IH in E end.
    match goal with E : body _ _ _ = Ok _ |- _ => apply Hbody in E end.
    rewrite sumN_cons. unfold at_key at 1. cbn.
    match goal with E : from_slice _ = Ok _ |- _ => rewrite E end. lia.
Qed.

(** What a user's entry of a released batch is worth. *)
Definition finished_share (s : Storage) (b : u64) (v : Uint128) : N :=
  match read_unbond_history b s with
  | Ok h => if released h then v * withdraw_rate h / DECIMAL_ONE else 0
  | _ => 0
  end.

(** What all the released batches of a user are worth. *)
Definition finished_amount (u : string) (s : Storage) : N :=
  sumN (at_key 0 (finished_share s)) (map_to_list (wait_bucket (ser u) s)).

Lemma get_finished_amount_Ok u s x : get_finished_amount u s = Ok x → x = finished_amount u s.
Proof.
  unfold get_finished_amount, finished_amount. intros E. inv_ok.
  apply fold_entries_sum with (g := finished_share s) in E.
  - by rewrite range_all in E.
  - intros acc b v acc' E'. unfold if_history, finished_share in *.
    destruct (read_unbond_history b s) as [h| |]; inv_ok; [|lia].
    destruct (released h); inv_ok; lia.
Qed.

(** ** The batches a withdrawal removes *)

Definition releasedb (s : Storage) (b : u64) : bool :=
  match read_unbond_history b s with Ok h => released h | _ => false end.

(** The batch of an entry, when it is released. *)
Definition released_key (s : Storage) (kv : list N * N) : option u64 :=
  at_key None (λ b _, if releasedb s b then Some b else None) kv.

Lemma get_unbond_batches_Ok u s l :
  get_unbond_batches u s = Ok l →
  l = omap (released_key s) (range (wait_bucket (ser u) s) None).
Proof.
  unfold get_unbond_batches. intros E. inv_ok.
  match type of E with fold_entries ?b [] ?es = _ =>
    enough (∀ acc, fold_entries b acc es = Ok l → l = acc ++ omap (released_key s) es)
      as Hgo by by apply Hgo in E end.
  clear E. induction (range _ None) as [|[k v] es IH]; intros acc E; cbn in E.
  - inv_ok. by rewrite app_nil_r.
  - inv_ok. apply IH in E as ->. cbn [omap list_omap]. unfold released_key at 2, at_key.
    cbn. match goal with E : from_slice _ = Ok _ |- _ => rewrite E end.
    match goal with E : if_history _ _ _ _ = Ok _ |- _ => unfold if_history in E; revert E end.
    unfold releasedb. destruct (read_unbond_history _ s) as [h| |]; [|intros; by inv_ok..].
    destruct (released h); intros; inv_ok; by rewrite <- ?app_assoc.
Qed.

Lemma elem_of_get_unbond_batches u s l b :
  get_unbond_batches u s = Ok l →
  b ∈ l ↔ ∃ k v, wait_bucket (ser u) s !! k = Some v ∧ from_slice k = Ok b ∧ releasedb s b.
Proof.
  intros ->%get_unbond_batches_Ok. rewrite list_elem_of_omap. unfold released_key, at_key.
  split.
  - intros ([k v] & Hin & E). apply elem_of_range in Hin as [Hk _]. cbn in E.
    destruct (from_slice k) as [b'| |] eqn:Ek; [|done..].
    destruct (releasedb s b') eqn:Hr; [|done]. injection E as ->.
    exists k, v. rewrite Hr. done.
  - intros (k & v & Hk & Ek & Hr). exists (k, v). cbn. rewrite Ek.
    rewrite (Is_true_true_1 _ Hr). split; [|done]. by apply elem_of_range.
Qed.
End wait_list.
