(* ===== verification/HubSlashing.v ===== *)
(** * Slashing (contracts/anchor_basset_hub/src/contract.rs)

    [query_total_issued], [slashing] and [execute_slashing]: the hub
    compares what it believes is bonded with what the chain reports and
    lowers its books, and the exchange rate, when coins were lost. *)
From S2P Require Import Prelude CwTypes CwMath BassetHub CwApi Reference HubState.

Open Scope N_scope.

Section operations.
  Context `{CwMath, CwApi}.

Definition query_total_issued (deps : Querier) (s : Storage) : StdResult Uint128 :=
  config ← load CONFIG s;
  token ← expect_opt "token contract must have been registered" (token_contract config);
  token_address ← addr_humanize token;
  token_info ← query_token_info deps token_address;
  mret (total_supply token_info).

(** The loop that adds up the delegations in the bonded denom. *)
Fixpoint sum_delegations (coin_denom : string) (actual_total_bonded : Uint128)
    (delegations : list Delegation) : StdResult Uint128 :=
  match delegations with
  | [] => mret actual_total_bonded
  | delegation :: rest =>
      if decide (coin_denom = CwTypes.coin_denom (delegation_amount delegation)) then
        acc ← actual_total_bonded +! coin_amount (delegation_amount delegation);
        sum_delegations coin_denom acc rest
      else sum_delegations coin_denom actual_total_bonded rest
  end.

Definition slashing (deps : Querier) (env : Env) : HubM () :=
  params ← reading (load PARAMETERS);
  let coin_denom := underlying_coin_denom params in
  state ← reading (load STATE);
  let state_total_bonded := total_bond_amount state in
  delegations ← lift (query_all_delegations deps (contract_address env));
  match delegations with
  | [] => mret ()
  | _ =>
      actual_total_bonded ← lift (sum_delegations coin_denom 0 delegations);
      total_issued ← reading (query_total_issued deps);
      batch ← reading (load CURRENT_BATCH);
      let current_requested_fee := requested_with_fee batch in
      if actual_total_bonded <? state_total_bonded then
        update STATE (λ state,
          update_exchange_rate total_issued current_requested_fee
            (with_total_bond_amount actual_total_bonded state))
      else mret ()
  end.

Definition execute_slashing (deps : Querier) (env : Env) : HubM Response :=
  slashing deps env;;
  state ← reading (load STATE);
  mret (mkResponse []
    [attr "action" "check_slashing";
     attr "new_exchange_rate" (Decimal_to_string (exchange_rate state))]).
End operations.

(** ** What slashing does *)

(** The coins of one denom in a list of delegations. *)
Definition bonded_in (denom : string) (ds : list Delegation) : N :=
  sumN (λ d, if decide (denom = coin_denom (delegation_amount d))
             then coin_amount (delegation_amount d) else 0) ds.

Lemma bonded_in_cons denom d ds :
  bonded_in denom (d :: ds) =
  (if decide (denom = coin_denom (delegation_amount d))
   then coin_amount (delegation_amount d) else 0) + bonded_in denom ds.
Proof. done. Qed.

(** The books after a check against [actual] bonded coins. *)
Definition slash_books (actual supply : Uint128) (st : State) : State :=
  if actual <? total_bond_amount st then
    with_exchange_rate (fair_rate actual supply) (with_total_bond_amount actual st)
  else st.

Lemma set_state_id s st : state_cell s = Some st → set_state st s = s.
Proof. destruct s. cbn. by intros ->. Qed.

Lemma slash_books_bond actual supply st :
  total_bond_amount (slash_books actual supply st) = total_bond_amount st `min` actual.
Proof.
  unfold slash_books. destruct (N.ltb_spec actual (total_bond_amount st)); cbn; lia.
Qed.

Section facts.
  Context `{CwMathLaws, CwApiLaws}.

Lemma sum_delegations_Ok denom acc ds x :
  sum_delegations denom acc ds = Ok x → x = acc + bonded_in denom ds.
Proof.
  revert acc. induction ds as [|d ds IH]; intros acc E; cbn in E.
  - inv_ok. cbn. lia.
  - rewrite bonded_in_cons. case_decide; inv_ok; apply IH in E; lia.
Qed.

Lemma sum_delegations_lt denom acc ds x :
  acc < U128_MOD → sum_delegations denom acc ds = Ok x → x < U128_MOD.
Proof.
  revert acc. induction ds as [|d ds IH]; intros acc Hacc E; cbn in E.
  - by inv_ok.
  - case_decide; inv_ok; by eapply IH.
Qed.

Lemma sum_delegations_total denom acc ds :
  acc + bonded_in denom ds < U128_MOD →
  sum_delegations denom acc ds = Ok (acc + bonded_in denom ds).
Proof.
  revert acc. induction ds as [|d ds IH]; intros acc Hlt; cbn [sum_delegations].
  - cbn. f_equal. lia.
  - rewrite bonded_in_cons in *. case_decide.
    + destruct (Uint128_add_spec acc (coin_amount (delegation_amount d))) as [-> _]; [|lia].
      cbn [mbind result_bind]. rewrite IH by lia. f_equal. lia.
    + by rewrite IH by lia.
Qed.

(** The outcome of a successful check, as the books [st'] it leaves. *)
Definition slash_outcome (deps : Querier) (env : Env) (s : Storage) (st st' : State) : Prop :=
  ∃ p ds, parameters_cell s = Some p ∧
    query_all_delegations deps (contract_address env) = Ok ds ∧
    (ds = [] ∧ st' = st ∨
     ds ≠ [] ∧ ∃ issued cb, query_total_issued deps s = Ok issued ∧
       current_batch_cell s = Some cb ∧
       st' = slash_books (bonded_in (underlying_coin_denom p) ds)
               (issued + requested_with_fee cb) st).

Lemma slashing_Ok deps env s u s' :
  slashing deps env s = Ok (u, s') →
  ∃ st st', state_cell s = Some st ∧ slash_outcome deps env s st st' ∧ s' = set_state st' s.
Proof.
  unfold slashing. intros E. inv_ok.
  match goal with H : query_all_delegations _ _ = Ok ?ds |- _ =>
    rename ds into ds', H into Hds end.
  match goal with H : state_cell s = Some ?x |- _ => rename x into st, H into Hst end.
  destruct ds' as [|d ds].
  - inv_ok. exists st, st. split_and!; [done| |by rewrite set_state_id].
    eexists _, []. split_and!; eauto.
  - inv_ok. match goal with E : sum_delegations _ _ _ = Ok _ |- _ =>
      apply sum_delegations_Ok in E; rewrite N.add_0_l in E; subst end.
    eexists st, _. split; [done|]. split.
    { eexists _, (d :: ds). split_and!; [done..|]. right. split; [done|].
      eexists _, _. split_and!; [done..|reflexivity]. }
    unfold slash_books.
    match goal with E : (if ?b then _ else _) _ = Ok _ |- _ => destruct b eqn:Hb end; inv_ok.
    + by same_read.
    + by rewrite set_state_id.
Qed.
End facts.
