(* ===== verification/HubScenario.v ===== *)
(** * A concrete hub

    A small configured hub and the chain it talks to, on which the
    witnesses evaluate the handlers. *)
From S2P Require Import Prelude CwTypes CwMath BassetHub CwApi Reference HubState.

Open Scope N_scope.

Definition demo_params : Parameters :=
  mkParameters 30 "uluna" 2 5000000000000000 DECIMAL_ONE "uusd".

Definition demo_config : Config :=
  mkConfig (canonical "owner") (Some (canonical "reward"))
    (Some (canonical "token")) (Some (canonical "airdrop")).

Definition demo_env (height now : u64) : Env := mkEnv height now "hub".

(** Books with a rate of one, last epoch at time [last]. *)
Definition demo_state (bond : Uint128) (last : u64) : State :=
  mkState DECIMAL_ONE bond 0 0 0 last 0.

Definition demo_validators : gmap (list N) Bytes :=
  <[ser "val1" := ser true]> (<[ser "val2" := ser true]> ∅).

Definition demo_storage (st : State) (cb : CurrentBatch) : Storage :=
  mkStorage (Some demo_config) (Some demo_params) (Some cb) (Some st) ∅ ∅ demo_validators.

Definition luna (n : N) : Coin := mkCoin "uluna" n.

Definition demo_delegations : list Delegation :=
  [mkDelegation "val1" (luna 100); mkDelegation "val2" (luna 300);
   mkDelegation "val3" (luna 50)].

(** A chain that reports the given delegations, supply and hub balance. *)
Definition demo_querier (ds : list Delegation) (supply balance : Uint128) : Querier := {|
  query_all_delegations _ := Ok ds;
  query_delegation _ v := Ok (delegation_amount <$> List.find
    (λ d, bool_decide (delegation_validator d = v)) ds);
  query_all_validators := Ok ["val1"; "val2"; "val3"];
  query_balance _ denom := Ok (mkCoin denom balance);
  query_all_balances _ := Ok [luna balance];
  query_token_info _ := Ok (mkTokenInfo supply);
  query_cw20_balance _ _ := Ok 0;
  query_raw_hub_config _ := Ok demo_config;
  query_tax_rate := Ok 0;
  query_tax_cap _ := Ok 0;
  terra_exchange_rates base ds := Ok (mkExchangeRatesResponse base (mkExchangeRateItem DECIMAL_ONE <$> ds))
|}.

(** The books and the chain of the running example: 450 coins bonded. *)
Definition demo_hub : Storage := demo_storage (demo_state 450 0) (mkCurrentBatch 1 0).
Definition demo_chain : Querier := demo_querier demo_delegations 450 0.

(** Two undelegated batches of 500 tokens each, in which alice (300 and 500)
    and bob (200) wait; the third batch is the current one. *)
Definition demo_batch (b at_time : u64) : UnbondHistory :=
  mkUnbondHistory b at_time 500 DECIMAL_ONE DECIMAL_ONE false.

Definition demo_unbonding : Storage :=
  mkStorage (Some demo_config) (Some demo_params) (Some (mkCurrentBatch 3 0))
    (Some (demo_state 450 20))
    (<[ser "alice" := <[ser 1 := 300]> (<[ser 2 := 500]> ∅)]>
      (<[ser "bob" := <[ser 1 := 200]> ∅]> ∅))
    (<[to_be_bytes 1 := ser (demo_batch 1 10)]>
      (<[to_be_bytes 2 := ser (demo_batch 2 20)]> ∅))
    demo_validators.
