(* ===== verification/HubSlashingSpec.v ===== *)
(** * What a slashing check does

    The exchange rate is the coins per token, rounded down; a slashing
    check ([slashing], [CheckSlashing]) lowers the books to what the chain
    reports, never raises them, touches nothing else and is idempotent. *)
From S2P Require Import Prelude CwTypes CwMath BassetHub CwApi Reference.
From S2P Require Import HubState HubSlashing HubScenario.

Open Scope N_scope.

(** The rate fits a [Decimal] when the bond does. *)
Lemma fair_rate_lt bond supply :
  bond * DECIMAL_ONE < U128_MOD → fair_rate bond supply < U128_MOD.
Proof.
  intros Hlt. unfold fair_rate. destruct (_ || _) eqn:E; [done|].
  apply orb_false_iff in E as [_ Hs]. apply N.eqb_neq in Hs.
  apply N.Div0.div_lt_upper_bound. nia.
Qed.

Section spec.
  Context `{CwMathLaws, CwApiLaws}.

(** A check against a chain that still reports enough changes nothing. *)
Lemma slashing_noop deps env s p st ds issued cb :
  parameters_cell s = Some p → state_cell s = Some st →
  query_all_delegations deps (contract_address env) = Ok ds →
  query_total_issued deps s = Ok issued → current_batch_cell s = Some cb →
  bonded_in (underlying_coin_denom p) ds < U128_MOD →
  total_bond_amount st ≤ bonded_in (underlying_coin_denom p) ds →
  slashing deps env s = Ok ((), s).
Proof.
  intros Hp Hst Hds Hq Hcb Hlt Hle.
  pose proof (sum_delegations_total (underlying_coin_denom p) 0 ds) as Hsum.
  rewrite N.add_0_l in Hsum. specialize (Hsum Hlt).
  unfold slashing. run_ok. destruct ds as [|d ds]; [done|]. run_ok.
  apply N.ltb_ge in Hle. rewrite Hle. run_ok.
Qed.

(** The books after a check against the delegations [ds]. *)
Definition checked_books (p : Parameters) (ds : list Delegation) (supply : N) (st : State) : State :=
  match ds with
  | [] => st
  | _ => slash_books (bonded_in (underlying_coin_denom p) ds) supply st
  end.

(** A check goes through when the queries are answered and the numbers fit. *)
Lemma slashing_total deps env s p st ds issued cb :
  parameters_cell s = Some p → state_cell s = Some st →
  query_all_delegations deps (contract_address env) = Ok ds →
  query_total_issued deps s = Ok issued → current_batch_cell s = Some cb →
  bonded_in (underlying_coin_denom p) ds < U128_MOD →
  issued + requested_with_fee cb < U128_MOD →
  let st' := checked_books p ds (issued + requested_with_fee cb) st in
  total_bond_amount st' * DECIMAL_ONE < U128_MOD →
  slashing deps env s = Ok ((), set_state st' s).
Proof.
  intros Hp Hst Hds Hq Hcb Hlt Hsup st' Hb. destruct ds as [|d ds].
  - unfold slashing. unfold st'. cbn [checked_books]. rewrite set_state_id by done. run_ok. done.
  - unfold st' in *. cbn [checked_books] in *. unfold slash_books in *.
    destruct (N.ltb_spec (bonded_in (underlying_coin_denom p) (d :: ds)) (total_bond_amount st)) as [Hl|Hl].
    + pose proof (sum_delegations_total (underlying_coin_denom p) 0 (d :: ds)) as Hsum.
      rewrite N.add_0_l in Hsum. specialize (Hsum Hlt). unfold slashing. run_ok.
      cbn beta iota. run_ok. apply N.ltb_lt in Hl. rewrite Hl. run_ok; [done|]. by apply fair_rate_lt.
    + rewrite set_state_id by done. by eapply (slashing_noop _ _ _ p st (d :: ds)).
Qed.

(** ** Claims *)

(** The exchange rate the hub stores is the bonded coins per token,
    rounded down at 18 digits: it is at most the true ratio and less than
    one unit below it; it is one when nothing is bonded or issued, and no
    other field of the books changes. *)
Theorem exchange_rate_bracket total_issued requested st st' :
  update_exchange_rate total_issued requested st = Ok st' →
  let supply := total_issued + requested in
  st' = with_exchange_rate (exchange_rate st') st ∧
  (total_bond_amount st = 0 ∨ supply = 0 → exchange_rate st' = DECIMAL_ONE) ∧
  (total_bond_amount st ≠ 0 → supply ≠ 0 →
   supply * exchange_rate st' ≤ total_bond_amount st * DECIMAL_ONE <
   supply * (exchange_rate st' + 1)).
Proof.
  intros (_ & _ & ->)%update_exchange_rate_Ok. cbn. split_and!; [done|..]; unfold fair_rate.
  - intros [->| ->]; [done|]. by rewrite orb_true_r.
  - intros Hb Hs. destruct (N.eqb_spec (total_bond_amount st) 0); [done|].
    destruct (N.eqb_spec (total_issued + requested) 0); [done|]. cbn.
    rewrite N.add_1_r. split; [apply N.Div0.mul_div_le | by apply N.mul_succ_div_gt].
Qed.

(** C22: a slashing check changes nothing but the books.  They stay as they
    are when the chain reports no delegations at all, whatever they say is
    bonded, and when the delegations in the bonded denom reach the recorded
    bond.  Otherwise, when there are delegations and they are below the
    recorded bond, the bond is lowered to them and the rate is recomputed;
    then, while any coin is left, every token is backed at the new rate. *)
Theorem slashing_correct deps env s u s' :
  slashing deps env s = Ok (u, s') →
  ∃ p st st' ds, parameters_cell s = Some p ∧ state_cell s = Some st ∧
    query_all_delegations deps (contract_address env) = Ok ds ∧ s' = set_state st' s ∧
    let actual := bonded_in (underlying_coin_denom p) ds in
    (ds = [] ∨ total_bond_amount st ≤ actual → st' = st) ∧
    (ds ≠ [] → actual < total_bond_amount st →
     ∃ issued cb, query_total_issued deps s = Ok issued ∧ current_batch_cell s = Some cb ∧
       let supply := issued + requested_with_fee cb in
       st' = with_exchange_rate (fair_rate actual supply) (with_total_bond_amount actual st) ∧
       (actual ≠ 0 → supply * exchange_rate st' ≤ total_bond_amount st' * DECIMAL_ONE)).
Proof.
  intros (st & st' & Hst & (p & ds & Hp & Hds & Hcase) & ->)%slashing_Ok.
  exists p, st, st', ds. split_and!; [done..|].
  destruct Hcase as [[-> ->]|(Hne & issued & cb & Hq & Hcb & ->)]; [done|].
  cbn zeta. unfold slash_books. split.
  - intros [?|Hle%N.ltb_ge]; [done|]. by rewrite Hle.
  - intros _ Hlt%N.ltb_lt. rewrite Hlt. exists issued, cb. split_and!; [done..|].
    intros Hnz. cbn. by apply fair_rate_backed.
Qed.

(** Checking twice is checking once: on the same chain a second check
    succeeds and changes nothing. *)
Theorem slashing_idempotent deps env s u s' :
  slashing deps env s = Ok (u, s') → slashing deps env s' = Ok ((), s').
Proof.
  intros E. pose proof E as (st & st' & Hst & (p & ds & Hp & Hds & Hcase) & ->)%slashing_Ok.
  destruct Hcase as [[-> ->]|(Hne & issued & cb & Hq & Hcb & ->)].
  - rewrite set_state_id in * by done. by destruct u.
  - eapply (slashing_noop _ _ _ p _ ds issued cb); try done.
    + clear Hst. unfold slashing in E. inv_ok. simplify_eq.
      match goal with H : query_all_delegations _ _ = Ok ?x, E : match ?x with _ => _ end _ = _ |- _ =>
        rewrite Hds in H; injection H as <- end.
      destruct ds as [|d ds]; [done|]. inv_ok.
      match goal with H : sum_delegations _ _ _ = Ok ?x |- _ =>
        assert (x < U128_MOD) by (by eapply sum_delegations_lt; [|exact H]);
        apply sum_delegations_Ok in H end.
      by simplify_eq.
    + rewrite slash_books_bond. lia.
Qed.
End spec.

(** ** Witnesses *)

(** The chain has lost 45 of the 450 coins. *)
Definition demo_losses : Querier :=
  demo_querier [mkDelegation "val1" (luna 90); mkDelegation "val2" (luna 270);
    mkDelegation "val3" (luna 45)] 450 0.

Lemma exchange_rate_bracket_witness : ∃ st',
  update_exchange_rate 400 100 (demo_state 450 0) = Ok st' ∧
  500 * exchange_rate st' ≤ 450 * DECIMAL_ONE < 500 * (exchange_rate st' + 1).
Proof.
  destruct (update_exchange_rate 400 100 (demo_state 450 0)) as [st'| |] eqn:E;
    [|vm_compute in E; discriminate..].
  exists st'. split; [done|]. apply (exchange_rate_bracket _ _ _ _ E); discriminate.
Defined.

Lemma slashing_correct_witness : ∃ s' st',
  slashing demo_losses (demo_env 7 10) demo_hub = Ok ((), s') ∧ s' = set_state st' demo_hub ∧
  total_bond_amount st' = 405 ∧ 450 * exchange_rate st' ≤ 405 * DECIMAL_ONE.
Proof.
  destruct (slashing demo_losses (demo_env 7 10) demo_hub) as [[[] s']| |] eqn:E;
    [|vm_compute in E; discriminate..].
  destruct (slashing_correct _ _ _ _ _ E)
    as (p & st & st' & ds & [= <-] & [= <-] & [= <-] & -> & _ & Hlost).
  destruct Hlost as (issued & cb & [= <-] & [= <-] & Hst' & Hbacked); [done|done|].
  exists (set_state st' demo_hub), st'. split_and!; [done|done|by rewrite Hst'|].
  assert (total_bond_amount st' = 405) as Hbond by (by rewrite Hst').
  rewrite Hbond in Hbacked. apply Hbacked. discriminate.
Defined.

Lemma slashing_idempotent_witness : ∃ s',
  slashing demo_losses (demo_env 7 10) demo_hub = Ok ((), s') ∧
  slashing demo_losses (demo_env 7 10) s' = Ok ((), s').
Proof.
  destruct (slashing demo_losses (demo_env 7 10) demo_hub) as [[[] s']| |] eqn:E;
    [|vm_compute in E; discriminate..].
  exists s'. split; [done|]. exact (slashing_idempotent _ _ _ _ _ E).
Defined.
