(* ===== verification/HubBond.v ===== *)
(** * Bonding (contracts/anchor_basset_hub/src/bond.rs) *)
From S2P Require Import Prelude CwTypes CwMath BassetHub CwApi Reference.
From S2P Require Import HubMath HubState HubSlashing.

Open Scope N_scope.

Section operations.
  Context `{CwMath, CwApi}.

(** [|x| x.denom == coin_denom && x.amount > Uint128::zero()] *)
Definition is_payment (denom : string) (x : Coin) : bool :=
  bool_decide (coin_denom x = denom) && (0 <? coin_amount x).

Definition execute_bond (deps : Querier) (env : Env) (info : MessageInfo)
    (validator : string) : HubM Response :=
  (* validator must be whitelisted *)
  is_valid ← reading (is_valid_validator validator);
  lift (throw_if (negb is_valid)
    (generic_err "The chosen validator is currently not supported"));;
  params ← reading (load PARAMETERS);
  let coin_denom := underlying_coin_denom params in
  let threshold := er_threshold params in
  let recovery_fee := peg_recovery_fee params in
  (* current batch requested fee is need for accurate exchange rate computation. *)
  current_batch ← reading (load CURRENT_BATCH);
  let requested_with_fee := requested_with_fee current_batch in
  (* coin must have be sent along with transaction and it should be in underlying coin denom *)
  lift (throw_if (1 <? length (funds info))%nat
    (generic_err "More than one coin is sent; only one asset is supported"));;
  payment ← lift (ok_or
    (generic_err (String.app "No " (String.app coin_denom " assets are provided to bond")))
    (List.find (is_payment coin_denom) (funds info)));
  (* check slashing *)
  slashing deps env;;
  state ← reading (load STATE);
  let sender := sender info in
  (* get the total supply *)
  total_supply ← reading (λ s, unwrap_or (query_total_issued deps s) 0);
  (* peg recovery fee should be considered *)
  mint_amount ← lift (decimal_division (coin_amount payment) (exchange_rate state));
  mint_amount_with_fee ←
    (if exchange_rate state <? threshold then
       max_peg_fee ← lift (mint_amount *! recovery_fee);
       issued ← lift (x ← total_supply +! mint_amount; x +! requested_with_fee);
       backing ← lift (total_bond_amount state +! coin_amount payment);
       required_peg_fee ← lift (issued -? backing);
       let peg_fee := max_peg_fee `min` required_peg_fee in
       lift (mint_amount -? peg_fee)
     else mret mint_amount);
  (* total supply should be updated for exchange rate calculation. *)
  total_supply ← lift (total_supply +! mint_amount_with_fee);
  (* exchange rate should be updated for future *)
  update STATE (λ prev_state,
    bond ← total_bond_amount prev_state +! coin_amount payment;
    update_exchange_rate total_supply requested_with_fee
      (with_total_bond_amount bond prev_state));;
  (* issue the basset token for sender *)
  let mint_msg := Cw20_Mint sender mint_amount_with_fee in
  config ← reading (load CONFIG);
  token ← lift (expect_opt "the token contract must have been registered"
                  (token_contract config));
  token_address ← lift (addr_humanize token);
  msg ← lift (to_binary mint_msg);
  mret (mkResponse
    [Staking_Delegate validator payment; Wasm_Execute token_address msg []]
    [attr "action" "mint"; attr "from" sender;
     attr "bonded" (uint_to_string (coin_amount payment));
     attr "minted" (uint_to_string mint_amount_with_fee)]).
End operations.
