(* ===== verification/HubUnbond.v ===== *)
(** * Unbonding and withdrawal (contracts/anchor_basset_hub/src/unbond.rs) *)
From S2P Require Import Prelude CwTypes CwMath BassetHub CwApi Reference.
From S2P Require Import SignedInt HubMath HubState HubSlashing.

Open Scope N_scope.

(** The message of a loop that used up its fuel.  The loops below are shown
    never to return it with the fuel they are given. *)
Definition out_of_fuel : string := "loop out of fuel".

(** [Vec::remove(index)]: the element and the rest; panics out of range. *)
Definition vec_remove {A} (index : nat) (v : list A) : StdResult (A * list A) :=
  match v !! index with
  | Some x => Ok (x, delete index v)
  | None => Panic "removal index should be < len"
  end.

Section operations.
  Context `{CwMath, CwApi}.

(** ** [pick_validator] *)

(** The [while claimed.u128() > 0] loop; an iteration removes a delegation. *)
Fixpoint pick_validator_loop (fuel : nat) (coin_denom : string) (block_height : u64)
    (iteration_index : u64) (claimed : Uint128) (deletable_delegations : list Delegation)
    (messages : list CosmosMsg) : StdResult (list CosmosMsg) :=
  match fuel with
  | O => Panic out_of_fuel
  | S fuel =>
      if 0 <? claimed then
        seed ← u64_add block_height iteration_index;
        random_index ← gen_range seed (length deletable_delegations);
        '(delegation, deletable_delegations) ← vec_remove random_index deletable_delegations;
        let val := coin_amount (delegation_amount delegation) in
        '(undelegated_amount, claimed) ←
          (if claimed <? val then mret (claimed, 0)
           else
             rest ← claimed -? val;
             mret (val, rest));
        let messages :=
          if 0 <? undelegated_amount then
            messages ++ [Staking_Undelegate (delegation_validator delegation)
                           (mkCoin coin_denom undelegated_amount)]
          else messages in
        iteration_index ← u64_add iteration_index 1;
        pick_validator_loop fuel coin_denom block_height iteration_index claimed
          deletable_delegations messages
      else mret messages
  end.

Definition pick_validator (deps : Querier) (claim : Uint128) (delegator : string)
    (block_height : u64) (s : Storage) : StdResult (list CosmosMsg) :=
  params ← load PARAMETERS s;
  let coin_denom := underlying_coin_denom params in
  all_delegations ← expect_res "There must be at least one delegation"
                      (query_all_delegations deps delegator);
  pick_validator_loop (S (S (length all_delegations))) coin_denom block_height 0 claim
    all_delegations [].

(** ** [execute_unbond] *)

Definition execute_unbond (deps : Querier) (env : Env) (amount : Uint128) (sender : string) :
    HubM Response :=
  (* Read params *)
  params ← reading (load PARAMETERS);
  let epoch_period := epoch_period params in
  let threshold := er_threshold params in
  let recovery_fee := peg_recovery_fee params in
  current_batch ← reading (load CURRENT_BATCH);
  (* Check slashing, update state, and calculate the new exchange rate. *)
  slashing deps env;;
  state ← reading (load STATE);
  total_supply ← reading (λ s, unwrap_or (query_total_issued deps s) 0);
  (* Collect all the requests within a epoch period; apply peg recovery fee *)
  amount_with_fee ←
    (if exchange_rate state <? threshold then
       max_peg_fee ← lift (amount *! recovery_fee);
       issued ← lift (total_supply +! requested_with_fee current_batch);
       required_peg_fee ← lift (issued -? total_bond_amount state);
       let peg_fee := max_peg_fee `min` required_peg_fee in
       lift (amount -? peg_fee)
     else mret amount);
  requested ← lift (requested_with_fee current_batch +! amount_with_fee);
  store_unbond_wait_list (id current_batch) sender amount_with_fee;;
  total_supply ← lift (expect_res "the requested can not be more than the total supply"
                         (total_supply -? amount));
  (* Update exchange rate *)
  state ← lift (update_exchange_rate total_supply requested state);
  let current_time := block_time env in
  passed_time ← lift (u64_sub current_time (last_unbonded_time state));
  (* If the epoch period is passed, the undelegate message would be sent. *)
  '(messages, current_batch, state) ←
    (if epoch_period <? passed_time then
       (* Apply the current exchange rate. *)
       undelegation_amount ← lift (requested *! exchange_rate state);
       lift (throw_if (undelegation_amount =? 1)
         (generic_err "Burn amount must be greater than 1 ubluna"));;
       (* Send undelegated requests to possibly more than one validators *)
       undelegated_msgs ← reading (pick_validator deps undelegation_amount
                                     (contract_address env) (block_height env));
       bond ← lift (expect_res
         "undelegation amount can not be more than stored total bonded amount"
         (total_bond_amount state -? undelegation_amount));
       let state := with_total_bond_amount bond state in
       (* Store history for withdraw unbonded *)
       let history := mkUnbondHistory (id current_batch) (block_time env) requested
                        (exchange_rate state) (exchange_rate state) false in
       store_unbond_history (id current_batch) history;;
       (* batch info must be updated to new batch *)
       next ← lift (u64_add (id current_batch) 1);
       mret (undelegated_msgs, mkCurrentBatch next 0,
             with_last_unbonded_time (block_time env) state)
     else mret ([], mkCurrentBatch (id current_batch) requested, state));
  (* Store the new requested_with_fee or id in the current batch *)
  save CURRENT_BATCH current_batch;;
  (* Store state's new exchange rate *)
  save STATE state;;
  (* Send Burn message to token contract *)
  config ← reading (load CONFIG);
  token ← lift (expect_opt "the token contract must have been registered"
                  (token_contract config));
  token_address ← lift (addr_humanize token);
  msg ← lift (to_binary (Cw20_Burn amount));
  mret (mkResponse (messages ++ [Wasm_Execute token_address msg []])
    [attr "action" "burn"; attr "from" sender;
     attr "burnt_amount" (uint_to_string amount);
     attr "unbonded_amount" (uint_to_string amount_with_fee)]).

(** ** [process_withdraw_rate] *)

(** [match read_unbond_history(storage, i) { ... }]: the history of a batch
    that is old enough and not yet released, or [None] for [break]. *)
Definition next_ready (historical_time : u64) (i : u64) (s : Storage) :
    StdResult (option UnbondHistory) :=
  match read_unbond_history i s with
  | Ok h =>
      if historical_time <? time h then mret None
      else if released h then mret None else mret (Some h)
  | Err _ => mret None
  | Panic msg => Panic msg
  end.

(** The first [loop]: the expected amount and the number of ready batches. *)
Fixpoint count_loop (fuel : nat) (historical_time : u64) (i : u64)
    (total_unbonded_amount : Uint128) (batch_count : u64) (s : Storage) :
    StdResult (Uint128 * u64) :=
  match fuel with
  | O => Panic out_of_fuel
  | S fuel =>
      ready ← next_ready historical_time i s;
      match ready with
      | None => mret (total_unbonded_amount, batch_count)
      | Some history =>
          let burnt_amount := amount history in
          let historical_rate := withdraw_rate history in
          unbonded_amount ← burnt_amount *! historical_rate;
          total_unbonded_amount ← total_unbonded_amount +! unbonded_amount;
          batch_count ← u64_add batch_count 1;
          i ← u64_add i 1;
          count_loop fuel historical_time i total_unbonded_amount batch_count s
      end
  end.

(** The new withdraw rate of one batch, from its share of what was lost or
    gained. *)
Definition new_withdraw_rate (history : UnbondHistory) (total_unbonded_amount : Uint128)
    (slashed_amount : SignedInt) : StdResult Decimal :=
  let burnt_amount_of_batch := amount history in
  let historical_rate_of_batch := withdraw_rate history in
  unbonded_amount_of_batch ← burnt_amount_of_batch *! historical_rate_of_batch;
  (* the slashed amount for each batch must be proportional to the unbonded amount of batch *)
  batch_slashing_weight ← unbonded_amount_of_batch /! total_unbonded_amount;
  slashed_amount_of_batch ← magnitude slashed_amount *! batch_slashing_weight;
  (* If slashed amount is negative, there should be summation instead of subtraction. *)
  actual_unbonded_amount_of_batch ←
    (if negative slashed_amount then
       slashed_amount_of_batch ← slashed_amount_of_batch -? 1;
       unbonded_amount_of_batch +! slashed_amount_of_batch
     else
       slashed_amount_of_batch ←
         (if magnitude slashed_amount =? 0 then mret slashed_amount_of_batch
          else slashed_amount_of_batch +! 1);
       d ← from_subtraction unbonded_amount_of_batch slashed_amount_of_batch;
       mret (magnitude d));
  actual_unbonded_amount_of_batch /! burnt_amount_of_batch.

(** The history of a batch once it is released at a rate. *)
Definition release_at (rate : Decimal) (h : UnbondHistory) : UnbondHistory :=
  mkUnbondHistory (batch_id h) (time h) (amount h) (applied_exchange_rate h) rate true.

(** The second [loop]: each ready batch gets its rate and is released. *)
Fixpoint release_loop (fuel : nat) (historical_time : u64) (iterator : u64)
    (total_unbonded_amount : Uint128) (slashed_amount : SignedInt) (state : State) :
    HubM State :=
  match fuel with
  | O => lift (Panic out_of_fuel)
  | S fuel =>
      ready ← reading (next_ready historical_time iterator);
      match ready with
      | None => mret state
      | Some history =>
          rate ← lift (new_withdraw_rate history total_unbonded_amount slashed_amount);
          store_unbond_history iterator (release_at rate history);;
          let state := with_last_processed_batch iterator state in
          iterator ← lift (u64_add iterator 1);
          release_loop fuel historical_time iterator total_unbonded_amount slashed_amount state
      end
  end.

Definition process_withdraw_rate (historical_time : u64) (hub_balance : Uint128) : HubM () :=
  state ← reading (load STATE);
  (* balance change of the hub contract must be checked. *)
  balance_change ← lift (from_subtraction hub_balance (prev_hub_balance state));
  unbonded ← lift (actual_unbonded_amount state +! magnitude balance_change);
  let state := with_actual_unbonded_amount unbonded state in
  let last_processed_batch := last_processed_batch state in
  fuel ← gets (λ s, S (S (size (history_map s))));
  first ← lift (u64_add last_processed_batch 1);
  '(total_unbonded_amount, batch_count) ←
    reading (count_loop fuel historical_time first 0 0);
  state ←
    (if 1 <=? batch_count then
       (* Use signed integer in case of some rogue transfers. *)
       slashed_amount ← lift (from_subtraction total_unbonded_amount
                                (actual_unbonded_amount state));
       first ← lift (u64_add last_processed_batch 1);
       release_loop fuel historical_time first total_unbonded_amount slashed_amount state
     else mret state);
  (* Store state.actual_unbonded_amount for future new batches release *)
  save STATE (with_actual_unbonded_amount 0 state).

(** ** [execute_withdraw_unbonded] *)

Definition execute_withdraw_unbonded (deps : Querier) (env : Env) (info : MessageInfo) :
    HubM Response :=
  let sender_human := sender info in
  (* read params *)
  params ← reading (load PARAMETERS);
  let coin_denom := underlying_coin_denom params in
  historical_time ← lift (u64_sub (block_time env) (unbonding_period params));
  (* query hub balance for process withdraw rate. *)
  balance ← lift (query_balance deps (contract_address env) coin_denom);
  let hub_balance := coin_amount balance in
  (* calculate withdraw rate for user requests *)
  process_withdraw_rate historical_time hub_balance;;
  withdraw_amount ← reading (λ s, unwrap (get_finished_amount sender_human s));
  lift (throw_if (withdraw_amount =? 0)
    (generic_err (String.app "No withdrawable "
       (String.app coin_denom " assets are available yet"))));;
  (* remove the previous batches for the user *)
  deprecated_batches ← reading (get_unbond_batches sender_human);
  remove_unbond_wait_list deprecated_batches sender_human;;
  (* Update previous balance used for calculation in next Luna batch release *)
  prev_balance ← lift (hub_balance -? withdraw_amount);
  update STATE (λ last_state, mret (with_prev_hub_balance prev_balance last_state));;
  (* Send the money to the user *)
  mret (mkResponse [Bank_Send sender_human [mkCoin coin_denom withdraw_amount]]
    [attr "action" "finish_burn"; attr "from" (contract_address env);
     attr "amount" (uint_to_string withdraw_amount)]).
End operations.
