(* ===== verification/HubConfig.v ===== *)
(** * Configuration and whitelist (contracts/anchor_basset_hub/src/config.rs) *)
From S2P Require Import Prelude CwTypes CwMath BassetHub CwApi Reference HubState.

Open Scope N_scope.

Section operations.
  Context `{CwMath, CwApi}.

Definition execute_update_params (info : MessageInfo) (epoch_period unbonding_period : option u64)
    (peg_recovery_fee er_threshold : option Decimal) : HubM Response :=
  (* only owner can send this message. *)
  config ← reading (load CONFIG);
  sender_raw ← lift (addr_canonicalize (sender info));
  lift (throw_if (bool_decide (sender_raw ≠ creator config)) (generic_err "unauthorized"));;
  params ← reading (load PARAMETERS);
  let new_params := mkParameters
    (default (HubState.epoch_period params) epoch_period)
    (underlying_coin_denom params)
    (default (HubState.unbonding_period params) unbonding_period)
    (default (HubState.peg_recovery_fee params) peg_recovery_fee)
    (default (HubState.er_threshold params) er_threshold)
    (reward_denom params) in
  save PARAMETERS new_params;;
  mret (mkResponse [] [attr "action" "update_params"]).

Definition execute_update_config (info : MessageInfo)
    (owner reward_contract token_contract airdrop_registry_contract : option string) :
    HubM Response :=
  (* only owner must be able to send this message. *)
  conf ← reading (load CONFIG);
  sender_raw ← lift (addr_canonicalize (sender info));
  lift (throw_if (bool_decide (sender_raw ≠ creator conf)) (generic_err "unauthorized"));;
  match owner with
  | Some o =>
      owner_raw ← lift (addr_canonicalize o);
      update CONFIG (λ c, mret (mkConfig owner_raw (BassetHub.reward_contract c)
        (BassetHub.token_contract c) (BassetHub.airdrop_registry_contract c)))
  | None => mret ()
  end;;
  messages ←
    match reward_contract with
    | Some reward =>
        reward_raw ← lift (addr_canonicalize reward);
        update CONFIG (λ c, mret (mkConfig (creator c) (Some reward_raw)
          (BassetHub.token_contract c) (BassetHub.airdrop_registry_contract c)));;
        (* register the reward contract for automate reward withdrawal. *)
        mret [Distribution_SetWithdrawAddress reward]
    | None => mret []
    end;
  match token_contract with
  | Some token =>
      token_raw ← lift (addr_canonicalize token);
      update CONFIG (λ c, mret (mkConfig (creator c) (BassetHub.reward_contract c)
        (Some token_raw) (BassetHub.airdrop_registry_contract c)))
  | None => mret ()
  end;;
  match airdrop_registry_contract with
  | Some airdrop =>
      airdrop_raw ← lift (addr_canonicalize airdrop);
      update CONFIG (λ c, mret (mkConfig (creator c) (BassetHub.reward_contract c)
        (BassetHub.token_contract c) (Some airdrop_raw)))
  | None => mret ()
  end;;
  mret (mkResponse messages [attr "action" "update_config"]).

Definition execute_register_validator (deps : Querier) (env : Env) (info : MessageInfo)
    (validator : string) : HubM Response :=
  hub_conf ← reading (load CONFIG);
  sender_raw ← lift (addr_canonicalize (sender info));
  contract_raw ← lift (addr_canonicalize (contract_address env));
  lift (throw_if (bool_decide (creator hub_conf ≠ sender_raw) &&
                  bool_decide (contract_raw ≠ sender_raw)) (generic_err "unauthorized"));;
  (* given validator must be first a validator in the system. *)
  all_validators ← lift (query_all_validators deps);
  let exists_ := existsb (λ val, bool_decide (val = validator)) all_validators in
  lift (throw_if (negb exists_) (generic_err "The specified address is not a validator"));;
  store_white_validators validator;;
  mret (mkResponse []
    [attr "action" "register_validator"; attr "validator" validator]).

Definition execute_deregister_validator (deps : Querier) (env : Env) (info : MessageInfo)
    (validator : string) : HubM Response :=
  token ← reading (load CONFIG);
  sender_raw ← lift (addr_canonicalize (sender info));
  lift (throw_if (bool_decide (creator token ≠ sender_raw)) (generic_err "unauthorized"));;
  validators_before_remove ← reading read_validators;
  lift (throw_if (length validators_before_remove =? 1)%nat
    (generic_err "Cannot remove the last whitelisted validator"));;
  remove_white_validators validator;;
  '(replaced_val, messages) ←
    match query_delegation deps (contract_address env) validator with
    | Ok delegated_amount =>
        validators ← reading read_validators;
        (* redelegate the amount to a random validator. *)
        random_index ← lift (gen_range (block_height env) (length validators));
        replaced_val ← lift (expect_opt "called `Option::unwrap()` on a `None` value"
                               (validators !! random_index));
        match delegated_amount with
        | Some delegation =>
            msg ← lift (to_binary (UpdateGlobalIndex None));
            mret (replaced_val,
              [Staking_Redelegate validator replaced_val delegation;
               Wasm_Execute (contract_address env) msg []])
        | None => mret (replaced_val, [])
        end
    | Err _ => mret (EmptyString, [])
    | Panic msg => lift (Panic msg)
    end;
  mret (mkResponse messages
    [attr "action" "de_register_validator"; attr "validator" validator;
     attr "new-validator" replaced_val]).
End operations.
