(* ===== verification/HubContract.v ===== *)
(** * Entry points of the hub (contracts/anchor_basset_hub/src/contract.rs) *)
From S2P Require Import Prelude CwTypes CwMath BassetAirdrop BassetReward BassetHub CwApi.
From S2P Require Import Reference HubMath HubState HubSlashing HubBond HubUnbond HubConfig.

Open Scope N_scope.

Section operations.
  Context `{CwMath, CwApi}.

Definition instantiate (env : Env) (info : MessageInfo) (msg : BassetHub.InstantiateMsg) :
    HubM Response :=
  _sndr_raw ← lift (addr_canonicalize (sender info));
  payment ← lift (ok_or (generic_err "No uluna assets are provided to bond")
    (List.find (is_payment (im_underlying_coin_denom msg)) (funds info)));
  (* store config *)
  creator ← lift (addr_canonicalize (sender info));
  save CONFIG (mkConfig creator None None None);;
  (* store state *)
  save STATE (mkState DECIMAL_ONE (coin_amount payment) (block_time env) 0 0
    (block_time env) 0);;
  (* instantiate parameters *)
  save PARAMETERS (mkParameters (im_epoch_period msg) (im_underlying_coin_denom msg)
    (im_unbonding_period msg) (im_peg_recovery_fee msg) (im_er_threshold msg)
    (BassetHub.im_reward_denom msg));;
  save CURRENT_BATCH (mkCurrentBatch 1 0);;
  (* register the given validator *)
  register ← lift (unwrap (to_binary (RegisterValidator (im_validator msg))));
  mret (mkResponse
    [Wasm_Execute (contract_address env) register [];
     Staking_Delegate (im_validator msg) payment]
    [attr "register-validator" (im_validator msg);
     attr "bond" (uint_to_string (coin_amount payment))]).

(** CW20 token receive handler. *)
Definition receive_cw20 (deps : Querier) (env : Env) (info : MessageInfo)
    (cw20_msg : Cw20ReceiveMsg) : HubM Response :=
  let contract_addr := sender info in
  match from_binary (receive_msg cw20_msg) with
  | Ok Unbond =>
      (* only token contract can execute this message *)
      conf ← reading (load CONFIG);
      sender_raw ← lift (addr_canonicalize contract_addr);
      token ← lift (expect_opt "the token contract must have been registered"
                      (token_contract conf));
      lift (throw_if (bool_decide (sender_raw ≠ token)) (generic_err "unauthorized"));;
      execute_unbond deps env (receive_amount cw20_msg) (receive_sender cw20_msg)
  | Err err => lift (Err err)
  | Panic msg => lift (Panic msg)
  end.

(** Create withdraw requests for all validators *)
Definition withdraw_all_rewards (deps : Querier) (delegator : Addr) : StdResult (list CosmosMsg) :=
  match query_all_delegations deps delegator with
  | Ok delegations =>
      mret ((λ d, Distribution_WithdrawDelegatorReward (delegation_validator d)) <$> delegations)
  | Err _ => mret []
  | Panic msg => Panic msg
  end.

Definition execute_update_global (deps : Querier) (env : Env)
    (airdrop_hooks : option (list Binary)) : HubM Response :=
  config ← reading (load CONFIG);
  reward ← lift (expect_opt "the reward contract must have been registered"
                   (reward_contract config));
  reward_addr ← lift (addr_humanize reward);
  hook_msgs ←
    match airdrop_hooks with
    | Some hooks =>
        registry ← lift (expect_opt "called `Option::unwrap()` on a `None` value"
                           (airdrop_registry_contract config));
        registry_addr ← lift (addr_humanize registry);
        mret ((λ msg, Wasm_Execute registry_addr msg []) <$> hooks)
    | None => mret []
    end;
  (* Send withdraw message *)
  withdraw_msgs ← lift (withdraw_all_rewards deps (contract_address env));
  (* Send Swap message to reward contract *)
  swap_msg ← lift (unwrap (to_binary SwapToRewardDenom));
  update_msg ← lift (unwrap (to_binary BassetReward.UpdateGlobalIndex));
  (* update state last modified *)
  update STATE (λ last_state,
    mret (with_last_index_modification (block_time env) last_state));;
  mret (mkResponse
    (hook_msgs ++ withdraw_msgs ++
     [Wasm_Execute reward_addr swap_msg []; Wasm_Execute reward_addr update_msg []])
    [attr "action" "update_global_index"]).

Definition claim_airdrop (env : Env) (info : MessageInfo)
    (airdrop_token_contract airdrop_contract airdrop_swap_contract : string)
    (claim_msg swap_msg : Binary) : HubM Response :=
  conf ← reading (load CONFIG);
  sender_raw ← lift (addr_canonicalize (sender info));
  airdrop_reg_raw ← lift (expect_opt "called `Option::unwrap()` on a `None` value"
                            (airdrop_registry_contract conf));
  airdrop_reg ← lift (addr_humanize airdrop_reg_raw);
  lift (throw_if (bool_decide (airdrop_reg_raw ≠ sender_raw))
    (generic_err (String.app "Sender must be " airdrop_reg)));;
  hook ← lift (to_binary (SwapHook airdrop_token_contract airdrop_swap_contract swap_msg));
  mret (mkResponse
    [Wasm_Execute airdrop_contract claim_msg [];
     Wasm_Execute (contract_address env) hook []] []).

Definition swap_hook (deps : Querier) (env : Env) (info : MessageInfo)
    (airdrop_token_contract airdrop_swap_contract : string) (swap_msg : Binary) :
    HubM Response :=
  lift (throw_if (bool_decide (sender info ≠ contract_address env))
    (generic_err "unauthorized"));;
  balance ← lift (query_cw20_balance deps airdrop_token_contract (contract_address env));
  lift (throw_if (balance =? 0)
    (generic_err (String.app "There is no balance for " (String.app (contract_address env)
      (String.app " in airdrop token contract " airdrop_token_contract)))));;
  send ← lift (to_binary (Cw20_Send airdrop_swap_contract balance swap_msg));
  mret (mkResponse [Wasm_Execute airdrop_token_contract send []]
    [attr "action" "swap_airdrop_token"; attr "token_contract" airdrop_token_contract;
     attr "swap_amount" (uint_to_string balance)]).

Definition execute (deps : Querier) (env : Env) (info : MessageInfo)
    (msg : BassetHub.ExecuteMsg) : HubM Response :=
  match msg with
  | Receive msg => receive_cw20 deps env info msg
  | Bond validator => execute_bond deps env info validator
  | BassetHub.UpdateGlobalIndex airdrop_hooks => execute_update_global deps env airdrop_hooks
  | WithdrawUnbonded => execute_withdraw_unbonded deps env info
  | RegisterValidator validator => execute_register_validator deps env info validator
  | DeregisterValidator validator => execute_deregister_validator deps env info validator
  | CheckSlashing => execute_slashing deps env
  | UpdateParams epoch_period unbonding_period peg_recovery_fee er_threshold =>
      execute_update_params info epoch_period unbonding_period peg_recovery_fee er_threshold
  | BassetHub.UpdateConfig owner reward_contract token_contract airdrop_registry_contract =>
      execute_update_config info owner reward_contract token_contract airdrop_registry_contract
  | SwapHook airdrop_token_contract airdrop_swap_contract swap_msg =>
      swap_hook deps env info airdrop_token_contract airdrop_swap_contract swap_msg
  | ClaimAirdrop airdrop_token_contract airdrop_contract airdrop_swap_contract claim_msg
      swap_msg =>
      claim_airdrop env info airdrop_token_contract airdrop_contract airdrop_swap_contract
        claim_msg swap_msg
  end.

(** ** Queries *)

Definition humanize_opt (o : option CanonicalAddr) : StdResult (option string) :=
  match o with
  | Some c => a ← unwrap (addr_humanize c); mret (Some a)
  | None => mret None
  end.

Definition query_config (s : Storage) : StdResult BassetHub.ConfigResponse :=
  config ← load CONFIG s;
  reward ← humanize_opt (reward_contract config);
  token ← humanize_opt (token_contract config);
  airdrop ← humanize_opt (airdrop_registry_contract config);
  owner ← addr_humanize (creator config);
  mret (mkConfigResponse owner reward token airdrop).

Definition query_state (s : Storage) : StdResult BassetHub.StateResponse :=
  state ← load STATE s;
  mret (BassetHub.mkStateResponse (exchange_rate state) (total_bond_amount state)
    (last_index_modification state) (prev_hub_balance state) (actual_unbonded_amount state)
    (last_unbonded_time state) (last_processed_batch state)).

Definition query_white_validators (s : Storage) : StdResult WhitelistedValidatorsResponse :=
  validators ← read_valid_validators s;
  mret (mkWhitelistedValidatorsResponse validators).

Definition query_current_batch (s : Storage) : StdResult CurrentBatchResponse :=
  current_batch ← load CURRENT_BATCH s;
  mret (mkCurrentBatchResponse (id current_batch) (requested_with_fee current_batch)).

Definition query_withdrawable_unbonded (address : string) (env : Env) (s : Storage) :
    StdResult WithdrawableUnbondedResponse :=
  params ← load PARAMETERS s;
  historical_time ← u64_sub (block_time env) (unbonding_period params);
  all_requests ← query_get_finished_amount address historical_time s;
  mret (mkWithdrawableUnbondedResponse all_requests).

Definition query_params (s : Storage) : StdResult Parameters := load PARAMETERS s.

Definition query_unbond_requests (address : string) (s : Storage) :
    StdResult UnbondRequestsResponse :=
  requests ← get_unbond_requests address s;
  mret (mkUnbondRequestsResponse address requests).

Definition query_unbond_requests_limitation (start : option u64) (limit : option u32)
    (s : Storage) : StdResult AllHistoryResponse :=
  requests ← all_unbond_history start limit s;
  mret (mkAllHistoryResponse requests).

(** The answer to a query, before it is serialised. *)
Inductive QueryResponse :=
  | Answer_Config (r : BassetHub.ConfigResponse)
  | Answer_State (r : BassetHub.StateResponse)
  | Answer_WhitelistedValidators (r : WhitelistedValidatorsResponse)
  | Answer_CurrentBatch (r : CurrentBatchResponse)
  | Answer_WithdrawableUnbonded (r : WithdrawableUnbondedResponse)
  | Answer_Parameters (r : Parameters)
  | Answer_UnbondRequests (r : UnbondRequestsResponse)
  | Answer_AllHistory (r : AllHistoryResponse).

Definition query (env : Env) (msg : BassetHub.QueryMsg) (s : Storage) : StdResult QueryResponse :=
  match msg with
  | BassetHub.QueryMsg_Config => Answer_Config <$> query_config s
  | BassetHub.QueryMsg_State => Answer_State <$> query_state s
  | QueryMsg_CurrentBatch => Answer_CurrentBatch <$> query_current_batch s
  | QueryMsg_WhitelistedValidators =>
      Answer_WhitelistedValidators <$> query_white_validators s
  | QueryMsg_WithdrawableUnbonded address =>
      Answer_WithdrawableUnbonded <$> query_withdrawable_unbonded address env s
  | QueryMsg_Parameters => Answer_Parameters <$> query_params s
  | QueryMsg_UnbondRequests address =>
      Answer_UnbondRequests <$> query_unbond_requests address s
  | QueryMsg_AllHistory start_from limit =>
      Answer_AllHistory <$> query_unbond_requests_limitation start_from limit s
  end.
End operations.
