(* ===== verification/HubPick.v ===== *)
(** * Choosing the validators to undelegate from

    [pick_validator] of unbond.rs draws delegations at random and empties
    each one until the claim is met.  Whatever the random numbers are, the
    messages undelegate exactly the claim, from distinct delegations, and
    never more than a delegation holds; the loop ends after at most one
    iteration per delegation. *)
From S2P Require Import Prelude CwTypes CwMath BassetHub CwApi Reference.
From S2P Require Import HubState HubScenario HubUnbond.

Open Scope N_scope.

(** The coins of a delegation, and of all of them. *)
Definition delegated (d : Delegation) : N := coin_amount (delegation_amount d).
Definition total_delegated (ds : list Delegation) : N := sumN delegated ds.

(** A message that undelegates [a] coins of delegation [d]. *)
Definition undelegate_msg (denom : string) (pick : Delegation * N) : CosmosMsg :=
  Staking_Undelegate (delegation_validator pick.1) (mkCoin denom pick.2).

Lemma vec_remove_Ok {A} i (v : list A) x rest :
  vec_remove i v = Ok (x, rest) → v ≡ₚ x :: rest.
Proof.
  unfold vec_remove. destruct (v !! i) as [y|] eqn:E; [|done].
  intros [= -> <-]. by apply delete_Permutation.
Qed.

Lemma vec_remove_total {A} i (v : list A) :
  (i < length v)%nat → ∃ x rest, vec_remove i v = Ok (x, rest) ∧ v ≡ₚ x :: rest.
Proof.
  intros Hi. destruct (lookup_lt_is_Some_2 v i Hi) as [x E].
  exists x, (delete i v). unfold vec_remove. rewrite E.
  split; [done|]. by apply delete_Permutation.
Qed.

Section pick.
  Context `{CwMathLaws, CwApiLaws}.
  Implicit Types (ds : list Delegation) (msgs : list CosmosMsg).

(** A valid choice: distinct delegations, each within what it holds, that
    add up to the claim. *)
Definition valid_picks (claim : N) ds (picks : list (Delegation * N)) : Prop :=
  picks.*1 ⊆+ ds ∧ sumN snd picks = claim ∧
  Forall (λ pick, 0 < pick.2 ≤ delegated pick.1) picks.

(** One iteration: what is taken from the delegation that was drawn. *)
Definition taken (claimed : N) (d : Delegation) : N :=
  if claimed <? delegated d then claimed else delegated d.

Lemma taken_step claimed d :
  (if claimed <? delegated d then mret (claimed, 0)
   else rest ← claimed -? delegated d; mret (delegated d, rest)) =
  Ok (taken claimed d, claimed - taken claimed d).
Proof.
  unfold taken. destruct (N.ltb_spec claimed (delegated d)).
  - cbn. by rewrite N.sub_diag.
  - destruct (Uint128_checked_sub_spec claimed (delegated d)) as [-> _]; done.
Qed.

Lemma pick_validator_loop_picks fuel denom h i claimed ds acc msgs :
  pick_validator_loop fuel denom h i claimed ds acc = Ok msgs →
  ∃ picks, valid_picks claimed ds picks ∧ msgs = acc ++ (undelegate_msg denom <$> picks).
Proof.
  revert i claimed ds acc. induction fuel as [|fuel IH]; intros i claimed ds acc E; [done|].
  cbn [pick_validator_loop] in E. destruct (N.ltb_spec 0 claimed) as [Hc|Hc].
  - inv_ok. destruct x1 as [d rest]. fold (delegated d) in E. rewrite taken_step in E. inv_ok.
    match goal with H : vec_remove _ _ = Ok _ |- _ => apply vec_remove_Ok in H as Hperm end.
    apply IH in E as (picks & (Hsub & Hsum & Hall) & ->).
    assert (taken claimed d ≤ claimed ∧ taken claimed d ≤ delegated d).
    { unfold taken. destruct (N.ltb_spec claimed (delegated d)); lia. }
    unfold valid_picks. destruct (N.ltb_spec 0 (taken claimed d)).
    + exists ((d, taken claimed d) :: picks). split_and!.
      * cbn. rewrite Hperm. by apply submseteq_skip.
      * rewrite sumN_cons, Hsum. cbn. lia.
      * constructor; [cbn; lia|done].
      * by rewrite <- app_assoc.
    + exists picks. split_and!; [|lia|done|done].
      rewrite Hperm. by apply submseteq_cons.
  - inv_ok. exists []. unfold valid_picks. split_and!; [apply submseteq_nil_l|cbn; lia|constructor|].
    by rewrite app_nil_r.
Qed.

Lemma pick_validator_loop_total fuel denom h i claimed ds acc :
  (length ds < fuel)%nat → claimed ≤ total_delegated ds →
  h + i + N.of_nat (length ds) < U64_MOD →
  ∃ msgs, pick_validator_loop fuel denom h i claimed ds acc = Ok msgs.
Proof.
  revert i claimed ds acc. induction fuel as [|fuel IH]; intros i claimed ds acc Hf Hc Hu; [lia|].
  cbn [pick_validator_loop]. destruct (N.ltb_spec 0 claimed) as [Hpos|]; [|by eexists].
  destruct ds as [|d0 ds0]; [cbn in Hc; lia|]. remember (d0 :: ds0) as ds eqn:Eds.
  assert (length ds ≠ 0%nat) as Hne by (subst; done).
  rewrite (u64_add_lt h i) by lia. cbn [mbind result_bind].
  destruct (gen_range_lt (h + i) (length ds) Hne) as (r & -> & Hr). cbn [mbind result_bind].
  destruct (vec_remove_total r ds Hr) as (d & rest & -> & Hperm). cbn [mbind result_bind].
  fold (delegated d). rewrite taken_step. cbn [mbind result_bind].
  assert (length ds = S (length rest)) as Hlen by by rewrite Hperm.
  rewrite (u64_add_lt i 1) by lia. cbn [mbind result_bind].
  apply IH; [lia| |lia].
  unfold total_delegated in *. rewrite Hperm, sumN_cons in Hc.
  unfold taken. destruct (N.ltb_spec claimed (delegated d)); lia.
Qed.

Lemma pick_validator_loop_panics fuel denom h i claimed ds acc :
  total_delegated ds < claimed →
  is_Panic (pick_validator_loop fuel denom h i claimed ds acc).
Proof.
  revert i claimed ds acc. induction fuel as [|fuel IH]; intros i claimed ds acc Hc; [by eexists|].
  cbn [pick_validator_loop]. destruct (N.ltb_spec 0 claimed) as [Hpos|]; [|lia].
  destruct (u64_add_cases h i) as [->|[msg ->]]; [|by eexists]. cbn [mbind result_bind].
  destruct (decide (length ds = 0%nat)) as [Hz|Hne].
  { rewrite Hz. destruct (gen_range_empty (h + i)) as [msg ->]. by eexists. }
  destruct (gen_range_lt (h + i) (length ds) Hne) as (r & -> & Hr). cbn [mbind result_bind].
  destruct (vec_remove_total r ds Hr) as (d & rest & -> & Hperm). cbn [mbind result_bind].
  fold (delegated d). rewrite taken_step. cbn [mbind result_bind].
  destruct (u64_add_cases i 1) as [->|[msg ->]]; [|by eexists]. cbn [mbind result_bind].
  apply IH. unfold total_delegated in *. rewrite Hperm, sumN_cons in Hc.
  unfold taken. destruct (N.ltb_spec claimed (delegated d)); lia.
Qed.

Lemma pick_validator_loop_fuel fuel fuel' denom h i claimed ds acc :
  (length ds < fuel)%nat → (fuel ≤ fuel')%nat →
  pick_validator_loop fuel' denom h i claimed ds acc =
  pick_validator_loop fuel denom h i claimed ds acc.
Proof.
  revert fuel' i claimed ds acc.
  induction fuel as [|fuel IH]; intros [|fuel'] i claimed ds acc Hf Hle; try lia.
  cbn [pick_validator_loop]. destruct (N.ltb_spec 0 claimed) as [Hpos|]; [|done].
  destruct (u64_add h i) as [seed| |]; [|done..]. cbn [mbind result_bind].
  destruct (gen_range seed (length ds)) as [r| |] eqn:Er; [|done..]. cbn [mbind result_bind].
  apply gen_range_Ok in Er.
  destruct (vec_remove_total r ds Er) as (d & rest & -> & Hperm). cbn [mbind result_bind].
  fold (delegated d). rewrite taken_step. cbn [mbind result_bind].
  destruct (u64_add i 1); [|done..]. cbn [mbind result_bind].
  apply IH; [|lia]. apply Permutation_length in Hperm. cbn in Hperm. lia.
Qed.

Lemma pick_validator_Ok deps claim delegator h s msgs :
  pick_validator deps claim delegator h s = Ok msgs →
  ∃ p ds picks, parameters_cell s = Some p ∧ query_all_delegations deps delegator = Ok ds ∧
    valid_picks claim ds picks ∧ msgs = undelegate_msg (underlying_coin_denom p) <$> picks.
Proof.
  unfold pick_validator. intros E. inv_ok.
  apply pick_validator_loop_picks in E as (picks & Hpicks & ->). eauto 7.
Qed.

(** ** Claims *)

(** C23: whatever delegations are drawn, the messages [pick_validator]
    returns undelegate exactly the claim, from distinct delegations of the
    hub, and never more than a delegation holds. *)
Theorem pick_validator_exact deps claim delegator h s msgs :
  pick_validator deps claim delegator h s = Ok msgs →
  ∃ p ds picks, parameters_cell s = Some p ∧ query_all_delegations deps delegator = Ok ds ∧
    valid_picks claim ds picks ∧ msgs = undelegate_msg (underlying_coin_denom p) <$> picks.
Proof. apply pick_validator_Ok. Qed.

(** [pick_validator] returns a choice whenever the delegations cover the
    claim and panics when they do not. *)
Theorem pick_validator_complete deps claim delegator h s p ds :
  parameters_cell s = Some p → query_all_delegations deps delegator = Ok ds →
  h + N.of_nat (length ds) < U64_MOD →
  (claim ≤ total_delegated ds → is_Ok (pick_validator deps claim delegator h s)) ∧
  (total_delegated ds < claim → is_Panic (pick_validator deps claim delegator h s)).
Proof.
  intros Hp Hds Hh. unfold pick_validator, load, expect_res. cbn [item_get PARAMETERS].
  rewrite Hp, Hds. cbn [ok_or mbind result_bind]. split; intros Hc.
  - apply pick_validator_loop_total; [lia|done|lia].
  - by apply pick_validator_loop_panics.
Qed.

(** The [while] loop of [pick_validator] ends within one iteration per
    delegation: more fuel than the definition gives it changes nothing. *)
Theorem pick_validator_loop_terminates fuel denom h i claimed ds acc :
  (S (S (length ds)) ≤ fuel)%nat →
  pick_validator_loop fuel denom h i claimed ds acc =
  pick_validator_loop (S (S (length ds))) denom h i claimed ds acc.
Proof. intros Hf. apply pick_validator_loop_fuel; lia. Qed.
End pick.

(** ** Witnesses *)

Lemma pick_validator_exact_witness : ∃ msgs picks,
  pick_validator demo_chain 320 "hub" 7 demo_hub = Ok msgs ∧
  valid_picks 320 demo_delegations picks.
Proof.
  destruct (pick_validator demo_chain 320 "hub" 7 demo_hub) as [msgs| |] eqn:E;
    [|vm_compute in E; discriminate..].
  destruct (pick_validator_exact _ _ _ _ _ _ E) as (p & ds & picks & _ & [= <-] & Hpicks & _).
  by exists msgs, picks.
Defined.

Lemma pick_validator_complete_witness :
  is_Ok (pick_validator demo_chain 450 "hub" 7 demo_hub) ∧
  is_Panic (pick_validator demo_chain 451 "hub" 7 demo_hub).
Proof.
  split.
  - apply (pick_validator_complete demo_chain 450 "hub" 7 demo_hub demo_params demo_delegations
      eq_refl eq_refl); vm_compute; [reflexivity|discriminate].
  - apply (pick_validator_complete demo_chain 451 "hub" 7 demo_hub demo_params demo_delegations
      eq_refl eq_refl); vm_compute; reflexivity.
Defined.

Lemma pick_validator_loop_terminates_witness :
  pick_validator_loop 9 "uluna" 7 0 320 demo_delegations [] =
  pick_validator_loop 5 "uluna" 7 0 320 demo_delegations [].
Proof. apply (pick_validator_loop_terminates 9). cbn. lia. Defined.
