(* ===== verification/HubBondSpec.v ===== *)
(** * What bonding does

    The effect of [execute_bond] (HubBond.v) as one equation on the books,
    and what follows for the holders: the tokens minted are worth the
    payment, and the peg recovery fee never lifts the rate above one. *)
From S2P Require Import Prelude CwTypes CwMath BassetHub CwApi Reference.
From S2P Require Import HubMath HubState HubSlashing HubScenario HubSlashingSpec HubBond.

Open Scope N_scope.

Ltac inv_ok_hook ::=
  first [inv_cw_types | inv_cw_math | inv_basset_hub | inv_cw_api | inv_hub_math].

(** The fee on [minted] tokens: none at or above the threshold, otherwise the
    configured share, capped by what the peg is short of. *)
Definition recovery_fee (p : Parameters) (rate minted deficit : N) : N :=
  if rate <? er_threshold p then (minted * peg_recovery_fee p / DECIMAL_ONE) `min` deficit
  else 0.

Lemma recovery_fee_deficit p rate minted deficit :
  recovery_fee p rate minted deficit ≤ deficit.
Proof. unfold recovery_fee. destruct (_ <? _); lia. Qed.

Lemma fair_rate_at_most_one bond supply :
  bond ≤ supply → fair_rate bond supply ≤ DECIMAL_ONE.
Proof.
  intros Hle. unfold fair_rate.
  destruct (N.eqb_spec bond 0); [done|]. destruct (N.eqb_spec supply 0); [done|]. cbn.
  apply N.Div0.div_le_upper_bound. nia.
Qed.

Section spec.
  Context `{CwMathLaws, CwApiLaws}.

(** The supply of the token, zero when the query fails. *)
Definition supply_or_zero (deps : Querier) (s : Storage) : N :=
  match query_total_issued deps s with Ok x => x | _ => 0 end.

Lemma unwrap_or_supply deps s x :
  unwrap_or (query_total_issued deps s) 0 = Ok x → x = supply_or_zero deps s.
Proof. unfold supply_or_zero. destruct (query_total_issued deps s); cbn; congruence. Qed.

Lemma supply_or_zero_set_state deps st s :
  supply_or_zero deps (set_state st s) = supply_or_zero deps s.
Proof. done. Qed.

(** The books after a payment [a] that minted [m] tokens. *)
Definition bond_books (a m supply requested : N) (st : State) : State :=
  with_exchange_rate (fair_rate (total_bond_amount st + a) (supply + m + requested))
    (with_total_bond_amount (total_bond_amount st + a) st).

(** The tokens minted for [a] coins: the payment at the current rate, less
    the recovery fee. *)
Definition minted_before_fee (st : State) (a : N) : N :=
  a * DECIMAL_FRACTIONAL / coarse_rate (exchange_rate st).
Definition minted_for (p : Parameters) (st : State) (supply requested a : N) : N :=
  let m := minted_before_fee st a in
  m - recovery_fee p (exchange_rate st) m (supply + m + requested - (total_bond_amount st + a)).

Lemma minted_value st a :
  coarse_rate (exchange_rate st) ≠ 0 →
  minted_before_fee st a * exchange_rate st ≤
  a * DECIMAL_ONE + minted_before_fee st a * DECIMAL_FRACTIONAL.
Proof. apply coarse_quotient_value. Qed.

(** The tokens that are issued or wait in the current batch are backed. *)
Definition backed (supply : N) (s : Storage) : Prop :=
  ∃ st cb, state_cell s = Some st ∧ current_batch_cell s = Some cb ∧
    (supply + requested_with_fee cb) * exchange_rate st ≤ total_bond_amount st * DECIMAL_ONE.
(** A payment that a bond accepts: one coin, of the bonded denom, not zero. *)
Definition accepted_payment (p : Parameters) (info : MessageInfo) (c : Coin) : Prop :=
  funds info = [c] ∧ coin_denom c = underlying_coin_denom p ∧ 0 < coin_amount c.

Definition whitelisted (v : string) (s : Storage) : Prop := is_Some (validators s !! ser v).

Lemma is_valid_validator_eq v s :
  is_valid_validator v s = Ok (bool_decide (whitelisted v s)).
Proof.
  unfold is_valid_validator, whitelisted. rewrite to_vec_ser. cbn.
  destruct (validators s !! ser v); [by rewrite bool_decide_eq_true_2|].
  by rewrite bool_decide_eq_false_2 by (intros [? [=]]).
Qed.

Lemma find_payment p info c :
  (1 <? length (funds info))%nat = false →
  List.find (is_payment (underlying_coin_denom p)) (funds info) = Some c →
  accepted_payment p info c.
Proof.
  unfold accepted_payment. intros Hlen Hf. apply Nat.ltb_ge in Hlen.
  destruct (funds info) as [|c' [|]]; cbn in *; [done| |lia].
  destruct (is_payment _ c') eqn:Hp; [|done]. injection Hf as ->.
  unfold is_payment in Hp. apply andb_true_iff in Hp as [Hd Ha].
  apply bool_decide_eq_true_1 in Hd. apply N.ltb_lt in Ha. done.
Qed.

(** Every successful bond, on the books [st] that the slashing check left. *)
Definition bond_effect (deps : Querier) (env : Env) (info : MessageInfo) (v : string)
    (s : Storage) (resp : Response) (s' : Storage) : Prop :=
  ∃ p cb st cfg raw token c,
    parameters_cell s = Some p ∧ current_batch_cell s = Some cb ∧
    config_cell s = Some cfg ∧ token_contract cfg = Some raw ∧ addr_humanize raw = Ok token ∧
    whitelisted v s ∧ accepted_payment p info c ∧
    slashing deps env s = Ok ((), set_state st s) ∧
    let supply := supply_or_zero deps s in
    let requested := requested_with_fee cb in
    let m := minted_for p st supply requested (coin_amount c) in
    coarse_rate (exchange_rate st) ≠ 0 ∧
    (exchange_rate st < er_threshold p →
     total_bond_amount st + coin_amount c ≤
       supply + minted_before_fee st (coin_amount c) + requested) ∧
    s' = set_state (bond_books (coin_amount c) m supply requested st) s ∧
    messages resp = [Staking_Delegate v c; Wasm_Execute token (ser (Cw20_Mint (sender info) m)) []].

(** The block that takes the recovery fee off [m] tokens. *)
Lemma bond_fee_Ok p st supply requested a m (s s1 : Storage) x :
  (if exchange_rate st <? er_threshold p then
     max_peg_fee ← lift (m *! peg_recovery_fee p);
     issued ← lift (x ← supply +! m; x +! requested);
     backing ← lift (total_bond_amount st +! a);
     required_peg_fee ← lift (issued -? backing);
     lift (m -? max_peg_fee `min` required_peg_fee)
   else mret (M:=HubM) m) s = Ok (x, s1) →
  s1 = s ∧
  x = m - recovery_fee p (exchange_rate st) m (supply + m + requested - (total_bond_amount st + a)) ∧
  (exchange_rate st < er_threshold p → total_bond_amount st + a ≤ supply + m + requested).
Proof.
  unfold recovery_fee. destruct (N.ltb_spec (exchange_rate st) (er_threshold p)); intros E; inv_ok.
  - done.
  - split_and!; [done|lia|lia].
Qed.

Lemma execute_bond_Ok deps env info v s resp s' :
  execute_bond deps env info v s = Ok (resp, s') → bond_effect deps env info v s resp s'.
Proof.
  unfold execute_bond. intros E. rewrite M_bind_Ok in E. destruct E as (valid & s1 & E1 & E).
  apply reading_Ok in E1 as [E1 ->]. rewrite is_valid_validator_eq in E1. injection E1 as <-.
  inv_ok.
  match goal with H : negb _ = false |- _ =>
    apply negb_false_iff, bool_decide_eq_true_1 in H; rename H into Hv end.
  match goal with H : (1 <? _)%nat = false, F : List.find _ _ = Some _ |- _ =>
    pose proof (find_payment _ _ _ H F) as Hpay end.
  match goal with H : slashing _ _ _ = Ok (?u, _) |- _ => pose proof H as Hsl; destruct u;
    apply slashing_Ok in H as (st0 & st & Hst0 & _ & ->) end.
  match goal with H : (if _ then _ else _) _ = Ok _ |- _ =>
    apply bond_fee_Ok in H as (-> & -> & Hpeg) end.
  match goal with H : unwrap_or _ _ = Ok _ |- _ => apply unwrap_or_supply in H as -> end.
  cbn [state_cell set_state config_cell] in *. simplify_eq.
  unfold bond_effect. do 7 eexists. split_and!; try eassumption; reflexivity.
Qed.

(** When a bond goes through.  The hub is connected to a token, the
    validator is whitelisted, one coin is paid, and the chain answers; with
    the books [st] after the slashing check the rate is at least 10^-9, the
    fee is at most one and, below the threshold, the bond with the payment
    does not exceed the tokens; the numbers fit 128 bits. *)
Definition bond_enabled (deps : Querier) (env : Env) (info : MessageInfo) (v : string)
    (s : Storage) : Prop :=
  ∃ p cb st0 cfg raw token c supply ds,
    parameters_cell s = Some p ∧ current_batch_cell s = Some cb ∧ state_cell s = Some st0 ∧
    config_cell s = Some cfg ∧ token_contract cfg = Some raw ∧ addr_humanize raw = Ok token ∧
    whitelisted v s ∧ accepted_payment p info c ∧
    query_total_issued deps s = Ok supply ∧
    query_all_delegations deps (contract_address env) = Ok ds ∧
    bonded_in (underlying_coin_denom p) ds < U128_MOD ∧
    let st := checked_books p ds (supply + requested_with_fee cb) st0 in
    let m := minted_before_fee st (coin_amount c) in
    DECIMAL_FRACTIONAL ≤ exchange_rate st ∧
    (exchange_rate st < er_threshold p →
     total_bond_amount st + coin_amount c ≤ supply + m + requested_with_fee cb) ∧
    peg_recovery_fee p ≤ DECIMAL_ONE ∧ exchange_rate st < U128_MOD ∧
    (total_bond_amount st + coin_amount c) * DECIMAL_ONE < U128_MOD ∧
    coin_amount c * DECIMAL_ONE / coarse_rate (exchange_rate st) < U128_MOD ∧
    supply + m + requested_with_fee cb < U128_MOD.

Lemma bond_fee_total p st supply requested a m (s : Storage) :
  peg_recovery_fee p ≤ DECIMAL_ONE →
  (exchange_rate st < er_threshold p → total_bond_amount st + a ≤ supply + m + requested) →
  supply + m + requested < U128_MOD →
  (if exchange_rate st <? er_threshold p then
     max_peg_fee ← lift (m *! peg_recovery_fee p);
     issued ← lift (x ← supply +! m; x +! requested);
     backing ← lift (total_bond_amount st +! a);
     required_peg_fee ← lift (issued -? backing);
     lift (m -? max_peg_fee `min` required_peg_fee)
   else mret (M:=HubM) m) s =
  Ok (m - recovery_fee p (exchange_rate st) m (supply + m + requested - (total_bond_amount st + a)), s).
Proof.
  intros Hfee Hpeg Hlt. unfold recovery_fee.
  assert (m * peg_recovery_fee p / DECIMAL_ONE ≤ m) as Hm.
  { apply N.Div0.div_le_upper_bound. nia. }
  destruct (N.ltb_spec (exchange_rate st) (er_threshold p)); [|by rewrite N.sub_0_r].
  specialize (Hpeg ltac:(done)). run_ok; lia.
Qed.

Lemma execute_bond_total deps env info v s :
  bond_enabled deps env info v s → is_Ok (execute_bond deps env info v s).
Proof.
  intros (p & cb & st0 & cfg & raw & token & c & supply & ds & Hp & Hcb & Hst0 & Hcfg & Hraw & Hh & Hv
    & (Hf & Hd & Ha) & Hq & Hds & Hsum & Hr & Hpeg & Hfee & Hrate & Hbond & Hb1 & Hb2).
  set (st := checked_books p ds (supply + requested_with_fee cb) st0) in *.
  assert (coarse_rate (exchange_rate st) ≠ 0) as Hr0.
  { unfold coarse_rate. pose proof (N.div_str_pos (exchange_rate st) DECIMAL_FRACTIONAL ltac:(done)). lia. }
  pose proof (slashing_total deps env s p st0 ds supply cb Hp Hst0 Hds Hq Hcb Hsum
    ltac:(lia) ltac:(fold st; nia)) as Hsl. fold st in Hsl.
  assert (is_valid_validator v s = Ok true) as Hvalid.
  { rewrite is_valid_validator_eq. f_equal. by apply bool_decide_eq_true_2. }
  assert (List.find (is_payment (underlying_coin_denom p)) (funds info) = Some c) as Hfind.
  { rewrite Hf. cbn. unfold is_payment. rewrite Hd, bool_decide_eq_true_2 by done.
    by rewrite (proj2 (N.ltb_lt _ _) Ha). }
  set (m := minted_before_fee st (coin_amount c)) in *.
  assert (decimal_division (coin_amount c) (exchange_rate st) = Ok m) as Hdiv.
  { apply decimal_division_Ok. split_and!; [done| |done|done].
    unfold coarse_rate. apply N.Div0.div_lt_upper_bound.
    assert (1 ≤ DECIMAL_FRACTIONAL) by done. nia. }
  assert (unwrap_or (query_total_issued deps (set_state st s)) 0 = Ok supply) as Hsup.
  { by replace (query_total_issued deps (set_state st s)) with (query_total_issued deps s)
      by reflexivity; rewrite Hq. }
  assert (1 ≤ DECIMAL_ONE) as H1le by done.
  pose proof (bond_fee_total p st supply (requested_with_fee cb) (coin_amount c) m
    (set_state st s) Hfee Hpeg Hb2) as Hblock.
  eexists. unfold execute_bond. run_ok; try lia.
  - by rewrite Hf.
  - nia.
  - by apply fair_rate_lt.
Qed.

(** ** Claims *)

(** C11: a bond that succeeds has exactly the effect [bond_effect]: the
    validator is whitelisted, exactly one coin of the bonded denom was paid,
    the bond grows by the payment, the sender gets the payment divided by
    the rate less the recovery fee, the rate is recomputed, and the messages
    are the delegation of the payment followed by the mint. *)
Theorem bond_refines deps env info v s resp s' :
  execute_bond deps env info v s = Ok (resp, s') → bond_effect deps env info v s resp s'.
Proof. apply execute_bond_Ok. Qed.

(** C29: a bond succeeds under [bond_enabled]: the hub has its parameters,
    state, batch and a token it can reach, the validator is whitelisted and
    exactly one coin, of the bonded denom and positive, is paid; the queries
    of supply and delegations answer and the delegations add up below 2^128;
    and with the books after the slashing check (which is not assumed to
    succeed) the rate is at least 10^-9, the recovery fee at most one, the
    bond with the payment at most the tokens when the rate is below the
    threshold, and bond, rate, minted amount and supply fit 128 bits. *)
Theorem bond_succeeds deps env info v s :
  bond_enabled deps env info v s → is_Ok (execute_bond deps env info v s).
Proof. apply execute_bond_total. Qed.

(** C9: bonding is fair to the holders: at the rate in force the minted
    tokens are worth at most the payment and 10^-9 coins per minted token
    (the digits of the rate that [decimal_division] drops), and when the
    rate is below the threshold the recovery fee never lifts the new rate
    above one.  Afterwards every token, old or new, is backed. *)
Theorem bond_fair deps env info v s resp s' :
  execute_bond deps env info v s = Ok (resp, s') →
  ∃ p st st' c token m,
    parameters_cell s = Some p ∧ slashing deps env s = Ok ((), set_state st s) ∧
    state_cell s' = Some st' ∧
    messages resp = [Staking_Delegate v c; Wasm_Execute token (ser (Cw20_Mint (sender info) m)) []] ∧
    m * exchange_rate st ≤ coin_amount c * DECIMAL_ONE + m * DECIMAL_FRACTIONAL ∧
    (exchange_rate st < er_threshold p → exchange_rate st' ≤ DECIMAL_ONE) ∧
    backed (supply_or_zero deps s + m) s'.
Proof.
  intros (p & cb & st & cfg & raw & token & c & Hp & Hcb & Hcfg & Hraw & Hh & Hv & Hpay & Hsl
    & Hr & Hpeg & -> & Hmsgs)%execute_bond_Ok.
  exists p, st. do 4 eexists. split_and!; [done..|exact Hmsgs| | |].
  - unfold minted_for. set (fee := recovery_fee _ _ _ _). set (m := minted_before_fee _ _).
    assert (m * exchange_rate st ≤ coin_amount c * DECIMAL_ONE + m * DECIMAL_FRACTIONAL).
    { by apply minted_value. }
    assert (DECIMAL_FRACTIONAL ≤ exchange_rate st).
    { apply N.nlt_ge. intros Hlt. apply Hr. by apply N.div_small. }
    nia.
  - intros Hlt. cbn. apply fair_rate_at_most_one. specialize (Hpeg Hlt). unfold minted_for.
    pose proof (recovery_fee_deficit p (exchange_rate st) (minted_before_fee st (coin_amount c))
      (supply_or_zero deps s + minted_before_fee st (coin_amount c) + requested_with_fee cb -
       (total_bond_amount st + coin_amount c))).
    lia.
  - eexists _, cb. split_and!; [done|done|]. cbn. apply fair_rate_backed.
    destruct Hpay as (_ & _ & ?). lia.
Qed.

(** A bond is refused with an error, and so changes nothing, when the
    validator is not whitelisted, when more than one coin is sent, and when
    no positive amount of the bonded denom is sent. *)
Theorem bond_rejects deps env info v s p cb :
  parameters_cell s = Some p → current_batch_cell s = Some cb →
  (¬ whitelisted v s ∨ (1 < length (funds info))%nat ∨ (∀ c, ¬ accepted_payment p info c)) →
  is_Err (execute_bond deps env info v s).
Proof.
  intros Hp Hcb Hbad. unfold execute_bond. unfold mbind, M_bind, reading at 1.
  rewrite is_valid_validator_eq. cbn [lift].
  destruct (bool_decide_reflect (whitelisted v s)) as [Hv|]; [|by eexists].
  cbn [negb throw_if lift]. unfold reading, load. cbn [item_get PARAMETERS CURRENT_BATCH].
  rewrite Hp. cbn [lift ok_or]. rewrite Hcb. cbn [lift ok_or].
  destruct (1 <? length (funds info))%nat eqn:Hlen; [by eexists|]. cbn [throw_if lift].
  destruct (List.find _ (funds info)) as [c|] eqn:Hf; [|by eexists].
  pose proof (find_payment _ _ _ Hlen Hf) as Hpay. apply Nat.ltb_ge in Hlen.
  exfalso. destruct Hbad as [?|[?|Hno]]; [done|lia|by eapply Hno].
Qed.
End spec.

(** ** Witnesses *)

(** A hub slashed to nine tenths: the rate is below the threshold of one. *)
Definition demo_slashed : Storage :=
  demo_storage (mkState 900000000000000000 450 0 0 0 0 0) (mkCurrentBatch 1 0).
Definition demo_payer (amount : N) : MessageInfo := mkInfo "alice" [luna amount].

Lemma bond_refines_witness : ∃ resp s',
  execute_bond (demo_querier demo_delegations 500 0) (demo_env 7 10) (demo_payer 90) "val1"
    demo_slashed = Ok (resp, s') ∧
  bond_effect (demo_querier demo_delegations 500 0) (demo_env 7 10) (demo_payer 90) "val1"
    demo_slashed resp s'.
Proof.
  destruct (execute_bond (demo_querier demo_delegations 500 0) (demo_env 7 10) (demo_payer 90)
    "val1" demo_slashed) as [[resp s']| |] eqn:E; [|vm_compute in E; discriminate..].
  exists resp, s'. split; [done|]. exact (bond_refines _ _ _ _ _ _ _ E).
Defined.

Lemma bond_succeeds_witness :
  is_Ok (execute_bond (demo_querier demo_delegations 500 0) (demo_env 7 10) (demo_payer 90)
    "val1" demo_slashed).
Proof.
  apply bond_succeeds.
  exists demo_params, (mkCurrentBatch 1 0), (mkState 900000000000000000 450 0 0 0 0 0),
    demo_config, (canonical "token"), "token", (luna 90), 500, demo_delegations.
  split_and!; try reflexivity; [vm_compute; eauto|done|].
  cbn zeta. split_and!; vm_compute; try reflexivity; discriminate.
Defined.

Lemma bond_fair_witness : ∃ resp s',
  execute_bond (demo_querier demo_delegations 500 0) (demo_env 7 10) (demo_payer 90) "val1"
    demo_slashed = Ok (resp, s') ∧
  ∃ st', state_cell s' = Some st' ∧ exchange_rate st' ≤ DECIMAL_ONE.
Proof.
  destruct (execute_bond (demo_querier demo_delegations 500 0) (demo_env 7 10) (demo_payer 90)
    "val1" demo_slashed) as [[resp s']| |] eqn:E; [|vm_compute in E; discriminate..].
  exists resp, s'. split; [done|].
  destruct (bond_fair _ _ _ _ _ _ _ E)
    as (p & st & st' & c & token & m & [= <-] & Hsl & Hst' & _ & _ & Hle & _).
  exists st'. split; [done|]. apply Hle.
  assert (Ok ((), set_state st demo_slashed) = Ok (E:=StdError) ((), demo_slashed)) as Hs.
  { rewrite <- Hsl. vm_compute. reflexivity. }
  injection Hs as ->. vm_compute. reflexivity.
Defined.

Lemma bond_rejects_witness :
  is_Err (execute_bond demo_chain (demo_env 7 10) (demo_payer 90) "mallory" demo_hub).
Proof.
  apply (bond_rejects _ _ _ _ demo_hub demo_params (mkCurrentBatch 1 0) eq_refl eq_refl).
  left. intros [x Hx]. vm_compute in Hx. discriminate.
Defined.
