(* ===== verification/HubUnbondSpec.v ===== *)
(** * What a request to unbond does

    The effect of [execute_unbond] (HubUnbond.v): the request joins the
    current batch and, when the epoch is over, the whole batch is
    undelegated and recorded in the history at the rate of that moment. *)
From S2P Require Import Prelude CwTypes CwMath BassetHub CwApi Reference.
From S2P Require Import HubMath HubState HubSlashing HubScenario HubSlashingSpec HubUnbond HubPick.
From S2P Require Import HubBondSpec.

Open Scope N_scope.

Section spec.
  Context `{CwMathLaws, CwApiLaws}.
  Implicit Types (st : State) (cb : CurrentBatch) (p : Parameters).

(** [a] more tokens of user [u] wait in batch [b]. *)
Definition wait_added (b : u64) (u : string) (a : N) (s : Storage) : Storage :=
  let bk := wait_bucket (ser u) s in
  set_wait_bucket (ser u) (<[ser b := default 0 (bk !! ser b) + a]> bk) s.

(** A batch recorded in the history when it is undelegated. *)
Definition new_history (b now requested rate : N) : UnbondHistory :=
  mkUnbondHistory b now requested rate rate false.

Definition history_added (b : u64) (h : UnbondHistory) (s : Storage) : Storage :=
  set_history_map (<[to_be_bytes b := ser h]> (history_map s)) s.

(** The tokens the request counts for: [amount] less the recovery fee. *)
Definition owed_for p st (supply requested amount : N) : N :=
  amount - recovery_fee p (exchange_rate st) amount (supply + requested - total_bond_amount st).

(** The books after a request that only joins the batch. *)
Definition collect_step st cb (u : string) (owed rate : N) (s : Storage) : Storage :=
  set_state (with_exchange_rate rate st)
    (set_current_batch (mkCurrentBatch (id cb) (requested_with_fee cb + owed))
      (wait_added (id cb) u owed s)).

(** The books after a request that ends the epoch: the batch is undelegated. *)
Definition undelegate_step st cb (u : string) (owed rate now : N) (s : Storage) : Storage :=
  let requested := requested_with_fee cb + owed in
  set_state (with_last_unbonded_time now
      (with_total_bond_amount (total_bond_amount st - requested * rate / DECIMAL_ONE)
        (with_exchange_rate rate st)))
    (set_current_batch (mkCurrentBatch (id cb + 1) 0)
      (history_added (id cb) (new_history (id cb) now requested rate)
        (wait_added (id cb) u owed s))).

Definition burn_msg (token : string) (amount : N) : CosmosMsg :=
  Wasm_Execute token (ser (Cw20_Burn amount)) [].

Definition unbond_effect (deps : Querier) (env : Env) (amount : N) (u : string)
    (s : Storage) (resp : Response) (s' : Storage) : Prop :=
  ∃ p cb st cfg raw token,
    parameters_cell s = Some p ∧ current_batch_cell s = Some cb ∧
    config_cell s = Some cfg ∧ token_contract cfg = Some raw ∧ addr_humanize raw = Ok token ∧
    slashing deps env s = Ok ((), set_state st s) ∧
    let supply := supply_or_zero deps s in
    let owed := owed_for p st supply (requested_with_fee cb) amount in
    let requested := requested_with_fee cb + owed in
    let rate := fair_rate (total_bond_amount st) (supply - amount + requested) in
    (exchange_rate st < er_threshold p →
     total_bond_amount st ≤ supply + requested_with_fee cb) ∧
    amount ≤ supply ∧ last_unbonded_time st ≤ block_time env ∧
    if epoch_period p <? block_time env - last_unbonded_time st then
      let undelegation := requested * rate / DECIMAL_ONE in
      undelegation ≠ 1 ∧ undelegation ≤ total_bond_amount st ∧ id cb + 1 < U64_MOD ∧
      s' = undelegate_step st cb u owed rate (block_time env) s ∧
      ∃ ds picks, query_all_delegations deps (contract_address env) = Ok ds ∧
        valid_picks undelegation ds picks ∧
        messages resp =
          (undelegate_msg (underlying_coin_denom p) <$> picks) ++ [burn_msg token amount]
    else
      s' = collect_step st cb u owed rate s ∧ messages resp = [burn_msg token amount].

Lemma unbond_fee_Ok p st cb supply amount (s s1 : Storage) x :
  (if exchange_rate st <? er_threshold p then
     max_peg_fee ← lift (amount *! peg_recovery_fee p);
     issued ← lift (supply +! requested_with_fee cb);
     required_peg_fee ← lift (issued -? total_bond_amount st);
     lift (amount -? max_peg_fee `min` required_peg_fee)
   else mret (M:=HubM) amount) s = Ok (x, s1) →
  s1 = s ∧ x = owed_for p st supply (requested_with_fee cb) amount ∧
  (exchange_rate st < er_threshold p → total_bond_amount st ≤ supply + requested_with_fee cb).
Proof.
  unfold owed_for, recovery_fee.
  destruct (N.ltb_spec (exchange_rate st) (er_threshold p)); intros E; inv_ok.
  - done.
  - split_and!; lia || by rewrite ?N.sub_0_r.
Qed.

Lemma execute_unbond_Ok deps env amount u s resp s' :
  execute_unbond deps env amount u s = Ok (resp, s') →
  unbond_effect deps env amount u s resp s'.
Proof.
  unfold execute_unbond. intros E. inv_ok.
  match goal with H : slashing _ _ _ = Ok (?u, _) |- _ => pose proof H as Hsl; destruct u;
    apply slashing_Ok in H as (st0 & st & Hst0 & _ & ->) end.
  match goal with H : (if _ <? er_threshold _ then _ else _) _ = Ok _ |- _ =>
    apply unbond_fee_Ok in H as (-> & -> & Hpeg) end.
  match goal with H : unwrap_or _ _ = Ok _ |- _ => apply unwrap_or_supply in H as -> end.
  match goal with H : store_unbond_wait_list _ _ _ _ = Ok _ |- _ =>
    apply store_unbond_wait_list_Ok in H as (? & ->) end.
  cbn [state_cell set_state config_cell] in *. simplify_eq.
  rewrite supply_or_zero_set_state in *.
  match goal with x : (_ * _ * _)%type |- _ => destruct x as [[msgs cb'] st'] end.
  inv_ok. cbn [last_unbonded_time with_exchange_rate] in *.
  unfold unbond_effect. match goal with H : (if ?b then _ else _) _ = Ok _ |- _ =>
    destruct b eqn:Hep; inv_ok end.
  - match goal with H : store_unbond_history _ _ _ = Ok _ |- _ =>
      apply store_unbond_history_Ok in H as -> end.
    match goal with H : pick_validator _ _ _ _ _ = Ok _ |- _ =>
      apply pick_validator_Ok in H as (p' & ds & picks & Hp' & Hds & Hpicks & ->) end.
    cbn in Hp'. simplify_eq. do 6 eexists. split_and!; try eassumption.
    cbn zeta. rewrite Hep. split_and!; try done.
    + by apply N.eqb_neq.
    + eexists _, _. split_and!; [done..|]. reflexivity.
  - do 6 eexists. split_and!; try eassumption. cbn zeta. by rewrite Hep.
Qed.

(** ** The rate and the bond after a request *)

Lemma owed_for_le p st supply requested amount : owed_for p st supply requested amount ≤ amount.
Proof. unfold owed_for. lia. Qed.

(** A request lowers the supply by at least what it adds to the batch. *)
Lemma unbond_supply p st supply requested amount :
  amount ≤ supply →
  let supply' := supply - amount + (requested + owed_for p st supply requested amount) in
  supply' ≤ supply + requested ∧
  (exchange_rate st < er_threshold p → total_bond_amount st ≤ supply + requested →
   total_bond_amount st ≤ supply').
Proof.
  intros Hle. cbn zeta. pose proof (owed_for_le p st supply requested amount). split; [lia|].
  intros _ Hb. pose proof (recovery_fee_deficit p (exchange_rate st) amount
    (supply + requested - total_bond_amount st)). unfold owed_for. lia.
Qed.

(** A smaller supply has a larger rate. *)
Lemma fair_rate_antitone bond supply supply' :
  bond ≠ 0 → supply' ≠ 0 → supply' ≤ supply → fair_rate bond supply ≤ fair_rate bond supply'.
Proof.
  intros Hb Hs' Hle. unfold fair_rate. destruct (N.eqb_spec bond 0); [done|].
  destruct (N.eqb_spec supply 0); [lia|]. destruct (N.eqb_spec supply' 0); [done|]. cbn.
  apply N.div_le_compat_l. lia.
Qed.

(** Taking the share of [q] tokens out of the bond leaves the other [r] backed. *)
Lemma backed_after_undelegation bond r q :
  bond ≠ 0 →
  let rate := fair_rate bond (r + q) in
  q * rate / DECIMAL_ONE ≤ bond ∧ r * rate ≤ (bond - q * rate / DECIMAL_ONE) * DECIMAL_ONE.
Proof.
  intros Hb rate. pose proof (fair_rate_backed bond (r + q) Hb) as Hback. fold rate in Hback.
  pose proof (N.Div0.mul_div_le (q * rate) DECIMAL_ONE) as Hdiv.
  rewrite N.mul_add_distr_r in Hback. split; [|rewrite N.mul_sub_distr_r; lia].
  apply (N.mul_le_mono_pos_r _ _ DECIMAL_ONE); [done|]. lia.
Qed.

(** ** When a request goes through *)

(** The chain answers and the delegations fit 128 bits; with the books [st]
    after the slashing check the tokens are there to burn, the fee is at most
    one and, below the threshold, the bond does not exceed the tokens; and
    when an epoch has passed, something is bonded and delegated, the batch is
    not worth exactly one coin, and the counters have room. *)
Definition unbond_enabled (deps : Querier) (env : Env) (amount : N) (u : string)
    (s : Storage) : Prop :=
  ∃ p cb st0 cfg raw token supply ds,
    parameters_cell s = Some p ∧ current_batch_cell s = Some cb ∧ state_cell s = Some st0 ∧
    config_cell s = Some cfg ∧ token_contract cfg = Some raw ∧ addr_humanize raw = Ok token ∧
    query_total_issued deps s = Ok supply ∧
    query_all_delegations deps (contract_address env) = Ok ds ∧
    bonded_in (underlying_coin_denom p) ds < U128_MOD ∧
    let st := checked_books p ds (supply + requested_with_fee cb) st0 in
    let owed := owed_for p st supply (requested_with_fee cb) amount in
    let requested := requested_with_fee cb + owed in
    let rate := fair_rate (total_bond_amount st) (supply - amount + requested) in
    (exchange_rate st < er_threshold p →
     total_bond_amount st ≤ supply + requested_with_fee cb) ∧
    amount ≤ supply ∧ last_unbonded_time st ≤ block_time env ∧
    peg_recovery_fee p ≤ DECIMAL_ONE ∧
    total_bond_amount st * DECIMAL_ONE < U128_MOD ∧
    supply + requested_with_fee cb < U128_MOD ∧
    default 0 (wait_bucket (ser u) s !! ser (id cb)) + amount < U128_MOD ∧
    (epoch_period p < block_time env - last_unbonded_time st →
     total_bond_amount st ≠ 0 ∧ total_bond_amount st ≤ total_delegated ds ∧
     requested * rate / DECIMAL_ONE ≠ 1 ∧
     id cb + 1 < U64_MOD ∧ block_height env + N.of_nat (length ds) < U64_MOD).

Lemma unbond_fee_total p st cb supply amount (s : Storage) :
  peg_recovery_fee p ≤ DECIMAL_ONE →
  (exchange_rate st < er_threshold p → total_bond_amount st ≤ supply + requested_with_fee cb) →
  supply + requested_with_fee cb < U128_MOD → amount ≤ supply →
  (if exchange_rate st <? er_threshold p then
     max_peg_fee ← lift (amount *! peg_recovery_fee p);
     issued ← lift (supply +! requested_with_fee cb);
     required_peg_fee ← lift (issued -? total_bond_amount st);
     lift (amount -? max_peg_fee `min` required_peg_fee)
   else mret (M:=HubM) amount) s =
  Ok (owed_for p st supply (requested_with_fee cb) amount, s).
Proof.
  intros Hfee Hpeg Hlt Ham. unfold owed_for, recovery_fee.
  assert (amount * peg_recovery_fee p / DECIMAL_ONE ≤ amount) as Hm.
  { apply N.Div0.div_le_upper_bound. nia. }
  destruct (N.ltb_spec (exchange_rate st) (er_threshold p)); [|by rewrite N.sub_0_r].
  specialize (Hpeg ltac:(done)). run_ok; lia.
Qed.

Lemma pick_validator_total deps claim delegator h s p ds :
  parameters_cell s = Some p → query_all_delegations deps delegator = Ok ds →
  h + N.of_nat (length ds) < U64_MOD → claim ≤ total_delegated ds →
  ∃ msgs, pick_validator deps claim delegator h s = Ok msgs.
Proof.
  intros Hp Hds Hh Hc. unfold pick_validator, load, expect_res. cbn [item_get PARAMETERS].
  rewrite Hp, Hds. cbn [ok_or mbind result_bind].
  apply pick_validator_loop_total; [lia|done|lia].
Qed.

Lemma store_unbond_history_total i h s :
  store_unbond_history i h s = Ok ((), history_added i h s).
Proof. by apply store_unbond_history_Ok. Qed.
Hint Resolve store_unbond_history_total : run_ok.

Lemma execute_unbond_total deps env amount u s :
  unbond_enabled deps env amount u s → is_Ok (execute_unbond deps env amount u s).
Proof.
  intros (p & cb & st0 & cfg & raw & token & supply & ds & Hp & Hcb & Hst0 & Hcfg & Hraw & Hh
    & Hq & Hds & Hsum & Hpeg & Ham & Htime & Hfee & HbU & HsU & HwU & Hepoch).
  set (st := checked_books p ds (supply + requested_with_fee cb) st0) in *.
  pose proof (slashing_total deps env s p st0 ds supply cb Hp Hst0 Hds Hq Hcb Hsum HsU HbU) as Hsl.
  fold st in Hsl.
  assert (unwrap_or (query_total_issued deps (set_state st s)) 0 = Ok supply) as Hsup.
  { by replace (query_total_issued deps (set_state st s)) with (query_total_issued deps s)
      by reflexivity; rewrite Hq. }
  pose proof (unbond_fee_total p st cb supply amount (set_state st s) Hfee Hpeg HsU Ham) as Hblock.
  pose proof (owed_for_le p st supply (requested_with_fee cb) amount) as Howed.
  set (owed := owed_for p st supply (requested_with_fee cb) amount) in *.
  set (rate := fair_rate _ _) in *.
  assert (store_unbond_wait_list (id cb) u owed (set_state st s) =
          Ok ((), wait_added (id cb) u owed (set_state st s))) as Hwait.
  { apply store_unbond_wait_list_Ok. split; [|done].
    change (wait_bucket (ser u) (set_state st s)) with (wait_bucket (ser u) s). lia. }
  assert (rate < U128_MOD) as Hrate by by apply fair_rate_lt.
  assert (1 ≤ DECIMAL_ONE) by done.
  destruct (epoch_period p <? block_time env - last_unbonded_time st) eqn:Hep.
  - destruct (Hepoch (proj1 (N.ltb_lt _ _) Hep)) as (Hb & Hdel & Hone & Hid & Hht).
    destruct (backed_after_undelegation (total_bond_amount st) (supply - amount)
      (requested_with_fee cb + owed) Hb) as [Hund _]. fold rate in Hund.
    destruct (pick_validator_total deps ((requested_with_fee cb + owed) * rate / DECIMAL_ONE)
      (contract_address env) (block_height env) (wait_added (id cb) u owed (set_state st s)) p ds
      Hp Hds Hht ltac:(lia)) as [msgs Hmsgs].
    eexists; unfold execute_unbond; run_ok; try done; try lia.
    + change (((requested_with_fee cb + owed) * rate) / DECIMAL_ONE < U128_MOD). nia.
    + by apply N.eqb_neq.
  - eexists; unfold execute_unbond; run_ok; try done; lia.
Qed.

(** ** Claims *)

(** C12: a request to unbond that succeeds has exactly the effect
    [unbond_effect]: the fee is taken, the rest is added to the sender's
    wait list and to the current batch, the rate is recomputed for the
    reduced supply, the tokens are burnt; and when more than an epoch has
    passed the batch is undelegated at the new rate, recorded in the history
    as not released, taken off the bond, and the next batch starts empty. *)
Theorem unbond_refines deps env amount u s resp s' :
  execute_unbond deps env amount u s = Ok (resp, s') →
  unbond_effect deps env amount u s resp s'.
Proof. apply execute_unbond_Ok. Qed.

(** C30: a request to unbond succeeds under [unbond_enabled]: the hub has its
    parameters, state, batch and a token it can reach, the queries of supply
    and delegations answer, and with the books after the slashing check
    (which is not assumed to succeed) the amount is at most the supply, the
    last undelegation is not in the future, the recovery fee is at most one,
    the bond is at most the tokens when the rate is below the threshold, and
    bond, supply, delegations and the wait-list entry fit 128 bits; and, only
    when an epoch has passed, the bond is not zero and covered by the
    delegations, the batch is not worth exactly one coin (a claim the code
    refuses), and batch number and block height have room in 64 bits. *)
Theorem unbond_succeeds deps env amount u s :
  unbond_enabled deps env amount u s → is_Ok (execute_unbond deps env amount u s).
Proof. apply execute_unbond_total. Qed.

(** C10: unbonding is fair to those who stay.  While something is bonded
    after the slashing check: the new rate is not below that of the supply
    before the request, if less than the whole supply is unbonded, and
    afterwards every token that is issued or waits in the current batch is
    backed by the bond, also when the batch was undelegated.  Below the
    threshold the recovery fee never lifts the rate above one.  (With nothing
    bonded the code resets the rate to one, and nothing backs the tokens.) *)
Theorem unbond_keeps_backing deps env amount u s resp s' :
  execute_unbond deps env amount u s = Ok (resp, s') →
  ∃ p cb st st', parameters_cell s = Some p ∧ current_batch_cell s = Some cb ∧
    slashing deps env s = Ok ((), set_state st s) ∧ state_cell s' = Some st' ∧
    let supply := supply_or_zero deps s in
    (total_bond_amount st ≠ 0 → amount < supply →
     fair_rate (total_bond_amount st) (supply + requested_with_fee cb) ≤ exchange_rate st') ∧
    (exchange_rate st < er_threshold p → exchange_rate st' ≤ DECIMAL_ONE) ∧
    (total_bond_amount st ≠ 0 → backed (supply - amount) s').
Proof.
  intros (p & cb & st & cfg & raw & token & Hp & Hcb & Hcfg & Hraw & Hh & Hsl & Hpeg & Ham
    & Htime & Hs')%execute_unbond_Ok.
  set (supply := supply_or_zero deps s) in *.
  set (owed := owed_for _ _ _ _ _) in *. set (rate := fair_rate _ _) in *.
  destruct (unbond_supply p st supply (requested_with_fee cb) amount Ham) as [Hsup Hbond].
  fold owed in Hsup, Hbond.
  assert (∃ st', state_cell s' = Some st' ∧ exchange_rate st' = rate ∧
    (total_bond_amount st ≠ 0 → backed (supply - amount) s')) as (st' & Hst' & Hrate & Hback).
  { destruct (_ <? _); [destruct Hs' as (_ & _ & _ & -> & _)|destruct Hs' as [-> _]];
      eexists; split_and!; try done; intros Hb.
    - eexists _, _. split_and!; [done|done|]. cbn. rewrite N.add_0_r.
      by apply (backed_after_undelegation (total_bond_amount st) (supply - amount)
        (requested_with_fee cb + owed)).
    - eexists _, _. split_and!; [done|done|]. cbn. by apply fair_rate_backed. }
  exists p, cb, st, st'. cbn zeta. rewrite Hrate. split_and!; [done..| | |done].
  - intros Hb Hlt. apply fair_rate_antitone; [done|lia|lia].
  - intros Hlt. apply fair_rate_at_most_one, Hbond; auto.
Qed.
End spec.

(** ** Witnesses *)

Lemma unbond_refines_witness : ∃ resp s',
  execute_unbond demo_chain (demo_env 7 40) 100 "alice" demo_hub = Ok (resp, s') ∧
  unbond_effect demo_chain (demo_env 7 40) 100 "alice" demo_hub resp s'.
Proof.
  destruct (execute_unbond demo_chain (demo_env 7 40) 100 "alice" demo_hub)
    as [[resp s']| |] eqn:E; [|vm_compute in E; discriminate..].
  exists resp, s'. split; [done|]. exact (unbond_refines _ _ _ _ _ _ _ E).
Defined.

Lemma unbond_succeeds_witness :
  is_Ok (execute_unbond demo_chain (demo_env 7 40) 100 "alice" demo_hub).
Proof.
  apply unbond_succeeds.
  exists demo_params, (mkCurrentBatch 1 0), (demo_state 450 0),
    demo_config, (canonical "token"), "token", 450, demo_delegations.
  split_and!; try reflexivity.
  cbn zeta. split_and!; try (vm_compute; first [reflexivity | discriminate]).
  intros _. split_and!; vm_compute; first [reflexivity | discriminate].
Defined.

Lemma unbond_keeps_backing_witness : ∃ resp s',
  execute_unbond demo_chain (demo_env 7 40) 100 "alice" demo_hub = Ok (resp, s') ∧
  backed 350 s'.
Proof.
  destruct (execute_unbond demo_chain (demo_env 7 40) 100 "alice" demo_hub)
    as [[resp s']| |] eqn:E; [|vm_compute in E; discriminate..].
  exists resp, s'. split; [done|].
  destruct (unbond_keeps_backing _ _ _ _ _ _ _ E)
    as (p & cb & st & st' & [= <-] & [= <-] & Hsl & _ & _ & _ & Hback).
  apply Hback.
  assert (Ok ((), set_state st demo_hub) = Ok (E:=StdError) ((), demo_hub)) as Hs.
  { rewrite <- Hsl. vm_compute. reflexivity. }
  injection Hs as ->. discriminate.
Defined.
