(* ===== verification/HubRelease.v ===== *)
(** * Releasing batches

    [process_withdraw_rate] (HubUnbond.v) goes through the batches that are
    old enough, from the one after [last_processed_batch], and gives each
    the rate at which its users withdraw.  The two loops visit the same
    batches, end, and release every batch they visit. *)
From S2P Require Import Prelude CwTypes CwMath BassetHub CwApi Reference.
From S2P Require Import SignedInt HubState HubScenario HubUnbond HubUnbondSpec.

Open Scope N_scope.

Ltac inv_ok_hook ::=
  first [inv_cw_types | inv_cw_math | inv_basset_hub | inv_cw_api | inv_signed].

(** The coins a batch expects: its tokens at its rate. *)
Definition unbonded (h : UnbondHistory) : N := amount h * withdraw_rate h / DECIMAL_ONE.

Section loops.
  Context `{CwMathLaws, CwApiLaws}.
  Implicit Types (hs : list UnbondHistory) (s : Storage).

Lemma next_ready_Some ht i s h :
  next_ready ht i s = Ok (Some h) ↔
  read_unbond_history i s = Ok h ∧ time h ≤ ht ∧ released h = false.
Proof.
  unfold next_ready. destruct (read_unbond_history i s) as [h'| |]; [|naive_solver..].
  destruct (N.ltb_spec ht (time h')) as [|].
  - split; [done|]. intros ([= ->] & ? & _). lia.
  - destruct (released h') eqn:Hr; cbn.
    + split; [done|]. intros ([= ->] & _ & ?). congruence.
    + split; [by intros [= ->] | by intros ([= ->] & _)].
Qed.

(** The batches [i], [i+1], ... that are ready, up to the first that is not. *)
Fixpoint ready_run (ht i : u64) hs s : Prop :=
  match hs with
  | [] => next_ready ht i s = Ok None
  | h :: hs => next_ready ht i s = Ok (Some h) ∧ i + 1 < U64_MOD ∧ ready_run ht (i + 1) hs s
  end.

Lemma ready_run_det ht i hs hs' s : ready_run ht i hs s → ready_run ht i hs' s → hs = hs'.
Proof.
  revert i hs'. induction hs as [|h hs IH]; intros i [|h' hs']; cbn; [done|..].
  - intros -> [? _]. done.
  - intros [-> _] ?. done.
  - intros (-> & _ & Hr) ([= ->] & _ & Hr'). f_equal. by eapply IH.
Qed.

Lemma ready_run_lt ht i hs s : ready_run ht i hs s → i < U64_MOD → i + N.of_nat (length hs) < U64_MOD.
Proof.
  revert i. induction hs as [|h hs IH]; intros i; cbn [ready_run length]; [lia|].
  intros (_ & Hi & Hr) _. apply IH in Hr; lia.
Qed.

(** Storing a batch below [i] does not change the run from [i]. *)
Lemma ready_run_history_added ht j g i hs s :
  j < i → i < U64_MOD → ready_run ht i hs s → ready_run ht i hs (history_added j g s).
Proof.
  revert i. induction hs as [|h hs IH]; intros i Hj Hi; cbn [ready_run].
  all: assert (next_ready ht i (history_added j g s) = next_ready ht i s) as ->;
    [unfold next_ready; rewrite (read_store_unbond_history j i g s () (history_added j g s));
       [by rewrite decide_False by lia|lia|lia|by apply store_unbond_history_total]|].
  - done.
  - intros (Hn & Hi' & Hr). split_and!; [done|done|]. by apply IH; [lia|..].
Qed.

Lemma count_loop_Ok fuel ht i T n s T' n' :
  count_loop fuel ht i T n s = Ok (T', n') →
  ∃ hs, ready_run ht i hs s ∧ T' = T + sumN unbonded hs ∧ n' = n + N.of_nat (length hs).
Proof.
  revert i T n. induction fuel as [|fuel IH]; intros i T n E; cbn in E; [done|].
  inv_ok. destruct x as [h|]; inv_ok.
  - match goal with E : count_loop _ _ _ _ _ _ = Ok _ |- _ => apply IH in E as (hs & Hr & -> & ->) end.
    exists (h :: hs). cbn [ready_run length]. rewrite sumN_cons. unfold unbonded at 2.
    split_and!; [done..|lia|lia].
  - exists []. cbn. split_and!; [done|lia|lia].
Qed.

(** The storage once the batches from [i] on are replaced. *)
Fixpoint store_released (i : u64) hs s : Storage :=
  match hs with
  | [] => s
  | h :: hs => store_released (i + 1) hs (history_added i h s)
  end.

(** [rates] are the rates [new_withdraw_rate] gives the batches [hs]. *)
Definition released_at (T : N) (sl : SignedInt) hs (rates : list N) : Prop :=
  Forall2 (λ h r, new_withdraw_rate h T sl = Ok r) hs rates.

Lemma release_loop_Ok fuel ht i T sl st s st' s' hs :
  i < U64_MOD → ready_run ht i hs s → release_loop fuel ht i T sl st s = Ok (st', s') →
  ∃ rates, released_at T sl hs rates ∧
    s' = store_released i (zip_with release_at rates hs) s ∧
    st' = match hs with
          | [] => st
          | _ => with_last_processed_batch (i + N.of_nat (length hs) - 1) st
          end.
Proof.
  revert i st s hs. induction fuel as [|fuel IH]; intros i st s hs Hi Hr E; cbn in E; [by inv_ok|].
  inv_ok. destruct hs as [|h hs]; cbn [ready_run] in Hr.
  - match goal with H : next_ready _ _ _ = Ok _ |- _ => rewrite Hr in H; injection H as <- end.
    inv_ok. exists []. split_and!; [constructor|done|done].
  - destruct Hr as (Hn & Hi' & Hr).
    match goal with H : next_ready _ _ _ = Ok _ |- _ => rewrite Hn in H; injection H as <- end.
    inv_ok.
    match goal with H : store_unbond_history _ _ _ = Ok _ |- _ =>
      apply store_unbond_history_Ok in H as -> end.
    apply (ready_run_history_added ht i (release_at x h)) in Hr; [|lia|lia].
    match goal with E : release_loop _ _ _ _ _ _ _ = Ok _ |- _ =>
      apply (IH _ _ _ hs) in E as (rates & Hrates & -> & ->); [|done|done] end.
    exists (x :: rates). split_and!; [by constructor|done|].
    destruct hs; cbn; [by destruct st; f_equal; lia|]. unfold with_last_processed_batch. cbn.
    f_equal. lia.
Qed.

Lemma store_released_frame i hs s :
  store_released i hs s = set_history_map (history_map (store_released i hs s)) s.
Proof.
  revert i s. induction hs as [|h hs IH]; intros i s; cbn; [by destruct s|]. by rewrite IH.
Qed.

Lemma read_history_added j i g s :
  i < U64_MOD → j < U64_MOD →
  read_unbond_history j (history_added i g s) =
  if decide (i = j) then Ok g else read_unbond_history j s.
Proof.
  intros Hi Hj. apply (read_store_unbond_history i j g s () _ Hi Hj).
  apply store_unbond_history_total.
Qed.

Lemma read_store_released_out j i hs s :
  j < U64_MOD → i + N.of_nat (length hs) ≤ U64_MOD →
  j < i ∨ i + N.of_nat (length hs) ≤ j →
  read_unbond_history j (store_released i hs s) = read_unbond_history j s.
Proof.
  revert i s. induction hs as [|h hs IH]; intros i s Hj Hi Hout; cbn [store_released]; [done|].
  cbn [length] in *. rewrite IH by lia. rewrite read_history_added by lia.
  by rewrite decide_False by lia.
Qed.

Lemma read_store_released_in k i hs s h :
  hs !! k = Some h → i + N.of_nat (length hs) ≤ U64_MOD →
  read_unbond_history (i + N.of_nat k) (store_released i hs s) = Ok h.
Proof.
  revert i k s. induction hs as [|h' hs IH]; intros i [|k] s Hk Hi;
    cbn [store_released length lookup list_lookup] in *; try done.
  - injection Hk as ->. rewrite N.add_0_r, read_store_released_out by lia.
    rewrite read_history_added by lia. by rewrite decide_True.
  - replace (i + N.of_nat (S k)) with (i + 1 + N.of_nat k) by lia. apply IH; [done|lia].
Qed.

(** ** The whole function *)

(** The coins that came in since the last withdrawal. *)
Definition arrived (hub_balance : N) (st : State) : N :=
  actual_unbonded_amount st +
  magnitude (if decide (prev_hub_balance st ≤ hub_balance)
             then mkSignedInt (hub_balance - prev_hub_balance st) false
             else mkSignedInt (prev_hub_balance st - hub_balance) true).

(** What the batches are short of what arrived. *)
Definition shortfall (T A : N) : SignedInt :=
  if decide (A ≤ T) then mkSignedInt (T - A) false else mkSignedInt (A - T) true.

Definition release_effect (ht hub_balance : N) (s s' : Storage) : Prop :=
  ∃ st hs rates, state_cell s = Some st ∧
    let first := last_processed_batch st + 1 in
    let A := arrived hub_balance st in
    let T := sumN unbonded hs in
    first < U64_MOD ∧ ready_run ht first hs s ∧ released_at T (shortfall T A) hs rates ∧
    s' = set_state (with_actual_unbonded_amount 0
           (with_last_processed_batch (last_processed_batch st + N.of_nat (length hs)) st))
         (store_released first (zip_with release_at rates hs) s).

Lemma process_withdraw_rate_Ok ht hub_balance s u s' :
  process_withdraw_rate ht hub_balance s = Ok (u, s') → release_effect ht hub_balance s s'.
Proof.
  unfold process_withdraw_rate. intros E. inv_ok. cbn [last_processed_batch with_actual_unbonded_amount] in *.
  match goal with H : count_loop _ _ _ _ _ _ = Ok ?r |- _ => destruct r as [T n];
    apply count_loop_Ok in H as (hs & Hrun & -> & ->) end.
  inv_ok.
  match goal with H : (if _ then _ else _) _ = Ok _ |- _ => rename H into Hif end.
  match goal with H : state_cell s = Some ?st |- _ => rename st into st0, H into Hst end.
  exists st0, hs. destruct (1 <=? _) eqn:Hn; inv_ok.
  2: { destruct hs; [|apply N.leb_gt in Hn; cbn in Hn; lia]. exists []. cbn [sumN foldr length].
       split_and!; [done..|constructor|]. cbn. rewrite N.add_0_r. by destruct st0. }
  destruct hs as [|h hs]; [done|].
  match goal with H : release_loop _ _ _ _ _ _ _ = Ok _ |- _ =>
    apply (release_loop_Ok _ _ _ _ _ _ _ _ _ (h :: hs)) in H as (rates & Hrates & -> & ->);
    [|done|done] end.
  exists rates. split_and!; [done..|].
  replace (last_processed_batch st0 + 1 + N.of_nat (length (h :: hs)) - 1)
    with (last_processed_batch st0 + N.of_nat (length (h :: hs))) by (cbn; lia).
  by destruct st0.
Qed.

(** ** The loops end *)

(** The recorded batches from [i] on: a loop over ready batches uses one up
    in every iteration. *)
Definition recorded_from (i : u64) s : gset (list N) :=
  filter (λ k, i ≤ from_be_bytes k) (dom (history_map s)).

Lemma recorded_from_size i s : (size (recorded_from i s) ≤ size (history_map s))%nat.
Proof. rewrite <- size_dom. apply subseteq_size. set_solver. Qed.

Lemma recorded_from_lt i s h :
  i < U64_MOD → read_unbond_history i s = Ok h →
  (size (recorded_from (i + 1) s) < size (recorded_from i s))%nat.
Proof.
  intros Hi Hr. apply subset_size. split.
  - intros k. unfold recorded_from. rewrite !elem_of_filter. intros [? ?]. split; [lia|done].
  - intros Hsub. specialize (Hsub (to_be_bytes i)). unfold recorded_from in Hsub.
    rewrite !elem_of_filter, from_to_be_bytes in Hsub by done.
    enough (to_be_bytes i ∈ dom (history_map s)) by (destruct Hsub as [? _]; [done|lia]).
    apply elem_of_dom. unfold read_unbond_history in Hr.
    destruct (history_map s !! to_be_bytes i); [by eexists|done].
Qed.

Lemma recorded_from_history_added i j g h s :
  read_unbond_history j s = Ok h → recorded_from i (history_added j g s) = recorded_from i s.
Proof.
  intros Hr. unfold recorded_from, history_added. cbn. rewrite dom_insert_lookup_L; [done|].
  unfold read_unbond_history in Hr. destruct (history_map s !! to_be_bytes j); [by eexists|done].
Qed.

(** One iteration of the first loop: its variables are [i], the total and the
    count. *)
Definition count_body (ht : u64) s (a : u64 * N * u64) : StdResult ((u64 * N * u64) + (N * u64)) :=
  let '(i, T, n) := a in
  ready ← next_ready ht i s;
  match ready with
  | None => Ok (inr (T, n))
  | Some h =>
      u ← amount h *! withdraw_rate h;
      T ← T +! u;
      n ← u64_add n 1;
      i ← u64_add i 1;
      Ok (inl (i, T, n))
  end.

(** One iteration of the second loop, which also writes the storage. *)
Definition release_body (ht : u64) (T : N) (sl : SignedInt) (a : u64 * State * Storage) :
    StdResult ((u64 * State * Storage) + (State * Storage)) :=
  let '(i, st, s) := a in
  ready ← next_ready ht i s;
  match ready with
  | None => Ok (inr (st, s))
  | Some h =>
      rate ← new_withdraw_rate h T sl;
      '(_, s) ← store_unbond_history i (release_at rate h) s;
      i' ← u64_add i 1;
      Ok (inl (i', with_last_processed_batch i st, s))
  end.

Lemma count_loop_body ht s fuel a :
  let loop fuel := λ '(i, T, n), count_loop fuel ht i T n s in
  loop (S fuel) a =
  match count_body ht s a with
  | Ok (inl a') => loop fuel a'
  | Ok (inr r) => Ok r
  | Err e => Err e
  | Panic msg => Panic msg
  end.
Proof.
  destruct a as [[i T] n]. cbn [count_loop count_body].
  destruct (next_ready ht i s) as [[h|]| |]; [|done..]. cbn.
  destruct (_ *! _) as [u| |]; [|done..]. cbn. destruct (_ +! _) as [T'| |]; [|done..]. cbn.
  destruct (u64_add n 1); [|done..]. cbn. by destruct (u64_add i 1).
Qed.

Lemma release_loop_body ht T sl fuel a :
  let loop fuel := λ '(i, st, s), release_loop fuel ht i T sl st s in
  loop (S fuel) a =
  match release_body ht T sl a with
  | Ok (inl a') => loop fuel a'
  | Ok (inr r) => Ok r
  | Err e => Err e
  | Panic msg => Panic msg
  end.
Proof.
  destruct a as [[i st] s]. cbn [release_loop release_body].
  unfold mbind, M_bind, result_bind, reading.
  destruct (next_ready ht i s) as [[h|]| |]; [|done..]. cbn [lift].
  destruct (new_withdraw_rate h T sl) as [r| |]; [|done..]. cbn [lift].
  rewrite store_unbond_history_total. by destruct (u64_add i 1).
Qed.

(** Every iteration uses up a recorded batch. *)
Lemma count_body_next ht s a a' :
  a.1.1 < U64_MOD → count_body ht s a = Ok (inl a') →
  a'.1.1 < U64_MOD ∧ (size (recorded_from a'.1.1 s) < size (recorded_from a.1.1 s))%nat.
Proof.
  destruct a as [[i T] n]. cbn. intros Hi E. inv_ok. destruct x as [h|]; inv_ok; [|done].
  match goal with H : next_ready _ _ _ = Ok _ |- _ => apply next_ready_Some in H as (Hr & _) end.
  split; [done|]. by eapply recorded_from_lt.
Qed.

Lemma release_body_next ht T sl a a' :
  a.1.1 < U64_MOD → release_body ht T sl a = Ok (inl a') →
  a'.1.1 < U64_MOD ∧ (size (recorded_from a'.1.1 a'.2) < size (recorded_from a.1.1 a.2))%nat.
Proof.
  destruct a as [[i st] s]. cbn. intros Hi E. inv_ok. destruct x as [h|]; inv_ok; [|done].
  match goal with H : next_ready _ _ _ = Ok _ |- _ => apply next_ready_Some in H as (Hr & _) end.
  rewrite store_unbond_history_total in *. inv_ok. cbn.
  split; [done|]. rewrite (recorded_from_history_added _ _ _ _ _ Hr). by eapply recorded_from_lt.
Qed.

(** ** Claims *)

(** C31: both loops of [process_withdraw_rate] end: from every first batch
    each has an evaluation ([loop_evals], which has no fuel) of at most one
    iteration per recorded batch and one more, and the functions return its
    result whenever their fuel is at least that number. *)
Theorem release_loops_terminate ht i acc n T sl st s :
  i < U64_MOD →
  let bound := S (size (history_map s)) in
  (∃ k r, (k ≤ bound)%nat ∧ loop_evals (count_body ht s) k (i, acc, n) r ∧
     ∀ fuel, (bound ≤ fuel)%nat → count_loop fuel ht i acc n s = r) ∧
  (∃ k r, (k ≤ bound)%nat ∧ loop_evals (release_body ht T sl) k (i, st, s) r ∧
     ∀ fuel, (bound ≤ fuel)%nat → release_loop fuel ht i T sl st s = r).
Proof.
  intros Hi bound. pose proof (recorded_from_size i s) as Hsize. split.
  - destruct (loop_ends (count_body ht s) (λ a, a.1.1 < U64_MOD) (λ a, size (recorded_from a.1.1 s))
      (count_body_next ht s) (i, acc, n) Hi) as (k & r & Hk & Hev). cbn in Hk.
    exists k, r. split_and!; [unfold bound; lia|done|]. intros fuel Hf.
    apply (loop_fuel _ _ (count_loop_body ht s) k (i, acc, n) r fuel Hev). unfold bound in Hf. lia.
  - destruct (loop_ends (release_body ht T sl) (λ a, a.1.1 < U64_MOD)
      (λ a, size (recorded_from a.1.1 a.2)) (release_body_next ht T sl) (i, st, s) Hi)
      as (k & r & Hk & Hev). cbn in Hk.
    exists k, r. split_and!; [unfold bound; lia|done|]. intros fuel Hf.
    apply (loop_fuel _ _ (release_loop_body ht T sl) k (i, st, s) r fuel Hev). unfold bound in Hf. lia.
Qed.

(** C14: [process_withdraw_rate] releases exactly the maximal run of ready
    batches that starts after [last_processed_batch]: each of them gets the
    rate [new_withdraw_rate] computes from the totals and is marked
    released, [last_processed_batch] moves to the last of them, and no other
    batch and no other part of the storage changes. *)
Theorem process_withdraw_rate_refines ht hub_balance s u s' :
  process_withdraw_rate ht hub_balance s = Ok (u, s') → release_effect ht hub_balance s s'.
Proof. apply process_withdraw_rate_Ok. Qed.
End loops.

(** ** Witnesses *)

Lemma release_loops_terminate_witness :
  ∃ k, (k ≤ 3)%nat ∧ loop_evals (count_body 60 demo_unbonding) k (1, 0, 0)
    (count_loop 4 60 1 0 0 demo_unbonding) ∧ is_Ok (count_loop 4 60 1 0 0 demo_unbonding).
Proof.
  destruct (release_loops_terminate 60 1 0 0 1000 (mkSignedInt 100 false) (demo_state 450 20)
    demo_unbonding) as [(k & r & Hk & Hev & Hr) _]; [done|].
  exists k. rewrite (Hr 4%nat) by (vm_compute; lia). split_and!; [vm_compute in Hk; lia|done|].
  rewrite <- (Hr 4%nat) by (vm_compute; lia). vm_compute. by eexists.
Defined.

Lemma process_withdraw_rate_refines_witness : ∃ s',
  process_withdraw_rate 60 900 demo_unbonding = Ok ((), s') ∧
  release_effect 60 900 demo_unbonding s'.
Proof.
  destruct (process_withdraw_rate 60 900 demo_unbonding) as [[[] s']| |] eqn:E;
    [|vm_compute in E; discriminate..].
  exists s'. split; [done|]. exact (process_withdraw_rate_refines _ _ _ _ _ E).
Defined.
