(* ===== verification/HubSolvency.v ===== *)
(** * Solvency of released batches

    Whether the validators were slashed during the unbonding period or the
    hub received too much, the rates that [process_withdraw_rate] fixes
    promise no more coins than have arrived, as long as any arrived
    ([precise]), and each batch gets its share; a batch of which nothing
    arrived is left with one coin. *)
From S2P Require Import Prelude CwTypes CwMath BassetHub CwApi Reference.
From S2P Require Import SignedInt HubState HubScenario HubUnbond HubUnbondSpec HubRelease.

Open Scope N_scope.

Abbreviation K := DECIMAL_ONE (only parsing).

(** ** Proportional shares *)

(** The weight of [u] in [T], and its share of [m] coins. *)
Definition weight (T u : N) : N := u * K / T.
Definition share (T m u : N) : N := m * weight T u / K.

(** What a batch that expects [u] of [T] coins gets. *)
Definition actual_of (T : N) (sl : SignedInt) (u : N) : N :=
  let x := share T (magnitude sl) u in
  if negative sl then u + (x - 1)
  else
    let y := if magnitude sl =? 0 then x else x + 1 in
    if decide (y ≤ u) then u - y else y - u.

Lemma weight_le T u : T * weight T u ≤ u * K.
Proof. apply N.Div0.mul_div_le. Qed.

Lemma share_le T m u : T * share T m u ≤ m * u.
Proof.
  destruct (decide (T = 0)) as [->|HT]; [lia|]. unfold share.
  pose proof (weight_le T u). pose proof (N.Div0.mul_div_le (m * weight T u) K).
  apply (N.mul_le_mono_pos_l _ _ K); [done|]. nia.
Qed.

Lemma share_0 T u : share T 0 u = 0.
Proof. done. Qed.

(** The shares add up to at most what is shared. *)
Lemma sum_share_le T m us : sumN (λ u, u) us = T → T ≠ 0 → sumN (share T m) us ≤ m.
Proof.
  intros Hsum HT. apply (N.mul_le_mono_pos_l _ _ T); [lia|].
  rewrite <- sumN_mul_l. etrans.
  { apply (sumN_le _ (λ u, m * u)). intros u _. apply share_le. }
  rewrite sumN_mul_l, Hsum. lia.
Qed.

(** Rounded up by one they add up to at least what is shared, up to the
    precision of the weights. *)
Lemma share_up T m u : T ≠ 0 → m * u * K + m + T ≤ K * T * (share T m u + 1) + m * T.
Proof.
  intros HT. unfold share, weight.
  pose proof (N.mul_succ_div_gt (m * (u * K / T)) K ltac:(done)) as H1.
  pose proof (N.mul_succ_div_gt (u * K) T HT) as H2.
  revert H1 H2. generalize (u * K / T). intros w. generalize (m * w / K).
  generalize K. intros k x H1 H2.
  assert (m * w + 1 ≤ k * (x + 1)) by lia. assert (u * k + 1 ≤ T * (w + 1)) by lia. nia.
Qed.

Lemma sum_share_up T m us :
  sumN (λ u, u) us = T → T ≠ 0 → N.of_nat (length us) * m < K →
  m ≤ sumN (λ u, share T m u + 1) us.
Proof.
  intros Hsum HT Hprec.
  assert (m * K * sumN (λ u, u) us + N.of_nat (length us) * (m + T) ≤
    K * T * sumN (λ u, share T m u + 1) us + N.of_nat (length us) * (m * T)) as Hall.
  { clear Hsum Hprec. induction us as [|u us IH]; [cbn; lia|]. rewrite !sumN_cons.
    pose proof (share_up T m u HT). cbn [length]. rewrite Nat2N.inj_succ. nia. }
  rewrite Hsum in Hall. set (X := sumN _ us) in *. set (n := N.of_nat (length us)) in *.
  apply N.lt_succ_r. apply (N.mul_lt_mono_pos_l (K * T)); [nia|]. nia.
Qed.

(** In a deficit a batch gives up at most what it expects. *)
Lemma share_lt T m u : m < T → 0 < u → share T m u < u.
Proof. intros Hm Hu. pose proof (share_le T m u). nia. Qed.

(** ** All the batches together *)

(** The precision the weights need when coins are missing: some coins
    arrived, every batch expects some, and the missing coins times the
    number of batches stay below 10^18. *)
Definition precise (T A : N) (us : list N) : Prop :=
  T ≤ A ∨ 0 < A ∧ Forall (λ u, 0 < u) us ∧ N.of_nat (length us) * (T - A) < K.

Lemma sum_actual_le T A us :
  sumN (λ u, u) us = T → T ≠ 0 → precise T A us →
  sumN (actual_of T (shortfall T A)) us ≤ A.
Proof.
  intros Hsum HT Hprec. unfold actual_of, shortfall. case_decide as HA; cbn.
  - destruct (N.eqb_spec (T - A) 0) as [Hz|Hnz].
    + rewrite (sumN_ext _ (λ u, u)); [lia|]. intros u _. rewrite Hz, share_0.
      rewrite decide_True by lia. lia.
    + destruct Hprec as [?|(HA0 & Hpos & Hn)]; [lia|]. rewrite Forall_forall in Hpos.
      pose proof (sum_share_up T (T - A) us Hsum HT Hn) as Hup.
      assert (sumN (λ u, if decide (share T (T - A) u + 1 ≤ u)
                then u - (share T (T - A) u + 1) else share T (T - A) u + 1 - u) us +
              sumN (λ u, share T (T - A) u + 1) us = sumN (λ u, u) us) as Hadd; [|lia].
      rewrite <- sumN_add. apply sumN_ext. intros u Hu.
      pose proof (share_lt T (T - A) u ltac:(lia) (Hpos u Hu)).
      rewrite decide_True by lia. lia.
  - pose proof (sum_share_le T (A - T) us Hsum HT).
    assert (sumN (λ u, u + (share T (A - T) u - 1)) us ≤
            sumN (λ u, u) us + sumN (share T (A - T)) us); [|lia].
    rewrite <- sumN_add. apply sumN_le. lia.
Qed.

(** A batch that expects [u] gets its share of what arrived, less a coin. *)
Lemma actual_of_share T A u : A ≤ T → T ≠ 0 → u * A ≤ T * (actual_of T (shortfall T A) u + 1).
Proof.
  intros HA HT. unfold actual_of, shortfall. rewrite decide_True by done. cbn.
  pose proof (share_le T (T - A) u) as Hs. set (x := share T (T - A) u) in *.
  assert (u * A + u * (T - A) = T * u) by nia.
  destruct (T - A =? 0); case_decide; nia.
Qed.

(** It gets no more than its share, up to the precision of the weights. *)
Lemma actual_of_share_up T A u :
  0 < A → A ≤ T → 0 < u →
  K * T * actual_of T (shortfall T A) u ≤ K * u * A + (T - A) * T.
Proof.
  intros HA0 HA Hu. unfold actual_of, shortfall. rewrite decide_True by done. cbn [negative magnitude].
  pose proof (share_up T (T - A) u ltac:(lia)) as Hup.
  destruct (N.eqb_spec (T - A) 0) as [Hz|Hnz].
  - rewrite Hz, share_0, decide_True by lia. nia.
  - pose proof (share_lt T (T - A) u ltac:(lia) Hu) as Hlt. rewrite decide_True by lia.
    revert Hup Hlt. generalize (share T (T - A) u), K. intros x k Hup Hlt.
    assert (k * T * (u - (x + 1)) + k * T * (x + 1) = k * T * u) by nia.
    assert ((T - A) * u * k + k * u * A = k * T * u) by nia. nia.
Qed.

(** When nothing arrived, a batch alone is left with one coin. *)
Lemma actual_of_slashed u : 0 < u → actual_of u (shortfall u 0) u = 1.
Proof.
  intros Hu. unfold actual_of, shortfall, share, weight. rewrite decide_True by lia.
  cbn [negative magnitude]. rewrite N.sub_0_r. rewrite (N.mul_comm u K), N.div_mul by lia.
  rewrite N.div_mul by done. destruct (N.eqb_spec u 0); [lia|]. rewrite decide_False; lia.
Qed.

Section solvency.
  Context `{CwMathLaws, CwApiLaws}.

Lemma new_withdraw_rate_Ok h T sl r :
  new_withdraw_rate h T sl = Ok r →
  T ≠ 0 ∧ amount h ≠ 0 ∧ r = actual_of T sl (unbonded h) * K / amount h ∧
  (negative sl = true → 1 ≤ share T (magnitude sl) (unbonded h)).
Proof.
  unfold new_withdraw_rate, actual_of. intros E. inv_ok.
  fold (unbonded h) in *. unfold share, weight.
  match goal with E : (if negative sl then _ else _) = Ok _ |- _ => rename E into E' end.
  destruct (negative sl); [inv_ok; split_and!; done|].
  destruct (magnitude sl =? 0); inv_ok; split_and!; try done; by case_decide.
Qed.

Lemma unbonded_release_at h a :
  amount h ≠ 0 → unbonded (release_at (a * K / amount h) h) ≤ a.
Proof.
  intros Hb. unfold unbonded. cbn. apply N.Div0.div_le_upper_bound.
  rewrite (N.mul_comm K). apply N.Div0.mul_div_le.
Qed.

Lemma released_at_payouts T sl hs rates :
  released_at T sl hs rates →
  sumN unbonded (zip_with release_at rates hs) ≤ sumN (actual_of T sl) (unbonded <$> hs).
Proof.
  induction 1 as [|h r hs rates Hr _ IH]; [done|]. cbn [zip_with]. rewrite fmap_cons, !sumN_cons.
  apply new_withdraw_rate_Ok in Hr as (_ & Hb & -> & _).
  pose proof (unbonded_release_at h (actual_of T sl (unbonded h)) Hb). lia.
Qed.

Lemma released_at_total T sl hs rates : released_at T sl hs rates → hs ≠ [] → T ≠ 0.
Proof.
  intros [|h r hs' rates' Hr _]; [done|]. intros _.
  by apply new_withdraw_rate_Ok in Hr as [? _].
Qed.

Lemma release_solvent_run ht hub_balance s u s' :
  process_withdraw_rate ht hub_balance s = Ok (u, s') →
  ∃ st hs hs', state_cell s = Some st ∧ last_processed_batch st + 1 < U64_MOD ∧
    ready_run ht (last_processed_batch st + 1) hs s ∧
    length hs' = length hs ∧ Forall (λ h, released h = true) hs' ∧
    (∀ k h, hs' !! k = Some h →
       read_unbond_history (last_processed_batch st + 1 + N.of_nat k) s' = Ok h) ∧
    (precise (sumN unbonded hs) (arrived hub_balance st) (unbonded <$> hs) →
     sumN unbonded hs' ≤ arrived hub_balance st).
Proof.
  intros (st & hs & rates & Hst & Hfirst & Hrun & Hrel & ->)%process_withdraw_rate_Ok.
  pose proof (Forall2_length _ _ _ Hrel) as Hlen.
  exists st, hs, (zip_with release_at rates hs).
  assert (length (zip_with release_at rates hs) = length hs) as Hlen'.
  { rewrite length_zip_with. lia. }
  split_and!; [done..| | |].
  - clear. revert hs. induction rates as [|r rates IH]; intros [|h hs]; by constructor.
  - intros k h Hk. apply ready_run_lt in Hrun; [|done].
    by apply (read_store_released_in k _ _ s); [|rewrite Hlen'; lia].
  - intros Hprec. etrans; [by eapply released_at_payouts|].
    destruct hs as [|h hs]; [cbn; lia|].
    apply sum_actual_le; [by rewrite sumN_fmap| |done].
    by eapply released_at_total.
Qed.

(** ** Claims *)

(** Solvency: the coins that the batches released by one call promise to
    their users, at the rates it stores, are together at most the coins that
    have arrived in the hub; with coins missing this needs [precise].  All
    the batches of the run are stored as released. *)
Theorem release_solvent ht hub_balance s u s' :
  process_withdraw_rate ht hub_balance s = Ok (u, s') →
  ∃ st hs hs', state_cell s = Some st ∧ ready_run ht (last_processed_batch st + 1) hs s ∧
    length hs' = length hs ∧ Forall (λ h, released h = true) hs' ∧
    (∀ k h, hs' !! k = Some h →
       read_unbond_history (last_processed_batch st + 1 + N.of_nat k) s' = Ok h) ∧
    (precise (sumN unbonded hs) (arrived hub_balance st) (unbonded <$> hs) →
     sumN unbonded hs' ≤ arrived hub_balance st).
Proof.
  intros (st & hs & hs' & Hst & _ & Hrest)%release_solvent_run. by exists st, hs, hs'.
Qed.

(** What one batch of the run is stored as. *)
Lemma released_batch ht hub_balance s u s' st hs k h :
  process_withdraw_rate ht hub_balance s = Ok (u, s') →
  state_cell s = Some st → ready_run ht (last_processed_batch st + 1) hs s → hs !! k = Some h →
  let T := sumN unbonded hs in
  let a := actual_of T (shortfall T (arrived hub_balance st)) (unbonded h) in
  T ≠ 0 ∧ amount h ≠ 0 ∧
  read_unbond_history (last_processed_batch st + 1 + N.of_nat k) s' =
    Ok (release_at (a * K / amount h) h).
Proof.
  intros (st' & hs' & rates & Hst' & Hfirst & Hrun' & Hrel & ->)%process_withdraw_rate_Ok Hst Hrun Hk.
  assert (st' = st) as -> by congruence.
  pose proof (ready_run_det _ _ _ _ _ Hrun' Hrun) as ->. clear Hrun'.
  pose proof (Forall2_lookup_l _ _ _ _ _ Hrel Hk) as (r & Hr & Hrate).
  apply new_withdraw_rate_Ok in Hrate as (HT & Hb & -> & _). split_and!; [done..|].
  apply ready_run_lt in Hrun; [|done]. pose proof (Forall2_length _ _ _ Hrel) as Hlen.
  apply (read_store_released_in k _ _ s); [|rewrite length_zip_with; lia].
  by rewrite lookup_zip_with, Hr, Hk.
Qed.

(** C32: fairness: when coins are missing, each batch of the run is released
    at the rate (rounded down to 18 digits) that gives its users [a] coins,
    where [a] is at least its proportional share of what arrived less one
    coin, and, when anything arrived and the batch expects a coin, at most
    that share and the missing coins times 10^-18, which is less than one
    coin while fewer than 10^18 coins are missing. *)
Theorem release_fair ht hub_balance s u s' st hs k h :
  process_withdraw_rate ht hub_balance s = Ok (u, s') →
  state_cell s = Some st → ready_run ht (last_processed_batch st + 1) hs s →
  hs !! k = Some h →
  let A := arrived hub_balance st in
  let T := sumN unbonded hs in
  A ≤ T →
  ∃ a, read_unbond_history (last_processed_batch st + 1 + N.of_nat k) s' =
         Ok (release_at (a * K / amount h) h) ∧ amount h ≠ 0 ∧
       unbonded h * A ≤ T * (a + 1) ∧
       (0 < A → 0 < unbonded h → K * T * a ≤ K * unbonded h * A + (T - A) * T).
Proof.
  intros E Hst Hrun Hk A T HA.
  destruct (released_batch _ _ _ _ _ _ _ _ _ E Hst Hrun Hk) as (HT & Hb & Hread).
  eexists. split_and!; [exact Hread|done|by apply actual_of_share|].
  intros HA0 Hu. by apply actual_of_share_up.
Qed.

(** C38: a batch of which nothing arrived is released for one coin: when it is
    the only ready batch and it expected coins, the loss that is deducted is
    one more than it expected, and the magnitude of the difference, one coin,
    becomes its value; users who hold the whole batch are owed that coin
    whenever the batch's tokens divide 10^18, although no coin came in. *)
Theorem slashed_batch_owes_a_coin ht hub_balance s u s' st h :
  process_withdraw_rate ht hub_balance s = Ok (u, s') →
  state_cell s = Some st → ready_run ht (last_processed_batch st + 1) [h] s →
  arrived hub_balance st = 0 → 0 < unbonded h →
  ∃ h', read_unbond_history (last_processed_batch st + 1) s' = Ok h' ∧
    h' = release_at (K / amount h) h ∧ ((amount h | K) → unbonded h' = 1).
Proof.
  intros E Hst Hrun HA Hu.
  destruct (released_batch _ _ _ _ _ _ _ 0 h E Hst Hrun eq_refl) as (_ & Hb & Hread).
  rewrite HA in Hread. cbn [sumN foldr] in Hread.
  rewrite N.add_0_r, N.add_0_r, actual_of_slashed, N.mul_1_l in Hread by done.
  eexists. split_and!; [exact Hread|done|]. intros [c Hc]. unfold unbonded. cbn [amount withdraw_rate release_at].
  assert (K / amount h = c) as -> by (rewrite Hc; by apply N.div_mul).
  rewrite N.mul_comm, <- Hc. by apply N.div_same.
Qed.

(** C40: a surplus can block every withdrawal: when more coins arrived than
    the ready batches expect and the share of one of them rounds to zero,
    [process_withdraw_rate], and so every withdrawal, fails. *)
Theorem small_surplus_blocks_release ht hub_balance s st hs h :
  state_cell s = Some st → ready_run ht (last_processed_batch st + 1) hs s →
  sumN unbonded hs < arrived hub_balance st → h ∈ hs →
  share (sumN unbonded hs) (arrived hub_balance st - sumN unbonded hs) (unbonded h) = 0 →
  ¬ is_Ok (process_withdraw_rate ht hub_balance s).
Proof.
  intros Hst Hrun HA Hin Hz [[u s'] E].
  apply process_withdraw_rate_Ok in E as (st' & hs' & rates & Hst' & _ & Hrun' & Hrel & _).
  assert (st' = st) as -> by congruence.
  pose proof (ready_run_det _ _ _ _ _ Hrun' Hrun) as ->.
  apply list_elem_of_lookup in Hin as [k Hk].
  pose proof (Forall2_lookup_l _ _ _ _ _ Hrel Hk) as (r & _ & Hrate).
  apply new_withdraw_rate_Ok in Hrate as (_ & _ & _ & Hshare).
  unfold shortfall in Hshare. rewrite decide_False in Hshare by lia. cbn in Hshare.
  specialize (Hshare eq_refl). lia.
Qed.
End solvency.

(** ** Witnesses *)

Definition demo_ready : list UnbondHistory := [demo_batch 1 10; demo_batch 2 20].

(** At time 60 both batches are ready; 900 of their 1000 coins arrived. *)
Lemma demo_ready_run : ready_run 60 1 demo_ready demo_unbonding.
Proof. cbn [ready_run demo_ready]. split_and!; vm_compute; reflexivity. Qed.

Lemma release_solvent_witness : ∃ s' hs',
  process_withdraw_rate 60 900 demo_unbonding = Ok ((), s') ∧
  length hs' = 2%nat ∧ sumN unbonded hs' ≤ 900.
Proof.
  destruct (process_withdraw_rate 60 900 demo_unbonding) as [[[] s']| |] eqn:E;
    [|vm_compute in E; discriminate..].
  destruct (release_solvent _ _ _ _ _ E) as (st & hs & hs' & [= <-] & Hrun & Hlen & _ & _ & Hle).
  pose proof (ready_run_det _ _ _ _ _ demo_ready_run Hrun) as <-.
  exists s', hs'. split_and!; [done|done|]. apply Hle. right.
  split_and!; [done|repeat constructor|done].
Defined.

Lemma release_fair_witness : ∃ s' a,
  process_withdraw_rate 60 900 demo_unbonding = Ok ((), s') ∧
  read_unbond_history 2 s' = Ok (release_at (a * K / 500) (demo_batch 2 20)) ∧
  500 * 900 ≤ 1000 * (a + 1) ∧ K * 1000 * a ≤ K * 500 * 900 + 100 * 1000.
Proof.
  destruct (process_withdraw_rate 60 900 demo_unbonding) as [[[] s']| |] eqn:E;
    [|vm_compute in E; discriminate..].
  destruct (release_fair 60 900 _ _ _ (demo_state 450 20) demo_ready 1 (demo_batch 2 20) E
    eq_refl demo_ready_run eq_refl ltac:(by vm_compute)) as (a & Hr & _ & Ha & Hup).
  exists s', a. split_and!; [reflexivity|exact Hr|exact Ha|].
  exact (Hup ltac:(by vm_compute) ltac:(by vm_compute)).
Defined.

(** At time 15 the first batch is ready and the hub has received nothing. *)
Lemma slashed_batch_owes_a_coin_witness : ∃ s' h',
  process_withdraw_rate 15 0 demo_unbonding = Ok ((), s') ∧
  read_unbond_history 1 s' = Ok h' ∧ unbonded h' = 1.
Proof.
  destruct (process_withdraw_rate 15 0 demo_unbonding) as [[[] s']| |] eqn:E;
    [|vm_compute in E; discriminate..].
  destruct (slashed_batch_owes_a_coin 15 0 _ _ _ (demo_state 450 20) (demo_batch 1 10) E)
    as (h' & Hr & _ & Hone); [reflexivity| |reflexivity|reflexivity|].
  - cbn [ready_run]. split_and!; vm_compute; reflexivity.
  - exists s', h'. split_and!; [reflexivity|exact Hr|]. apply Hone. by exists 2000000000000000.
Defined.

(** One coin too many blocks the release of the two batches. *)
Lemma small_surplus_blocks_release_witness :
  ¬ is_Ok (process_withdraw_rate 60 1001 demo_unbonding).
Proof.
  apply (small_surplus_blocks_release 60 1001 demo_unbonding (demo_state 450 20) demo_ready
    (demo_batch 1 10)); [done|exact demo_ready_run|done|by left|done].
Defined.
