(* ===== verification/HubWithdraw.v ===== *)
(** * Withdrawing unbonded coins

    The effect of [execute_withdraw_unbonded] (HubUnbond.v): the sender is
    paid what the released batches owe them, exactly once, and nobody else
    is affected. *)
From S2P Require Import Prelude CwTypes CwMath BassetHub CwApi Reference.
From S2P Require Import SignedInt HubState HubScenario HubUnbond HubUnbondSpec HubRelease.

Open Scope N_scope.

Section withdraw.
  Context `{CwMathLaws, CwApiLaws}.
  Implicit Types (s : Storage) (u : string).

(** The wait lists are indexed by serialised batch ids. *)
Definition canonical_waits s : Prop :=
  ∀ addr k v, wait_bucket addr s !! k = Some v → ∃ b : u64, b < U64_MOD ∧ k = ser b.

(** What is left of a wait list when the batches that [s] has released are
    taken out. *)
Definition unreleased_only s (bk : gmap (list N) N) : gmap (list N) N :=
  filter (λ kv, released_key s kv = None) bk.

Lemma without_released u s removed :
  canonical_waits s → get_unbond_batches u s = Ok removed →
  without_batches removed (wait_bucket (ser u) s) = unreleased_only s (wait_bucket (ser u) s).
Proof.
  intros Hcan Hrem. apply map_eq. intros k. rewrite lookup_without_batches.
  unfold unreleased_only. rewrite map_lookup_filter.
  destruct (wait_bucket (ser u) s !! k) as [v|] eqn:Hk; [|by case_decide]. cbn.
  destruct (Hcan _ _ _ Hk) as (b & _ & ->).
  assert (released_key s (ser b, v) = if releasedb s b then Some b else None) as Hkey.
  { unfold released_key, at_key. cbn. by rewrite from_slice_ser. }
  assert (ser b ∈ ser <$> removed ↔ releasedb s b) as Hin.
  { rewrite list_elem_of_fmap. setoid_rewrite (elem_of_get_unbond_batches _ _ _ _ Hrem).
    split; [|by intros ?; exists b; split; [done|]; exists (ser b), v; rewrite from_slice_ser].
    intros (b' & Hb%(inj _) & k' & v' & _ & _ & ?). by subst. }
  unfold guard. case_decide as Hd; rewrite Hkey; case_decide as Hr; try done;
    rewrite Hin in Hd; by destruct (releasedb s b).
Qed.

Definition withdraw_effect (deps : Querier) (env : Env) u s (resp : Response) (s' : Storage) : Prop :=
  ∃ p s1 st1 balance,
    parameters_cell s = Some p ∧ unbonding_period p ≤ block_time env ∧
    query_balance deps (contract_address env) (underlying_coin_denom p) = Ok balance ∧
    let hub_balance := coin_amount balance in
    process_withdraw_rate (block_time env - unbonding_period p) hub_balance s = Ok ((), s1) ∧
    state_cell s1 = Some st1 ∧
    let paid := finished_amount u s1 in
    0 < paid ≤ hub_balance ∧
    messages resp = [Bank_Send u [mkCoin (underlying_coin_denom p) paid]] ∧
    ∃ removed s2, get_unbond_batches u s1 = Ok removed ∧
      remove_batches (ser u) removed s1 = Ok ((), s2) ∧
      s' = set_state (with_prev_hub_balance (hub_balance - paid) st1) s2 ∧
      s2 = set_wait_map (wait_map s2) s1 ∧
      ∀ addr, wait_bucket addr s2 =
        if decide (ser u = addr) then without_batches removed (wait_bucket addr s1)
        else wait_bucket addr s1.

Lemma execute_withdraw_unbonded_Ok deps env info s resp s' :
  execute_withdraw_unbonded deps env info s = Ok (resp, s') →
  withdraw_effect deps env (sender info) s resp s'.
Proof.
  unfold execute_withdraw_unbonded. intros E. inv_ok.
  match goal with H : process_withdraw_rate _ _ _ = Ok (?u, _) |- _ => destruct u end.
  match goal with H : get_finished_amount _ _ = Ok _ |- _ => apply get_finished_amount_Ok in H as -> end.
  match goal with H : remove_unbond_wait_list _ _ _ = Ok _ |- _ =>
    unfold remove_unbond_wait_list in H; inv_ok;
    pose proof (remove_batches_Ok _ _ _ _ _ H) as [Hw Hfr] end.
  match goal with H : state_cell ?s2 = Some _, F : ?s2 = set_wait_map _ _ |- _ =>
    rewrite F in H; cbn in H end.
  match goal with H : (_ =? 0) = false |- _ => apply N.eqb_neq in H end.
  unfold withdraw_effect. do 4 eexists. split_and!; try eassumption; try reflexivity; [lia|].
  match goal with H : remove_batches _ _ _ = Ok (?u, _) |- _ => destruct u end.
  do 2 eexists. split_and!; try eassumption. reflexivity.
Qed.

(** ** What stays the same *)

Lemma release_effect_frame ht bal s s' :
  release_effect ht bal s s' →
  config_cell s' = config_cell s ∧ parameters_cell s' = parameters_cell s ∧
  current_batch_cell s' = current_batch_cell s ∧ wait_map s' = wait_map s ∧
  validators s' = validators s.
Proof.
  intros (st & hs & rates & _ & _ & _ & _ & ->). cbn. rewrite store_released_frame. done.
Qed.

Lemma canonical_waits_map s s' : wait_map s' = wait_map s → canonical_waits s → canonical_waits s'.
Proof. intros E Hcan addr k v. unfold wait_bucket. rewrite E. apply Hcan. Qed.

Lemma finished_share_history s s' b v :
  history_map s' = history_map s → finished_share s' b v = finished_share s b v.
Proof. intros E. unfold finished_share, read_unbond_history. by rewrite E. Qed.

(** A wait list without released batches owes nothing yet. *)
Lemma finished_amount_unreleased u s s' :
  history_map s' = history_map s →
  wait_bucket (ser u) s' = unreleased_only s (wait_bucket (ser u) s) →
  finished_amount u s' = 0.
Proof.
  intros Hh Hw. unfold finished_amount. rewrite Hw. apply sumN_zero.
  intros [k v] (Hkey & _)%elem_of_map_to_list%map_lookup_filter_Some%and_comm.
  unfold at_key. cbn in *. revert Hkey. unfold released_key, at_key. cbn.
  destruct (from_slice k) as [b| |]; [|done..]. rewrite (finished_share_history s s') by done.
  unfold finished_share, releasedb. destruct (read_unbond_history b s) as [h| |]; [|done..].
  by destruct (released h).
Qed.

(** Nothing is withdrawable after a withdrawal, and nobody else is affected. *)
Lemma withdraw_once_canonical deps env info s resp s' :
  canonical_waits s → execute_withdraw_unbonded deps env info s = Ok (resp, s') →
  finished_amount (sender info) s' = 0 ∧
  (∀ addr k v, wait_bucket addr s' !! k = Some v → wait_bucket addr s !! k = Some v) ∧
  (∀ addr, addr ≠ ser (sender info) → wait_bucket addr s' = wait_bucket addr s).
Proof.
  intros Hcan (p & s1 & st1 & bal & _ & _ & _ & Hproc & _ & _ & _ & removed & s2 & Hrem & _ & -> & Hfr & Hw)%
    execute_withdraw_unbonded_Ok.
  apply process_withdraw_rate_Ok, release_effect_frame in Hproc as (_ & _ & _ & Hwait & _).
  apply (canonical_waits_map s s1 Hwait) in Hcan.
  assert (∀ addr, wait_bucket addr s1 = wait_bucket addr s) as Hbk.
  { intros addr. unfold wait_bucket. by rewrite Hwait. }
  split_and!.
  - apply (finished_amount_unreleased _ s1); [cbn; by rewrite Hfr|].
    etrans; [apply Hw|]. rewrite decide_True by done. by apply without_released.
  - intros addr k v. change (wait_bucket addr (set_state _ s2)) with (wait_bucket addr s2).
    rewrite Hw, <- Hbk. case_decide; [|done].
    rewrite lookup_without_batches. by case_decide.
  - intros addr Ha. etrans; [apply Hw|]. by rewrite decide_False, Hbk by done.
Qed.
(** ** Claims *)

(** C13: a withdrawal that succeeds has exactly the effect [withdraw_effect]:
    the ready batches are released, the sender is sent the sum of their
    entries in released batches at the batches' rates, which the hub's
    balance covers, those entries are removed, and the balance that is left
    is recorded for the next release. *)
Theorem withdraw_refines deps env info s resp s' :
  execute_withdraw_unbonded deps env info s = Ok (resp, s') →
  withdraw_effect deps env (sender info) s resp s'.
Proof. apply execute_withdraw_unbonded_Ok. Qed.
(** C16: a withdrawal settles the account of the coins that arrived: whatever
    arrived before it counts for the batches it releases and never again,
    and a later release counts exactly the coins that came in since.  Coins
    that arrived for a batch before it is ready are therefore lost to it. *)
Theorem withdraw_settles_arrivals deps env info s resp s' :
  execute_withdraw_unbonded deps env info s = Ok (resp, s') →
  ∃ denom balance paid st', query_balance deps (contract_address env) denom = Ok balance ∧
    messages resp = [Bank_Send (sender info) [mkCoin denom paid]] ∧
    paid ≤ coin_amount balance ∧ state_cell s' = Some st' ∧
    ∀ later, coin_amount balance - paid ≤ later →
      arrived later st' = later - (coin_amount balance - paid).
Proof.
  intros (p & s1 & st1 & bal & _ & _ & Hbal & Hproc & Hst1 & [_ Hpaid] & Hmsg & removed & s2 & _ & _ &
    -> & _ & _)%execute_withdraw_unbonded_Ok.
  apply process_withdraw_rate_Ok in Hproc as (st & hs & rates & _ & _ & _ & _ & ->).
  cbn in Hst1. injection Hst1 as <-.
  do 4 eexists. split_and!; [exact Hbal|exact Hmsg|exact Hpaid|reflexivity|].
  intros later Hl. unfold arrived. cbn. rewrite decide_True by done. done.
Qed.
End withdraw.

(** ** Witnesses *)

(** A chain on which the hub holds 900 coins. *)
Definition demo_paid : Querier := demo_querier demo_delegations 450 900.

Lemma withdraw_refines_witness : ∃ resp s',
  execute_withdraw_unbonded demo_paid (demo_env 9 62) (mkInfo "alice" []) demo_unbonding =
    Ok (resp, s') ∧
  withdraw_effect demo_paid (demo_env 9 62) "alice" demo_unbonding resp s'.
Proof.
  destruct (execute_withdraw_unbonded demo_paid (demo_env 9 62) (mkInfo "alice" []) demo_unbonding)
    as [[resp s']| |] eqn:E; [|vm_compute in E; discriminate..].
  exists resp, s'. split; [done|]. exact (withdraw_refines _ _ _ _ _ _ E).
Defined.

(** The first batch is released and alice withdraws her 300 coins of it when
    the 500 coins of the second batch have come in but it is not ready yet. *)
Definition demo_early : Storage :=
  set_state (mkState DECIMAL_ONE 450 0 500 0 20 1)
    (set_history_map (<[to_be_bytes 1 := ser (release_at DECIMAL_ONE (demo_batch 1 10))]>
      (history_map demo_unbonding)) demo_unbonding).

(** When the second batch is ready nothing has arrived for it, and its 500
    tokens are released for a single coin. *)
Lemma withdraw_settles_arrivals_witness : ∃ resp s1 s2 st,
  execute_withdraw_unbonded (demo_querier demo_delegations 450 1000) (demo_env 9 21)
    (mkInfo "alice" []) demo_early = Ok (resp, s1) ∧
  process_withdraw_rate 20 700 s1 = Ok ((), s2) ∧
  state_cell s1 = Some st ∧ arrived 700 st = 0 ∧ finished_amount "alice" s2 = 1.
Proof.
  destruct (r ← execute_withdraw_unbonded (demo_querier demo_delegations 450 1000) (demo_env 9 21)
    (mkInfo "alice" []) demo_early; q ← process_withdraw_rate 20 700 (snd r); Ok (r, q))
    as [[[resp s1] [[] s2]]| |] eqn:E; [|vm_compute in E; discriminate..].
  apply result_bind_Ok in E as ([resp' s1'] & E1 & E).
  apply result_bind_Ok in E as ([[] s2'] & E2 & [= -> -> ->]). cbn [snd] in E2.
  destruct (withdraw_settles_arrivals _ _ _ _ _ _ E1) as (denom & bal & paid & st & Hbal & Hmsg & _ & Hst & Harr).
  exists resp, s1, s2, st. split_and!; [done|exact E2|done| |].
  - injection Hbal as <-. vm_compute in E1. injection E1 as <- <-. cbn in Hmsg. injection Hmsg as _ <-.
    apply (Harr 700). done.
  - vm_compute in E1. injection E1 as <- <-. vm_compute in E2. injection E2 as <-. vm_compute. reflexivity.
Defined.
