(* ===== verification/HubInvariant.v ===== *)
(** * The invariant of the hub

    A hub that was instantiated and has executed any sequence of messages,
    from any senders and against any chain, keeps its batches in order:
    the history holds exactly the batches before the current one, exactly
    the first [last_processed_batch] of them are released, and the wait
    lists of all users add up to what each batch records. *)
From S2P Require Import Prelude CwTypes CwMath BassetHub CwApi Reference.
From S2P Require Import SignedInt HubMath HubState HubSlashing HubScenario HubBond HubUnbond.
From S2P Require Import HubConfig HubContract HubBondSpec HubUnbondSpec HubRelease.
From S2P Require Import HubSolvency HubWithdraw.

Open Scope N_scope.

Section invariant.
  Context `{CwMathLaws, CwApiLaws}.
  Implicit Types (s : Storage) (st : State) (cb : CurrentBatch) (u : string) (b i : N).

(** ** Tokens that wait in a batch *)

(** All the users' entries for batch [b]. *)
Definition waiting b s : N := sum_map (λ _ bk, default 0 (bk !! ser b)) (wait_map s).

(** More generally, the values a function [f] gives to these entries. *)
Definition entries (f : N → N) b s : N := sum_map (λ _ bk, f (default 0 (bk !! ser b))) (wait_map s).

Lemma entries_set_wait_bucket f b addr bk s :
  f 0 = 0 → entries f b (set_wait_bucket addr bk s) + f (default 0 (wait_bucket addr s !! ser b)) =
  entries f b s + f (default 0 (bk !! ser b)).
Proof.
  intros Hf. unfold entries, set_wait_bucket, wait_bucket. cbn.
  rewrite <- (sum_map_insert (λ _ bk, f (default 0 (bk !! ser b))) (wait_map s) addr bk).
  f_equal. destruct (wait_map s !! addr); done.
Qed.

Lemma waiting_set_wait_bucket b addr bk s :
  waiting b (set_wait_bucket addr bk s) + default 0 (wait_bucket addr s !! ser b) =
  waiting b s + default 0 (bk !! ser b).
Proof. by apply (entries_set_wait_bucket (λ v, v)). Qed.

Lemma waiting_wait_added b b' u a s :
  waiting b (wait_added b' u a s) = waiting b s + if decide (b' = b) then a else 0.
Proof.
  unfold wait_added.
  pose proof (waiting_set_wait_bucket b (ser u)
    (<[ser b' := default 0 (wait_bucket (ser u) s !! ser b') + a]> (wait_bucket (ser u) s)) s)
    as Hsum.
  rewrite lookup_insert in Hsum. case_decide as Hd; case_decide as Hb; subst; cbn in Hsum.
  - lia.
  - by apply (inj ser) in Hd.
  - done.
  - lia.
Qed.

Lemma entries_remove_batches f b addr bs s r s' :
  f 0 = 0 → remove_batches addr bs s = Ok (r, s') →
  entries f b s' + (if decide (b ∈ bs) then f (default 0 (wait_bucket addr s !! ser b)) else 0) =
  entries f b s.
Proof.
  intros Hf. revert s. induction bs as [|x bs IH]; intros s E; cbn in E.
  - inv_ok. rewrite decide_False by apply not_elem_of_nil. lia.
  - inv_ok. match goal with H : remove_batches _ _ _ = Ok _ |- _ => apply IH in H as IHs end.
    pose proof (entries_set_wait_bucket f b addr (delete (ser x) (wait_bucket addr s)) s Hf) as Hset.
    rewrite wait_bucket_set, (decide_True (P:=addr = addr)), lookup_delete in IHs by done.
    rewrite lookup_delete in Hset.
    destruct (decide (x = b)) as [->|Hx].
    + rewrite (decide_True (P:=ser b = ser b)) in Hset, IHs by done. cbn in Hset, IHs.
      rewrite Hf in Hset, IHs. rewrite (decide_True (P:=b ∈ b :: bs)) by set_solver.
      case_decide; lia.
    + rewrite (decide_False (P:=ser x = ser b)) in Hset, IHs by (intros ?%(inj ser); done).
      repeat case_decide; try lia; set_solver.
Qed.

Lemma waiting_remove_batches b addr bs s r s' :
  remove_batches addr bs s = Ok (r, s') →
  waiting b s' + (if decide (b ∈ bs) then default 0 (wait_bucket addr s !! ser b) else 0) =
  waiting b s.
Proof. by apply (entries_remove_batches (λ v, v)). Qed.

(** ** The invariant *)

(** What the history and the wait lists record of a batch that was
    undelegated. *)
Definition batch_ok st s i : Prop :=
  ∃ h, read_unbond_history i s = Ok h ∧ batch_id h = i ∧
    released h = (i <=? last_processed_batch st) ∧ waiting i s ≤ amount h ∧
    (released h = false → waiting i s = amount h).

Record hub_inv st cb s : Prop := mk_hub_inv {
  inv_state : state_cell s = Some st;
  inv_batch : current_batch_cell s = Some cb;
  inv_id : 1 ≤ id cb < U64_MOD;
  inv_last : last_processed_batch st < id cb;
  inv_history : ∀ i, 1 ≤ i < id cb → batch_ok st s i;
  inv_keys : ∀ k, is_Some (history_map s !! k) → ∃ i, 1 ≤ i < id cb ∧ k = to_be_bytes i;
  inv_waits : ∀ addr k v, wait_bucket addr s !! k = Some v → ∃ b, 1 ≤ b ≤ id cb ∧ k = ser b;
  inv_current : waiting (id cb) s = requested_with_fee cb
}.

Definition hub_ok s : Prop := ∃ st cb, hub_inv st cb s.

(** Everything the invariant depends on is the same. *)
Lemma hub_inv_frame st st' cb s s' :
  hub_inv st cb s → state_cell s' = Some st' →
  last_processed_batch st' = last_processed_batch st →
  current_batch_cell s' = current_batch_cell s → wait_map s' = wait_map s →
  history_map s' = history_map s → hub_inv st' cb s'.
Proof.
  intros [Hst Hcb Hid Hlast Hhist Hkeys Hwaits Hcur] Hst' Hlp Hcb' Hw Hh.
  constructor; try done; try congruence; rewrite ?Hlp, ?Hh; try done.
  - intros i Hi. destruct (Hhist i Hi) as (h & Hr & Hb & Hrel & Hle & Heq). exists h.
    unfold waiting, read_unbond_history in *. rewrite Hw, Hh, Hlp. done.
  - intros addr k v. unfold wait_bucket. rewrite Hw. apply Hwaits.
  - unfold waiting in *. by rewrite Hw.
Qed.

Lemma hub_ok_set_state st st' cb s :
  hub_inv st cb s → last_processed_batch st' = last_processed_batch st →
  hub_ok (set_state st' s).
Proof. intros Hinv Hlp. exists st', cb. by apply (hub_inv_frame st st' cb s). Qed.

Lemma hub_ok_frame s s' :
  hub_ok s → state_cell s' = state_cell s → current_batch_cell s' = current_batch_cell s →
  wait_map s' = wait_map s → history_map s' = history_map s → hub_ok s'.
Proof.
  intros (st & cb & Hinv) Hst. intros. exists st, cb. apply (hub_inv_frame st st cb s s'); try done.
  rewrite Hst. apply Hinv.
Qed.

Lemma slashing_last_processed deps env s st st' :
  state_cell s = Some st → slashing deps env s = Ok ((), set_state st' s) →
  last_processed_batch st' = last_processed_batch st.
Proof.
  intros Hst (st0 & st1 & Hst0 & (p & ds & _ & _ & Hout) & [= ->])%slashing_Ok.
  assert (st0 = st) as -> by congruence.
  destruct Hout as [[_ ->]|(_ & ? & ? & _ & _ & ->)]; [done|].
  unfold slash_books. by destruct (_ <? _).
Qed.

(** ** Unbonding *)

Definition waits_upto (n : N) s : Prop :=
  ∀ addr k v, wait_bucket addr s !! k = Some v → ∃ b, 1 ≤ b ≤ n ∧ k = ser b.

Lemma waits_upto_added n b u a s :
  waits_upto n s → 1 ≤ b ≤ n → waits_upto n (wait_added b u a s).
Proof.
  intros Hw Hb addr k v. unfold wait_added. rewrite wait_bucket_set. case_decide as Ha; [|apply Hw].
  intros [[<- _]|[_ Hk]]%lookup_insert_Some; [by exists b|]. subst. by eapply Hw.
Qed.

(** Nobody waits in a batch that does not exist yet. *)
Lemma waiting_future n b s : waits_upto n s → n < b → waiting b s = 0.
Proof.
  intros Hw Hb. unfold waiting, sum_map. apply sumN_zero.
  intros [addr bk] Hin%elem_of_map_to_list. cbn.
  destruct (bk !! ser b) as [v|] eqn:Hk; [|done].
  destruct (Hw addr (ser b) v) as (b' & ? & ->%(inj ser)); [|lia].
  unfold wait_bucket. by rewrite Hin.
Qed.

Lemma batch_ok_added st st' s b u a i :
  last_processed_batch st' = last_processed_batch st → b ≠ i →
  batch_ok st s i → batch_ok st' (wait_added b u a s) i.
Proof.
  intros Hlp Hb (h & Hr & Hid & Hrel & Hle & Heq). exists h.
  rewrite waiting_wait_added, decide_False, N.add_0_r, Hlp by done. done.
Qed.

Lemma collect_step_ok st0 st cb u owed rate s :
  hub_inv st0 cb s → last_processed_batch st = last_processed_batch st0 →
  hub_ok (collect_step st cb u owed rate s).
Proof.
  intros [Hst Hcb Hid Hlast Hhist Hkeys Hwaits Hcur] Hlp.
  eexists _, _. constructor; try reflexivity; cbn; try done; [by rewrite Hlp|..].
  - intros i Hi. eapply batch_ok_added; [done|lia|]. by apply Hhist.
  - apply (waits_upto_added (id cb)); [done|lia].
  - change (waiting (id cb) (wait_added (id cb) u owed s) = requested_with_fee cb + owed).
    rewrite waiting_wait_added, decide_True by done. lia.
Qed.

Lemma undelegate_step_ok st0 st cb u owed rate now s :
  hub_inv st0 cb s → last_processed_batch st = last_processed_batch st0 →
  id cb + 1 < U64_MOD → hub_ok (undelegate_step st cb u owed rate now s).
Proof.
  intros [Hst Hcb Hid Hlast Hhist Hkeys Hwaits Hcur] Hlp Hnext.
  pose proof (waits_upto_added (id cb) (id cb) u owed s Hwaits ltac:(lia)) as Hwaits'.
  assert (∀ i, i < U64_MOD → read_unbond_history i (undelegate_step st cb u owed rate now s) =
    if decide (id cb = i) then Ok (new_history (id cb) now (requested_with_fee cb + owed) rate)
    else read_unbond_history i s) as Hread.
  { intros i Hi. apply (read_history_added i (id cb) _ (wait_added (id cb) u owed s)); lia. }
  eexists _, _. constructor; try reflexivity; cbn; try lia.
  - intros i Hi. destruct (decide (i = id cb)) as [->|Hne].
    + eexists. split; [rewrite Hread, decide_True by lia; done|]. cbn.
      change (waiting (id cb) _) with (waiting (id cb) (wait_added (id cb) u owed s)).
      rewrite waiting_wait_added, decide_True by done.
      split_and!; [done|symmetry; apply N.leb_gt; lia|lia|lia].
    + destruct (batch_ok_added st0 st s (id cb) u owed i Hlp ltac:(lia) (Hhist i ltac:(lia)))
        as (h & Hr & Hok).
      exists h. split; [|exact Hok].
      by rewrite Hread, decide_False by lia.
  - intros k Hk. destruct (decide (k = to_be_bytes (id cb))) as [->|Hne].
    + exists (id cb). split; [lia|done].
    + rewrite lookup_insert_ne in Hk by done. destruct (Hkeys k Hk) as (i & ? & ->).
      exists i. split; [lia|done].
  - intros addr k v Hk. destruct (Hwaits' addr k v Hk) as (b & ? & ->).
    exists b. split; [lia|done].
  - by apply (waiting_future (id cb) _ (wait_added (id cb) u owed s)); [|lia].
Qed.

(** ** Releasing and withdrawing *)

Lemma ready_run_lookup ht i hs s k h :
  ready_run ht i hs s → hs !! k = Some h →
  read_unbond_history (i + N.of_nat k) s = Ok h ∧ time h ≤ ht ∧ released h = false.
Proof.
  revert i k. induction hs as [|h' hs IH]; intros i [|k]; cbn; try done.
  - intros (Hn & _) [= ->]. rewrite N.add_0_r. by apply next_ready_Some.
  - intros (_ & _ & Hr) Hk. replace (i + _) with (i + 1 + N.of_nat k) by lia. by apply IH.
Qed.

Lemma store_released_keys i hs s k :
  is_Some (history_map (store_released i hs s) !! k) →
  is_Some (history_map s !! k) ∨ ∃ j, j < N.of_nat (length hs) ∧ k = to_be_bytes (i + j).
Proof.
  revert i s. induction hs as [|h hs IH]; intros i s; cbn [store_released length]; [by left|].
  intros [Hk|(j & Hj & ->)]%IH.
  - cbn in Hk. destruct (decide (k = to_be_bytes i)) as [->|Hne].
    + right. exists 0. rewrite N.add_0_r. split; [lia|done].
    + rewrite lookup_insert_ne in Hk by done. by left.
  - right. exists (j + 1). split; [lia|]. f_equal. lia.
Qed.

(** A recorded batch precedes the current one. *)
Lemma inv_read_lt st cb s i h :
  hub_inv st cb s → i < U64_MOD → read_unbond_history i s = Ok h → 1 ≤ i < id cb.
Proof.
  intros Hinv Hi Hr. unfold read_unbond_history in Hr.
  destruct (history_map s !! to_be_bytes i) eqn:Hk; [|done].
  destruct (inv_keys _ _ _ Hinv (to_be_bytes i)) as (i' & Hi' & E); [by eexists|].
  pose proof (inv_id _ _ _ Hinv). apply to_be_bytes_inj in E; [by subst|done|lia].
Qed.

Lemma ready_run_bound ht st cb hs s :
  hub_inv st cb s → last_processed_batch st + 1 < U64_MOD →
  ready_run ht (last_processed_batch st + 1) hs s →
  last_processed_batch st + N.of_nat (length hs) < id cb.
Proof.
  intros Hinv Hf Hrun. pose proof (ready_run_lt _ _ _ _ Hrun Hf).
  destruct (last hs) as [h|] eqn:Hl.
  - rewrite last_lookup in Hl. destruct (ready_run_lookup _ _ _ _ _ _ Hrun Hl) as [Hr _].
    destruct hs; [done|]. cbn [length pred] in *. apply (inv_read_lt _ _ _ _ _ Hinv) in Hr; lia.
  - apply last_None in Hl as ->. cbn. pose proof (inv_last _ _ _ Hinv). lia.
Qed.

Lemma waiting_wait_map i s s' : wait_map s' = wait_map s → waiting i s' = waiting i s.
Proof. unfold waiting. by intros ->. Qed.

(** One batch, before and after the run [hs] is released. *)
Lemma batch_ok_released ht st st' hs rates s s' i :
  let first := last_processed_batch st + 1 in
  ready_run ht first hs s → first < U64_MOD → length rates = length hs → i < U64_MOD →
  last_processed_batch st' = last_processed_batch st + N.of_nat (length hs) →
  wait_map s' = wait_map s →
  read_unbond_history i s' =
    read_unbond_history i (store_released first (zip_with release_at rates hs) s) →
  batch_ok st s i → batch_ok st' s' i.
Proof.
  intros first Hrun Hf Hlen Hi Hlp Hw Hread (h & Hr & Hb & Hreleased & Hle & Heq).
  pose proof (ready_run_lt _ _ _ _ Hrun Hf) as Hrun_lt.
  assert (length (zip_with release_at rates hs) = length hs) as Hlen'
    by (rewrite length_zip_with; lia).
  unfold batch_ok. rewrite (waiting_wait_map i _ _ Hw), Hread, Hlp.
  destruct (decide (first ≤ i < first + N.of_nat (length hs))) as [Hin|Hout].
  - assert (∃ k, i = first + N.of_nat k ∧ (k < length hs)%nat) as (k & -> & Hk)
      by (exists (N.to_nat (i - first)); lia).
    destruct (lookup_lt_is_Some_2 hs k Hk) as [h' Hh'].
    destruct (lookup_lt_is_Some_2 rates k ltac:(lia)) as [r Hr'].
    destruct (ready_run_lookup _ _ _ _ _ _ Hrun Hh') as (Hr2 & _).
    assert (h' = h) as -> by congruence.
    exists (release_at r h). rewrite (read_store_released_in k _ _ _ (release_at r h));
      [|by rewrite lookup_zip_with, Hr', Hh'|lia].
    cbn. split_and!; [done|done|symmetry; apply N.leb_le; lia|done|done].
  - exists h. rewrite read_store_released_out by lia.
    split_and!; [done|done| |done|done]. rewrite Hreleased. subst first.
    destruct (N.leb_spec i (last_processed_batch st)),
      (N.leb_spec i (last_processed_batch st + N.of_nat (length hs))); try done; lia.
Qed.

Lemma release_effect_inv ht bal st cb s s' :
  hub_inv st cb s → release_effect ht bal s s' → ∃ st', hub_inv st' cb s'.
Proof.
  intros Hinv Heff. pose proof (release_effect_frame _ _ _ _ Heff) as (_ & _ & Hcb' & Hw & _).
  destruct Heff as (st0 & hs & rates & Hst & Hf & Hrun & Hrel & Hs').
  assert (st0 = st) as -> by (rewrite (inv_state _ _ _ Hinv) in Hst; congruence).
  pose proof (ready_run_bound _ _ _ _ _ Hinv Hf Hrun) as Hlt.
  pose proof (Forall2_length _ _ _ Hrel) as Hlen. pose proof (inv_id _ _ _ Hinv) as Hid.
  eexists. constructor.
  - subst s'. reflexivity.
  - rewrite Hcb'. apply Hinv.
  - done.
  - cbn. lia.
  - intros i Hi. apply (batch_ok_released ht st _ hs rates s); try done; [lia|by subst s'|].
    by apply Hinv.
  - intros k Hk. subst s'. cbn in Hk.
    apply store_released_keys in Hk as [Hk|(j & Hj & ->)]; [by apply Hinv|].
    eexists. split; [|done]. rewrite length_zip_with in Hj. lia.
  - intros addr k v. unfold wait_bucket. rewrite Hw. apply Hinv.
  - rewrite (waiting_wait_map _ _ _ Hw). apply Hinv.
Qed.

(** Removing released entries of one user. *)
Lemma remove_released_inv st cb u s removed s' r :
  hub_inv st cb s → get_unbond_batches u s = Ok removed →
  remove_batches (ser u) removed s = Ok (r, s') → hub_inv st cb s'.
Proof.
  intros Hinv Hrem Hrm. pose proof (remove_batches_Ok _ _ _ _ _ Hrm) as [Hw Hfr].
  assert (∀ i, waiting i s' ≤ waiting i s ∧ (releasedb s i = false → waiting i s' = waiting i s))
    as Hwaiting.
  { intros i. pose proof (waiting_remove_batches i _ _ _ _ _ Hrm) as Hsum.
    split; [lia|]. intros Hr. rewrite decide_False in Hsum; [lia|].
    rewrite (elem_of_get_unbond_batches _ _ _ _ Hrem), Hr. naive_solver. }
  assert (∀ i, read_unbond_history i s' = read_unbond_history i s) as Hread
    by (intros i; by rewrite Hfr).
  destruct Hinv as [Hst Hcb Hid Hlast Hhist Hkeys Hwaits Hcur]. constructor.
  - by rewrite Hfr.
  - by rewrite Hfr.
  - done.
  - done.
  - intros i Hi. destruct (Hhist i Hi) as (h & Hr & Hb & Hrel & Hle & Heq).
    destruct (Hwaiting i) as [Hle' Hkeep]. exists h. rewrite Hread. split_and!; [done..|lia|].
    intros Hr'. rewrite Hkeep; [auto|]. unfold releasedb. by rewrite Hr.
  - by rewrite Hfr.
  - intros addr k v. rewrite Hw. case_decide; [|apply Hwaits].
    rewrite lookup_without_batches. case_decide; [done|apply Hwaits].
  - rewrite <- Hcur. apply Hwaiting. unfold releasedb.
    destruct (read_unbond_history (id cb) s) as [h| |] eqn:Hr; [|done..].
    unfold read_unbond_history in Hr. destruct (history_map s !! _) eqn:Hk; [|done].
    destruct (Hkeys (to_be_bytes (id cb))) as (i & Hi & E); [by eexists|].
    apply to_be_bytes_inj in E; lia.
Qed.

(** ** Operations that leave the batches alone *)

Definition same_books s s' : Prop :=
  state_cell s' = state_cell s ∧ current_batch_cell s' = current_batch_cell s ∧
  wait_map s' = wait_map s ∧ history_map s' = history_map s.

Lemma same_books_ok s s' : same_books s s' → hub_ok s → hub_ok s'.
Proof. intros (? & ? & ? & ?) Hok. by apply (hub_ok_frame s). Qed.

Lemma execute_update_params_books info ep up fee th s resp s' :
  execute_update_params info ep up fee th s = Ok (resp, s') → same_books s s'.
Proof. unfold execute_update_params. intros E. by inv_ok. Qed.

Lemma execute_update_config_books info o r t a s resp s' :
  execute_update_config info o r t a s = Ok (resp, s') → same_books s s'.
Proof.
  unfold execute_update_config. intros E. destruct o, r, t, a; by inv_ok.
Qed.

Lemma execute_register_validator_books deps env info v s resp s' :
  execute_register_validator deps env info v s = Ok (resp, s') → same_books s s'.
Proof. unfold execute_register_validator, store_white_validators. intros E. by inv_ok. Qed.

Lemma execute_deregister_validator_books deps env info v s resp s' :
  execute_deregister_validator deps env info v s = Ok (resp, s') → same_books s s'.
Proof.
  unfold execute_deregister_validator, remove_white_validators. intros E. inv_ok.
  match goal with x : (string * list CosmosMsg)%type |- _ => destruct x end. inv_ok.
  destruct (query_delegation _ _ _) as [[c|]| |]; by inv_ok.
Qed.

Lemma claim_airdrop_books env info tok air swap claim msg s resp s' :
  claim_airdrop env info tok air swap claim msg s = Ok (resp, s') → same_books s s'.
Proof. unfold claim_airdrop. intros E. by inv_ok. Qed.

Lemma swap_hook_books deps env info tok swap msg s resp s' :
  swap_hook deps env info tok swap msg s = Ok (resp, s') → same_books s s'.
Proof. unfold swap_hook. intros E. by inv_ok. Qed.

Lemma execute_update_global_ok deps env hooks s resp s' :
  hub_ok s → execute_update_global deps env hooks s = Ok (resp, s') → hub_ok s'.
Proof.
  intros (st & cb & Hinv) E. unfold execute_update_global in E.
  destruct hooks; inv_ok; eapply hub_ok_set_state; try exact Hinv; cbn; f_equal;
    rewrite (inv_state _ _ _ Hinv) in *; congruence.
Qed.

Lemma execute_slashing_ok deps env s resp s' :
  hub_ok s → execute_slashing deps env s = Ok (resp, s') → hub_ok s'.
Proof.
  intros (st & cb & Hinv) E. unfold execute_slashing in E. inv_ok.
  match goal with H : slashing _ _ _ = Ok (?u, _) |- _ => destruct u; pose proof H as Hsl;
    apply slashing_Ok in H as (st0 & st' & _ & _ & ->) end.
  eapply hub_ok_set_state; [exact Hinv|].
  eapply slashing_last_processed; [apply Hinv|exact Hsl].
Qed.

Lemma execute_bond_ok deps env info v s resp s' :
  hub_ok s → execute_bond deps env info v s = Ok (resp, s') → hub_ok s'.
Proof.
  intros (st & cb & Hinv) (p & cb' & st' & cfg & raw & token & c & _ & _ & _ & _ & _ & _ & _ & Hsl
    & _ & _ & -> & _)%execute_bond_Ok.
  eapply hub_ok_set_state; [exact Hinv|]. cbn.
  eapply slashing_last_processed; [apply Hinv|exact Hsl].
Qed.

Lemma execute_unbond_ok deps env a u s resp s' :
  hub_ok s → execute_unbond deps env a u s = Ok (resp, s') → hub_ok s'.
Proof.
  intros (st & cb & Hinv) (p & cb' & st' & cfg & raw & token & _ & Hcb & _ & _ & _ & Hsl
    & _ & _ & _ & Hs')%execute_unbond_Ok.
  assert (cb' = cb) as -> by (rewrite (inv_batch _ _ _ Hinv) in Hcb; congruence).
  pose proof (slashing_last_processed _ _ _ _ _ (inv_state _ _ _ Hinv) Hsl) as Hlp.
  destruct (_ <? _).
  - destruct Hs' as (_ & _ & Hid & -> & _). by apply (undelegate_step_ok st).
  - destruct Hs' as [-> _]. by apply (collect_step_ok st).
Qed.

Lemma execute_withdraw_unbonded_ok deps env info s resp s' :
  hub_ok s → execute_withdraw_unbonded deps env info s = Ok (resp, s') → hub_ok s'.
Proof.
  intros (st & cb & Hinv) (p & s1 & st1 & bal & _ & _ & _ & Hproc & Hst1 & _ & _ & removed & s2
    & Hrem & Hrm & -> & _)%execute_withdraw_unbonded_Ok.
  apply process_withdraw_rate_Ok in Hproc.
  destruct (release_effect_inv _ _ _ _ _ _ Hinv Hproc) as (st1' & Hinv1).
  assert (st1' = st1) as -> by (rewrite (inv_state _ _ _ Hinv1) in Hst1; congruence).
  eapply hub_ok_set_state; [by eapply remove_released_inv|done].
Qed.

Lemma receive_cw20_ok deps env info msg s resp s' :
  hub_ok s → receive_cw20 deps env info msg s = Ok (resp, s') → hub_ok s'.
Proof.
  unfold receive_cw20. intros Hok E. destruct (from_binary _) as [[]| |]; inv_ok.
  by eapply execute_unbond_ok.
Qed.

Lemma execute_ok deps env info msg s resp s' :
  hub_ok s → execute deps env info msg s = Ok (resp, s') → hub_ok s'.
Proof.
  intros Hok. destruct msg; cbn [execute]; intros E.
  - exact (same_books_ok _ _ (execute_update_config_books _ _ _ _ _ _ _ _ E) Hok).
  - exact (same_books_ok _ _ (execute_register_validator_books _ _ _ _ _ _ _ E) Hok).
  - exact (same_books_ok _ _ (execute_deregister_validator_books _ _ _ _ _ _ _ E) Hok).
  - exact (same_books_ok _ _ (execute_update_params_books _ _ _ _ _ _ _ _ E) Hok).
  - exact (execute_bond_ok _ _ _ _ _ _ _ Hok E).
  - exact (execute_update_global_ok _ _ _ _ _ _ Hok E).
  - exact (execute_withdraw_unbonded_ok _ _ _ _ _ _ Hok E).
  - exact (execute_slashing_ok _ _ _ _ _ Hok E).
  - exact (receive_cw20_ok _ _ _ _ _ _ _ Hok E).
  - exact (same_books_ok _ _ (claim_airdrop_books _ _ _ _ _ _ _ _ _ _ E) Hok).
  - exact (same_books_ok _ _ (swap_hook_books _ _ _ _ _ _ _ _ _ E) Hok).
Qed.

Lemma instantiate_ok env info msg resp s :
  instantiate env info msg empty_storage = Ok (resp, s) → hub_ok s.
Proof.
  unfold instantiate. intros E. inv_ok. eexists _, _. constructor; try reflexivity; cbn.
  - done.
  - intros i Hi. lia.
  - intros k [? [=]].
  - intros addr k v. unfold wait_bucket. cbn. by rewrite lookup_empty.
Qed.

(** ** Executions *)

(** One message that the hub accepts: from any sender, at any time, against
    any state of the chain.  A message it refuses changes nothing. *)
Inductive hub_step : Storage → Storage → Prop :=
  | hub_step_execute deps env info msg s resp s' :
      execute deps env info msg s = Ok (resp, s') → hub_step s s'.

Inductive hub_reachable : Storage → Prop :=
  | hub_reachable_init env info msg resp s :
      instantiate env info msg empty_storage = Ok (resp, s) → hub_reachable s
  | hub_reachable_step s s' : hub_reachable s → hub_step s s' → hub_reachable s'.

Lemma hub_reachable_ok s : hub_reachable s → hub_ok s.
Proof.
  induction 1 as [? ? ? ? ? E|s s' _ IH Hstep]; [by eapply instantiate_ok|].
  destruct Hstep. by eapply execute_ok.
Qed.

(** A sequence of messages, each with the chain it meets. *)
Definition Call : Type := Querier * Env * MessageInfo * ExecuteMsg.

Fixpoint run_hub (calls : list Call) s : StdResult Storage :=
  match calls with
  | [] => Ok s
  | (deps, env, info, msg) :: calls =>
      '(_, s) ← execute deps env info msg s;
      run_hub calls s
  end.

Lemma run_hub_reachable calls s s' :
  hub_reachable s → run_hub calls s = Ok s' → hub_reachable s'.
Proof.
  revert s. induction calls as [|[[[deps env] info] msg] calls IH]; intros s Hs E; cbn in E.
  - by inv_ok.
  - inv_ok. destruct x as [resp s1]. eapply IH; [|done].
    eapply hub_reachable_step; [done|]. by econstructor.
Qed.

(** ** What the users of a released batch are owed *)

(** The entries of all users in batch [i], each at the batch's rate and
    rounded down as a withdrawal rounds it. *)
Definition owed_in i s : N :=
  sum_map (λ _ bk, finished_share s i (default 0 (bk !! ser i))) (wait_map s).

Lemma owed_in_le st s i h :
  batch_ok st s i → read_unbond_history i s = Ok h → owed_in i s ≤ unbonded h.
Proof.
  intros (h' & Hr & _ & _ & Hle & _) Hr'. assert (h' = h) as -> by congruence.
  unfold owed_in, finished_share. rewrite Hr. destruct (released h).
  - etrans; [apply (sum_map_div_le (λ _ bk, default 0 (bk !! ser i) * withdraw_rate h))|].
    apply N.Div0.div_le_mono. rewrite sum_map_mul_r. by apply N.mul_le_mono_r.
  - unfold sum_map. rewrite sumN_zero by done. apply N.le_0_l.
Qed.

Lemma hub_ok_canonical s : hub_ok s → canonical_waits s.
Proof.
  intros (st & cb & Hinv) addr k v Hk. destruct (inv_waits _ _ _ Hinv _ _ _ Hk) as (b & Hb & ->).
  exists b. pose proof (inv_id _ _ _ Hinv). split; [lia|done].
Qed.

Lemma released_covered ht hub_balance s s' :
  hub_ok s → process_withdraw_rate ht hub_balance s = Ok ((), s') →
  ∃ st hs, state_cell s = Some st ∧ ready_run ht (last_processed_batch st + 1) hs s ∧
    (precise (sumN unbonded hs) (arrived hub_balance st) (unbonded <$> hs) →
     sumN (λ k, owed_in (last_processed_batch st + 1 + N.of_nat k) s') (seq 0 (length hs)) ≤
     arrived hub_balance st).
Proof.
  intros (st & cb & Hinv) E.
  pose proof E as Heff%process_withdraw_rate_Ok.
  destruct (release_effect_inv _ _ _ _ _ _ Hinv Heff) as (st' & Hinv').
  destruct (release_solvent_run _ _ _ _ _ E)
    as (st0 & hs & hs' & Hst & Hf & Hrun & Hlen & _ & Hread & Hle).
  assert (st0 = st) as -> by (rewrite (inv_state _ _ _ Hinv) in Hst; congruence).
  exists st, hs. split_and!; [done..|]. intros Hprec%Hle. etrans; [|exact Hprec].
  rewrite <- Hlen. apply (sumN_seq_le _ unbonded). intros k h Hk.
  apply (owed_in_le st'); [|by apply Hread]. apply (inv_history _ _ _ Hinv').
  apply lookup_lt_Some in Hk. pose proof (ready_run_bound _ _ _ _ _ Hinv Hf Hrun). lia.
Qed.

(** ** Claims *)

(** C4: the invariant of the hub: in every reachable state the history holds
    exactly the batches 1, ..., [id - 1]; exactly those up to
    [last_processed_batch] are released; the users' entries of every batch
    that is not released, the current one included, add up to the amount
    the batch records, and those of a released one to at most that; and
    every entry of a wait list belongs to one of these batches. *)
Theorem hub_invariant s : hub_reachable s → hub_ok s.
Proof. apply hub_reachable_ok. Qed.

(** Every user can be paid: in every reachable state, when
    [process_withdraw_rate] releases batches, the amounts that all the users
    together can withdraw from these batches are at most the coins that
    arrived; with coins missing this needs [precise]. *)
Theorem released_users_covered ht hub_balance s s' :
  hub_reachable s → process_withdraw_rate ht hub_balance s = Ok ((), s') →
  ∃ st hs, state_cell s = Some st ∧ ready_run ht (last_processed_batch st + 1) hs s ∧
    (precise (sumN unbonded hs) (arrived hub_balance st) (unbonded <$> hs) →
     sumN (λ k, owed_in (last_processed_batch st + 1 + N.of_nat k) s') (seq 0 (length hs)) ≤
     arrived hub_balance st).
Proof. intros Hs%hub_reachable_ok. by apply released_covered. Qed.

(** C8: no double withdrawal: in every reachable state, after a withdrawal
    the sender can withdraw nothing until another batch is released, no
    wait list has gained an entry, and the wait lists of all other users are
    as before. *)
Theorem withdraw_once deps env info s resp s' :
  hub_reachable s → execute_withdraw_unbonded deps env info s = Ok (resp, s') →
  finished_amount (sender info) s' = 0 ∧
  (∀ addr k v, wait_bucket addr s' !! k = Some v → wait_bucket addr s !! k = Some v) ∧
  (∀ addr, addr ≠ ser (sender info) → wait_bucket addr s' = wait_bucket addr s).
Proof.
  intros Hs E. eapply withdraw_once_canonical; [|exact E].
  by apply hub_ok_canonical, hub_reachable_ok.
Qed.
End invariant.

(** ** Witnesses *)

(** A hub from its instantiation on: the token is registered, the validator
    whitelisted, alice and bob unbond 300 and 200 of 1000 tokens, and bob's
    request, after the epoch, undelegates batch 1. *)
Definition demo_instantiate : BassetHub.InstantiateMsg :=
  BassetHub.mkInstantiateMsg 30 "uluna" 2 5000000000000000 DECIMAL_ONE "uusd" "val1".

Definition demo_init : StdResult (Response * Storage) :=
  instantiate (demo_env 1 0) (mkInfo "owner" [luna 1000]) demo_instantiate empty_storage.

Definition demo_bonded (supply balance : N) : Querier :=
  demo_querier [mkDelegation "val1" (luna 1000)] supply balance.

Definition demo_unbond (u : string) (amount : N) : ExecuteMsg :=
  Receive (mkCw20Receive u amount (ser Unbond)).

Definition demo_calls : list Call :=
  [(demo_bonded 1000 0, demo_env 2 5, mkInfo "owner" [],
    UpdateConfig None (Some "reward") (Some "token") None);
   (demo_bonded 1000 0, demo_env 3 6, mkInfo "hub" [], RegisterValidator "val1");
   (demo_bonded 1000 0, demo_env 4 10, mkInfo "token" [], demo_unbond "alice" 300);
   (demo_bonded 700 0, demo_env 5 40, mkInfo "token" [], demo_unbond "bob" 200)].

Definition demo_run : StdResult Storage := '(_, s) ← demo_init; run_hub demo_calls s.

Lemma demo_run_reachable s : demo_run = Ok s → hub_reachable s.
Proof.
  unfold demo_run. destruct demo_init as [[resp s0]| |] eqn:E; [|done..].
  cbn [mbind result_bind]. apply run_hub_reachable. exact (hub_reachable_init _ _ _ _ _ E).
Qed.

Lemma hub_invariant_witness : ∃ s, demo_run = Ok s ∧ hub_ok s.
Proof.
  destruct demo_run as [s| |] eqn:E; [|vm_compute in E; discriminate..].
  exists s. split; [done|]. exact (hub_invariant s (demo_run_reachable s E)).
Defined.

Lemma released_users_covered_witness : ∃ s s',
  demo_run = Ok s ∧ process_withdraw_rate 50 450 s = Ok ((), s') ∧ owed_in 1 s' ≤ 450.
Proof.
  destruct (s ← demo_run; r ← process_withdraw_rate 50 450 s; Ok (s, r)) as [[s [[] s']]| |] eqn:E;
    [|vm_compute in E; discriminate..].
  apply result_bind_Ok in E as (s1 & Es & E). apply result_bind_Ok in E as ([[] s2] & Ep & [= -> ->]).
  exists s, s'. split_and!; [done|done|].
  destruct (released_users_covered _ _ _ _ (demo_run_reachable s Es) Ep)
    as (st & hs & Hst & Hrun & Hle).
  vm_compute in Es. injection Es as <-. injection Hst as <-.
  pose (h := mkUnbondHistory 1 40 500 DECIMAL_ONE DECIMAL_ONE false).
  assert (hs = [h]) as ->.
  { eapply ready_run_det; [exact Hrun|]. cbn [ready_run]. split_and!; vm_compute; reflexivity. }
  specialize (Hle ltac:(right; split_and!; [done|repeat constructor|done])).
  cbn [length seq sumN foldr] in Hle. etrans; [|exact Hle]. apply N.le_add_r.
Defined.

Lemma withdraw_once_witness : ∃ s resp s',
  demo_run = Ok s ∧
  execute_withdraw_unbonded (demo_bonded 500 450) (demo_env 9 60) (mkInfo "alice" []) s =
    Ok (resp, s') ∧ finished_amount "alice" s' = 0.
Proof.
  destruct (s ← demo_run; r ← execute_withdraw_unbonded (demo_bonded 500 450) (demo_env 9 60)
    (mkInfo "alice" []) s; Ok (s, r)) as [[s [resp s']]| |] eqn:E;
    [|vm_compute in E; discriminate..].
  apply result_bind_Ok in E as (s1 & Es & E).
  apply result_bind_Ok in E as ([resp' s2] & Ep & [= -> -> ->]).
  exists s, resp, s'. split_and!; [done|done|].
  exact (proj1 (withdraw_once _ _ _ _ _ _ (demo_run_reachable s Es) Ep)).
Defined.
