(* ===== verification/HubQueries.v ===== *)
(** * What the hub's queries report

    The queries read back what the messages wrote: following the pages of
    the history reads every undelegated batch once and in order, the
    requests of a user are what they asked to unbond and were not paid yet,
    and the withdrawable amount is what a withdrawal pays. *)
From stdpp Require Import sorting.
From S2P Require Import Prelude CwTypes CwMath BassetHub CwApi Paging Reference.
From S2P Require Import SignedInt HubMath HubState HubSlashing HubScenario HubBond HubUnbond.
From S2P Require Import HubConfig HubContract HubBondSpec HubUnbondSpec HubRelease.
From S2P Require Import HubSolvency HubWithdraw HubInvariant.

Open Scope N_scope.

(** The batches before [n]: 1, 2, ..., n - 1. *)
Definition batches_before (n : N) : list N := N.of_nat <$> seq 1 (N.to_nat n - 1).

Lemma batches_before_lookup n i b :
  batches_before n !! i = Some b ↔ b = N.of_nat i + 1 ∧ b < n.
Proof.
  unfold batches_before. rewrite list_lookup_fmap_Some. setoid_rewrite lookup_seq.
  split; [intros (x & -> & -> & ?); lia|]. intros [-> ?]. exists (1 + i)%nat. lia.
Qed.

Lemma elem_of_batches_before n b : b ∈ batches_before n ↔ 1 ≤ b < n.
Proof.
  rewrite list_elem_of_lookup. setoid_rewrite batches_before_lookup.
  split; [intros (i & -> & ?); lia|]. intros Hb. exists (N.to_nat b - 1)%nat. lia.
Qed.

Lemma batches_before_NoDup n : NoDup (batches_before n).
Proof. apply NoDup_fmap; [apply _|apply NoDup_seq]. Qed.

Section queries.
  Context `{CwMathLaws, CwApiLaws}.
  Implicit Types (s : Storage) (st : State) (cb : CurrentBatch) (u : string) (b i : N).

(** ** The pages of the history *)

Lemma batches_before_sorted n :
  n ≤ U64_MOD → StronglySorted (λ k k', bytes_le k k') (to_be_bytes <$> batches_before n).
Proof.
  intros Hn. unfold batches_before. rewrite <- list_fmap_compose.
  assert (∀ len first, N.of_nat (first + len) ≤ U64_MOD →
    StronglySorted (λ k k', bytes_le k k') ((to_be_bytes ∘ N.of_nat) <$> seq first len)) as Hgo.
  { induction len as [|len IH]; intros first Hf; cbn [seq fmap list_fmap]; [constructor|].
    constructor; [apply IH; lia|]. apply Forall_fmap, Forall_forall.
    intros j Hj%elem_of_seq. apply to_be_bytes_le; lia. }
  destruct (decide (n = 0)) as [->|]; [constructor|]. apply Hgo. lia.
Qed.

(** The keys of the history, in the order of the range. *)
Lemma history_keys st cb s :
  hub_inv st cb s → (range (history_map s) None).*1 = to_be_bytes <$> batches_before (id cb).
Proof.
  intros Hinv. pose proof (inv_id _ _ _ Hinv) as Hid.
  eapply StronglySorted_unique_strong with (R := λ k k', bytes_le k k').
  - intros k k' _ _. apply bytes_le_antisym.
  - pose proof (range_sorted (history_map s) None) as Hs.
    induction Hs as [|x l _ IH Hx]; cbn; constructor; [done|]. by apply Forall_fmap.
  - apply batches_before_sorted. lia.
  - apply list.NoDup_Permutation; [apply range_NoDup| |].
    + apply NoDup_fmap_2_strong; [|apply batches_before_NoDup].
      intros x y Hx%elem_of_batches_before Hy%elem_of_batches_before.
      apply to_be_bytes_inj; lia.
    + intros k. rewrite !list_elem_of_fmap. split.
      * intros ([k' v] & -> & [Hk _]%elem_of_range).
        destruct (inv_keys _ _ _ Hinv k') as (i & Hi & ->); [by eexists|].
        exists i. by rewrite elem_of_batches_before.
      * intros (i & -> & Hi%elem_of_batches_before).
        destruct (inv_history _ _ _ Hinv i Hi) as (h & Hr & _).
        unfold read_unbond_history in Hr.
        destruct (history_map s !! to_be_bytes i) as [v|] eqn:Hv; [|done].
        exists (to_be_bytes i, v). by rewrite elem_of_range.
Qed.

(** The records of the batches, in order. *)
Definition records cb s (hs : list UnbondHistory) : Prop :=
  Forall2 (λ i h, read_unbond_history i s = Ok h ∧ batch_id h = i) (batches_before (id cb)) hs.

Lemma history_records st cb s : hub_inv st cb s → ∃ hs, records cb s hs.
Proof.
  intros Hinv. unfold records.
  assert (Forall (λ i, 1 ≤ i < id cb) (batches_before (id cb))) as Hall.
  { apply Forall_forall. intros i. apply elem_of_batches_before. }
  induction Hall as [|i l Hi _ (hs & IH)]; [by exists []|].
  destruct (inv_history _ _ _ Hinv i Hi) as (h & Hr & Hb & _). exists (h :: hs). by constructor.
Qed.

Lemma decode_histories_Forall2 (l : list (Bytes * Bytes)) hs :
  Forall2 (λ kv h, from_slice kv.2 = Ok h) l hs → decode_histories l = Ok hs.
Proof.
  induction 1 as [|[k v] h l hs E _ IH]; [done|]. cbn in *. by rewrite E, IH.
Qed.

Lemma history_entries st cb s hs :
  hub_inv st cb s → records cb s hs →
  Forall2 (λ kv h, from_slice kv.2 = Ok h) (range (history_map s) None) hs.
Proof.
  intros Hinv Hrec. pose proof (history_keys _ _ _ Hinv) as Hk. apply Forall2_same_length_lookup.
  split.
  { apply Forall2_length in Hrec. rewrite <- Hrec.
    by rewrite <- (length_fmap fst), Hk, length_fmap. }
  intros j [k v] h Hj Hh.
  destruct (Forall2_lookup_r _ _ _ _ _ Hrec Hh) as (i & Hi & Hr & _).
  assert (k = to_be_bytes i) as ->.
  { assert ((range (history_map s) None).*1 !! j = Some k) as Hkj.
    { rewrite list_lookup_fmap. by rewrite Hj. }
    rewrite Hk, list_lookup_fmap, Hi in Hkj. by injection Hkj as <-. }
  apply range_lookup in Hj. unfold read_unbond_history in Hr. by rewrite Hj in Hr.
Qed.

(** A page starts right after the given batch. *)
Lemma history_page st cb s hs start limit :
  hub_inv st cb s → records cb s hs → default 0 start < U64_MOD →
  query_unbond_requests_limitation start limit s =
    Ok (mkAllHistoryResponse (take (page_size DEFAULT_LIMIT MAX_LIMIT limit) (drop (N.to_nat (default 0 start)) hs))).
Proof.
  intros Hinv Hrec Hstart. unfold query_unbond_requests_limitation, all_unbond_history.
  pose proof (history_entries _ _ _ _ Hinv Hrec) as Hl.
  enough (range (history_map s) (convert start) =
    drop (N.to_nat (default 0 start)) (range (history_map s) None)) as ->.
  { rewrite (decode_histories_Forall2 _ (take (page_size DEFAULT_LIMIT MAX_LIMIT limit)
      (drop (N.to_nat (default 0 start)) hs))); [done|]. by apply Forall2_take, Forall2_drop. }
  destruct start as [start|]; [|done]. cbn in *. rewrite range_from.
  apply filter_drop. intros j [k v] Hj. cbn.
  assert ((range (history_map s) None).*1 !! j = Some k) as Hkj.
  { rewrite list_lookup_fmap. by rewrite Hj. }
  rewrite (history_keys _ _ _ Hinv), list_lookup_fmap_Some in Hkj.
  destruct Hkj as (i & -> & [-> Hi]%batches_before_lookup).
  pose proof (inv_id _ _ _ Hinv). set (i := N.of_nat j + 1) in *.
  destruct (decide (start = i)) as [->|Hne]; [rewrite bytes_le_snoc_self; split; [done|lia]|].
  rewrite bytes_le_snoc.
  - rewrite to_be_bytes_le by lia. lia.
  - intros [k Hp]. pose proof (f_equal length Hp) as Hlen.
    rewrite length_app, !to_be_bytes_length in Hlen.
    destruct k; [|cbn in Hlen; lia]. rewrite app_nil_r in Hp. apply to_be_bytes_inj in Hp; lia.
Qed.

(** ** The requests of a user *)

(** The requests as a map from batches to amounts. *)
Definition requests_map (l : list (N * N)) : gmap N N := list_to_map l.

Lemma fold_requests (acc : list (N * N)) (es : list (Bytes * N)) :
  Forall (λ kv, ∃ b : u64, kv.1 = ser b) es →
  ∃ l, fold_entries (λ requests user_batch value, mret (requests ++ [(user_batch, value)])) acc es =
      Ok (acc ++ l) ∧ es = (λ r, (ser r.1, r.2)) <$> l.
Proof.
  intros Hes. revert acc. induction Hes as [|[k v] es [b Hb] _ IH]; intros acc.
  - exists []. by rewrite app_nil_r.
  - cbn in Hb. subst k. destruct (IH (acc ++ [(b, v)])) as (l & E & ->). exists ((b, v) :: l).
    cbn. rewrite from_slice_ser. cbn. by rewrite E, <- app_assoc.
Qed.

(** In a reachable state the query answers, with each batch once, what the
    user's wait list holds. *)
Lemma query_requests u s :
  canonical_waits s → ∃ l, query_unbond_requests u s = Ok (mkUnbondRequestsResponse u l) ∧
    NoDup l.*1 ∧ ∀ b, requests_map l !! b = wait_bucket (ser u) s !! ser b.
Proof.
  intros Hcan. set (bk := wait_bucket (ser u) s).
  destruct (fold_requests [] (range bk None)) as (l & E & Hl).
  { apply Forall_forall. intros [k v] [Hk _]%elem_of_range.
    destruct (Hcan _ _ _ Hk) as (b & _ & ->). by exists b. }
  exists l. split.
  { unfold query_unbond_requests, get_unbond_requests. rewrite to_vec_ser.
    cbn [mbind result_bind]. fold bk. by rewrite E. }
  assert (NoDup l.*1) as Hnd.
  { pose proof (range_NoDup bk None) as Hnd. rewrite Hl, <- list_fmap_compose in Hnd.
    apply (NoDup_fmap_1 ser). by rewrite <- list_fmap_compose. }
  split; [done|]. intros b. apply option_eq. intros v. unfold requests_map.
  rewrite <- elem_of_list_to_map by done. transitivity ((ser b, v) ∈ range bk None).
  - rewrite Hl, list_elem_of_fmap. split; [intros Hin; by exists (b, v)|].
    intros ([b' v'] & [= ->%(inj ser) ->] & Hin). done.
  - rewrite elem_of_range. cbn. naive_solver.
Qed.

(** ** The withdrawable amount *)

(** The releases are done for time [t]: the batches undelegated up to [t] are
    released, and no others. *)
Definition settled_at (t : N) s : Prop :=
  ∀ i h, read_unbond_history i s = Ok h → released h = (time h <=? t).

(** A user's entries of the batches undelegated at [t] itself. *)
Definition boundary_share (t : N) s (b : u64) (v : Uint128) : N :=
  match read_unbond_history b s with
  | Ok h => if time h =? t then v * withdraw_rate h / DECIMAL_ONE else 0
  | _ => 0
  end.
Definition boundary_amount (u : string) (t : N) s : N :=
  sumN (at_key 0 (boundary_share t s)) (map_to_list (wait_bucket (ser u) s)).

Lemma boundary_amount_0 u t s :
  (∀ i h, read_unbond_history i s = Ok h → time h ≠ t) → boundary_amount u t s = 0.
Proof.
  intros Ht. apply sumN_zero. intros kv _. unfold at_key, boundary_share.
  destruct (from_slice kv.1) as [b| |]; [|done..].
  destruct (read_unbond_history b s) as [h| |] eqn:Hr; [|done..].
  by rewrite (proj2 (N.eqb_neq _ _) (Ht _ _ Hr)).
Qed.

Lemma query_finished_amount_Ok u t s x :
  settled_at t s → query_get_finished_amount u t s = Ok x →
  x + boundary_amount u t s = finished_amount u s.
Proof.
  intros Ht. unfold query_get_finished_amount, finished_amount, boundary_amount. intros E. inv_ok.
  set (g b v := match read_unbond_history b s with
    | Ok h => if time h <? t then v * withdraw_rate h / DECIMAL_ONE else 0 | _ => 0 end).
  apply fold_entries_sum with (g := g) in E.
  - rewrite E, range_all, N.add_0_l, <- sumN_add. apply sumN_ext. intros kv _. unfold at_key.
    destruct (from_slice kv.1) as [b| |]; [|done..]. unfold g, boundary_share, finished_share.
    destruct (read_unbond_history b s) as [h| |] eqn:Hr; [|done..]. rewrite (Ht _ _ Hr).
    destruct (N.ltb_spec (time h) t), (N.eqb_spec (time h) t), (N.leb_spec (time h) t); lia.
  - intros acc b v acc' E'. unfold if_history, g in *.
    destruct (read_unbond_history b s) as [h| |]; inv_ok; [|lia].
    destruct (time h <? t); inv_ok; lia.
Qed.

Lemma settled_release t bal s s' :
  settled_at t s → release_effect t bal s s' →
  history_map s' = history_map s ∧ wait_map s' = wait_map s.
Proof.
  intros Ht (st & hs & rates & _ & _ & Hrun & _ & ->).
  destruct hs as [|h hs]; [by destruct rates|]. exfalso. destruct Hrun as [Hnext _].
  unfold next_ready in Hnext.
  destruct (read_unbond_history _ s) as [h'| |] eqn:Hr; [|done..].
  pose proof (Ht _ _ Hr) as Hrel.
  destruct (N.ltb_spec t (time h')); [done|]. destruct (released h') eqn:E; [done|].
  symmetry in Hrel. apply N.leb_gt in Hrel. lia.
Qed.

Lemma finished_amount_frame u s s' :
  history_map s' = history_map s → wait_map s' = wait_map s →
  finished_amount u s' = finished_amount u s.
Proof.
  intros Hh Hw. unfold finished_amount, wait_bucket. rewrite Hw. apply sumN_ext.
  intros kv _. unfold at_key. destruct (from_slice kv.1); [|done..].
  by apply finished_share_history.
Qed.

(** ** Claims *)

(** C17: the history is read back in full: in every reachable state a client
    that asks for the pages one after the other, each from the last batch of
    the one before, gets the record of every batch undelegated so far, each
    once and in order, whatever the page size, within one query per batch
    and one more. *)
Theorem history_roundtrip s cb limit :
  hub_reachable s → current_batch_cell s = Some cb → limit ≠ Some 0 →
  ∃ hs, follow (λ start, history <$> query_unbond_requests_limitation start limit s) batch_id
      (N.to_nat (id cb)) None = Ok hs ∧ records cb s hs.
Proof.
  intros (st & cb' & Hinv)%hub_reachable_ok Hcb Hlim.
  assert (cb' = cb) as -> by (rewrite (inv_batch _ _ _ Hinv) in Hcb; congruence).
  destruct (history_records _ _ _ Hinv) as (hs & Hrec). exists hs. split; [|done].
  pose proof (inv_id _ _ _ Hinv) as Hid. apply (follow_all _ _ hs (page_size DEFAULT_LIMIT MAX_LIMIT limit)).
  - by apply page_size_pos.
  - by rewrite (history_page _ _ _ _ None _ Hinv Hrec).
  - intros i h Hi. destruct (Forall2_lookup_r _ _ _ _ _ Hrec Hi) as (b & Hb & _ & Hbid).
    apply batches_before_lookup in Hb as [-> Hb].
    rewrite (history_page _ _ _ _ (Some (batch_id h)) _ Hinv Hrec); cbn; rewrite Hbid; [|lia].
    do 4 f_equal. lia.
  - rewrite <- (Forall2_length _ _ _ Hrec). unfold batches_before.
    rewrite length_fmap, length_seq. lia.
Qed.

(** C18: a request to unbond is read back: in every reachable state the query
    of the user's requests answers, and after a request that succeeds it
    reports what it reported before with the amount, less the fee, added to
    the current batch; nobody else's requests change. *)
Theorem unbond_request_roundtrip deps env amount u s resp s' cb :
  hub_reachable s → execute_unbond deps env amount u s = Ok (resp, s') →
  current_batch_cell s = Some cb →
  ∃ p st before after, parameters_cell s = Some p ∧ slashing deps env s = Ok ((), set_state st s) ∧
    query_unbond_requests u s = Ok (mkUnbondRequestsResponse u before) ∧
    query_unbond_requests u s' = Ok (mkUnbondRequestsResponse u after) ∧
    NoDup before.*1 ∧ NoDup after.*1 ∧
    let owed := owed_for p st (supply_or_zero deps s) (requested_with_fee cb) amount in
    requests_map after =
      <[id cb := default 0 (requests_map before !! id cb) + owed]> (requests_map before) ∧
    ∀ u', u' ≠ u → query_unbond_requests u' s' = query_unbond_requests u' s.
Proof.
  intros Hok%hub_reachable_ok E Hcb. pose proof (execute_unbond_ok _ _ _ _ _ _ _ Hok E) as Hok'.
  destruct (query_requests u s (hub_ok_canonical _ Hok)) as (before & Hq & Hnd & Hbefore).
  destruct (query_requests u s' (hub_ok_canonical _ Hok')) as (after & Hq' & Hnd' & Hafter).
  apply execute_unbond_Ok in E as (p & cb' & st & cfg & raw & token & Hp & Hcb' & _ & _ & _ & Hsl
    & _ & _ & _ & Hs').
  assert (cb' = cb) as -> by congruence. exists p, st, before, after.
  set (owed := owed_for p st (supply_or_zero deps s) (requested_with_fee cb) amount) in *.
  assert (wait_map s' = wait_map (wait_added (id cb) u owed s)) as Hw.
  { destruct (_ <? _) in Hs'; [destruct Hs' as (_ & _ & _ & -> & _)|destruct Hs' as [-> _]]; done. }
  assert (∀ addr, wait_bucket addr s' = wait_bucket addr (wait_added (id cb) u owed s)) as Hbk
    by (intros addr; unfold wait_bucket; by rewrite Hw).
  cbn zeta. fold owed. split_and!; try done.
  - apply map_eq. intros b. rewrite Hafter, Hbk, lookup_insert, Hbefore. unfold wait_added.
    rewrite wait_bucket_set, decide_True, lookup_insert by done.
    destruct (decide (id cb = b)) as [->|Hne]; [by rewrite decide_True|].
    rewrite decide_False by (intros ?%(inj ser); done). by rewrite Hbefore.
  - intros u' Hu. unfold query_unbond_requests, get_unbond_requests. rewrite to_vec_ser.
    cbn [mbind result_bind]. unfold wait_added in Hbk.
    by rewrite Hbk, wait_bucket_set, decide_False by (intros ?%(inj ser); done).
Qed.

(** C21: what the withdrawable amount is to a withdrawal: when the releases
    are done for the time one unbonding period ago (the batches undelegated
    up to then are released, and no others), a withdrawal pays the coins that
    the query reports for the same user at the same time, and besides them
    the user's share of the batches undelegated exactly at that time: the
    release takes those batches, the query does not count them.  So the two
    agree when no batch was undelegated at that very second, and otherwise
    the query reports too little. *)
Theorem withdrawable_is_paid deps env info s resp s' p q :
  let t := block_time env - unbonding_period p in
  parameters_cell s = Some p → settled_at t s →
  query_withdrawable_unbonded (sender info) env s = Ok (mkWithdrawableUnbondedResponse q) →
  execute_withdraw_unbonded deps env info s = Ok (resp, s') →
  messages resp = [Bank_Send (sender info)
    [mkCoin (underlying_coin_denom p) (q + boundary_amount (sender info) t s)]] ∧
  ((∀ i h, read_unbond_history i s = Ok h → time h ≠ t) → boundary_amount (sender info) t s = 0).
Proof.
  cbn zeta. intros Hp Ht Hq (p' & s1 & st1 & bal & Hp' & _ & _ & Hproc & _ & _ & Hmsg & _)%
    execute_withdraw_unbonded_Ok. assert (p' = p) as -> by congruence.
  split; [|by apply boundary_amount_0].
  unfold query_withdrawable_unbonded in Hq. inv_ok. same_read.
  match goal with H : query_get_finished_amount _ _ _ = Ok _ |- _ =>
    rewrite (query_finished_amount_Ok _ _ _ _ Ht H) end.
  apply process_withdraw_rate_Ok, settled_release in Hproc as [Hh Hw]; [|done].
  by rewrite Hmsg, (finished_amount_frame _ s s1).
Qed.
End queries.

(** ** Witnesses *)

Lemma history_roundtrip_witness : ∃ s hs,
  demo_run = Ok s ∧ follow (λ start, history <$> query_unbond_requests_limitation start (Some 1) s)
    batch_id 2 None = Ok hs ∧ batch_id <$> hs = [1].
Proof.
  destruct demo_run as [s| |] eqn:E; [|vm_compute in E; discriminate..].
  destruct (current_batch_cell s) as [cb|] eqn:Hcb.
  2: { exfalso. vm_compute in E. injection E as <-. discriminate. }
  destruct (history_roundtrip s cb (Some 1) (demo_run_reachable s E) Hcb) as (hs & Hf & Hrec);
    [done|]. exists s, hs. split; [done|].
  vm_compute in E. injection E as <-. vm_compute in Hcb. injection Hcb as <-.
  split; [exact Hf|]. inversion Hrec as [|? h ? hs' [_ Hb] Hrest]; subst.
  apply Forall2_nil_inv_l in Hrest as ->. cbn. by rewrite Hb.
Defined.

Lemma unbond_request_roundtrip_witness : ∃ s resp s' after,
  demo_run = Ok s ∧
  execute_unbond (demo_bonded 500 0) (demo_env 6 45) 100 "alice" s = Ok (resp, s') ∧
  query_unbond_requests "alice" s' = Ok (mkUnbondRequestsResponse "alice" after) ∧
  is_Some (requests_map after !! 2).
Proof.
  destruct (s ← demo_run;
    r ← execute_unbond (demo_bonded 500 0) (demo_env 6 45) 100 "alice" s; Ok (s, r))
    as [[s [resp s']]| |] eqn:E; [|vm_compute in E; discriminate..].
  apply result_bind_Ok in E as (s1 & Es & E).
  apply result_bind_Ok in E as ([resp' s2] & Ep & [= -> -> ->]).
  destruct (current_batch_cell s) as [cb|] eqn:Hcb.
  2: { exfalso. vm_compute in Es. injection Es as <-. discriminate. }
  destruct (unbond_request_roundtrip _ _ _ _ _ _ _ _ (demo_run_reachable s Es) Ep Hcb)
    as (p & st & before & after & _ & _ & _ & Hq & _ & _ & Hafter & _).
  exists s, resp, s', after. split_and!; [done..|]. rewrite Hafter.
  assert (id cb = 2) as ->.
  { vm_compute in Es. injection Es as <-. vm_compute in Hcb. by injection Hcb as <-. }
  rewrite lookup_insert_eq. by eexists.
Defined.

(** Alice has withdrawn from batch 1, which released it; bob is next.  The
    batch was undelegated at time 40 and the unbonding period is 2. *)
Definition demo_released (now : u64) : StdResult (Storage * (Response * Storage)) :=
  s ← demo_run;
  '(_, s) ← execute_withdraw_unbonded (demo_bonded 500 450) (demo_env 9 now) (mkInfo "alice" []) s;
  r ← execute_withdraw_unbonded (demo_bonded 500 181) (demo_env 9 now) (mkInfo "bob" []) s;
  mret (s, r).

Definition released_params : Parameters := mkParameters 30 "uluna" 2 5000000000000000 DECIMAL_ONE "uusd".

Definition decode_record (kv : list N * Bytes) : StdResult UnbondHistory := from_slice kv.2.
Definition demo_record : UnbondHistory := mkUnbondHistory 1 40 500 DECIMAL_ONE 898000000000000000 true.

Lemma demo_released_facts now q : (now = 60 ∧ q = 179) ∨ (now = 42 ∧ q = 0) →
  (λ '(s, _), (parameters_cell s, query_withdrawable_unbonded "bob" (demo_env 9 now) s,
     boundary_amount "bob" (now - 2) s,
     decode_record <$> map_to_list (history_map s))) <$> demo_released now =
  Ok (Some released_params, Ok (mkWithdrawableUnbondedResponse q), 179 - q, [Ok demo_record]).
Proof. intros [[-> ->]|[-> ->]]; vm_compute; reflexivity. Qed.

Lemma demo_released_Ok now q : (now = 60 ∧ q = 179) ∨ (now = 42 ∧ q = 0) →
  ∃ s resp s', demo_released now = Ok (s, (resp, s')) ∧ parameters_cell s = Some released_params ∧
    settled_at (now - 2) s ∧
    query_withdrawable_unbonded "bob" (demo_env 9 now) s = Ok (mkWithdrawableUnbondedResponse q) ∧
    execute_withdraw_unbonded (demo_bonded 500 181) (demo_env 9 now) (mkInfo "bob" []) s = Ok (resp, s') ∧
    boundary_amount "bob" (now - 2) s = 179 - q.
Proof.
  intros Hnow. pose proof (demo_released_facts now q Hnow) as Hf.
  destruct (demo_released now) as [[s [resp s']]| |] eqn:E; [|discriminate Hf..].
  injection Hf as Hp Hq Hb Hall. exists s, resp, s'. unfold demo_released in E.
  apply result_bind_Ok in E as (s0 & _ & E). apply result_bind_Ok in E as ([r1 s1] & _ & E).
  apply result_bind_Ok in E as (r2 & Ex & [= -> ->]). split_and!; try done.
  intros i h. unfold read_unbond_history.
  destruct (history_map s !! to_be_bytes i) as [d|] eqn:Hd; [|done].
  apply elem_of_map_to_list, (list_elem_of_fmap_2 decode_record) in Hd.
  rewrite Hall in Hd. apply list_elem_of_singleton in Hd. change (from_slice d = Ok demo_record) in Hd. rewrite Hd. intros [= <-].
  by destruct Hnow as [[-> _]|[-> _]].
Qed.

(** Bob is paid what is reported, and at the boundary 179 coins where none
    are reported. *)
Lemma withdrawable_is_paid_witness :
  (∃ s resp s', demo_released 60 = Ok (s, (resp, s')) ∧
     messages resp = [Bank_Send "bob" [mkCoin "uluna" 179]] ∧
     query_withdrawable_unbonded "bob" (demo_env 9 60) s = Ok (mkWithdrawableUnbondedResponse 179)) ∧
  (∃ s resp s', demo_released 42 = Ok (s, (resp, s')) ∧
     messages resp = [Bank_Send "bob" [mkCoin "uluna" 179]] ∧
     query_withdrawable_unbonded "bob" (demo_env 9 42) s = Ok (mkWithdrawableUnbondedResponse 0)).
Proof.
  split.
  - destruct (demo_released_Ok 60 179) as (s & resp & s' & E & Hp & Hset & Hq & Hx & Hb); [by left|].
    exists s, resp, s'. split_and!; [done| |done].
    destruct (withdrawable_is_paid _ (demo_env 9 60) (mkInfo "bob" []) s resp s' released_params 179
      Hp Hset Hq Hx) as [-> _]. change (boundary_amount _ _ s) with (boundary_amount "bob" (60 - 2) s).
    by rewrite Hb.
  - destruct (demo_released_Ok 42 0) as (s & resp & s' & E & Hp & Hset & Hq & Hx & Hb); [by right|].
    exists s, resp, s'. split_and!; [done| |done].
    destruct (withdrawable_is_paid _ (demo_env 9 42) (mkInfo "bob" []) s resp s' released_params 0
      Hp Hset Hq Hx) as [-> _]. change (boundary_amount _ _ s) with (boundary_amount "bob" (42 - 2) s).
    by rewrite Hb.
Defined.
