(* ===== verification/HubAdmin.v ===== *)
(** * Who may do what, and the whitelist

    The guards of the hub's messages (contract.rs, config.rs): which sender
    each message accepts, that nobody but the owner changes the
    configuration, and that the whitelist never becomes empty again. *)
From S2P Require Import Prelude CwTypes CwMath BassetReward BassetHub CwApi Reference.
From S2P Require Import SignedInt HubMath HubState HubSlashing HubScenario HubBond HubUnbond.
From S2P Require Import HubConfig HubContract HubBondSpec HubUnbondSpec HubRelease.
From S2P Require Import HubSolvency HubWithdraw HubInvariant.

Open Scope N_scope.

Section admin.
  Context `{CwMathLaws, CwApiLaws}.
  Implicit Types (s : Storage) (info : MessageInfo) (cfg : Config) (v w : string).

(** ** Authorisation *)

Definition sent_by info (c : CanonicalAddr) : Prop := addr_canonicalize (sender info) = Ok c.

(** The sender each message needs. *)
Definition authorized (env : Env) info cfg (msg : ExecuteMsg) : Prop :=
  match msg with
  | UpdateConfig _ _ _ _ | UpdateParams _ _ _ _ | DeregisterValidator _ =>
      sent_by info (creator cfg)
  | RegisterValidator _ =>
      sent_by info (creator cfg) ∨
      addr_canonicalize (sender info) = addr_canonicalize (contract_address env)
  | Receive _ => ∃ c, token_contract cfg = Some c ∧ sent_by info c
  | ClaimAirdrop _ _ _ _ _ => ∃ c, airdrop_registry_contract cfg = Some c ∧ sent_by info c
  | SwapHook _ _ _ => sender info = contract_address env
  | Bond _ | BassetHub.UpdateGlobalIndex _ | WithdrawUnbonded | CheckSlashing => True
  end.

Ltac finish_auth :=
  repeat match goal with H : bool_decide (_ ≠ _) = false |- _ => apply bool_decide_neq_false in H end;
  unfold sent_by; subst; eauto.

Lemma execute_authorized_Ok deps env info msg s resp s' cfg :
  config_cell s = Some cfg → execute deps env info msg s = Ok (resp, s') →
  authorized env info cfg msg.
Proof.
  intros Hcfg. destruct msg; cbn; intros E; try done.
  - unfold execute_update_config in E. do 3 (rewrite M_bind_Ok in E; destruct E as (? & ? & ? & E)).
    inv_ok. simplify_eq. finish_auth.
  - unfold execute_register_validator in E. inv_ok. simplify_eq.
    match goal with H : _ && _ = false |- _ => apply andb_false_iff in H as [?|?] end; finish_auth.
    right. congruence.
  - unfold execute_deregister_validator in E.
    do 3 (rewrite M_bind_Ok in E; destruct E as (? & ? & ? & E)). inv_ok. simplify_eq. finish_auth.
  - unfold execute_update_params in E. inv_ok. simplify_eq. finish_auth.
  - unfold receive_cw20 in E. destruct (from_binary _) as [[]| |]; inv_ok. simplify_eq. finish_auth.
  - unfold claim_airdrop in E. inv_ok. simplify_eq. finish_auth.
  - unfold swap_hook in E. inv_ok. finish_auth.
Qed.

(** ** What the other messages leave alone *)

Definition same_admin s s' : Prop :=
  config_cell s' = config_cell s ∧ parameters_cell s' = parameters_cell s ∧
  validators s' = validators s.

Definition admin_msg (msg : ExecuteMsg) : bool :=
  match msg with
  | UpdateConfig _ _ _ _ | UpdateParams _ _ _ _ | RegisterValidator _ | DeregisterValidator _ => true
  | _ => false
  end.

Lemma execute_unbond_admin deps env a u s resp s' :
  execute_unbond deps env a u s = Ok (resp, s') → same_admin s s'.
Proof.
  intros (p & cb & st & cfg & raw & token & _ & _ & _ & _ & _ & _ & _ & _ & _ & Hs')%execute_unbond_Ok.
  destruct (_ <? _); [destruct Hs' as (_ & _ & _ & -> & _) | destruct Hs' as [-> _]]; done.
Qed.

Lemma execute_withdraw_unbonded_admin deps env info s resp s' :
  execute_withdraw_unbonded deps env info s = Ok (resp, s') → same_admin s s'.
Proof.
  intros (p & s1 & st1 & bal & _ & _ & _ & Hproc & _ & _ & _ & removed & s2 & _ & _ & -> & Hfr & _)%
    execute_withdraw_unbonded_Ok.
  apply process_withdraw_rate_Ok, release_effect_frame in Hproc as (Hc & Hp & _ & _ & Hv).
  unfold same_admin. cbn. by rewrite Hfr.
Qed.

Lemma execute_admin deps env info msg s resp s' :
  admin_msg msg = false → execute deps env info msg s = Ok (resp, s') → same_admin s s'.
Proof.
  destruct msg; try done; intros _; cbn; intros E.
  - apply execute_bond_Ok in E as (? & ? & ? & ? & ? & ? & ? & _ & _ & _ & _ & _ & _ & _ & _ & _ & _ & -> & _).
    done.
  - unfold execute_update_global in E. destruct airdrop_hooks; by inv_ok.
  - by eapply execute_withdraw_unbonded_admin.
  - unfold execute_slashing in E. inv_ok.
    match goal with H : slashing _ _ _ = Ok _ |- _ => by apply slashing_Ok in H as (? & ? & _ & _ & ->) end.
  - unfold receive_cw20 in E. destruct (from_binary _) as [[]| |]; inv_ok. by eapply execute_unbond_admin.
  - unfold claim_airdrop in E. by inv_ok.
  - unfold swap_hook in E. by inv_ok.
Qed.

(** ** The whitelist *)

Lemma decode_keys_Ok es l :
  decode_keys es = Ok l → Forall2 (λ e v, from_slice (A:=string) e.1 = Ok v) es l.
Proof.
  revert l. induction es as [|[k x] es IH]; intros l E; cbn in E; inv_ok; [constructor|].
  constructor; [done|]. by apply IH.
Qed.

Lemma read_validators_length s l : read_validators s = Ok l → length l = size (validators s).
Proof.
  intros E%decode_keys_Ok%Forall2_length. by rewrite <- E, range_all, length_map_to_list.
Qed.

(** The keys of the whitelist are serialised addresses. *)
Definition whitelist_keys s : Prop := ∀ k, is_Some (validators s !! k) → ∃ v : string, k = ser v.

Lemma read_validators_whitelisted s l v :
  whitelist_keys s → read_validators s = Ok l → v ∈ l → whitelisted v s.
Proof.
  intros Hkeys E%decode_keys_Ok Hv.
  apply list_elem_of_lookup in Hv as [n Hn].
  destruct (Forall2_lookup_r _ _ _ _ _ E Hn) as ([k x] & Hk & Hdec). cbn in Hdec.
  apply list_elem_of_lookup_2, elem_of_range in Hk as [Hk _].
  destruct (Hkeys k) as [v' ->]; [by eexists|]. rewrite from_slice_ser in Hdec.
  injection Hdec as ->. by eexists.
Qed.

Lemma register_whitelist deps env info v s resp s' :
  execute_register_validator deps env info v s = Ok (resp, s') →
  (∃ all, query_all_validators deps = Ok all ∧ v ∈ all) ∧
  validators s' = <[ser v := ser true]> (validators s).
Proof.
  unfold execute_register_validator, store_white_validators. intros E. inv_ok. split; [|done].
  eexists. split; [done|].
  match goal with H : negb _ = false |- _ => apply negb_false_iff, existsb_exists in H as (w & Hin & Hw) end.
  apply bool_decide_eq_true_1 in Hw as ->. by apply list_elem_of_In.
Qed.

(** The whole effect of taking a validator off the whitelist. *)
Definition deregister_effect (deps : Querier) (env : Env) v s (resp : Response) s' : Prop :=
  size (validators s) ≠ 1%nat ∧ validators s' = delete (ser v) (validators s) ∧
  match query_delegation deps (contract_address env) v with
  | Ok None => messages resp = [] ∧ ∃ l, read_validators s' = Ok l ∧ l ≠ []
  | Ok (Some c) => ∃ w l, read_validators s' = Ok l ∧ w ∈ l ∧
      messages resp = [Staking_Redelegate v w c;
        Wasm_Execute (contract_address env) (ser (BassetHub.UpdateGlobalIndex None)) []]
  | _ => messages resp = []
  end.

Lemma deregister_Ok deps env info v s resp s' :
  execute_deregister_validator deps env info v s = Ok (resp, s') →
  deregister_effect deps env v s resp s'.
Proof.
  unfold execute_deregister_validator, remove_white_validators. intros E. inv_ok.
  match goal with x : (string * list CosmosMsg)%type |- _ => destruct x end. inv_ok.
  match goal with H : (_ =? 1)%nat = false |- _ => apply Nat.eqb_neq in H end.
  match goal with H : read_validators s = Ok _ |- _ => apply read_validators_length in H end.
  unfold deregister_effect. destruct (query_delegation _ _ _) as [[c|]| |]; inv_ok;
    (split; [congruence|]); (split; [done|]); try done.
  - do 2 eexists. split_and!; [eassumption| |done]. by eapply list_elem_of_lookup_2.
  - split; [done|]. eexists. split; [eassumption|]. by intros ->.
Qed.

Lemma execute_update_config_whitelist info o r t a s resp s' :
  execute_update_config info o r t a s = Ok (resp, s') → validators s' = validators s.
Proof. unfold execute_update_config. intros E. destruct o, r, t, a; by inv_ok. Qed.

Lemma execute_update_params_whitelist info ep up fee th s resp s' :
  execute_update_params info ep up fee th s = Ok (resp, s') → validators s' = validators s.
Proof. unfold execute_update_params. intros E. by inv_ok. Qed.

(** How one message can change the whitelist. *)
Lemma execute_whitelist deps env info msg s resp s' :
  execute deps env info msg s = Ok (resp, s') →
  validators s' = validators s ∨
  (∃ v, msg = RegisterValidator v ∧ validators s' = <[ser v := ser true]> (validators s)) ∨
  (∃ v, msg = DeregisterValidator v ∧ size (validators s) ≠ 1%nat ∧
        validators s' = delete (ser v) (validators s)).
Proof.
  destruct (admin_msg msg) eqn:Hadm.
  - destruct msg; try done; cbn; intros E.
    + left. by eapply execute_update_config_whitelist.
    + right. left. apply register_whitelist in E as [_ ?]. eauto.
    + right. right. apply deregister_Ok in E as (? & ? & _). eauto.
    + left. by eapply execute_update_params_whitelist.
  - intros E. left. by apply (execute_admin _ _ _ _ _ _ _ Hadm) in E as (_ & _ & ?).
Qed.

Lemma reachable_whitelist_keys s : hub_reachable s → whitelist_keys s.
Proof.
  induction 1 as [? ? ? ? ? E|s s' _ IH Hstep].
  - unfold instantiate in E. inv_ok. intros k [? [=]].
  - destruct Hstep as [deps env info msg s resp s' E].
    intros k Hk. apply execute_whitelist in E as [Hv|[(v & _ & Hv)|(v & _ & _ & Hv)]];
      rewrite Hv in Hk; [by apply IH|..].
    + destruct (decide (ser v = k)) as [<-|Hne]; [by eexists|].
      rewrite lookup_insert_ne in Hk by done. by apply IH.
    + rewrite lookup_delete in Hk. case_decide; [by destruct Hk|]. by apply IH.
Qed.

(** ** Claims *)

(** C26: every message checks its sender: only the owner updates the
    configuration or the parameters or removes validators; only the owner or
    the hub itself adds validators; a token hook is accepted from the
    registered token contract only, an airdrop claim from the registered
    airdrop registry only, and the swap hook from the hub itself only. *)
Theorem execute_authorized deps env info msg s resp s' cfg :
  config_cell s = Some cfg → execute deps env info msg s = Ok (resp, s') →
  authorized env info cfg msg.
Proof. apply execute_authorized_Ok. Qed.

(** C27: a sender who is neither the owner nor the hub changes neither the
    configuration, nor the parameters, nor the whitelist, whatever message
    is sent. *)
Theorem only_owner_administers deps env info msg s resp s' cfg :
  config_cell s = Some cfg → ¬ sent_by info (creator cfg) →
  addr_canonicalize (sender info) ≠ addr_canonicalize (contract_address env) →
  execute deps env info msg s = Ok (resp, s') → same_admin s s'.
Proof.
  intros Hcfg Hown Hself E. pose proof (execute_authorized_Ok _ _ _ _ _ _ _ _ Hcfg E) as Hauth.
  destruct (admin_msg msg) eqn:Hadm; [|by eapply execute_admin].
  destruct msg; cbn in Hauth; tauto || done.
Qed.

(** C28: once a validator is whitelisted the whitelist never becomes empty
    again: no message removes the last one. *)
Theorem whitelist_never_empties deps env info msg s resp s' :
  validators s ≠ ∅ → execute deps env info msg s = Ok (resp, s') → validators s' ≠ ∅.
Proof.
  intros Hne E. apply execute_whitelist in E as [->|[(v & _ & ->)|(v & _ & Hsize & ->)]].
  - done.
  - apply insert_non_empty.
  - intros Hempty. pose proof (map_size_delete (ser v) (validators s)) as Hdel.
    rewrite Hempty, map_size_empty in Hdel.
    rewrite <- map_size_empty_iff in Hne. destruct (validators s !! ser v); cbn in Hdel; lia.
Qed.

(** Deregistering a validator takes exactly it off the whitelist, and
    when the hub has coins delegated to it they are redelegated, all of
    them, to another validator that is still whitelisted, followed by an
    update of the reward index. *)
Theorem deregister_redelegates deps env info v s resp s' :
  hub_reachable s → execute_deregister_validator deps env info v s = Ok (resp, s') →
  (∀ w, whitelisted w s' ↔ w ≠ v ∧ whitelisted w s) ∧
  (∀ c, query_delegation deps (contract_address env) v = Ok (Some c) →
   ∃ w, w ≠ v ∧ whitelisted w s' ∧
     messages resp = [Staking_Redelegate v w c;
       Wasm_Execute (contract_address env) (ser (BassetHub.UpdateGlobalIndex None)) []]).
Proof.
  intros Hs E. pose proof E as (_ & Hv & Hmsgs)%deregister_Ok.
  assert (∀ w, whitelisted w s' ↔ w ≠ v ∧ whitelisted w s) as Hwl.
  { intros w. unfold whitelisted. rewrite Hv, lookup_delete.
    case_decide as Hd; [apply (inj ser) in Hd as ->|]; [|naive_solver].
    split; [by intros [? [=]] | by intros [? _]]. }
  split; [done|]. intros c Hc. rewrite Hc in Hmsgs. destruct Hmsgs as (w & l & Hl & Hw & Hmsgs).
  assert (whitelisted w s') as Hw'.
  { eapply read_validators_whitelisted; [|done..]. apply reachable_whitelist_keys.
    eapply hub_reachable_step; [done|].
    by apply (hub_step_execute deps env info (DeregisterValidator v) s resp). }
  exists w. split_and!; [by apply Hwl|done|done].
Qed.

(** Updating the global index only records the time in the hub, and sends
    in this order: the airdrop hooks to the registry, one reward withdrawal
    per delegation, then to the reward contract the swap of the rewards and
    last the update of its index, so that the index sees the swapped
    rewards. *)
Theorem update_global_messages deps env hooks s resp s' :
  execute_update_global deps env hooks s = Ok (resp, s') →
  ∃ cfg raw reward st hook_msgs withdraw_msgs,
    config_cell s = Some cfg ∧ reward_contract cfg = Some raw ∧ addr_humanize raw = Ok reward ∧
    state_cell s = Some st ∧ s' = set_state (with_last_index_modification (block_time env) st) s ∧
    messages resp = hook_msgs ++ withdraw_msgs ++
      [Wasm_Execute reward (ser SwapToRewardDenom) [];
       Wasm_Execute reward (ser BassetReward.UpdateGlobalIndex) []] ∧
    (∀ ds, query_all_delegations deps (contract_address env) = Ok ds →
      withdraw_msgs =
        (λ d, Distribution_WithdrawDelegatorReward (delegation_validator d)) <$> ds) ∧
    match hooks with
    | None => hook_msgs = []
    | Some hs => ∃ reg_raw reg, airdrop_registry_contract cfg = Some reg_raw ∧
        addr_humanize reg_raw = Ok reg ∧ hook_msgs = (λ m, Wasm_Execute reg m []) <$> hs
    end.
Proof.
  unfold execute_update_global. intros E.
  assert (∀ ms ds, withdraw_all_rewards deps (contract_address env) = Ok ms →
    query_all_delegations deps (contract_address env) = Ok ds →
    ms = (λ d, Distribution_WithdrawDelegatorReward (delegation_validator d)) <$> ds) as Hwd.
  { unfold withdraw_all_rewards. intros ms ds E1 E2. rewrite E2 in E1. by inv_ok. }
  destruct hooks as [hs|]; inv_ok; do 6 eexists; split_and!; try eassumption; try reflexivity;
    eauto 10.
Qed.
End admin.

(** ** Witnesses *)

Lemma execute_authorized_witness : ∃ resp s',
  execute demo_chain (demo_env 7 10) (mkInfo "token" []) (demo_unbond "alice" 100) demo_hub =
    Ok (resp, s') ∧
  authorized (demo_env 7 10) (mkInfo "token" []) demo_config (demo_unbond "alice" 100).
Proof.
  destruct (execute demo_chain (demo_env 7 10) (mkInfo "token" []) (demo_unbond "alice" 100) demo_hub)
    as [[resp s']| |] eqn:E; [|vm_compute in E; discriminate..].
  exists resp, s'. split; [done|]. exact (execute_authorized _ _ _ _ demo_hub _ _ demo_config eq_refl E).
Defined.

Lemma only_owner_administers_witness : ∃ resp s',
  execute demo_chain (demo_env 7 10) (demo_payer 90) (Bond "val1") demo_hub = Ok (resp, s') ∧
  same_admin demo_hub s'.
Proof.
  destruct (execute demo_chain (demo_env 7 10) (demo_payer 90) (Bond "val1") demo_hub)
    as [[resp s']| |] eqn:E; [|vm_compute in E; discriminate..].
  exists resp, s'. split; [done|].
  apply (only_owner_administers _ _ _ _ demo_hub _ _ demo_config eq_refl) in E;
    [done|discriminate..].
Defined.

Lemma whitelist_never_empties_witness : ∃ resp s',
  execute demo_chain (demo_env 7 10) (mkInfo "owner" []) (DeregisterValidator "val1") demo_hub =
    Ok (resp, s') ∧ validators s' ≠ ∅.
Proof.
  destruct (execute demo_chain (demo_env 7 10) (mkInfo "owner" []) (DeregisterValidator "val1")
    demo_hub) as [[resp s']| |] eqn:E; [|vm_compute in E; discriminate..].
  exists resp, s'. split; [done|].
  assert (validators demo_hub ≠ ∅) as Hne by (intros Hv; vm_compute in Hv; discriminate).
  exact (whitelist_never_empties _ _ _ _ _ _ _ Hne E).
Defined.

(** The hub of [demo_run] with a second whitelisted validator. *)
Definition demo_two_validators : StdResult Storage :=
  s ← demo_run;
  run_hub [(demo_chain, demo_env 6 41, mkInfo "owner" [], RegisterValidator "val2")] s.

Lemma deregister_redelegates_witness : ∃ s resp s' w,
  demo_two_validators = Ok s ∧
  execute_deregister_validator demo_chain (demo_env 7 50) (mkInfo "owner" []) "val1" s =
    Ok (resp, s') ∧ w ≠ "val1" ∧ whitelisted w s'.
Proof.
  destruct (s ← demo_two_validators;
    r ← execute_deregister_validator demo_chain (demo_env 7 50) (mkInfo "owner" []) "val1" s;
    Ok (s, r)) as [[s [resp s']]| |] eqn:E; [|vm_compute in E; discriminate..].
  apply result_bind_Ok in E as (s1 & Es & E).
  apply result_bind_Ok in E as ([resp' s2] & Ep & [= -> -> ->]).
  assert (hub_reachable s) as Hs.
  { unfold demo_two_validators in Es. apply result_bind_Ok in Es as (s0 & E0 & Es).
    eapply run_hub_reachable; [|exact Es]. by apply demo_run_reachable. }
  destruct (deregister_redelegates _ _ _ _ _ _ _ Hs Ep) as [_ Hred].
  destruct (Hred (luna 100) eq_refl) as (w & Hne & Hw & _).
  exists s, resp, s', w. exact (conj Es (conj Ep (conj Hne Hw))).
Defined.

Lemma update_global_messages_witness : ∃ resp s' reward,
  execute_update_global demo_chain (demo_env 7 10) (Some [[1; 2]]) demo_hub = Ok (resp, s') ∧
  last (messages resp) = Some (Wasm_Execute reward (ser BassetReward.UpdateGlobalIndex) []).
Proof.
  destruct (execute_update_global demo_chain (demo_env 7 10) (Some [[1; 2]]) demo_hub)
    as [[resp s']| |] eqn:E; [|vm_compute in E; discriminate..].
  destruct (update_global_messages _ _ _ _ _ _ E)
    as (cfg & raw & reward & st & hooks & wd & _ & _ & _ & _ & _ & Hmsgs & _).
  exists resp, s', reward. split; [done|]. by rewrite Hmsgs, !last_app.
Defined.
