(* ===== verification/HubBacking.v ===== *)
(** * Backing across all messages of the hub

    Whatever message the hub executes, the tokens stay backed: either its
    response ends with the message that brings the supply of the token in
    line (a mint after a bond, a burn after a request to unbond), and the
    books are those for the supply after it, or the supply is not concerned
    and the books back what they backed before. *)
From S2P Require Import Prelude CwTypes CwMath BassetHub BassetReward CwApi Reference.
From S2P Require Import HubState HubSlashing HubScenario HubBond HubUnbond HubConfig HubContract.
From S2P Require Import HubPick HubBondSpec HubUnbondSpec HubRelease HubWithdraw HubInvariant HubAdmin.

Open Scope N_scope.

(** A message to a module of the chain. *)
Definition chain_msg (m : CosmosMsg) : bool :=
  match m with Wasm_Execute _ _ _ => false | _ => true end.

(** The supply after a message that settles it. *)
Definition settled_supply (m : Cw20ExecuteMsg) (n : N) : N :=
  match m with
  | Cw20_Mint _ a => n + a
  | Cw20_Burn a => n - a
  | Cw20_Send _ _ _ => n
  end.
Definition settles (m : Cw20ExecuteMsg) : bool :=
  match m with Cw20_Send _ _ _ => false | _ => true end.

Section backing.
  Context `{CwMathLaws, CwApiLaws}.
  Implicit Types (s : Storage) (st : State) (cfg : Config).

(** [n] issued tokens are backed, unless everything that was bonded is gone. *)
Definition covered (n : N) s : Prop :=
  ∀ st, state_cell s = Some st → total_bond_amount st ≠ 0 → backed n s.

Lemma covered_le n m s : m ≤ n → covered n s → covered m s.
Proof.
  intros Hle Hc st Hst Hb. destruct (Hc st Hst Hb) as (st' & cb & ? & Hcb & ?).
  exists st', cb. split_and!; [done..|]. nia.
Qed.

(** The books, as far as backing is concerned. *)
Definition same_backing s s' : Prop :=
  current_batch_cell s' = current_batch_cell s ∧
  ∀ st', state_cell s' = Some st' → ∃ st, state_cell s = Some st ∧
    total_bond_amount st' = total_bond_amount st ∧ exchange_rate st' = exchange_rate st.

Lemma covered_same n s s' : same_backing s s' → covered n s → covered n s'.
Proof.
  intros [Hcb Hst] Hc st' Hst' Hb. destruct (Hst _ Hst') as (st & Hs & Eb & Er).
  destruct (Hc st Hs ltac:(congruence)) as (st0 & cb & Hs0 & Hcb0 & Hle).
  assert (st0 = st) as -> by congruence.
  exists st', cb. split_and!; [done|congruence|]. by rewrite Eb, Er.
Qed.

Lemma same_books_backing s s' : same_books s s' → same_backing s s'.
Proof. intros (Hs & Hc & _). split; [done|]. intros st' E. rewrite Hs in E. eauto. Qed.

Lemma slashing_covered deps env s st n :
  (∀ k, query_total_issued deps s = Ok k → k = n) → slashing deps env s = Ok ((), set_state st s) →
  covered n s → covered n (set_state st s).
Proof.
  intros Hq (st0 & st' & Hst & (p & ds & _ & _ & Hout) & E)%slashing_Ok Hc.
  assert (st' = st) as -> by (apply (f_equal state_cell) in E; cbn in E; congruence).
  assert (st = st0 → covered n (set_state st s)) as Hsame.
  { intros ->. apply (covered_same n s); [|done]. split; [done|]. cbn. intros ? [= <-]. eauto. }
  destruct Hout as [[_ ->]|(_ & issued & cb & Hiss & Hcb & ->)]; [by apply Hsame|].
  apply Hq in Hiss as ->. unfold slash_books in *.
  destruct (_ <? _); [|by apply Hsame].
  intros st1 [= <-] Hb. cbn in Hb. eexists _, cb. split_and!; [done|done|]. cbn.
  by apply fair_rate_backed.
Qed.

Lemma release_backing ht bal s s' : release_effect ht bal s s' → same_backing s s'.
Proof.
  intros Hrel. pose proof (release_effect_frame _ _ _ _ Hrel) as (_ & _ & Hcb & _).
  split; [done|]. destruct Hrel as (st & hs & rates & Hst & _ & _ & _ & ->). cbn.
  intros st' [= <-]. eauto.
Qed.

Lemma withdraw_backing deps env info s resp s' :
  execute_withdraw_unbonded deps env info s = Ok (resp, s') → same_backing s s'.
Proof.
  intros (p & s1 & st1 & bal & _ & _ & _ & Hproc & Hst1 & _ & _ & removed & s2 & _ & _ & -> & Hfr & _)%
    execute_withdraw_unbonded_Ok.
  apply process_withdraw_rate_Ok, release_backing in Hproc as [Hcb Hst]. split.
  - rewrite Hfr. cbn. done.
  - cbn. intros st' [= <-]. by destruct (Hst _ Hst1) as (st & ? & ? & ?); exists st.
Qed.

Lemma update_global_backing deps env hooks s resp s' :
  execute_update_global deps env hooks s = Ok (resp, s') → same_backing s s'.
Proof.
  unfold execute_update_global. intros E.
  destruct hooks; inv_ok; (split; [done|]); cbn; intros st' [= <-]; eauto.
Qed.

(** ** The messages that settle the supply *)

(** The hub learns the supply [n] from the token it is connected to. *)
Definition supply_known (deps : Querier) cfg s (n : N) : Prop :=
  ∀ raw token, token_contract cfg = Some raw → addr_humanize raw = Ok token →
    query_total_issued deps s = Ok n.

Lemma supply_known_issued deps cfg s n k :
  config_cell s = Some cfg → supply_known deps cfg s n → query_total_issued deps s = Ok k → k = n.
Proof.
  intros Hcfg Hn Hk. pose proof Hk as E. unfold query_total_issued in E. inv_ok. simplify_eq.
  rewrite (Hn _ _ ltac:(eassumption) ltac:(eassumption)) in Hk. congruence.
Qed.

Lemma supply_or_zero_eq deps s n : query_total_issued deps s = Ok n → supply_or_zero deps s = n.
Proof. unfold supply_or_zero. by intros ->. Qed.

Lemma bond_covered deps env info v s resp s' cfg n :
  config_cell s = Some cfg → supply_known deps cfg s n → execute_bond deps env info v s = Ok (resp, s') →
  ∃ c token m raw, token_contract cfg = Some raw ∧ addr_humanize raw = Ok token ∧
    messages resp = [Staking_Delegate v c; Wasm_Execute token (ser (Cw20_Mint (sender info) m)) []] ∧
    covered (n + m) s'.
Proof.
  intros Hcfg0 Hq (p & cb & st & cfg' & raw & token & c & Hp & Hcb & Hcfg & Hraw & Hh & _ & Hpay & _ & _ & _
    & -> & Hmsgs)%execute_bond_Ok.
  simplify_eq. rewrite (supply_or_zero_eq _ _ _ (Hq _ _ Hraw Hh)) in *.
  do 4 eexists. split_and!; [done..|exact Hmsgs|].
  intros st1 [= <-] Hb. eexists _, cb. split_and!; [done|done|]. cbn. by apply fair_rate_backed.
Qed.

Lemma unbond_covered deps env a u s resp s' cfg n :
  config_cell s = Some cfg → supply_known deps cfg s n → execute_unbond deps env a u s = Ok (resp, s') →
  ∃ pre token raw, token_contract cfg = Some raw ∧ addr_humanize raw = Ok token ∧
    messages resp = pre ++ [burn_msg token a] ∧ Forall (λ m, chain_msg m = true) pre ∧
    covered (n - a) s'.
Proof.
  intros Hcfg0 Hq (p & cb & st & cfg' & raw & token & Hp & Hcb & Hcfg & Hraw & Hh & _ & _ & Ham & _ & Hs')%
    execute_unbond_Ok.
  simplify_eq. rewrite (supply_or_zero_eq _ _ _ (Hq _ _ Hraw Hh)) in *. destruct (_ <? _).
  - destruct Hs' as (_ & Hund & _ & -> & ds & picks & _ & _ & Hmsgs).
    eexists (undelegate_msg (underlying_coin_denom p) <$> picks), token, raw.
    split_and!; [done..| |].
    + apply Forall_fmap, Forall_true. by intros [].
    + intros st1 [= <-] Hb. cbn in Hb. eexists _, _. split_and!; [done|done|]. cbn.
      rewrite N.add_0_r. apply backed_after_undelegation.
      intros Hz. apply Hb. rewrite Hz. apply N.sub_0_l.
  - destruct Hs' as [-> Hmsgs]. exists [], token, raw.
    split_and!; [done..|constructor|].
    intros st1 [= <-] Hb. eexists _, _. split_and!; [done|done|]. cbn. by apply fair_rate_backed.
Qed.

(** ** Every message *)

(** The other messages the hub sends: to itself, to the reward contract, to
    the registry, the airdropped tokens it swaps, and the claim it was told
    to make. *)
Definition quiet (env : Env) cfg (msg : BassetHub.ExecuteMsg) (m : CosmosMsg) : Prop :=
  match m with
  | Wasm_Execute to b _ =>
      to = contract_address env ∨
      (∃ c, (reward_contract cfg = Some c ∨ airdrop_registry_contract cfg = Some c) ∧
         addr_humanize c = Ok to) ∨
      (∃ c n x, b = ser (Cw20_Send c n x)) ∨
      (∃ t c x y, msg = ClaimAirdrop t to c x y)
  | _ => True
  end.

Definition settling (env : Env) cfg (msg : BassetHub.ExecuteMsg) (n : N) (resp : Response) s' : Prop :=
  (∃ pre m raw token, messages resp = pre ++ [Wasm_Execute token (ser m) []] ∧
     Forall (λ m, chain_msg m = true) pre ∧ settles m = true ∧
     token_contract cfg = Some raw ∧ addr_humanize raw = Ok token ∧
     covered (settled_supply m n) s') ∨
  (Forall (quiet env cfg msg) (messages resp) ∧ covered n s').

Lemma settling_quiet env cfg msg n resp s s' :
  Forall (quiet env cfg msg) (messages resp) → same_backing s s' → covered n s →
  settling env cfg msg n resp s'.
Proof. intros Hq Hs Hc. right. split; [done|]. by eapply covered_same. Qed.

Lemma withdraw_all_rewards_chain deps a ms :
  withdraw_all_rewards deps a = Ok ms → Forall (λ m, chain_msg m = true) ms.
Proof.
  unfold withdraw_all_rewards. destruct (query_all_delegations _ _); intros; inv_ok; [|constructor].
  by apply Forall_fmap, Forall_true.
Qed.

Lemma chain_quiet env cfg msg ms :
  Forall (λ m, chain_msg m = true) ms → Forall (quiet env cfg msg) ms.
Proof. intros Hms. eapply Forall_impl; [exact Hms|]. by intros []. Qed.

Lemma update_global_quiet deps env hooks msg s resp s' cfg :
  config_cell s = Some cfg → execute_update_global deps env hooks s = Ok (resp, s') →
  Forall (quiet env cfg msg) (messages resp).
Proof.
  intros Hcfg E. unfold execute_update_global in E.
  destruct hooks as [hs|]; inv_ok; simplify_eq; cbn;
    match goal with H : withdraw_all_rewards _ _ = Ok _ |- _ =>
      apply withdraw_all_rewards_chain, (chain_quiet env cfg msg) in H end;
    repeat apply Forall_app_2; try done; try apply Forall_fmap, Forall_true; cbn;
    repeat apply Forall_cons_2; try apply Forall_nil_2; cbn; eauto 10.
Qed.

Lemma hub_settling deps env info msg s resp s' cfg n :
  config_cell s = Some cfg → supply_known deps cfg s n → covered n s →
  HubContract.execute deps env info msg s = Ok (resp, s') → settling env cfg msg n resp s'.
Proof.
  intros Hcfg Hq Hc E. destruct msg; cbn in E.
  - apply (settling_quiet _ _ _ _ _ s); [|eauto using same_books_backing, execute_update_config_books|done].
    unfold execute_update_config in E. destruct owner, reward_contract, token_contract,
      airdrop_registry_contract; inv_ok; cbn; repeat constructor.
  - apply (settling_quiet _ _ _ _ _ s);
      [|eauto using same_books_backing, execute_register_validator_books|done].
    unfold execute_register_validator in E. by inv_ok.
  - apply (settling_quiet _ _ _ _ _ s);
      [|eauto using same_books_backing, execute_deregister_validator_books|done].
    apply deregister_Ok in E as (_ & _ & Hm). destruct (query_delegation _ _ _) as [[c|]| |];
      [destruct Hm as (w & l & _ & _ & ->)|destruct Hm as [-> _]|rewrite Hm..];
      repeat apply Forall_cons_2; try apply Forall_nil_2; cbn; auto.
  - apply (settling_quiet _ _ _ _ _ s);
      [|eauto using same_books_backing, execute_update_params_books|done].
    unfold execute_update_params in E. by inv_ok.
  - destruct (bond_covered _ _ _ _ _ _ _ _ _ Hcfg Hq E) as (c & token & m & raw & Hraw & Hh & Hm & Hcov).
    left. exists [Staking_Delegate validator c], (Cw20_Mint (sender info) m), raw, token.
    split_and!; [exact Hm|by apply Forall_singleton|done..].
  - apply (settling_quiet _ _ _ _ _ s); [|by eapply update_global_backing|done].
    by eapply update_global_quiet.
  - apply (settling_quiet _ _ _ _ _ s); [|by eapply withdraw_backing|done].
    apply execute_withdraw_unbonded_Ok in E
      as (p & s1 & st1 & bal & _ & _ & _ & _ & _ & _ & -> & _). repeat constructor.
  - right. unfold execute_slashing in E. inv_ok. split; [done|].
    match goal with H : slashing _ _ _ = Ok (?u, _) |- _ => destruct u; pose proof H as Hsl;
      apply slashing_Ok in H as (st0 & st' & _ & _ & ->) end.
    eapply slashing_covered; [|exact Hsl|exact Hc]. intros k. by eapply supply_known_issued.
  - unfold receive_cw20 in E. destruct (from_binary _) as [[]| |]; inv_ok.
    destruct (unbond_covered _ _ _ _ _ _ _ _ _ Hcfg Hq E)
      as (pre & token & raw & Hraw & Hh & Hm & Hpre & Hcov).
    left. exists pre, (Cw20_Burn (receive_amount msg)), raw, token.
    split_and!; [exact Hm|done..].
  - apply (settling_quiet _ _ _ _ _ s); [|eauto using same_books_backing, claim_airdrop_books|done].
    unfold claim_airdrop in E. inv_ok. repeat apply Forall_cons_2; [..|done]; cbn; eauto 10.
  - apply (settling_quiet _ _ _ _ _ s); [|eauto using same_books_backing, swap_hook_books|done].
    unfold swap_hook in E. inv_ok. apply Forall_singleton. cbn. eauto 10.
Qed.
End backing.
