(* ===== verification/HubFunds.v ===== *)
(** * The coins of the hub

    The liquid coins that the hub holds on the chain, followed through every
    message: coins come in with the messages and when undelegated coins
    arrive, and leave with what the responses send and delegate.  The hub
    records in [prev_hub_balance] what it held after the last withdrawal;
    that record always covers what all users together are owed from the
    released batches. *)
From S2P Require Import Prelude CwTypes CwMath BassetHub BassetReward CwApi Paging Reference.
From S2P Require Import SignedInt HubMath HubState HubSlashing HubScenario HubBond HubUnbond.
From S2P Require Import HubConfig HubContract HubPick HubBondSpec HubUnbondSpec HubRelease.
From S2P Require Import HubSolvency HubWithdraw HubInvariant HubQueries HubAdmin HubBacking.

Open Scope N_scope.

(** ** Coins in and out *)

(** The coins of one denom. *)
Definition coin_in (D : string) (c : Coin) : N :=
  if bool_decide (coin_denom c = D) then coin_amount c else 0.
Definition coins_in (D : string) (cs : list Coin) : N := sumN (coin_in D) cs.

(** What a message takes from the liquid coins of its sender. *)
Definition spent (D : string) (m : CosmosMsg) : N :=
  match m with
  | Bank_Send _ cs => coins_in D cs
  | Staking_Delegate _ c => coin_in D c
  | Wasm_Execute _ _ cs => coins_in D cs
  | Custom_Swap c _ => coin_in D c
  | Staking_Undelegate _ _ | Staking_Redelegate _ _ _ | Distribution_SetWithdrawAddress _
  | Distribution_WithdrawDelegatorReward _ => 0
  end.

Definition spends_none (D : string) (ms : list CosmosMsg) : Prop :=
  Forall (λ m, spent D m = 0) ms.

Lemma spends_none_sum D ms : spends_none D ms → sumN (spent D) ms = 0.
Proof. intros Hms. apply sumN_zero. by apply Forall_forall. Qed.

Lemma find_payment_in D cs c : List.find (is_payment D) cs = Some c → coin_in D c ≤ coins_in D cs.
Proof.
  intros [Hin _]%find_some. apply list_elem_of_In in Hin.
  by apply sumN_elem_le.
Qed.

Lemma withdraw_all_rewards_spend `{CwMath, CwApi} deps a ms :
  withdraw_all_rewards deps a = Ok ms → ∀ D, spends_none D ms.
Proof.
  unfold withdraw_all_rewards. intros E D. destruct (query_all_delegations deps a); inv_ok.
  - by apply Forall_fmap, Forall_true.
  - constructor.
Qed.

(** Sums that differ at one point. *)
Lemma sumN_update {A} (f g : A → N) l x :
  NoDup l → x ∈ l → (∀ y, y ≠ x → f y = g y) → sumN f l + g x = sumN g l + f x.
Proof.
  intros Hl. induction Hl as [|y l Hy _ IH]; intros Hx Hfg; [by apply not_elem_of_nil in Hx|].
  rewrite !sumN_cons. apply elem_of_cons in Hx as [->|Hx].
  - rewrite (sumN_ext f g l); [lia|]. intros z Hz. apply Hfg. by intros ->.
  - specialize (IH Hx Hfg). rewrite (Hfg y); [lia|]. by intros ->.
Qed.

Section funds.
  Context `{CwMathLaws, CwApiLaws}.
  Implicit Types (s : Storage) (st : State) (cb : CurrentBatch) (u : string) (b i : N).

(** ** What the users are owed *)

Lemma finished_share_0 s i : finished_share s i 0 = 0.
Proof. unfold finished_share. destruct (read_unbond_history i s) as [h| |]; [|done..]. by destruct (released h). Qed.

(** What all users are owed from the batches up to [n]. *)
Definition owed_total (n : N) s : N := sumN (λ i, owed_in i s) (batches_before (n + 1)).

Lemma owed_in_frame i s s' :
  wait_map s' = wait_map s → read_unbond_history i s' = read_unbond_history i s →
  owed_in i s' = owed_in i s.
Proof. intros Hw Hr. unfold owed_in, finished_share. by rewrite Hw, Hr. Qed.

Lemma owed_total_ext n s s' :
  (∀ i, 1 ≤ i ≤ n → owed_in i s' = owed_in i s) → owed_total n s' = owed_total n s.
Proof.
  intros Hi. apply sumN_ext. intros i Hin%elem_of_batches_before. apply Hi. lia.
Qed.

Lemma batches_before_app n k :
  batches_before (n + N.of_nat k + 1) =
  batches_before (n + 1) ++ ((λ j, n + 1 + N.of_nat j) <$> seq 0 k).
Proof.
  unfold batches_before.
  replace (N.to_nat (n + N.of_nat k + 1) - 1)%nat with (N.to_nat (n + 1) - 1 + k)%nat by lia.
  rewrite seq_app, fmap_app. f_equal. rewrite <- (Nat.add_0_r (1 + _)), <- fmap_add_seq.
  rewrite <- list_fmap_compose. apply list_fmap_ext. intros _ j _. cbn. lia.
Qed.

Lemma owed_total_app n k s :
  owed_total (n + N.of_nat k) s =
  owed_total n s + sumN (λ j, owed_in (n + 1 + N.of_nat j) s) (seq 0 k).
Proof. unfold owed_total. by rewrite batches_before_app, sumN_app, sumN_fmap. Qed.

(** A user's finished amount, by batch. *)
Lemma sum_by_batch (g : u64 → N → N) (n : N) (bk : gmap (list N) N) :
  (∀ i, g i 0 = 0) → (∀ k v, bk !! k = Some v → ∃ b, 1 ≤ b < n ∧ k = ser b) →
  sumN (at_key 0 g) (map_to_list bk) =
  sumN (λ i, g i (default 0 (bk !! ser i))) (batches_before n).
Proof.
  intros Hg. induction bk as [|k v bk Hk IH] using map_ind; intros Hkeys.
  - rewrite map_to_list_empty. symmetry. apply sumN_zero. intros i _. by rewrite lookup_empty.
  - destruct (Hkeys k v) as (b & Hb & ->); [by rewrite lookup_insert_eq|].
    rewrite map_to_list_insert by done. rewrite sumN_cons, IH.
    2: { intros k' v' Hk'. apply (Hkeys k' v'). rewrite lookup_insert_ne; [done|congruence]. }
    unfold at_key at 1. cbn. rewrite from_slice_ser.
    pose proof (sumN_update (λ i, g i (default 0 (<[ser b := v]> bk !! ser i)))
      (λ i, g i (default 0 (bk !! ser i))) (batches_before n) b (batches_before_NoDup n)) as Hup.
    cbn beta in Hup. rewrite Hk, lookup_insert_eq in Hup. cbn in Hup. rewrite Hg in Hup.
    rewrite N.add_0_r in Hup. rewrite N.add_comm. symmetry.
    apply Hup; [by apply elem_of_batches_before|].
    intros y Hy. rewrite lookup_insert_ne; [done|]. intros ?%(inj ser). congruence.
Qed.

Lemma finished_amount_by_batch u st cb s :
  hub_inv st cb s → finished_amount u s =
    sumN (λ i, finished_share s i (default 0 (wait_bucket (ser u) s !! ser i)))
      (batches_before (last_processed_batch st + 1)).
Proof.
  intros Hinv. pose proof (inv_last _ _ _ Hinv) as Hlast. unfold finished_amount.
  rewrite (sum_by_batch _ (id cb + 1)); [|apply finished_share_0|].
  2: { intros k v Hk. destruct (inv_waits _ _ _ Hinv _ _ _ Hk) as (b & ? & ->).
       exists b. split; [lia|done]. }
  set (k := N.to_nat (id cb - last_processed_batch st)).
  replace (id cb + 1) with (last_processed_batch st + N.of_nat k + 1) by lia.
  rewrite batches_before_app, sumN_app, (sumN_zero _ (_ <$> _)); [lia|].
  intros i (j & -> & Hj%elem_of_seq)%list_elem_of_fmap. unfold finished_share.
  set (i := _ + _ + _). destruct (decide (i = id cb)) as [Hi|Hi].
  - destruct (read_unbond_history i s) as [h| |] eqn:Hr; [|done..].
    pose proof (inv_id _ _ _ Hinv). apply (inv_read_lt _ _ _ _ _ Hinv) in Hr; lia.
  - destruct (inv_history _ _ _ Hinv i ltac:(lia)) as (h & -> & _ & Hrel & _).
    rewrite Hrel. by destruct (N.leb_spec i (last_processed_batch st)); [lia|].
Qed.

(** ** Releasing and withdrawing *)

(** The release at a withdrawal is precise: see [precise]. *)
Definition precise_release (ht balance : N) s : Prop :=
  ∀ st hs, state_cell s = Some st → ready_run ht (last_processed_batch st + 1) hs s →
    precise (sumN unbonded hs) (arrived balance st) (unbonded <$> hs).

Lemma release_owed ht balance st cb s s' :
  hub_inv st cb s → precise_release ht balance s →
  process_withdraw_rate ht balance s = Ok ((), s') →
  ∃ st', hub_inv st' cb s' ∧ actual_unbonded_amount st' = 0 ∧
    owed_total (last_processed_batch st') s' ≤
      owed_total (last_processed_batch st) s + arrived balance st.
Proof.
  intros Hinv Hprec E. pose proof E as Heff%process_withdraw_rate_Ok.
  destruct (release_effect_inv _ _ _ _ _ _ Hinv Heff) as (st' & Hinv').
  assert (hub_ok s) as Hok by by eexists _, _.
  destruct (released_covered _ _ _ _ Hok E) as (st0 & hs & Hst0 & Hrun & Hle).
  assert (st0 = st) as -> by (rewrite (inv_state _ _ _ Hinv) in Hst0; congruence).
  specialize (Hle (Hprec _ _ Hst0 Hrun)). pose proof (release_effect_frame _ _ _ _ Heff) as (_ & _ & _ & Hw & _).
  destruct Heff as (st1 & hs1 & rates & Hst1 & Hf & Hrun1 & _ & Hs').
  assert (st1 = st) as -> by congruence.
  assert (hs1 = hs) as -> by by eapply ready_run_det.
  pose proof (inv_state _ _ _ Hinv') as Hst'. rewrite Hs' in Hst'. cbn in Hst'. injection Hst' as <-.
  eexists. split_and!; [exact Hinv'|done|]. cbn [last_processed_batch with_actual_unbonded_amount
    with_last_processed_batch]. rewrite owed_total_app.
  enough (owed_total (last_processed_batch st) s' = owed_total (last_processed_batch st) s) by lia.
  apply owed_total_ext. intros i Hi. apply owed_in_frame; [done|].
  rewrite Hs'. change (read_unbond_history i (set_state ?x ?y)) with (read_unbond_history i y).
  pose proof (inv_id _ _ _ Hinv). pose proof (inv_last _ _ _ Hinv).
  pose proof (ready_run_lt _ _ _ _ Hrun Hf).
  apply read_store_released_out; rewrite ?length_zip_with; lia.
Qed.

(** Paying a user takes exactly their finished amount off what is owed. *)
Lemma paid_owed u st cb s removed r s' :
  hub_inv st cb s → get_unbond_batches u s = Ok removed →
  remove_batches (ser u) removed s = Ok (r, s') →
  owed_total (last_processed_batch st) s' + finished_amount u s =
  owed_total (last_processed_batch st) s.
Proof.
  intros Hinv Hrem E. rewrite (finished_amount_by_batch u st cb s Hinv). unfold owed_total.
  rewrite <- sumN_add. apply sumN_ext. intros i _.
  pose proof (entries_remove_batches (finished_share s i) i _ _ _ _ _ (finished_share_0 s i) E) as Hsum.
  change (entries (finished_share s i) i s) with (owed_in i s) in Hsum. rewrite <- Hsum.
  apply remove_batches_Ok in E as [_ Hfr].
  assert (owed_in i s' = entries (finished_share s i) i s') as ->.
  { apply sum_map_ext. intros _ bk _. apply finished_share_history. by rewrite Hfr. }
  f_equal. case_decide as Hi; [done|].
  destruct (wait_bucket (ser u) s !! ser i) as [v|] eqn:Hv; [|apply finished_share_0]. cbn.
  unfold finished_share. destruct (releasedb s i) eqn:Hr.
  - destruct Hi. rewrite (elem_of_get_unbond_batches _ _ _ _ Hrem). exists (ser i), v.
    by rewrite from_slice_ser, Hr.
  - unfold releasedb in Hr. destruct (read_unbond_history i s) as [h| |]; [|done..]. by rewrite Hr.
Qed.

(** ** The record of the coins *)

(** The recorded balance covers what is owed, and the hub holds it. *)
Definition funded (balance : N) s : Prop :=
  ∃ st cb, hub_inv st cb s ∧ actual_unbonded_amount st = 0 ∧
    owed_total (last_processed_batch st) s ≤ prev_hub_balance st ≤ balance.

Lemma withdraw_funded deps env info s resp s' p balance :
  parameters_cell s = Some p → funded balance s →
  query_balance deps (contract_address env) (underlying_coin_denom p) =
    Ok (mkCoin (underlying_coin_denom p) balance) →
  precise_release (block_time env - unbonding_period p) balance s →
  execute_withdraw_unbonded deps env info s = Ok (resp, s') →
  sumN (spent (underlying_coin_denom p)) (messages resp) ≤ balance ∧
  funded (balance - sumN (spent (underlying_coin_denom p)) (messages resp)) s'.
Proof.
  intros Hp (st & cb & Hinv & Hz & Howed & Hheld) Hbal Hprec E.
  apply execute_withdraw_unbonded_Ok in E as (p' & s1 & st1 & bal & Hp' & _ & Hbal' & Hproc & Hst1 &
    [Hpos Hle] & Hmsg & removed & s2 & Hrem & Hrm & -> & Hfr & _).
  assert (p' = p) as -> by congruence. rewrite Hbal in Hbal'. injection Hbal' as <-. cbn in *.
  destruct (release_owed _ _ _ _ _ _ Hinv Hprec Hproc) as (st1' & Hinv1 & Hz1 & Howed1).
  assert (st1' = st1) as -> by (rewrite (inv_state _ _ _ Hinv1) in Hst1; congruence).
  pose proof (paid_owed _ _ _ _ _ _ _ Hinv1 Hrem Hrm) as Hpaid.
  assert (arrived balance st = balance - prev_hub_balance st) as Harr.
  { unfold arrived. rewrite Hz, decide_True by done. cbn. lia. }
  assert (sumN (spent (underlying_coin_denom p)) (messages resp) =
    finished_amount (sender info) s1) as ->.
  { rewrite Hmsg. cbn. unfold coin_in. rewrite bool_decide_eq_true_2 by done. cbn. lia. }
  split; [done|]. eexists _, cb. split_and!.
  - eapply hub_inv_frame; [exact (remove_released_inv _ _ _ _ _ _ _ Hinv1 Hrem Hrm)|reflexivity|done..].
  - done.
  - cbn [last_processed_batch prev_hub_balance with_prev_hub_balance].
    change (owed_total _ (set_state ?x s2)) with (owed_total (last_processed_batch st1) s2). lia.
  - done.
Qed.

(** ** The other messages *)

(** The accounts of the withdrawals are as before. *)
Definition same_accounts st st' : Prop :=
  last_processed_batch st' = last_processed_batch st ∧
  prev_hub_balance st' = prev_hub_balance st ∧
  actual_unbonded_amount st' = actual_unbonded_amount st.

Definition accounts_kept s s' : Prop :=
  ∀ st, state_cell s = Some st → ∃ st', state_cell s' = Some st' ∧ same_accounts st st' ∧
    ∀ i, 1 ≤ i ≤ last_processed_batch st → owed_in i s' = owed_in i s.

Lemma funded_kept balance balance' s s' :
  funded balance s → hub_ok s' → accounts_kept s s' → balance ≤ balance' → funded balance' s'.
Proof.
  intros (st & cb & Hinv & Hz & Howed & Hheld) (st' & cb' & Hinv') Hkept Hle.
  destruct (Hkept st (inv_state _ _ _ Hinv)) as (st0 & Hst0 & (Hl & Hp & Ha) & Hi).
  assert (st0 = st') as -> by (rewrite (inv_state _ _ _ Hinv') in Hst0; congruence).
  exists st', cb'. split_and!; [done|congruence| |lia].
  rewrite Hl, Hp, (owed_total_ext _ s s'); done.
Qed.

Lemma same_books_kept s s' : same_books s s' → accounts_kept s s'.
Proof.
  intros (Hst & _ & Hw & Hh) st E. exists st. split_and!; [by rewrite Hst|done|].
  intros i _. apply owed_in_frame; [done|]. unfold read_unbond_history. by rewrite Hh.
Qed.

Lemma set_state_kept st st' s :
  state_cell s = Some st → same_accounts st st' → accounts_kept s (set_state st' s).
Proof. intros Hst Hsame st0 Hst0. exists st'. split_and!; [done|congruence|done]. Qed.

Lemma slashing_accounts deps env s st st' :
  state_cell s = Some st → slashing deps env s = Ok ((), set_state st' s) → same_accounts st st'.
Proof.
  intros Hst (st0 & st1 & Hst0 & (p & ds & _ & _ & Hout) & [= ->])%slashing_Ok.
  assert (st0 = st) as -> by congruence.
  destruct Hout as [[_ ->]|(_ & ? & ? & _ & _ & ->)]; [done|].
  unfold slash_books. by destruct (_ <? _).
Qed.

Lemma wait_added_owed b u a s i : b ≠ i → owed_in i (wait_added b u a s) = owed_in i s.
Proof.
  intros Hb. unfold wait_added. set (bk := wait_bucket (ser u) s).
  pose proof (entries_set_wait_bucket (finished_share s i) i (ser u)
    (<[ser b := default 0 (bk !! ser b) + a]> bk) s (finished_share_0 s i)) as Hsum.
  rewrite lookup_insert_ne in Hsum by (intros ?%(inj ser); done). fold bk in Hsum.
  change (owed_in i (set_wait_bucket ?x ?y s)) with (entries (finished_share s i) i (set_wait_bucket x y s)).
  change (owed_in i s) with (entries (finished_share s i) i s). lia.
Qed.

Lemma unbond_kept deps env a u s resp s' :
  hub_ok s → execute_unbond deps env a u s = Ok (resp, s') → accounts_kept s s'.
Proof.
  intros (st0 & cb & Hinv) (p & cb' & st & cfg & raw & token & _ & Hcb & _ & _ & _ & Hsl
    & _ & _ & _ & Hs')%execute_unbond_Ok.
  assert (cb' = cb) as -> by (rewrite (inv_batch _ _ _ Hinv) in Hcb; congruence).
  pose proof (slashing_accounts _ _ _ _ _ (inv_state _ _ _ Hinv) Hsl) as Hsame.
  pose proof (inv_last _ _ _ Hinv). pose proof (inv_id _ _ _ Hinv).
  set (owed := owed_for _ _ _ _ _) in *.
  assert (∀ i, 1 ≤ i ≤ last_processed_batch st0 →
    owed_in i (wait_added (id cb) u owed s) = owed_in i s) as Howed.
  { intros i Hi. apply wait_added_owed. lia. }
  intros st1 Hst1. assert (st1 = st0) as -> by (rewrite (inv_state _ _ _ Hinv) in Hst1; congruence).
  destruct (_ <? _) in Hs'.
  - destruct Hs' as (_ & _ & _ & -> & _). eexists. split_and!; [done|apply Hsame..|].
    intros i Hi. rewrite <- Howed by done. apply owed_in_frame; [done|].
    etrans; [apply (read_history_added i (id cb) _ (wait_added (id cb) u owed s)); lia|].
    by rewrite decide_False by lia.
  - destruct Hs' as [-> _]. eexists. split_and!; [done|apply Hsame..|done].
Qed.

Lemma execute_kept deps env info msg s resp s' :
  hub_ok s → msg ≠ WithdrawUnbonded → HubContract.execute deps env info msg s = Ok (resp, s') →
  accounts_kept s s'.
Proof.
  intros Hok Hmsg E. pose proof Hok as (st & cb & Hinv). pose proof (inv_state _ _ _ Hinv) as Hst.
  destruct msg; cbn in E; try done;
    eauto using same_books_kept, execute_update_params_books, execute_update_config_books,
      execute_register_validator_books, execute_deregister_validator_books, claim_airdrop_books,
      swap_hook_books.
  - apply execute_bond_Ok in E as (p & cb' & st' & cfg & raw & token & c & _ & _ & _ & _ & _ & _ & _ & Hsl
      & _ & _ & -> & _). apply (set_state_kept st); [done|].
    exact (slashing_accounts _ _ _ _ _ Hst Hsl).
  - unfold execute_update_global in E.
    destruct airdrop_hooks; inv_ok; apply (set_state_kept st); try done; same_read; done.
  - unfold execute_slashing in E. inv_ok.
    match goal with H : slashing _ _ _ = Ok (?u, _) |- _ => destruct u; pose proof H as Hsl;
      apply slashing_Ok in H as (st0 & st' & _ & _ & ->) end.
    apply (set_state_kept st); [done|]. exact (slashing_accounts _ _ _ _ _ Hst Hsl).
  - unfold receive_cw20 in E. destruct (from_binary _) as [[]| |]; inv_ok. by eapply unbond_kept.
Qed.

(** ** What the other messages spend *)

Lemma undelegations_spend_none D denom (picks : list (Delegation * N)) :
  spends_none D (undelegate_msg denom <$> picks).
Proof. apply Forall_fmap, Forall_true. by intros []. Qed.

(** A message other than a withdrawal spends at most the coins sent with it. *)
Lemma execute_spends deps env info msg s resp s' p :
  parameters_cell s = Some p → msg ≠ WithdrawUnbonded →
  HubContract.execute deps env info msg s = Ok (resp, s') →
  sumN (spent (underlying_coin_denom p)) (messages resp) ≤
    coins_in (underlying_coin_denom p) (funds info).
Proof.
  intros Hp Hmsg E.
  assert (spends_none (underlying_coin_denom p) (messages resp) →
    sumN (spent (underlying_coin_denom p)) (messages resp) ≤
      coins_in (underlying_coin_denom p) (funds info)) as Hnone.
  { intros ->%spends_none_sum. apply N.le_0_l. }
  destruct msg; cbn in E; try done.
  - apply Hnone. unfold execute_update_config in E. destruct owner, reward_contract, token_contract,
      airdrop_registry_contract; inv_ok; cbn; by repeat constructor.
  - apply Hnone. unfold execute_register_validator in E. inv_ok. constructor.
  - apply Hnone. apply deregister_Ok in E as (_ & _ & Hm).
    destruct (query_delegation _ _ _) as [[c|]| |];
      [destruct Hm as (w & l & _ & _ & ->)|destruct Hm as [-> _]|rewrite Hm..]; by repeat constructor.
  - apply Hnone. unfold execute_update_params in E. inv_ok. constructor.
  - apply execute_bond_Ok in E as (p' & cb' & st' & cfg & raw & token & c & Hp' & _ & _ & _ & _ & _ &
      (Hf & _ & _) & _ & _ & _ & _ & ->).
    rewrite Hf. unfold coins_in. rewrite !sumN_cons. cbn. lia.
  - apply Hnone. unfold execute_update_global in E.
    destruct airdrop_hooks; inv_ok; cbn; repeat apply Forall_app_2; try by repeat constructor;
      first [by eapply withdraw_all_rewards_spend|by apply Forall_fmap, Forall_true].
  - apply Hnone. unfold execute_slashing in E. inv_ok. constructor.
  - apply Hnone. unfold receive_cw20 in E. destruct (from_binary _) as [[]| |]; inv_ok.
    apply execute_unbond_Ok in E as (? & ? & ? & ? & ? & token & _ & _ & _ & _ & _ & _ & _ & _ & _ & Hs').
    destruct (_ <? _) in Hs'.
    + destruct Hs' as (_ & _ & _ & _ & ds & picks & _ & _ & ->). apply Forall_app_2.
      * apply undelegations_spend_none.
      * by repeat constructor.
    + destruct Hs' as [_ ->]. by repeat constructor.
  - apply Hnone. unfold claim_airdrop in E. inv_ok. by repeat constructor.
  - apply Hnone. unfold swap_hook in E. inv_ok. by repeat constructor.
Qed.

Lemma execute_denom deps env info msg s resp s' p :
  parameters_cell s = Some p → HubContract.execute deps env info msg s = Ok (resp, s') →
  ∃ p', parameters_cell s' = Some p' ∧ underlying_coin_denom p' = underlying_coin_denom p.
Proof.
  intros Hp E. destruct (admin_msg msg) eqn:Ha.
  - destruct msg; try done; cbn in E.
    + unfold execute_update_config in E. destruct owner, reward_contract, token_contract,
        airdrop_registry_contract; inv_ok; cbn in *; eauto.
    + unfold execute_register_validator, store_white_validators in E. inv_ok. cbn in *. eauto.
    + unfold execute_deregister_validator, remove_white_validators in E. inv_ok.
      match goal with x : (string * list CosmosMsg)%type |- _ => destruct x end. inv_ok.
      destruct (query_delegation _ _ _) as [[c|]| |]; inv_ok; cbn in *; eauto.
    + unfold execute_update_params in E. inv_ok. cbn in *. eexists. split; [done|]. cbn. congruence.
  - apply (execute_admin _ _ _ _ _ _ _ Ha) in E as (_ & Hp' & _). exists p. by rewrite Hp'.
Qed.

(** ** The hub on the chain *)

(** A hub and the liquid coins of denom [D] it holds.  Coins arrive, with a
    message or by themselves (undelegated coins, transfers), the chain
    answers with the balance the hub has, and the coins the response spends
    leave. *)
Inductive hub_chain (D : string) : Storage → N → Prop :=
  | chain_init env info msg resp s :
      im_underlying_coin_denom msg = D →
      HubContract.instantiate env info msg empty_storage = Ok (resp, s) →
      hub_chain D s (coins_in D (funds info) - sumN (spent D) (messages resp))
  | chain_arrive s held n : hub_chain D s held → hub_chain D s (held + n)
  | chain_execute deps env info msg s before resp s' :
      let held := before + coins_in D (funds info) in
      hub_chain D s before →
      query_balance deps (contract_address env) D = Ok (mkCoin D held) →
      (∀ p, msg = WithdrawUnbonded → parameters_cell s = Some p →
        precise_release (block_time env - unbonding_period p) held s) →
      HubContract.execute deps env info msg s = Ok (resp, s') →
      hub_chain D s' (held - sumN (spent D) (messages resp)).

(** What holds of a hub on the chain. *)
Definition chain_inv (D : string) s (held : N) : Prop :=
  funded held s ∧ ∃ p, parameters_cell s = Some p ∧ underlying_coin_denom p = D.

(** One message, with its coins. *)
Lemma execute_funded D deps env info msg s held resp s' :
  chain_inv D s held →
  query_balance deps (contract_address env) D = Ok (mkCoin D (held + coins_in D (funds info))) →
  (∀ p, msg = WithdrawUnbonded → parameters_cell s = Some p →
    precise_release (block_time env - unbonding_period p) (held + coins_in D (funds info)) s) →
  HubContract.execute deps env info msg s = Ok (resp, s') →
  sumN (spent D) (messages resp) ≤ held + coins_in D (funds info) ∧
  chain_inv D s' (held + coins_in D (funds info) - sumN (spent D) (messages resp)).
Proof.
  intros [Hfun (p & Hp & <-)] Hbal Hprec E.
  pose proof (execute_denom _ _ _ _ _ _ _ _ Hp E) as Hp'.
  assert (hub_ok s) as Hok by (destruct Hfun as (st & cb & Hinv & _); by eexists _, _).
  destruct (decide (msg = WithdrawUnbonded)) as [->|Hmsg].
  - cbn in E. eapply withdraw_funded in E as [Hle Hfun']; [by split|done| |done|by apply Hprec].
    destruct Hfun as (st & cb & Hinv & Hz & Ho & Hh). exists st, cb. split_and!; [done..|lia].
  - pose proof (execute_spends _ _ _ _ _ _ _ _ Hp Hmsg E) as Hsp. split; [lia|]. split; [|done].
    eapply funded_kept; [exact Hfun|by eapply execute_ok|by eapply execute_kept|lia].
Qed.

Lemma hub_chain_inv D s held : hub_chain D s held → chain_inv D s held.
Proof.
  induction 1 as [env info msg resp s HD E|s held n _ [IH Hp]|deps env info msg s before resp s' held _ IH
    Hbal Hprec E].
  - pose proof (instantiate_ok _ _ _ _ _ E) as (st & cb & Hinv).
    unfold HubContract.instantiate in E. inv_ok. split; [|by eexists].
    exists st, cb. pose proof (inv_state _ _ _ Hinv) as Hst. cbn in Hst. injection Hst as <-.
    split_and!; [done|done|done|apply N.le_0_l].
  - split; [|done]. destruct IH as (st & cb & Hinv & Hz & Ho & Hh). exists st, cb.
    split_and!; [done..|lia].
  - by eapply execute_funded.
Qed.

(** ** Claims *)

(** C3: the hub stays solvent: on every chain that reports the hub's balance
    truthfully, after any messages from any senders and any arrivals of
    coins, what all users together are owed from the released batches is at
    most the balance the hub has recorded, and the hub holds at least that;
    and no message it accepts spends coins that it does not hold.  The
    condition [precise_release] is put on every withdrawal: when fewer coins
    arrived than the ready batches expect, then some coin arrived, each of
    these batches expects a coin, and the missing coins times their number
    stay below 10^18.  Without it the statement is false:
    [slashed_batch_owes_a_coin]. *)
Theorem hub_solvent D s held :
  hub_chain D s held →
  (∃ st, state_cell s = Some st ∧
    owed_total (last_processed_batch st) s ≤ prev_hub_balance st ≤ held) ∧
  ∀ deps env info msg resp s',
    query_balance deps (contract_address env) D = Ok (mkCoin D (held + coins_in D (funds info))) →
    (∀ p, msg = WithdrawUnbonded → parameters_cell s = Some p →
      precise_release (block_time env - unbonding_period p) (held + coins_in D (funds info)) s) →
    HubContract.execute deps env info msg s = Ok (resp, s') →
    sumN (spent D) (messages resp) ≤ held + coins_in D (funds info).
Proof.
  intros Hinv%hub_chain_inv. split.
  - destruct Hinv as [(st & cb & Hinv & _ & Ho & Hh) _]. exists st. split; [apply Hinv|done].
  - intros deps env info msg resp s' Hbal Hprec E. by eapply execute_funded.
Qed.
End funds.

(** ** Witnesses *)

Section run.
  Context `{CwMathLaws, CwApiLaws}.

(** Calls without coins that are no withdrawals leave the balance alone. *)
Lemma chain_run D held calls s s' :
  Forall (λ '(deps, env, info, msg), msg ≠ WithdrawUnbonded ∧ funds info = [] ∧
    query_balance deps (contract_address env) D = Ok (mkCoin D held)) calls →
  hub_chain D s held → run_hub calls s = Ok s' → hub_chain D s' held.
Proof.
  intros Hcalls. revert s. induction Hcalls as [|[[[deps env] info] msg] calls (Hm & Hf & Hb) _ IH];
    intros s Hs E; cbn in E; [by inv_ok|].
  apply result_bind_Ok in E as ([resp s1] & E1 & E). apply (IH s1); [|exact E].
  destruct (hub_chain_inv _ _ _ Hs) as [_ (p & Hp & <-)].
  pose proof (execute_spends _ _ _ _ _ _ _ _ Hp Hm E1) as Hsp. rewrite Hf in Hsp. cbn in Hsp.
  replace held with (held + coins_in (underlying_coin_denom p) (funds info) -
    sumN (spent (underlying_coin_denom p)) (messages resp)).
  2: { rewrite Hf. cbn. lia. }
  eapply chain_execute; [done| |done|exact E1]. rewrite Hf, Hb. cbn. by rewrite N.add_0_r.
Qed.
End run.

Lemma demo_run_chain s : demo_run = Ok s → hub_chain "uluna" s 0.
Proof.
  unfold demo_run. destruct demo_init as [[resp s0]| |] eqn:E; [|done..].
  cbn [mbind result_bind]. apply chain_run.
  - unfold demo_calls. by repeat constructor.
  - replace 0 with (coins_in "uluna" [luna 1000] - sumN (spent "uluna") (messages resp)).
    + eapply (chain_init "uluna" _ (mkInfo "owner" [luna 1000])); [|exact E]. done.
    + vm_compute in E. injection E as <- _. reflexivity.
Qed.

(** 450 of the 500 undelegated coins have arrived. *)
Lemma hub_solvent_witness : ∃ s st,
  demo_run = Ok s ∧ state_cell s = Some st ∧
  owed_total (last_processed_batch st) s ≤ prev_hub_balance st ≤ 450.
Proof.
  destruct demo_run as [s| |] eqn:E; [|vm_compute in E; discriminate..].
  destruct (hub_solvent "uluna" s 450) as [(st & Hst & Hle) _].
  { apply (chain_arrive "uluna" s 0 450). by apply demo_run_chain. }
  exists s, st. exact (conj eq_refl (conj Hst Hle)).
Defined.
