(* ===== verification/HubPayout.v ===== *)
(** * Withdrawals go through

    When the release of the ready batches is possible, the withdrawal of a
    user to whom a coin is owed succeeds: the loops end with a result, no
    addition overflows and the hub holds the coins.  The release is not
    possible while the ready batches are worth nothing: then every
    withdrawal fails. *)
From S2P Require Import Prelude CwTypes CwMath BassetHub BassetReward CwApi Paging Reference.
From S2P Require Import SignedInt HubMath HubState HubSlashing HubScenario HubBond HubUnbond.
From S2P Require Import HubConfig HubContract HubPick HubBondSpec HubUnbondSpec HubRelease.
From S2P Require Import HubSolvency HubWithdraw HubInvariant HubQueries HubAdmin HubBacking HubFunds.

Open Scope N_scope.

Section payout.
  Context `{CwMathLaws, CwApiLaws}.
  Implicit Types (s : Storage) (st : State) (cb : CurrentBatch) (u : string) (b i : N).
  Implicit Types (h : UnbondHistory) (hs : list UnbondHistory).

(** ** The run of ready batches *)

Lemma read_current st cb s : hub_inv st cb s → ∃ e, read_unbond_history (id cb) s = Err e.
Proof.
  intros Hinv. unfold read_unbond_history.
  destruct (history_map s !! to_be_bytes (id cb)) as [d|] eqn:Hk; [|by eexists].
  pose proof (inv_id _ _ _ Hinv).
  destruct (inv_keys _ _ _ Hinv (to_be_bytes (id cb))) as (i & Hi & E); [by eexists|].
  apply to_be_bytes_inj in E; lia.
Qed.

Lemma ready_run_exists ht st cb s i :
  hub_inv st cb s → 1 ≤ i ≤ id cb → ∃ hs, ready_run ht i hs s.
Proof.
  intros Hinv. pose proof (inv_id _ _ _ Hinv) as Hid.
  remember (N.to_nat (id cb - i)) as n eqn:Hn. revert i Hn.
  induction n as [|n IH]; intros i Hn Hi.
  - exists []. cbn. unfold next_ready. replace i with (id cb) by lia.
    by destruct (read_current _ _ _ Hinv) as (e & ->).
  - destruct (inv_history _ _ _ Hinv i ltac:(lia)) as (h & Hr & _).
    destruct (IH (i + 1) ltac:(lia) ltac:(lia)) as (hs & Hrun).
    destruct (next_ready ht i s) as [[h'|]| |] eqn:Hnext.
    + exists (h' :: hs). cbn. split_and!; [done|lia|done].
    + by exists [].
    + unfold next_ready in Hnext. rewrite Hr in Hnext.
      destruct (_ <? _); [done|]. by destruct (released h).
    + unfold next_ready in Hnext. rewrite Hr in Hnext.
      destruct (_ <? _); [done|]. by destruct (released h).
Qed.

Lemma history_size st cb s : hub_inv st cb s → size (history_map s) = (N.to_nat (id cb) - 1)%nat.
Proof.
  intros Hinv. rewrite <- length_map_to_list, <- (range_all (history_map s)).
  rewrite <- (length_fmap fst), (history_keys _ _ _ Hinv), length_fmap.
  unfold batches_before. by rewrite length_fmap, length_seq.
Qed.

(** ** The loops return *)

Lemma count_loop_total fuel ht i T n hs s :
  ready_run ht i hs s → (length hs < fuel)%nat → T + sumN unbonded hs < U128_MOD →
  n + N.of_nat (length hs) < U64_MOD →
  count_loop fuel ht i T n s = Ok (T + sumN unbonded hs, n + N.of_nat (length hs)).
Proof.
  revert fuel i T n. induction hs as [|h hs IH]; intros [|fuel] i T n Hrun Hf HT Hn;
    cbn [length] in *; try lia; cbn [count_loop ready_run] in *.
  - rewrite Hrun. cbn. do 2 f_equal; cbn; lia.
  - destruct Hrun as (Hnext & Hi & Hrun). rewrite Hnext. rewrite sumN_cons in *.
    cbn [mbind result_bind].
    assert (amount h *! withdraw_rate h = Ok (unbonded h)) as ->
      by (apply Uint128_mul_Decimal_Ok; unfold unbonded in *; split; [done|lia]).
    cbn [mbind result_bind].
    assert (T +! unbonded h = Ok (T + unbonded h)) as -> by (apply Uint128_add_Ok; split; [done|lia]).
    cbn [mbind result_bind]. rewrite u64_add_lt by lia. cbn [mbind result_bind].
    rewrite u64_add_lt by lia. cbn [mbind result_bind].
    rewrite IH; [do 2 f_equal; lia|done|lia|lia|lia].
Qed.

Lemma release_loop_total fuel ht i T sl st hs rates s :
  i < U64_MOD → ready_run ht i hs s → (length hs < fuel)%nat → released_at T sl hs rates →
  ∃ st' s', release_loop fuel ht i T sl st s = Ok (st', s').
Proof.
  intros Hi Hrun Hf Hrel. revert fuel i st s Hi Hrun Hf.
  induction Hrel as [|h r hs rates Hr _ IH]; intros [|fuel] i st s Hi Hrun Hf;
    cbn [length] in *; try lia; cbn [release_loop ready_run] in *.
  - eexists _, _. unfold mbind, M_bind, reading. rewrite Hrun. reflexivity.
  - destruct Hrun as (Hnext & Hi' & Hrun). unfold mbind, M_bind, reading. rewrite Hnext.
    cbn [lift]. rewrite Hr. cbn [lift]. rewrite store_unbond_history_total.
    rewrite u64_add_lt by lia. cbn [lift]. apply IH; [lia| |lia].
    by apply (ready_run_history_added ht i (release_at r h)); [lia|..].
Qed.

(** ** When a batch can be released *)

(** The batch holds tokens, and when more coins arrived than expected its
    share of the surplus is at least one coin. *)
Definition releasable (T A : N) h : Prop :=
  amount h ≠ 0 ∧ (T < A → 1 ≤ share T (A - T) (unbonded h)).

Lemma weight_le_one (T u : N) : T ≠ 0 → u ≤ T → weight T u ≤ DECIMAL_ONE.
Proof. intros HT Hu. pose proof (weight_le T u). nia. Qed.

Lemma share_le_all (T m u : N) : T ≠ 0 → u ≤ T → share T m u ≤ m.
Proof. intros HT Hu. pose proof (share_le T m u). nia. Qed.

Lemma new_withdraw_rate_total T A h :
  T ≠ 0 → unbonded h ≤ T → (T + A + 1) * DECIMAL_ONE < U128_MOD → releasable T A h →
  ∃ r, new_withdraw_rate h T (shortfall T A) = Ok r.
Proof.
  intros HT Hu Hb [Hamt Hsur]. set (u := unbonded h) in *.
  assert (1 ≤ DECIMAL_ONE) as Hone by done.
  assert (T + A + 1 < U128_MOD) as Hsmall by nia.
  pose proof (weight_le_one T u HT Hu) as Hw.
  assert (magnitude (shortfall T A) ≤ T + A) as Hmag
    by (unfold shortfall; case_decide; cbn; lia).
  pose proof (share_le_all T (magnitude (shortfall T A)) u HT Hu) as Hs.
  unfold new_withdraw_rate.
  assert (amount h *! withdraw_rate h = Ok u) as ->
    by (apply Uint128_mul_Decimal_Ok; split; [done|fold (unbonded h); fold u; lia]).
  cbn [mbind result_bind].
  assert (u /! T = Ok (weight T u)) as ->
    by (apply Decimal_from_ratio_Ok; split_and!; [done|done|fold (weight T u); nia]).
  cbn [mbind result_bind].
  assert (magnitude (shortfall T A) *! weight T u = Ok (share T (magnitude (shortfall T A)) u)) as ->
    by (apply Uint128_mul_Decimal_Ok; split; [done|unfold share in Hs; lia]).
  cbn [mbind result_bind].
  enough (∃ a, (if negative (shortfall T A) then
       slashed_amount_of_batch ← share T (magnitude (shortfall T A)) u -? 1;
       u +! slashed_amount_of_batch
     else
       slashed_amount_of_batch ←
         (if magnitude (shortfall T A) =? 0 then mret (share T (magnitude (shortfall T A)) u)
          else share T (magnitude (shortfall T A)) u +! 1);
       d ← from_subtraction u slashed_amount_of_batch;
       mret (magnitude d)) = Ok a ∧ a ≤ T + A + 1) as (a & -> & Ha).
  { cbn [mbind result_bind]. eexists. apply Decimal_from_ratio_Ok. split_and!; [done|done|].
    eapply N.le_lt_trans; [|exact Hb]. apply N.Div0.div_le_upper_bound. nia. }
  revert Hs Hsur. unfold shortfall in *. case_decide as HA; cbn [negative magnitude] in *;
    intros Hs Hsur.
  - set (x := share T (T - A) u) in *. clearbody x.
    assert (∃ y, (if T - A =? 0 then mret x else x +! 1) = Ok y ∧ y ≤ x + 1) as (y & -> & Hy).
    { destruct (_ =? 0); [exists x; split; [done|lia]|]. exists (x + 1).
      rewrite Uint128_add_Ok. split_and!; [done|lia|lia]. }
    cbn [mbind result_bind]. rewrite from_subtraction_eq. cbn [mbind result_bind].
    eexists. split; [reflexivity|]. case_decide; cbn; lia.
  - set (x := share T (A - T) u) in *. clearbody x. specialize (Hsur ltac:(lia)).
    exists (u + (x - 1)). split; [|lia]. apply result_bind_Ok. exists (x - 1).
    rewrite Uint128_checked_sub_Ok, Uint128_add_Ok. split_and!; [done|lia|done|lia].
Qed.

(** The release of the ready batches is possible: the coins fit in 128 bits
    with 18 digits, the batches are worth something together, and each of
    them can be released. *)
Definition release_enabled (ht balance : N) s : Prop :=
  ∀ st hs, state_cell s = Some st → ready_run ht (last_processed_batch st + 1) hs s →
    let T := sumN unbonded hs in
    let A := arrived balance st in
    (T + A + 1) * DECIMAL_ONE < U128_MOD ∧ (hs = [] ∨ T ≠ 0) ∧ Forall (releasable T A) hs.

Lemma release_rates T A hs :
  T ≠ 0 → sumN unbonded hs = T → (T + A + 1) * DECIMAL_ONE < U128_MOD →
  Forall (releasable T A) hs → ∃ rates, released_at T (shortfall T A) hs rates.
Proof.
  intros HT Hsum Hb Hhs.
  assert (∀ h, h ∈ hs → unbonded h ≤ T) as Hle by (intros h Hh; rewrite <- Hsum; by apply sumN_elem_le).
  clear Hsum. induction Hhs as [|h hs Hh _ IH]; [by exists []; constructor|].
  destruct IH as (rates & IH); [set_solver|].
  destruct (new_withdraw_rate_total T A h HT ltac:(set_solver) Hb Hh) as (r & Hr).
  exists (r :: rates). by constructor.
Qed.

Lemma process_withdraw_rate_total ht balance st cb s :
  hub_inv st cb s → release_enabled ht balance s →
  ∃ s', process_withdraw_rate ht balance s = Ok ((), s').
Proof.
  intros Hinv Hen. pose proof (inv_state _ _ _ Hinv) as Hst.
  pose proof (inv_id _ _ _ Hinv) as Hid. pose proof (inv_last _ _ _ Hinv) as Hlast.
  destruct (ready_run_exists ht st cb s (last_processed_batch st + 1) Hinv ltac:(lia)) as (hs & Hrun).
  destruct (Hen st hs Hst Hrun) as (Hb & HT & Hall).
  set (T := sumN unbonded hs) in *. set (A := arrived balance st) in *.
  assert (1 ≤ DECIMAL_ONE) as Hone by done. assert (T + A + 1 < U128_MOD) as Hsmall by nia.
  pose proof (ready_run_bound _ _ _ _ _ Hinv ltac:(lia) Hrun) as Hlen.
  pose proof (history_size _ _ _ Hinv) as Hsize.
  unfold process_withdraw_rate, mbind, M_bind, reading, gets.
  change (load STATE s) with (ok_or (NotFound "State") (state_cell s)). rewrite Hst. cbn [lift ok_or].
  rewrite from_subtraction_eq. cbn [lift].
  match goal with |- context [actual_unbonded_amount st +! ?m] =>
    assert (actual_unbonded_amount st +! m = Ok A) as ->
      by (apply Uint128_add_Ok; split; [done|change (A < U128_MOD); lia]) end.
  cbn [lift last_processed_batch with_actual_unbonded_amount]. rewrite u64_add_lt by lia. cbn [lift].
  rewrite (count_loop_total _ _ _ _ _ hs); [|done|lia|lia|lia]. cbn [lift]. rewrite !N.add_0_l. fold T.
  destruct (1 <=? _) eqn:Hn; [apply N.leb_le in Hn|by eexists].
  destruct HT as [->|HT]; [cbn in Hn; lia|].
  cbn [actual_unbonded_amount with_actual_unbonded_amount]. rewrite from_subtraction_eq. cbn [lift].
  fold (shortfall T A).
  destruct (release_rates T A hs HT eq_refl Hb Hall) as (rates & Hrates).
  destruct (release_loop_total (S (S (size (history_map s)))) ht (last_processed_batch st + 1) T
    (shortfall T A) (with_actual_unbonded_amount A st) hs rates s) as (st' & s' & ->);
    [lia|done|lia|done|]. by eexists.
Qed.

(** ** The user's amounts are computed *)

(** Every entry of a wait list names a batch whose record can be read or
    does not exist. *)
Definition readable s (kv : list N * N) : Prop :=
  ∃ b : u64, kv.1 = ser b ∧ ((∃ h, read_unbond_history b s = Ok h) ∨ ∃ e, read_unbond_history b s = Err e).

Lemma waits_readable st cb u s :
  hub_inv st cb s → Forall (readable s) (range (wait_bucket (ser u) s) None).
Proof.
  intros Hinv. apply Forall_forall. intros [k v] [Hk _]%elem_of_range.
  destruct (inv_waits _ _ _ Hinv _ _ _ Hk) as (b & Hb & ->). exists b. split; [done|].
  destruct (decide (b = id cb)) as [->|Hne]; [right; by eapply read_current|].
  left. destruct (inv_history _ _ _ Hinv b ltac:(lia)) as (h & Hr & _). by exists h.
Qed.

Lemma get_finished_amount_total st cb u s :
  hub_inv st cb s → finished_amount u s < U128_MOD →
  get_finished_amount u s = Ok (finished_amount u s).
Proof.
  intros Hinv. pose proof (waits_readable _ _ u _ Hinv) as Hes.
  unfold finished_amount, get_finished_amount. rewrite to_vec_ser. cbn [mbind result_bind].
  rewrite <- (range_all (wait_bucket (ser u) s)).
  set (es := range (wait_bucket (ser u) s) None) in *. clearbody es.
  match goal with |- _ → fold_entries ?f _ _ = _ =>
    enough (∀ acc, acc + sumN (at_key 0 (finished_share s)) es < U128_MOD →
      fold_entries f acc es = Ok (acc + sumN (at_key 0 (finished_share s)) es)) as Hgo
      by exact (Hgo 0) end.
  induction Hes as [|[k v] es (b & Hb & Hr) _ IH]; intros acc Hlt.
  - cbn. f_equal. lia.
  - cbn in Hb. subst k. cbn [fold_entries]. rewrite sumN_cons in *. unfold at_key in Hlt at 1.
    unfold at_key at 1. cbn [fst snd] in *. rewrite from_slice_ser in *. cbn [unwrap mbind result_bind].
    unfold if_history, finished_share at 1. unfold finished_share in Hlt at 1.
    destruct Hr as [[h Hr]|[e Hr]]; rewrite Hr in *; [|unfold mret, result_ret; cbn; rewrite IH; [f_equal|]; lia].
    revert Hlt. destruct (released h); intros Hlt;
      [|unfold mret, result_ret; cbn; rewrite IH; [f_equal|]; lia].
    assert (v *! withdraw_rate h = Ok (v * withdraw_rate h / DECIMAL_ONE)) as ->
      by (apply Uint128_mul_Decimal_Ok; split; [done|lia]).
    cbn [mbind result_bind].
    assert (acc +! v * withdraw_rate h / DECIMAL_ONE = Ok (acc + v * withdraw_rate h / DECIMAL_ONE)) as ->
      by (apply Uint128_add_Ok; split; [done|lia]).
    cbn [mbind result_bind]. rewrite IH; [f_equal|]; lia.
Qed.

Lemma get_unbond_batches_total st cb u s :
  hub_inv st cb s → ∃ l, get_unbond_batches u s = Ok l.
Proof.
  intros Hinv. pose proof (waits_readable _ _ u _ Hinv) as Hes.
  unfold get_unbond_batches. rewrite to_vec_ser. cbn [mbind result_bind].
  set (es := range (wait_bucket (ser u) s) None) in *. clearbody es.
  match goal with |- ∃ l, fold_entries ?f _ _ = _ =>
    enough (∀ acc, ∃ l, fold_entries f acc es = Ok l) as Hgo by exact (Hgo []) end.
  induction Hes as [|[k v] es (b & Hb & Hr) _ IH]; intros acc; [by eexists|].
  cbn in Hb. subst k. cbn [fold_entries]. rewrite from_slice_ser. cbn [unwrap mbind result_bind].
  unfold if_history. destruct Hr as [[h Hr]|[e Hr]]; rewrite Hr; [destruct (released h)|]; apply IH.
Qed.

Lemma finished_le_owed st cb u s :
  hub_inv st cb s → finished_amount u s ≤ owed_total (last_processed_batch st) s.
Proof.
  intros Hinv. rewrite (finished_amount_by_batch u st cb s Hinv). apply sumN_le. intros i _.
  unfold owed_in, wait_bucket. destruct (wait_map s !! ser u) as [bk|] eqn:Hw; cbn.
  - by apply (sum_map_elem_le (λ _ bk, finished_share s i (default 0 (bk !! ser i))) _ (ser u)).
  - rewrite lookup_empty. cbn. rewrite finished_share_0. apply N.le_0_l.
Qed.

(** ** Claims *)

(** C6: withdrawals go through: on every chain that reports the hub's balance
    truthfully, after any messages and arrivals (each withdrawal among them
    with [precise_release]), when an unbonding period fits before the present
    time and the balance is below 2^128, the release succeeds and every user
    to whom it owes a coin is paid that amount.  The conditions on the ready
    batches are [precise_release] (when coins are missing, some arrived, each
    batch expects one, and the missing coins times the number of batches are
    below 10^18) and [release_enabled] (the expected and the arrived coins and
    one more, times 10^18, are below 2^128; the batches together are worth a
    coin; each records tokens and in a surplus has a share of at least one
    coin). *)
Theorem withdraw_succeeds D s held deps env info p :
  hub_chain D s held → parameters_cell s = Some p → unbonding_period p ≤ block_time env →
  query_balance deps (contract_address env) D = Ok (mkCoin D held) → held < U128_MOD →
  precise_release (block_time env - unbonding_period p) held s →
  release_enabled (block_time env - unbonding_period p) held s →
  ∃ s1, process_withdraw_rate (block_time env - unbonding_period p) held s = Ok ((), s1) ∧
    (0 < finished_amount (sender info) s1 → ∃ resp s',
      execute_withdraw_unbonded deps env info s = Ok (resp, s') ∧
      messages resp = [Bank_Send (sender info) [mkCoin D (finished_amount (sender info) s1)]]).
Proof.
  intros [(st & cb & Hinv & Hz & Howed & Hheld) (p' & Hp' & <-)]%hub_chain_inv Hp Htime Hbal Hmax Hprec Hen.
  assert (p' = p) as -> by congruence. set (ht := block_time env - unbonding_period p) in *.
  destruct (process_withdraw_rate_total _ _ _ _ _ Hinv Hen) as (s1 & Hproc).
  exists s1. split; [done|]. intros Hpos.
  destruct (release_owed _ _ _ _ _ _ Hinv Hprec Hproc) as (st1 & Hinv1 & _ & Howed1).
  pose proof (finished_le_owed _ _ (sender info) _ Hinv1) as Hle.
  assert (arrived held st = held - prev_hub_balance st) as Harr.
  { unfold arrived. rewrite Hz, decide_True by done. cbn. lia. }
  set (paid := finished_amount (sender info) s1) in *.
  assert (paid ≤ held) as Hpaid by lia.
  pose proof (get_finished_amount_total _ _ (sender info) _ Hinv1 ltac:(fold paid; lia)) as Hfin.
  destruct (get_unbond_batches_total _ _ (sender info) _ Hinv1) as (removed & Hrem).
  destruct (remove_batches_total (ser (sender info)) removed s1) as (s2 & Hrm).
  pose proof (remove_batches_Ok _ _ _ _ _ Hrm) as [_ Hfr].
  eexists _, _. unfold execute_withdraw_unbonded, mbind, M_bind, reading, remove_unbond_wait_list.
  change (load PARAMETERS s) with (ok_or (NotFound "Parameters") (parameters_cell s)).
  rewrite Hp. cbn [lift ok_or]. rewrite u64_sub_le by done. cbn [lift]. rewrite Hbal. cbn [lift coin_amount].
  fold ht. rewrite Hproc. rewrite Hfin. fold paid. cbn [lift unwrap].
  assert ((paid =? 0) = false) as -> by (apply N.eqb_neq; lia). cbn [lift throw_if].
  rewrite Hrem. cbn [lift]. unfold mbind, M_bind. rewrite to_vec_ser. cbn [lift]. rewrite Hrm.
  assert (held -? paid = Ok (held - paid)) as -> by by apply Uint128_checked_sub_Ok.
  cbn [lift]. assert (state_cell s2 = Some st1) as Hst2 by (rewrite Hfr; apply Hinv1).
  unfold update, mbind, M_bind, reading.
  change (load STATE s2) with (ok_or (NotFound "State") (state_cell s2)). rewrite Hst2.
  split; reflexivity.
Qed.

(** C15: a worthless batch blocks everybody: while the ready batches together
    are worth less than one coin, or one of them records no tokens, no
    withdrawal of any user succeeds, not even from batches that were
    released before. *)
Theorem worthless_batches_block_withdrawals deps env info s st p hs :
  state_cell s = Some st → parameters_cell s = Some p →
  ready_run (block_time env - unbonding_period p) (last_processed_batch st + 1) hs s → hs ≠ [] →
  sumN unbonded hs = 0 ∨ Exists (λ h, amount h = 0) hs →
  ¬ is_Ok (execute_withdraw_unbonded deps env info s).
Proof.
  intros Hst Hp Hrun Hne Hworth [[resp s'] E].
  apply execute_withdraw_unbonded_Ok in E as (p' & s1 & st1 & bal & Hp' & _ & _ & Hproc & _).
  assert (p' = p) as -> by congruence.
  apply process_withdraw_rate_Ok in Hproc as (st0 & hs0 & rates & Hst0 & _ & Hrun0 & Hrel & _).
  assert (st0 = st) as -> by congruence. assert (hs0 = hs) as -> by by eapply ready_run_det.
  destruct Hworth as [HT|Hzero]; [by apply (released_at_total _ _ _ _ Hrel Hne)|].
  apply Exists_exists in Hzero as (h & [i Hi]%list_elem_of_lookup & Hz).
  destruct (Forall2_lookup_l _ _ _ _ _ Hrel Hi) as (r & _ & Hr).
  by apply new_withdraw_rate_Ok in Hr as (_ & ? & _).
Qed.
End payout.

(** ** Witnesses *)

(** 450 coins have arrived for the 500 tokens of batch 1, and alice, who
    unbonded 300 of them, withdraws. *)
Lemma withdraw_succeeds_witness : ∃ s resp s' paid,
  demo_run = Ok s ∧
  execute_withdraw_unbonded (demo_bonded 500 450) (demo_env 9 60) (mkInfo "alice" []) s =
    Ok (resp, s') ∧ messages resp = [Bank_Send "alice" [mkCoin "uluna" paid]].
Proof.
  destruct demo_run as [s| |] eqn:E; [|vm_compute in E; discriminate..].
  pose (h := mkUnbondHistory 1 40 500 DECIMAL_ONE DECIMAL_ONE false).
  assert (∀ st hs, state_cell s = Some st → ready_run 58 (last_processed_batch st + 1) hs s →
    hs = [h] ∧ arrived 450 st = 450) as Hrun.
  { intros st hs Hst Hrun. vm_compute in E. injection E as <-. injection Hst as <-.
    split; [|reflexivity]. eapply ready_run_det; [exact Hrun|].
    cbn [ready_run]. split_and!; vm_compute; reflexivity. }
  destruct (withdraw_succeeds "uluna" s 450 (demo_bonded 500 450) (demo_env 9 60) (mkInfo "alice" [])
    (mkParameters 30 "uluna" 2 5000000000000000 DECIMAL_ONE "uusd")) as (s1 & Hproc & Hpay).
  - apply (chain_arrive "uluna" s 0 450). by apply demo_run_chain.
  - vm_compute in E. injection E as <-. reflexivity.
  - done.
  - done.
  - done.
  - intros st hs Hst (-> & ->)%Hrun; [|done]. right. split_and!; [done|by repeat constructor|done].
  - intros st hs Hst (-> & ->)%Hrun; [|done]. split_and!; [done|by right|].
    apply Forall_singleton. split; [done|]. intros Hlt. vm_compute in Hlt. discriminate.
  - destruct Hpay as (resp & s' & Hex & Hm).
    { vm_compute in E. injection E as <-. vm_compute in Hproc. injection Hproc as <-. reflexivity. }
    exists s, resp, s', (finished_amount "alice" s1). exact (conj eq_refl (conj Hex Hm)).
Defined.

(** After a slashing carol unbonds a single token, which is worth 0.9 coins
    and makes up batch 2; bob still waits for his coins of batch 1. *)
Definition demo_worthless : StdResult Storage :=
  '(s, _) ← demo_released 60;
  '(_, s) ← execute (demo_querier [mkDelegation "val1" (luna 450)] 500 181) (demo_env 10 80)
    (mkInfo "token" []) (demo_unbond "carol" 1) s;
  mret s.

Lemma worthless_batches_block_withdrawals_witness : ∃ s,
  demo_worthless = Ok s ∧ finished_amount "bob" s = 179 ∧
  ¬ is_Ok (execute_withdraw_unbonded (demo_bonded 499 181) (demo_env 11 90) (mkInfo "bob" []) s).
Proof.
  destruct demo_worthless as [s| |] eqn:E; [|vm_compute in E; discriminate..].
  exists s. split; [done|]. split.
  - vm_compute in E. injection E as <-. vm_compute. reflexivity.
  - destruct (state_cell s) as [st|] eqn:Hst.
    2: { exfalso. vm_compute in E. injection E as <-. discriminate. }
    apply (worthless_batches_block_withdrawals _ _ _ s st
      (mkParameters 30 "uluna" 2 5000000000000000 DECIMAL_ONE "uusd")
      [mkUnbondHistory 2 80 1 900000000000000000 900000000000000000 false]); [done|..].
    + vm_compute in E. injection E as <-. reflexivity.
    + vm_compute in E. injection E as <-. vm_compute in Hst. injection Hst as <-.
      cbn [ready_run]. split_and!; vm_compute; reflexivity.
    + done.
    + by left.
Defined.
