(* ===== verification/TaxQuerier.v ===== *)
(** * Transfer tax (packages/basset/src/tax_querier.rs) *)
From S2P Require Import Prelude CwTypes CwMath BassetHub CwApi Reference.

Open Scope N_scope.

Definition DECIMAL_FRACTION : Uint128 := 1000000000000000000.

Section operations.
  Context `{CwMath}.

Definition compute_tax (querier : Querier) (coin : Coin) : StdResult Uint128 :=
  tax_rate ← query_tax_rate querier;
  tax_cap ← query_tax_cap querier (coin_denom coin);
  scaled ← DECIMAL_FRACTION *! tax_rate;
  denominator ← scaled +! DECIMAL_FRACTION;
  net ← Uint128_multiply_ratio (coin_amount coin) DECIMAL_FRACTION denominator;
  tax ← coin_amount coin -? net;
  mret (tax `min` tax_cap).

Definition deduct_tax (querier : Querier) (coin : Coin) : StdResult Coin :=
  tax_amount ← compute_tax querier coin;
  amount ← coin_amount coin -? tax_amount;
  mret (mkCoin (coin_denom coin) amount).
End operations.

Section facts.
  Context `{CwMathLaws}.

(** The tax on top of what arrives: at most the cap. *)
Definition tax_of (rate cap amount : N) : N :=
  (amount - amount * DECIMAL_ONE / (rate + DECIMAL_ONE)) `min` cap.

Lemma tax_of_le rate cap amount : tax_of rate cap amount ≤ amount.
Proof. unfold tax_of. etrans; [apply N.le_min_l|apply N.le_sub_l]. Qed.

Lemma deduct_tax_Ok q c c' :
  deduct_tax q c = Ok c' →
  ∃ rate cap, query_tax_rate q = Ok rate ∧ query_tax_cap q (coin_denom c) = Ok cap ∧
    c' = mkCoin (coin_denom c) (coin_amount c - tax_of rate cap (coin_amount c)).
Proof.
  unfold deduct_tax, compute_tax. intros E. inv_ok. do 2 eexists. split_and!; [done..|].
  unfold tax_of. change DECIMAL_FRACTION with DECIMAL_ONE in *.
  by rewrite (N.mul_comm DECIMAL_ONE), N.div_mul.
Qed.

Lemma deduct_tax_total q c rate cap :
  query_tax_rate q = Ok rate → query_tax_cap q (coin_denom c) = Ok cap →
  rate + DECIMAL_ONE < U128_MOD → coin_amount c < U128_MOD → ∃ c', deduct_tax q c = Ok c'.
Proof.
  intros Hr Hc Hrate Ha. eexists. unfold deduct_tax, compute_tax.
  change DECIMAL_FRACTION with DECIMAL_ONE. assert (1 ≤ DECIMAL_ONE) by done.
  assert (DECIMAL_ONE * rate / DECIMAL_ONE = rate) as Hs by (by rewrite N.mul_comm, N.div_mul).
  assert (coin_amount c * DECIMAL_ONE / (rate + DECIMAL_ONE) ≤ coin_amount c) as Hnet.
  { apply N.Div0.div_le_upper_bound. nia. }
  assert (Uint128_multiply_ratio (coin_amount c) DECIMAL_ONE
            (DECIMAL_ONE * rate / DECIMAL_ONE + DECIMAL_ONE) =
          Ok (coin_amount c * DECIMAL_ONE / (rate + DECIMAL_ONE))) as Hm.
  { apply Uint128_multiply_ratio_Ok. rewrite Hs. split_and!; [lia|reflexivity|].
    by apply N.le_lt_trans with (coin_amount c). }
  run_ok; rewrite ?Hs; [lia|lia|done|]. apply (tax_of_le rate cap).
Qed.
End facts.

Ltac inv_tax :=
  match goal with
  | H : deduct_tax _ _ = Ok _ |- _ => apply deduct_tax_Ok in H; destruct H as (? & ? & ? & ? & ?); subst
  end.
