(* ===== verification/MockQuerier.v ===== *)
(** * The mock chain of the package's tests (packages/basset/src/mock_querier.rs)

    The chain against which the tests of packages/basset run: taxes, the
    configuration of a hub and two fixed balances; everything else is
    answered by the mock of [cosmwasm_std], a parameter. *)
From S2P Require Import Prelude CwTypes CwMath BassetHub CwApi Reference TaxQuerier.

Open Scope N_scope.

Definition MOCK_CONTRACT_ADDR : string := "cosmos2contract".

Record TaxQuerier := mkTaxQuerier {
  rate : Decimal;
  caps : gmap string Uint128
}.

(** [#[derive(Default)]] *)
Definition TaxQuerier_default : TaxQuerier := mkTaxQuerier 0 ∅.

Definition caps_to_map (caps : list (string * Uint128)) : gmap string Uint128 :=
  foldl (λ owner_map '(denom, cap), <[denom := cap]> owner_map) ∅ caps.

Definition TaxQuerier_new (rate : Decimal) (caps : list (string * Uint128)) : TaxQuerier :=
  mkTaxQuerier rate (caps_to_map caps).

Record WasmMockQuerier := mkWasmMockQuerier {
  base : Querier;
  tax_querier : TaxQuerier
}.

Definition WasmMockQuerier_new (base : Querier) : WasmMockQuerier :=
  mkWasmMockQuerier base TaxQuerier_default.

Definition with_tax (rate : Decimal) (caps : list (string * Uint128)) (self : WasmMockQuerier) :
    WasmMockQuerier :=
  mkWasmMockQuerier (base self) (TaxQuerier_new rate caps).

(** Types of stored data that the mock declares for tests. *)
Record TokenQuerier := mkTokenQuerier { balances : gmap string (gmap string Uint128) }.

Record MinterData := mkMinterData {
  minter : CanonicalAddr;
  cap : option Uint128
}.

Record TokenInfo := mkMockTokenInfo {
  name : string;
  symbol : string;
  decimals : u8;
  mock_total_supply : Uint128;
  mint : option MinterData;
  owner : CanonicalAddr
}.

Section operations.
  Context `{CwApi}.
  (** [MockQuerier::new(balances)] of [cosmwasm_std::testing]. *)
  Variable mock_base : list (string * list Coin) → Querier.

Definition unimplemented {A} : StdResult A := Panic "not implemented".
Definition do_not_enter {A} : StdResult A := Panic "DO NOT ENTER HERE".

(** The answers of [handle_query], one field per kind of request. *)
Definition handle_query (self : WasmMockQuerier) : Querier := {|
  (* QueryRequest::Custom, TerraRoute::Treasury *)
  query_tax_rate := mret (rate (tax_querier self));
  query_tax_cap denom := mret (default 0 (caps (tax_querier self) !! denom));
  (* QueryRequest::Custom, another route *)
  terra_exchange_rates _ _ := do_not_enter;
  (* QueryRequest::Wasm(WasmQuery::Raw) with the key of the configuration *)
  query_raw_hub_config _ :=
    creator ← unwrap (addr_canonicalize "owner1");
    reward ← unwrap (addr_canonicalize "reward");
    token ← unwrap (addr_canonicalize "token");
    airdrop ← unwrap (addr_canonicalize "airdrop");
    mret (BassetHub.mkConfig creator (Some reward) (Some token) (Some airdrop));
  (* QueryRequest::Bank *)
  query_all_balances address :=
    if bool_decide (address = "reward") then
      let luna := mkCoin "uluna" 1000 in
      let krt := mkCoin "ukrt" 1000 in
      mret [luna; krt]
    else unimplemented;
  query_balance address denom :=
    if bool_decide (address = "reward") && bool_decide (denom = "uusd") then
      mret (mkCoin denom 2000)
    else unimplemented;
  (* _ => self.base.handle_query(request) *)
  query_all_delegations := query_all_delegations (base self);
  query_delegation := query_delegation (base self);
  query_all_validators := query_all_validators (base self);
  query_token_info := query_token_info (base self);
  query_cw20_balance := query_cw20_balance (base self)
|}.

(** The querier of [mock_dependencies]; the storage is empty and the api the
    mock one. *)
Definition mock_dependencies (contract_balance : list Coin) : WasmMockQuerier :=
  WasmMockQuerier_new (mock_base [(MOCK_CONTRACT_ADDR, contract_balance)]).
End operations.

(** ** The tax under the mock chain *)

Section facts.
  Context `{CwMathLaws, CwApiLaws}.

(** The last cap given for a denom counts; there is none by default. *)
Lemma caps_to_map_app caps denom n :
  caps_to_map (caps ++ [(denom, n)]) = <[denom := n]> (caps_to_map caps).
Proof. unfold caps_to_map. by rewrite foldl_app. Qed.

Lemma mock_tax self rate caps c c' :
  deduct_tax (handle_query (with_tax rate caps self)) c = Ok c' →
  c' = mkCoin (coin_denom c)
    (coin_amount c - tax_of rate (default 0 (caps_to_map caps !! coin_denom c)) (coin_amount c)).
Proof. intros (r & cp & [= <-] & [= <-] & ->)%deduct_tax_Ok. done. Qed.
End facts.
