(* ===== verification/RewardState.v ===== *)
(** * The reward contract's storage
    (contracts/anchor_basset_reward/src/state.rs, math.rs, querier.rs) *)
From S2P Require Import Prelude CwTypes CwMath BassetReward BassetHub CwApi Reference.

Open Scope N_scope.

(** ** math.rs *)

Section math.
  Context `{CwMath}.

Definition decimal_multiplication_in_256 (a b : Decimal) : StdResult Decimal :=
  c ← Decimal256_mul (Decimal256_from b) (Decimal256_from a);
  Decimal256_into c.

Definition decimal_summation_in_256 (a b : Decimal) : StdResult Decimal :=
  c ← Decimal256_add (Decimal256_from b) (Decimal256_from a);
  Decimal256_into c.

Definition decimal_subtraction_in_256 (a b : Decimal) : StdResult Decimal :=
  c ← Decimal256_sub (Decimal256_from a) (Decimal256_from b);
  Decimal256_into c.
End math.

(** ** state.rs *)

Record Config := mkConfig {
  hub_contract : CanonicalAddr;
  reward_denom : string
}.

Record State := mkState {
  global_index : Decimal;
  total_balance : Uint128;
  prev_reward_balance : Uint128
}.

Record Holder := mkHolder {
  balance : Uint128;
  index : Decimal;
  pending_rewards : Decimal
}.

Record Storage := mkStorage {
  config_cell : option Config;
  state_cell : option State;
  holders_map : gmap (list N) Holder
}.

Definition empty_storage : Storage := mkStorage None None ∅.

Definition set_config (c : Config) (s : Storage) : Storage :=
  mkStorage (Some c) (state_cell s) (holders_map s).
Definition set_state (st : State) (s : Storage) : Storage :=
  mkStorage (config_cell s) (Some st) (holders_map s).
Definition set_holders (h : gmap (list N) Holder) (s : Storage) : Storage :=
  mkStorage (config_cell s) (state_cell s) h.

Definition STATE : Item Storage State := mkItem state_cell set_state "State".
Definition CONFIG : Item Storage Config := mkItem config_cell set_config "Config".

Abbreviation RewardM := (M Storage StdError).

Definition store_config (config : Config) : RewardM () := save CONFIG config.
Definition read_config (s : Storage) : StdResult Config := load CONFIG s.
Definition store_state (state : State) : RewardM () := save STATE state.
Definition read_state (s : Storage) : StdResult State := load STATE s.

Definition store_holder (holder_address : CanonicalAddr) (holder : Holder) : RewardM () :=
  modify (λ s, set_holders (<[holder_address := holder]> (holders_map s)) s).

Definition no_holder : Holder := mkHolder 0 0 0.

Definition read_holder (holder_address : CanonicalAddr) (s : Storage) : StdResult Holder :=
  match holders_map s !! holder_address with
  | Some holder => mret holder
  | None => mret no_holder
  end.

(** Pagination over the holders. *)
Definition MAX_LIMIT : u32 := 30.
Definition DEFAULT_LIMIT : u32 := 10.

Section operations.
  Context `{CwMath, CwApi}.

Definition calc_range_start (start_after : option Addr) : StdResult (option Bytes) :=
  match start_after with
  | Some human =>
      v ← addr_canonicalize human;
      mret (Some (v ++ [0]))
  | None => mret None
  end.

Fixpoint holder_responses (entries : list (Bytes * Holder)) : StdResult (list HolderResponse) :=
  match entries with
  | [] => mret []
  | (k, v) :: rest =>
      address ← addr_humanize k;
      responses ← holder_responses rest;
      mret (mkHolderResponse address (balance v) (index v) (pending_rewards v) :: responses)
  end.

Definition read_holders (start_after : option Addr) (limit : option u32) (s : Storage) :
    StdResult (list HolderResponse) :=
  let limit := N.to_nat (default DEFAULT_LIMIT limit `min` MAX_LIMIT) in
  start ← calc_range_start start_after;
  holder_responses (take limit (range_after (holders_map s) start)).

(** ** querier.rs *)

Definition query_token_contract (deps : Querier) (contract_addr : Addr) : StdResult CanonicalAddr :=
  conf ← unwrap (query_raw_hub_config deps contract_addr);
  expect_opt "the token contract must have been registered" (BassetHub.token_contract conf).
End operations.

(** ** The arithmetic is exact *)

Section facts.
  Context `{CwMathLaws}.

Lemma decimal_summation_in_256_Ok a b c :
  decimal_summation_in_256 a b = Ok c ↔ c = a + b ∧ a + b < U128_MOD.
Proof.
  unfold decimal_summation_in_256. rewrite !Decimal256_from_spec, result_bind_Ok.
  setoid_rewrite Decimal256_add_Ok. setoid_rewrite Decimal256_into_Ok.
  rewrite (N.add_comm b a). split.
  - intros (x & [-> _] & -> & ?). done.
  - intros [-> Hlt]. exists (a + b). split_and!; try done. by apply N.lt_trans with U128_MOD.
Qed.

Lemma decimal_subtraction_in_256_Ok a b c :
  decimal_subtraction_in_256 a b = Ok c ↔ c = a - b ∧ b ≤ a ∧ a - b < U128_MOD.
Proof.
  unfold decimal_subtraction_in_256. rewrite !Decimal256_from_spec, result_bind_Ok.
  setoid_rewrite Decimal256_sub_Ok. setoid_rewrite Decimal256_into_Ok. naive_solver.
Qed.

Lemma decimal_multiplication_in_256_Ok a b c :
  decimal_multiplication_in_256 a b = Ok c ↔
  c = a * b / DECIMAL_ONE ∧ a * b < U256_MOD ∧ a * b / DECIMAL_ONE < U128_MOD.
Proof.
  unfold decimal_multiplication_in_256. rewrite !Decimal256_from_spec, result_bind_Ok.
  setoid_rewrite Decimal256_mul_Ok. setoid_rewrite Decimal256_into_Ok.
  rewrite (N.mul_comm b a). naive_solver.
Qed.
End facts.

Ltac inv_reward :=
  match goal with
  | H : decimal_summation_in_256 _ _ = Ok _ |- _ =>
      apply decimal_summation_in_256_Ok in H; destruct H as [? ?]; subst
  | H : decimal_subtraction_in_256 _ _ = Ok _ |- _ =>
      apply decimal_subtraction_in_256_Ok in H; destruct H as (? & ? & ?); subst
  | H : decimal_multiplication_in_256 _ _ = Ok _ |- _ =>
      apply decimal_multiplication_in_256_Ok in H; destruct H as (? & ? & ?); subst
  | H : read_config _ = Ok _ |- _ => unfold read_config in H
  | H : read_state _ = Ok _ |- _ => unfold read_state in H
  | H : store_config _ _ = Ok _ |- _ => unfold store_config in H
  | H : store_state _ _ = Ok _ |- _ => unfold store_state in H
  | H : store_holder _ _ _ = Ok _ |- _ => unfold store_holder in H
  end.
