(* ===== verification/RewardContract.v ===== *)
(** * The reward contract's operations
    (contracts/anchor_basset_reward/src/user.rs, global.rs, contract.rs) *)
From S2P Require Import Prelude CwTypes CwStrings CwMath BassetHub BassetReward CwApi Reference.
From S2P Require Import TaxQuerier RewardState.

Open Scope N_scope.

Section operations.
  Context `{CwMath, CwApi}.

(** ** user.rs *)

Definition calculate_decimal_rewards (global_index user_index : Decimal) (user_balance : Uint128) :
    StdResult Decimal :=
  decimal_balance ← user_balance /! 1;
  diff ← decimal_subtraction_in_256 global_index user_index;
  decimal_multiplication_in_256 diff decimal_balance.

Definition get_decimals (value : Decimal) : StdResult Decimal :=
  match split_dot (Decimal_to_string value) with
  | [_] => mret 0
  | [_; frac] => Decimal_from_str (String.append "0." frac)
  | _ => Err (generic_err "Unexpected number of dots")
  end.

Definition execute_claim_rewards (deps : Querier) (info : MessageInfo)
    (recipient : option string) : RewardM Response :=
  let holder_addr := sender info in
  holder_addr_raw ← lift (addr_canonicalize holder_addr);
  recipient ← match recipient with
              | Some value => lift (unwrap (addr_validate value))
              | None => mret holder_addr
              end;
  holder ← reading (read_holder holder_addr_raw);
  state ← reading read_state;
  config ← reading read_config;
  reward_with_decimals ←
    lift (calculate_decimal_rewards (global_index state) (index holder) (balance holder));
  all_reward_with_decimals ←
    lift (decimal_summation_in_256 reward_with_decimals (pending_rewards holder));
  decimals ← lift (get_decimals all_reward_with_decimals);
  rewards ← lift (1 *! all_reward_with_decimals);
  lift (throw_if (rewards =? 0) (generic_err "No rewards have accrued yet"));;
  new_balance ← lift (prev_reward_balance state -? rewards);
  let state := mkState (global_index state) (total_balance state) new_balance in
  store_state state;;
  store_holder holder_addr_raw (mkHolder (balance holder) (global_index state) decimals);;
  coin ← lift (deduct_tax deps (mkCoin (reward_denom config) rewards));
  mret (mkResponse [Bank_Send recipient [coin]]
    [attr "action" "claim_reward"; attr "holder_address" holder_addr;
     attr "rewards" (uint_to_string rewards)]).

Definition execute_increase_balance (deps : Querier) (info : MessageInfo) (address : string)
    (amount : Uint128) : RewardM Response :=
  config ← reading read_config;
  owner_human ← lift (addr_humanize (hub_contract config));
  address_raw ← lift (addr_canonicalize address);
  token_raw ← lift (query_token_contract deps owner_human);
  token_address ← lift (addr_humanize token_raw);
  (* Check sender is token contract *)
  lift (throw_if (bool_decide (sender info ≠ token_address)) (generic_err "unauthorized"));;
  state ← reading read_state;
  holder ← reading (read_holder address_raw);
  (* get decimals *)
  rewards ←
    lift (calculate_decimal_rewards (global_index state) (index holder) (balance holder));
  pending ← lift (decimal_summation_in_256 rewards (pending_rewards holder));
  new_balance ← lift (balance holder +! amount);
  new_total ← lift (total_balance state +! amount);
  store_holder address_raw (mkHolder new_balance (global_index state) pending);;
  store_state (mkState (global_index state) new_total (prev_reward_balance state));;
  mret (mkResponse []
    [attr "action" "increase_balance"; attr "holder_address" address;
     attr "amount" (uint_to_string amount)]).

Definition execute_decrease_balance (deps : Querier) (info : MessageInfo) (address : string)
    (amount : Uint128) : RewardM Response :=
  config ← reading read_config;
  hub ← lift (addr_humanize (hub_contract config));
  address_raw ← lift (addr_canonicalize address);
  (* Check sender is token contract *)
  token_raw ← lift (query_token_contract deps hub);
  sender_raw ← lift (addr_canonicalize (sender info));
  lift (throw_if (bool_decide (token_raw ≠ sender_raw)) (generic_err "unauthorized"));;
  state ← reading read_state;
  holder ← reading (read_holder address_raw);
  lift (throw_if (balance holder <? amount)
    (generic_err (String.app "Decrease amount cannot exceed user balance: "
       (uint_to_string (balance holder)))));;
  rewards ←
    lift (calculate_decimal_rewards (global_index state) (index holder) (balance holder));
  pending ← lift (decimal_summation_in_256 rewards (pending_rewards holder));
  new_balance ← lift (balance holder -? amount);
  new_total ← lift (total_balance state -? amount);
  store_holder address_raw (mkHolder new_balance (global_index state) pending);;
  store_state (mkState (global_index state) new_total (prev_reward_balance state));;
  mret (mkResponse []
    [attr "action" "decrease_balance"; attr "holder_address" address;
     attr "amount" (uint_to_string amount)]).

Definition query_accrued_rewards (address : string) (s : Storage) :
    StdResult AccruedRewardsResponse :=
  state ← read_state s;
  address_raw ← addr_canonicalize address;
  holder ← read_holder address_raw s;
  reward_with_decimals ←
    calculate_decimal_rewards (global_index state) (index holder) (balance holder);
  all_reward_with_decimals ←
    decimal_summation_in_256 reward_with_decimals (pending_rewards holder);
  rewards ← 1 *! all_reward_with_decimals;
  mret (mkAccruedRewardsResponse rewards).

Definition query_holder (address : string) (s : Storage) : StdResult HolderResponse :=
  address_raw ← addr_canonicalize address;
  holder ← read_holder address_raw s;
  mret (mkHolderResponse address (balance holder) (index holder) (pending_rewards holder)).

Definition query_holders (start_after : option string) (limit : option u32) (s : Storage) :
    StdResult HoldersResponse :=
  start_after ← match start_after with
                | Some start_after => a ← addr_validate start_after; mret (Some a)
                | None => mret None
                end;
  holders ← read_holders start_after limit s;
  mret (mkHoldersResponse holders).

(** ** global.rs *)

Definition query_exchange_rates (deps : Querier) (base_denom : string)
    (quote_denoms : list string) : StdResult ExchangeRatesResponse :=
  res ← terra_exchange_rates deps base_denom quote_denoms;
  mret res.

(** Swap all native tokens to reward_denom *)
Definition execute_swap (deps : Querier) (env : Env) (info : MessageInfo) : RewardM Response :=
  config ← reading read_config;
  sender_raw ← lift (addr_canonicalize (sender info));
  lift (throw_if (bool_decide (sender_raw ≠ hub_contract config)) (generic_err "unauthorized"));;
  balance ← lift (query_all_balances deps (contract_address env));
  let reward_denom := reward_denom config in
  let denoms := coin_denom <$> balance in
  rates ← lift (query_exchange_rates deps reward_denom denoms);
  let known_denoms := quote_denom <$> exchange_rates rates in
  let messages := omap (λ coin,
    if bool_decide (coin_denom coin = reward_denom) ||
       negb (bool_decide (coin_denom coin ∈ known_denoms)) then None
    else Some (Custom_Swap coin reward_denom)) balance in
  mret (mkResponse messages [attr "action" "swap"]).

(** Increase global_index according to claimed rewards amount *)
Definition execute_update_global_index (deps : Querier) (env : Env) (info : MessageInfo) :
    RewardM Response :=
  config ← reading read_config;
  state ← reading read_state;
  (* Permission check *)
  sender_raw ← lift (addr_canonicalize (sender info));
  lift (throw_if (bool_decide (hub_contract config ≠ sender_raw)) (generic_err "Unauthorized"));;
  (* Zero staking balance check *)
  lift (throw_if (total_balance state =? 0) (generic_err "No asset is bonded by Hub"));;
  config ← reading read_config;
  (* Load the reward contract balance *)
  balance ← lift (query_balance deps (contract_address env) (reward_denom config));
  (* claimed_rewards = current_balance - prev_balance; *)
  claimed_rewards ← lift (coin_amount balance -? prev_reward_balance state);
  (* global_index += claimed_rewards / total_balance; *)
  increment ← lift (claimed_rewards /! total_balance state);
  index ← lift (decimal_summation_in_256 (global_index state) increment);
  store_state (mkState index (total_balance state) (coin_amount balance));;
  mret (mkResponse []
    [attr "action" "update_global_index";
     attr "claimed_rewards" (uint_to_string claimed_rewards)]).

(** ** contract.rs *)

Definition instantiate (msg : BassetReward.InstantiateMsg) : RewardM Response :=
  hub ← lift (addr_canonicalize (im_hub_contract msg));
  store_config (mkConfig hub (BassetReward.im_reward_denom msg));;
  store_state (mkState 0 0 0);;
  mret Response_default.

Definition execute (deps : Querier) (env : Env) (info : MessageInfo)
    (msg : BassetReward.ExecuteMsg) : RewardM Response :=
  match msg with
  | ClaimRewards recipient => execute_claim_rewards deps info recipient
  | SwapToRewardDenom => execute_swap deps env info
  | BassetReward.UpdateGlobalIndex => execute_update_global_index deps env info
  | IncreaseBalance address amount => execute_increase_balance deps info address amount
  | DecreaseBalance address amount => execute_decrease_balance deps info address amount
  end.

Definition query_config (s : Storage) : StdResult BassetReward.ConfigResponse :=
  config ← read_config s;
  hub ← addr_humanize (hub_contract config);
  mret (BassetReward.mkConfigResponse hub (reward_denom config)).

Definition query_state (s : Storage) : StdResult BassetReward.StateResponse :=
  state ← read_state s;
  mret (BassetReward.mkStateResponse (global_index state) (total_balance state)
    (prev_reward_balance state)).

(** The answer to a query, before it is serialised. *)
Inductive QueryResponse :=
  | Answer_Config (r : BassetReward.ConfigResponse)
  | Answer_State (r : BassetReward.StateResponse)
  | Answer_AccruedRewards (r : AccruedRewardsResponse)
  | Answer_Holder (r : HolderResponse)
  | Answer_Holders (r : HoldersResponse).

Definition query (msg : BassetReward.QueryMsg) (s : Storage) : StdResult QueryResponse :=
  match msg with
  | BassetReward.QueryMsg_Config => Answer_Config <$> query_config s
  | BassetReward.QueryMsg_State => Answer_State <$> query_state s
  | QueryMsg_AccruedRewards address => Answer_AccruedRewards <$> query_accrued_rewards address s
  | QueryMsg_Holder address => Answer_Holder <$> query_holder address s
  | QueryMsg_Holders start_after limit => Answer_Holders <$> query_holders start_after limit s
  end.

Definition migrate : RewardM Response := mret Response_default.
End operations.
