(* ===== verification/UnitTests.v ===== *)
(** * The repository's unit tests

    The unit tests that stand in the source files of the contracts and
    packages, run on the model: each definition is one test function, and
    returns whether its assertions hold. *)
From S2P Require Import Prelude CwTypes CwMath BassetHub CwApi Reference.
From S2P Require Import SignedInt HubMath TaxQuerier MockQuerier RewardState RewardContract.

Open Scope N_scope.

(** [assert_eq!(a, b)] *)
Definition assert_eq {A} `{EqDecision A} (a b : A) : StdResult () :=
  if bool_decide (a = b) then mret () else Panic "assertion failed".

(** [assert!(b)] *)
Definition assert (b : bool) : StdResult () :=
  if b then mret () else Panic "assertion failed".

Section tests.
  Context `{CwMath, CwApi}.
  Variable mock_base : list (string * list Coin) → Querier.

(** ** contracts/anchor_basset_hub/src/math.rs *)

Definition test_decimal_division : StdResult () :=
  let a := 100 in
  b ← 10 /! 50;
  res ← decimal_division a b;
  assert_eq res 500.

(** ** contracts/anchor_basset_reward/src/math.rs *)

Definition test_decimal_multiplication : StdResult () :=
  let a := 100 in
  b ← 1111111 /! 10000000;
  x ← a /! 1;
  multiplication ← decimal_multiplication_in_256 x b;
  assert_eq (Decimal_to_string multiplication) "11.11111".

Definition test_decimal_sumation : StdResult () :=
  a ← 20 /! 50;
  b ← 10 /! 50;
  res ← decimal_summation_in_256 a b;
  assert_eq (Decimal_to_string res) "0.6".

Definition test_decimal_subtraction : StdResult () :=
  a ← 20 /! 50;
  b ← 10 /! 50;
  res ← decimal_subtraction_in_256 a b;
  assert_eq (Decimal_to_string res) "0.2".

Definition test_decimal_multiplication_in_256 : StdResult () :=
  let a := 100 in
  b ← 1111111 /! 10000000;
  x ← a /! 1;
  multiplication ← decimal_multiplication_in_256 x b;
  assert_eq (Decimal_to_string multiplication) "11.11111".

Definition test_decimal_sumation_in_256 : StdResult () :=
  a ← 20 /! 50;
  b ← 10 /! 50;
  res ← decimal_summation_in_256 a b;
  assert_eq (Decimal_to_string res) "0.6".

Definition test_decimal_subtraction_in_256 : StdResult () :=
  a ← 20 /! 50;
  b ← 10 /! 50;
  res ← decimal_subtraction_in_256 a b;
  assert_eq (Decimal_to_string res) "0.2".

(** ** contracts/anchor_basset_reward/src/user.rs *)

Definition proper_calculate_rewards : StdResult () :=
  global_index ← 9 /! 100;
  let user_index := 0 in
  let user_balance := 1000 in
  reward ← unwrap (calculate_decimal_rewards global_index user_index user_balance);
  assert_eq (Decimal_to_string reward) "90".

Definition proper_get_decimals : StdResult () :=
  global_index ← 9999999 /! 100000000;
  let user_index := 0 in
  let user_balance := 10 in
  rewards ← unwrap (calculate_decimal_rewards global_index user_index user_balance);
  reward ← unwrap (get_decimals rewards);
  assert_eq (Decimal_to_string reward) "0.9999999".

(** ** packages/signed_integers/src/signed_integer.rs *)

Definition test_from_subtraction : StdResult () :=
  let min := 1000010 in
  let sub := 1000000 in
  signed_integer ← from_subtraction min sub;
  assert_eq (magnitude signed_integer) 10;;
  assert (negb (negative signed_integer));;
  (* check negative values *)
  let min := 1000000 in
  let sub := 1100000 in
  signed_integer ← from_subtraction min sub;
  assert_eq (magnitude signed_integer) 100000;;
  assert (negative signed_integer).

(** ** packages/basset/src/testing.rs *)

Definition test_deduct_tax : StdResult () :=
  let deps := mock_dependencies mock_base [] in
  (* Decimal::percent(1) *)
  let deps := with_tax (DECIMAL_ONE / 100) [("uusd", 1000000)] deps in
  (* cap to 1000000 *)
  coin ← unwrap (deduct_tax (handle_query deps) (mkCoin "uusd" 10000000000));
  assert_eq coin (mkCoin "uusd" 9999000000);;
  (* normal tax *)
  coin ← unwrap (deduct_tax (handle_query deps) (mkCoin "uusd" 50000000));
  assert_eq coin (mkCoin "uusd" 49504950).
End tests.

(** ** Claims *)

(** The model passes the repository's unit tests of the arithmetic, the
    rewards and the tax, for any behaviour of the queries that the mock
    chain leaves to its base. *)
Theorem unit_tests_pass (mock_base : list (string * list Coin) → Querier) :
  test_decimal_division = Ok () ∧
  test_decimal_multiplication = Ok () ∧ test_decimal_sumation = Ok () ∧
  test_decimal_subtraction = Ok () ∧ test_decimal_multiplication_in_256 = Ok () ∧
  test_decimal_sumation_in_256 = Ok () ∧ test_decimal_subtraction_in_256 = Ok () ∧
  proper_calculate_rewards = Ok () ∧ proper_get_decimals = Ok () ∧
  test_from_subtraction = Ok () ∧ test_deduct_tax mock_base = Ok ().
Proof. split_and!; vm_compute; reflexivity. Qed.
