(* ===== verification/RewardSpec.v ===== *)
(** * The rewards are covered

    What each holder has accrued, the invariant that all of it together is
    covered by the balance the reward contract has accounted for, and its
    consequences: every claim can be paid. *)
From S2P Require Import Prelude CwTypes CwStrings CwMath BassetHub BassetReward CwApi Reference.
From S2P Require Import TaxQuerier RewardState RewardContract.

Open Scope N_scope.

Ltac inv_ok_hook ::=
  first [inv_cw_types | inv_cw_math | inv_cw_api | inv_tax | inv_reward].

Section spec.
  Context `{CwMathLaws, CwApiLaws}.
  Implicit Types (s : Storage) (st : State) (h : Holder).

(** What a holder has accrued, in units of 10^-18 coins. *)
Definition accrued (g : Decimal) h : N := (g - index h) * balance h + pending_rewards h.

(** ** The pieces *)

Lemma calculate_decimal_rewards_Ok g i b r :
  calculate_decimal_rewards g i b = Ok r → r = (g - i) * b ∧ i ≤ g.
Proof.
  unfold calculate_decimal_rewards. intros E. inv_ok. split; [|done].
  rewrite N.div_1_r, N.mul_assoc. by apply N.div_mul.
Qed.

Lemma calculate_decimal_rewards_total g i b :
  i ≤ g → g < U128_MOD → b * DECIMAL_ONE < U128_MOD → (g - i) * b < U128_MOD →
  calculate_decimal_rewards g i b = Ok ((g - i) * b).
Proof.
  intros Hi Hg Hb Hr. unfold calculate_decimal_rewards.
  assert (g - i < U128_MOD) by lia.
  apply result_bind_Ok. exists (b * DECIMAL_ONE). rewrite Decimal_from_ratio_Ok, N.div_1_r.
  split; [done|]. apply result_bind_Ok. exists (g - i).
  rewrite decimal_subtraction_in_256_Ok. split; [done|].
  rewrite decimal_multiplication_in_256_Ok, N.mul_assoc, N.div_mul by done. split_and!; try done.
  apply N.lt_le_trans with (U128_MOD * DECIMAL_ONE); [|done].
  by apply N.mul_lt_mono_pos_r.
Qed.

(** [get_decimals] goes through the printed number: it returns the
    fractional part. *)
Lemma get_decimals_eq d : get_decimals d = Ok (d `mod` DECIMAL_ONE).
Proof.
  unfold get_decimals. destruct (Decimal_to_string_spec d) as (whole & Hw & ->).
  destruct (N.eqb_spec (d `mod` DECIMAL_ONE) 0) as [Hz|Hnz].
  - rewrite split_no_dot by done. by rewrite Hz.
  - set (f := d `mod` DECIMAL_ONE) in *.
    assert (f < 10 ^ N.of_nat 18) as Hf by (by apply N.mod_lt).
    pose proof (digits_value_fixed 18 f Hf) as Hv.
    pose proof (trim_zeros_nonempty _ _ Hv Hnz) as Hne.
    destruct (trim_zeros_value _ _ _ Hv) as (w & Hw' & Hlen & Heq).
    rewrite length_fixed_digits in Hlen, Heq.
    rewrite split_one_dot by (done || by eapply digits_no_dot).
    by rewrite (Decimal_from_str_spec _ w), Heq.
Qed.

(** The state of a holder once what was accrued is moved to the pending
    rewards. *)
Definition settled (g : Decimal) h (b : Uint128) : Holder := mkHolder b g (accrued g h).

Definition holder_of (a : CanonicalAddr) s : Holder := default no_holder (holders_map s !! a).

Lemma read_holder_eq a s : read_holder a s = Ok (holder_of a s).
Proof. unfold read_holder, holder_of. by destruct (holders_map s !! a). Qed.

(** ** Effects of the operations *)

Definition with_holder (a : CanonicalAddr) h s : Storage :=
  set_holders (<[a := h]> (holders_map s)) s.

Lemma increase_Ok deps info addr amount s resp s' :
  execute_increase_balance deps info addr amount s = Ok (resp, s') →
  ∃ st a token, state_cell s = Some st ∧ addr_canonicalize addr = Ok a ∧
    let h := holder_of a s in
    index h ≤ global_index st ∧
    s' = set_state (mkState (global_index st) (total_balance st + amount) (prev_reward_balance st))
           (with_holder a (settled (global_index st) h (balance h + amount)) s) ∧
    messages resp = [] ∧
    (∃ cfg hub raw, config_cell s = Some cfg ∧ addr_humanize (hub_contract cfg) = Ok hub ∧
       query_token_contract deps hub = Ok raw ∧ addr_humanize raw = Ok token ∧ sender info = token).
Proof.
  unfold execute_increase_balance. intros E. inv_ok.
  rewrite read_holder_eq in *. inv_ok.
  match goal with H : calculate_decimal_rewards _ _ _ = Ok _ |- _ =>
    apply calculate_decimal_rewards_Ok in H as [-> ?] end.
  match goal with H : bool_decide (_ ≠ _) = false |- _ => apply bool_decide_neq_false in H end.
  do 3 eexists. cbn zeta. split_and!; try eassumption; try reflexivity.
  do 3 eexists. split_and!; eassumption.
Qed.

Lemma decrease_Ok deps info addr amount s resp s' :
  execute_decrease_balance deps info addr amount s = Ok (resp, s') →
  ∃ st a, state_cell s = Some st ∧ addr_canonicalize addr = Ok a ∧
    let h := holder_of a s in
    index h ≤ global_index st ∧ amount ≤ balance h ∧ amount ≤ total_balance st ∧
    s' = set_state (mkState (global_index st) (total_balance st - amount) (prev_reward_balance st))
           (with_holder a (settled (global_index st) h (balance h - amount)) s) ∧
    messages resp = [] ∧
    (∃ cfg hub raw, config_cell s = Some cfg ∧ addr_humanize (hub_contract cfg) = Ok hub ∧
       query_token_contract deps hub = Ok raw ∧ addr_canonicalize (sender info) = Ok raw).
Proof.
  unfold execute_decrease_balance. intros E. inv_ok. rewrite read_holder_eq in *. inv_ok.
  match goal with H : calculate_decimal_rewards _ _ _ = Ok _ |- _ =>
    apply calculate_decimal_rewards_Ok in H as [-> ?] end.
  match goal with H : bool_decide (_ ≠ _) = false |- _ => apply bool_decide_neq_false in H as -> end.
  do 2 eexists. cbn zeta. split_and!; try eassumption; try reflexivity.
  do 3 eexists. split_and!; eassumption.
Qed.

(** What a claim pays out of what is accrued: the whole coins. *)
Definition claimable (g : Decimal) h : N := accrued g h / DECIMAL_ONE.

Lemma claim_Ok deps info recipient s resp s' :
  execute_claim_rewards deps info recipient s = Ok (resp, s') →
  ∃ st a to cfg rate cap, state_cell s = Some st ∧ addr_canonicalize (sender info) = Ok a ∧
    config_cell s = Some cfg ∧
    match recipient with Some r => addr_validate r = Ok to | None => to = sender info end ∧
    query_tax_rate deps = Ok rate ∧ query_tax_cap deps (reward_denom cfg) = Ok cap ∧
    let h := holder_of a s in
    let paid := claimable (global_index st) h in
    index h ≤ global_index st ∧ 0 < paid ≤ prev_reward_balance st ∧
    s' = with_holder a (mkHolder (balance h) (global_index st)
                          (accrued (global_index st) h `mod` DECIMAL_ONE))
           (set_state (mkState (global_index st) (total_balance st)
                         (prev_reward_balance st - paid)) s) ∧
    messages resp = [Bank_Send to [mkCoin (reward_denom cfg) (paid - tax_of rate cap paid)]].
Proof.
  unfold execute_claim_rewards. intros E. inv_ok. rewrite read_holder_eq, get_decimals_eq in *.
  inv_ok. match goal with H : calculate_decimal_rewards _ _ _ = Ok _ |- _ =>
    apply calculate_decimal_rewards_Ok in H as [-> ?] end.
  match goal with H : (_ =? 0) = false |- _ => apply N.eqb_neq in H end.
  match goal with H : match recipient with _ => _ end _ = Ok (?r, ?s2) |- _ =>
    assert (match recipient with Some v => addr_validate v = Ok r | None => r = sender info end ∧
      s2 = s) as [Hto ->] by (destruct recipient; by inv_ok) end.
  rewrite N.mul_1_l in *.
  do 6 eexists. cbn zeta. split_and!; try eassumption; try reflexivity.
  by apply N.neq_0_lt_0.
Qed.

Lemma update_global_index_Ok deps env info s resp s' :
  execute_update_global_index deps env info s = Ok (resp, s') →
  ∃ st cfg bal, state_cell s = Some st ∧ config_cell s = Some cfg ∧
    addr_canonicalize (sender info) = Ok (hub_contract cfg) ∧
    query_balance deps (contract_address env) (reward_denom cfg) = Ok bal ∧
    total_balance st ≠ 0 ∧ prev_reward_balance st ≤ coin_amount bal ∧
    s' = set_state (mkState
           (global_index st +
            (coin_amount bal - prev_reward_balance st) * DECIMAL_ONE / total_balance st)
           (total_balance st) (coin_amount bal)) s ∧
    messages resp = [].
Proof.
  unfold execute_update_global_index. intros E. inv_ok.
  match goal with H : bool_decide (_ ≠ _) = false |- _ => apply bool_decide_neq_false in H as <- end.
  match goal with H : (_ =? 0) = false |- _ => apply N.eqb_neq in H end.
  cbn in *. simplify_eq.
  do 3 eexists. split_and!; try eassumption; reflexivity.
Qed.

(** The [continue] of the loop over the coins is a filter. *)
Lemma swap_messages denom (known : list string) (bals : list Coin) :
  omap (λ coin, if bool_decide (coin_denom coin = denom) ||
                   negb (bool_decide (coin_denom coin ∈ known)) then None
                else Some (Custom_Swap coin denom)) bals =
  (λ c, Custom_Swap c denom) <$>
    filter (λ c, coin_denom c ≠ denom ∧ coin_denom c ∈ known) bals.
Proof.
  induction bals as [|c bals IH]; [done|]. cbn [omap list_omap]. rewrite IH, filter_cons.
  destruct (decide (coin_denom c ≠ denom ∧ coin_denom c ∈ known)) as [[Hd Hk]|Hn].
  - by rewrite bool_decide_eq_false_2, bool_decide_eq_true_2 by done.
  - destruct (decide (coin_denom c = denom)) as [Hd|Hd].
    + by rewrite bool_decide_eq_true_2 by done.
    + rewrite bool_decide_eq_false_2 by done. by rewrite bool_decide_eq_false_2 by tauto.
Qed.

Lemma swap_Ok deps env info s resp s' :
  execute_swap deps env info s = Ok (resp, s') →
  s' = s ∧ ∃ cfg bals rates, config_cell s = Some cfg ∧
    addr_canonicalize (sender info) = Ok (hub_contract cfg) ∧
    query_all_balances deps (contract_address env) = Ok bals ∧
    query_exchange_rates deps (reward_denom cfg) (coin_denom <$> bals) = Ok rates ∧
    messages resp = (λ c, Custom_Swap c (reward_denom cfg)) <$>
      filter (λ c, coin_denom c ≠ reward_denom cfg ∧
        coin_denom c ∈ quote_denom <$> exchange_rates rates) bals.
Proof.
  unfold execute_swap. intros E. inv_ok. split; [done|].
  match goal with H : bool_decide (_ ≠ _) = false |- _ => apply bool_decide_neq_false in H as -> end.
  do 3 eexists. split_and!; try eassumption. cbn.
  apply swap_messages.
Qed.

(** ** The invariant *)

(** The balances add up; no holder is ahead of the global index; and what all
    the holders have accrued is covered by the accounted balance. *)
Record reward_inv st s : Prop := mk_reward_inv {
  inv_state : state_cell s = Some st;
  inv_total : sum_map (λ _ h, balance h) (holders_map s) = total_balance st;
  inv_index : ∀ a h, holders_map s !! a = Some h → index h ≤ global_index st;
  inv_covered : sum_map (λ _ h, accrued (global_index st) h) (holders_map s) ≤
                prev_reward_balance st * DECIMAL_ONE
}.

Definition reward_ok s : Prop := ∃ st, reward_inv st s.

Lemma inv_holder_index st s a : reward_inv st s → index (holder_of a s) ≤ global_index st.
Proof.
  intros Hinv. unfold holder_of. destruct (holders_map s !! a) as [h|] eqn:Hh; cbn; [|lia].
  by eapply inv_index.
Qed.

Lemma accrued_no_holder g : accrued g no_holder = 0.
Proof. unfold accrued. cbn. lia. Qed.

(** A sum over the holders when one of them is replaced; [f] is zero for an
    account that holds nothing. *)
Lemma sum_with_holder (f : Holder → N) a h' s :
  f no_holder = 0 →
  sum_map (λ _ h, f h) (<[a := h']> (holders_map s)) + f (holder_of a s) =
  sum_map (λ _ h, f h) (holders_map s) + f h'.
Proof.
  intros Hz. rewrite <- (sum_map_insert (λ _ h, f h) (holders_map s) a h'). f_equal.
  unfold holder_of. by destruct (holders_map s !! a).
Qed.

(** Replacing a holder and the state keeps the invariant when the sums do. *)
Lemma reward_inv_update st st' a h' s s' :
  reward_inv st s → holders_map s' = <[a := h']> (holders_map s) → state_cell s' = Some st' →
  global_index st' = global_index st → index h' = global_index st →
  total_balance st' + balance (holder_of a s) = total_balance st + balance h' →
  prev_reward_balance st * DECIMAL_ONE + accrued (global_index st) h' ≤
    prev_reward_balance st' * DECIMAL_ONE + accrued (global_index st) (holder_of a s) →
  reward_inv st' s'.
Proof.
  intros [Hst Htot Hidx Hcov] Hh Hst' Hg Hi Hb Hacc. constructor; rewrite ?Hh, ?Hg; [done|..].
  - pose proof (sum_with_holder balance a h' s eq_refl). lia.
  - intros a0 h0 [[_ <-]|[_ Hl]]%lookup_insert_Some; [by rewrite Hi|]. by eapply Hidx.
  - pose proof (sum_with_holder (accrued (global_index st)) a h' s (accrued_no_holder _)). lia.
Qed.

Lemma accrued_index_add g inc h :
  index h ≤ g → accrued (g + inc) h = accrued g h + balance h * inc.
Proof.
  intros Hi. unfold accrued. replace (g + inc - index h) with (g - index h + inc) by lia. lia.
Qed.

Lemma accrued_settled g h b : accrued g (settled g h b) = accrued g h.
Proof. unfold accrued, settled. cbn. rewrite N.sub_diag. cbn. done. Qed.

Lemma increase_inv deps info addr amount s resp s' :
  reward_ok s → execute_increase_balance deps info addr amount s = Ok (resp, s') → reward_ok s'.
Proof.
  intros [st Hinv] (st0 & a & token & Hst & _ & _ & -> & _)%increase_Ok.
  assert (st0 = st) as -> by (rewrite (inv_state _ _ Hinv) in Hst; congruence).
  eexists. eapply (reward_inv_update st _ a); try done; cbn; [lia|]. by rewrite accrued_settled.
Qed.

Lemma decrease_inv deps info addr amount s resp s' :
  reward_ok s → execute_decrease_balance deps info addr amount s = Ok (resp, s') → reward_ok s'.
Proof.
  intros [st Hinv] (st0 & a & Hst & _ & _ & Hb & Ht & -> & _)%decrease_Ok.
  assert (st0 = st) as -> by (rewrite (inv_state _ _ Hinv) in Hst; congruence).
  eexists. eapply (reward_inv_update st _ a); try done; cbn; [lia|]. by rewrite accrued_settled.
Qed.

Lemma claim_inv deps info recipient s resp s' :
  reward_ok s → execute_claim_rewards deps info recipient s = Ok (resp, s') → reward_ok s'.
Proof.
  intros [st Hinv] (st0 & a & to & cfg & rate & cap & Hst & _ & _ & _ & _ & _ & _ & Hpaid & -> & _)%
    claim_Ok.
  assert (st0 = st) as -> by (rewrite (inv_state _ _ Hinv) in Hst; congruence).
  eexists. eapply (reward_inv_update st _ a); try done; cbn.
  unfold claimable in *. set (acc := accrued (global_index st) (holder_of a s)) in *.
  unfold accrued at 1. cbn. rewrite N.sub_diag. cbn.
  pose proof (N.div_mod' acc DECIMAL_ONE). nia.
Qed.

Lemma update_global_index_inv deps env info s resp s' :
  reward_ok s → execute_update_global_index deps env info s = Ok (resp, s') → reward_ok s'.
Proof.
  intros [st Hinv] (st0 & cfg & bal & Hst & _ & _ & _ & Hnz & Hle & -> & _)%update_global_index_Ok.
  assert (st0 = st) as -> by (rewrite (inv_state _ _ Hinv) in Hst; congruence).
  set (inc := (coin_amount bal - prev_reward_balance st) * DECIMAL_ONE / total_balance st).
  pose proof (N.Div0.mul_div_le ((coin_amount bal - prev_reward_balance st) * DECIMAL_ONE)
    (total_balance st)) as Hinc. fold inc in Hinc.
  rewrite N.mul_sub_distr_r in Hinc. pose proof (N.mul_le_mono_r _ _ DECIMAL_ONE Hle).
  destruct Hinv as [_ Htot Hidx Hcov]. eexists. constructor; cbn; [done|done|..].
  - intros a h Hh. etrans; [by eapply Hidx|apply N.le_add_r].
  - assert (sum_map (λ _ h, accrued (global_index st + inc) h) (holders_map s) =
      sum_map (λ _ h, accrued (global_index st) h) (holders_map s) + total_balance st * inc)
      as Hsum; [|etrans; [apply N.eq_le_incl, Hsum|cbn; clearbody inc; lia]].
    rewrite <- Htot, <- sum_map_mul_r. unfold sum_map. rewrite <- sumN_add. apply sumN_ext.
    intros [a h] Hin%elem_of_map_to_list. specialize (Hidx a h Hin). by apply accrued_index_add.
Qed.

Lemma reward_execute_ok deps env info msg s resp s' :
  reward_ok s → execute deps env info msg s = Ok (resp, s') → reward_ok s'.
Proof.
  intros Hok. destruct msg; cbn; intros E;
    [apply swap_Ok in E as [-> _]; done|eauto using update_global_index_inv, increase_inv,
      decrease_inv, claim_inv..].
Qed.

Lemma reward_instantiate_ok msg resp s :
  instantiate msg empty_storage = Ok (resp, s) → reward_ok s.
Proof.
  unfold instantiate. intros E. inv_ok. eexists. constructor; cbn; try reflexivity.
  by intros a h ?%lookup_empty_Some.
Qed.

(** ** Executions *)

Inductive reward_step : Storage → Storage → Prop :=
  | reward_step_execute deps env info msg s resp s' :
      execute deps env info msg s = Ok (resp, s') → reward_step s s'.

Inductive reward_reachable : Storage → Prop :=
  | reward_reachable_init msg resp s :
      instantiate msg empty_storage = Ok (resp, s) → reward_reachable s
  | reward_reachable_step s s' : reward_reachable s → reward_step s s' → reward_reachable s'.

Lemma reward_reachable_ok s : reward_reachable s → reward_ok s.
Proof.
  induction 1 as [? ? ? E|s s' _ IH Hstep]; [by eapply reward_instantiate_ok|].
  destruct Hstep. by eapply reward_execute_ok.
Qed.

(** A sequence of messages, each with the chain it meets. *)
Fixpoint run_reward (calls : list (Querier * Env * MessageInfo * BassetReward.ExecuteMsg)) s :
    StdResult Storage :=
  match calls with
  | [] => Ok s
  | (deps, env, info, msg) :: calls =>
      '(_, s) ← execute deps env info msg s;
      run_reward calls s
  end.

Lemma run_reward_reachable calls s s' :
  reward_reachable s → run_reward calls s = Ok s' → reward_reachable s'.
Proof.
  revert s. induction calls as [|[[[deps env] info] msg] calls IH]; intros s Hs E; cbn in E.
  - by inv_ok.
  - inv_ok. destruct x as [resp s1]. eapply IH; [|done].
    eapply reward_reachable_step; [done|]. by econstructor.
Qed.

(** What all the holders can claim fits in the accounted balance. *)
Lemma claimable_covered st s :
  reward_inv st s →
  sum_map (λ _ h, claimable (global_index st) h) (holders_map s) ≤ prev_reward_balance st.
Proof.
  intros [_ _ _ Hcov]. etrans; [apply (sum_map_div_le (λ _ h, accrued (global_index st) h))|].
  apply N.Div0.div_le_upper_bound. rewrite N.mul_comm. done.
Qed.

Lemma claimable_holder_le st s a :
  reward_inv st s → claimable (global_index st) (holder_of a s) ≤ prev_reward_balance st.
Proof.
  intros Hinv. etrans; [|by apply (claimable_covered st s)]. unfold holder_of.
  destruct (holders_map s !! a) as [h|] eqn:Hh; cbn.
  - by apply (sum_map_elem_le (λ _ h, claimable (global_index st) h) _ a).
  - unfold claimable. rewrite accrued_no_holder. cbn. apply N.le_0_l.
Qed.

Lemma accrued_query address a s st :
  state_cell s = Some st → addr_canonicalize address = Ok a →
  let h := holder_of a s in
  index h ≤ global_index st → global_index st < U128_MOD →
  balance h * DECIMAL_ONE < U128_MOD → accrued (global_index st) h < U128_MOD →
  query_accrued_rewards address s =
    Ok (mkAccruedRewardsResponse (claimable (global_index st) h)).
Proof.
  intros Hst Ha h Hi Hg Hb Hacc. unfold accrued in Hacc.
  pose proof (calculate_decimal_rewards_total _ _ _ Hi Hg Hb ltac:(lia)) as Hcalc.
  assert (decimal_summation_in_256 ((global_index st - index h) * balance h) (pending_rewards h) =
    Ok (accrued (global_index st) h)) as Hsum by by apply decimal_summation_in_256_Ok.
  unfold query_accrued_rewards, read_state, load. cbn [item_get STATE]. rewrite Hst.
  cbn [ok_or mbind result_bind]. rewrite Ha. cbn [mbind result_bind]. rewrite read_holder_eq.
  cbn [mbind result_bind]. fold h. rewrite Hcalc. cbn [mbind result_bind]. rewrite Hsum.
  cbn [mbind result_bind]. apply result_bind_Ok. eexists.
  split; [|reflexivity]. apply Uint128_mul_Decimal_Ok. rewrite N.mul_1_l. split; [done|].
  eapply N.le_lt_trans; [|exact Hacc]. apply N.Div0.div_le_upper_bound.
  assert (1 ≤ DECIMAL_ONE) by done. fold (accrued (global_index st) h). nia.
Qed.

Lemma query_accrued_Ok address s r :
  query_accrued_rewards address s = Ok r →
  ∃ st a, state_cell s = Some st ∧ addr_canonicalize address = Ok a ∧
    r = mkAccruedRewardsResponse (claimable (global_index st) (holder_of a s)).
Proof.
  unfold query_accrued_rewards. intros E. inv_ok. rewrite read_holder_eq in *. inv_ok.
  match goal with H : calculate_decimal_rewards _ _ _ = Ok _ |- _ =>
    apply calculate_decimal_rewards_Ok in H as [-> _] end.
  do 2 eexists. split_and!; [eassumption..|]. by rewrite N.mul_1_l.
Qed.

(** One address has one canonical form. *)
Ltac same_address :=
  repeat match goal with
  | H1 : addr_canonicalize ?a = Ok ?x, H2 : addr_canonicalize ?a = Ok ?y |- _ =>
      rewrite H1 in H2; injection H2 as H2; subst
  end.

(** ** Claims *)

(** C5: the invariant of the reward contract: in every reachable state the
    balances of the holders add up to the total balance, no holder's index
    is ahead of the global index, and everything the holders have accrued,
    fractions included, is covered by the reward balance accounted for. *)
Theorem reward_invariant s : reward_reachable s → reward_ok s.
Proof. apply reward_reachable_ok. Qed.

(** C7: accrued rewards can be claimed: in every reachable state a holder who
    has accrued at least one coin can claim it, for every tax the chain
    reports and for any recipient whose address is valid (or none), provided
    that the tax rate, the global index and what the holder has accrued fit a
    [Decimal] and that the balance does as a [Decimal] (balance * 10^18 below
    2^128).  In particular the subtraction from the accounted balance never
    fails. *)
Theorem claim_succeeds deps info recipient s st cfg a rate cap :
  reward_reachable s → state_cell s = Some st → config_cell s = Some cfg →
  addr_canonicalize (sender info) = Ok a →
  (∀ r, recipient = Some r → is_Ok (addr_validate r)) →
  query_tax_rate deps = Ok rate → query_tax_cap deps (reward_denom cfg) = Ok cap →
  rate + DECIMAL_ONE < U128_MOD → global_index st < U128_MOD →
  let h := holder_of a s in
  balance h * DECIMAL_ONE < U128_MOD → accrued (global_index st) h < U128_MOD →
  DECIMAL_ONE ≤ accrued (global_index st) h →
  is_Ok (execute_claim_rewards deps info recipient s).
Proof.
  intros [st0 Hinv]%reward_reachable_ok Hst Hcfg Ha Hto Hr Hc Hrate Hg h Hb Hacc Hone.
  assert (st0 = st) as -> by (rewrite (inv_state _ _ Hinv) in Hst; congruence).
  pose proof (inv_holder_index _ _ a Hinv) as Hi. fold h in Hi.
  pose proof (claimable_holder_le _ _ a Hinv) as Hle. fold h in Hle. unfold claimable in Hle.
  set (g := global_index st) in *. set (acc := accrued g h) in *.
  pose proof (calculate_decimal_rewards_total _ _ _ Hi Hg Hb
    ltac:(unfold acc, accrued in Hacc; lia)) as Hcalc.
  assert (decimal_summation_in_256 ((g - index h) * balance h) (pending_rewards h) = Ok acc)
    as Hsum by by apply decimal_summation_in_256_Ok.
  pose proof (get_decimals_eq acc) as Hdec. pose proof (read_holder_eq a s) as Hh. fold h in Hh.
  assert (1 ≤ acc / DECIMAL_ONE) as Hpos by by apply N.div_le_lower_bound.
  assert (acc / DECIMAL_ONE ≤ acc) as Hdiv.
  { apply N.Div0.div_le_upper_bound. assert (1 ≤ DECIMAL_ONE) by done. nia. }
  rewrite <- (N.mul_1_l acc) in Hle, Hpos, Hdiv at 1.
  destruct (deduct_tax_total deps (mkCoin (reward_denom cfg) (1 * acc / DECIMAL_ONE)) rate cap Hr Hc
    Hrate ltac:(cbn [coin_amount]; lia)) as [coin Hcoin].
  unfold execute_claim_rewards, read_state, read_config, store_state, store_holder.
  destruct recipient as [r|]; [destruct (Hto r eq_refl) as [to Hv]|]; eexists; run_ok;
    solve [lia|apply N.eqb_neq; lia|done].
Qed.

(** A holder whose balance does not fit a [Decimal] (balance * 10^18 is
    2^128 or more) is locked out: no claim of the holder succeeds, and no
    report of the token that changes the holder's balance does, in either
    direction, so that neither can a transfer of the holder's tokens. *)
Theorem large_holder_locked deps info s a :
  U128_MOD ≤ balance (holder_of a s) * DECIMAL_ONE →
  (∀ recipient, addr_canonicalize (sender info) = Ok a →
     ¬ is_Ok (execute_claim_rewards deps info recipient s)) ∧
  (∀ addr amount, addr_canonicalize addr = Ok a →
     ¬ is_Ok (execute_increase_balance deps info addr amount s) ∧
     ¬ is_Ok (execute_decrease_balance deps info addr amount s)).
Proof.
  intros Hbig.
  assert (∀ g i r, calculate_decimal_rewards g i (balance (holder_of a s)) ≠ Ok r) as Hcalc.
  { intros g i r E. unfold calculate_decimal_rewards in E. inv_ok. rewrite N.div_1_r in *. lia. }
  split.
  - intros recipient Ha [[resp s'] E]. unfold execute_claim_rewards in E. inv_ok.
    match goal with H : match recipient with _ => _ end _ = Ok (?r, ?s2) |- _ =>
      assert (s2 = s) as -> by (destruct recipient; by inv_ok) end.
    rewrite read_holder_eq in *. inv_ok. same_address. by eapply Hcalc.
  - intros addr amount Ha. split; intros [[resp s'] E];
      unfold execute_increase_balance, execute_decrease_balance in E; inv_ok;
      rewrite read_holder_eq in *; inv_ok; same_address; by eapply Hcalc.
Qed.

(** C25: a claim pays exactly what [query_accrued_rewards] reports, less the
    tax, to the recipient named or else to the sender, takes it off the
    accounted balance, leaves the holder only the fraction of a coin that
    was not paid, and changes no other holder. *)
Theorem claim_pays_accrued deps info recipient s resp s' reported :
  execute_claim_rewards deps info recipient s = Ok (resp, s') →
  query_accrued_rewards (sender info) s = Ok (mkAccruedRewardsResponse reported) →
  ∃ st st' a to denom rate cap, state_cell s = Some st ∧ state_cell s' = Some st' ∧
    addr_canonicalize (sender info) = Ok a ∧
    match recipient with Some r => addr_validate r = Ok to | None => to = sender info end ∧
    query_tax_rate deps = Ok rate ∧ query_tax_cap deps denom = Ok cap ∧
    messages resp = [Bank_Send to [mkCoin denom (reported - tax_of rate cap reported)]] ∧
    prev_reward_balance st' + reported = prev_reward_balance st ∧
    accrued (global_index st') (holder_of a s') + reported * DECIMAL_ONE =
      accrued (global_index st) (holder_of a s) ∧
    (∀ a', a' ≠ a → holder_of a' s' = holder_of a' s).
Proof.
  intros (st & a & to & cfg & rate & cap & Hst & Ha & Hcfg & Hto & Hr & Hc & Hi & Hpaid & -> & Hmsg)%
    claim_Ok Hq.
  assert (reported = claimable (global_index st) (holder_of a s)) as ->.
  { apply query_accrued_Ok in Hq as (st' & a' & Hst' & Ha' & [= ->]). congruence. }
  exists st. do 6 eexists. split_and!; try eassumption; [reflexivity|cbn; lia|..].
  - cbn. unfold holder_of at 1. cbn. rewrite lookup_insert_eq. cbn.
    unfold accrued at 1. cbn. rewrite N.sub_diag. cbn. unfold claimable.
    rewrite N.add_comm, N.mul_comm. symmetry. apply N.div_mod'.
  - intros a' Hne. unfold holder_of. cbn. by rewrite lookup_insert_ne.
Qed.

(** C24: new rewards are shared by balance: an update of the index raises what
    every holder has accrued by their balance times the same increment, the
    increments together are at most the new rewards, and less than one unit
    of 10^-18 per token is left over. *)
Theorem index_update_distributes deps env info s resp s' :
  reward_reachable s → execute_update_global_index deps env info s = Ok (resp, s') →
  ∃ st st' inc, state_cell s = Some st ∧ state_cell s' = Some st' ∧
    (∀ a, accrued (global_index st') (holder_of a s') =
          accrued (global_index st) (holder_of a s) + balance (holder_of a s) * inc) ∧
    let new_rewards := (prev_reward_balance st' - prev_reward_balance st) * DECIMAL_ONE in
    sum_map (λ _ h, balance h * inc) (holders_map s) ≤ new_rewards <
    sum_map (λ _ h, balance h * inc) (holders_map s) + total_balance st.
Proof.
  intros [st0 Hinv]%reward_reachable_ok (st & cfg & bal & Hst & _ & _ & _ & Hnz & Hle & -> & _)%
    update_global_index_Ok.
  assert (st0 = st) as -> by (rewrite (inv_state _ _ Hinv) in Hst; congruence).
  exists st. do 2 eexists. split_and!; [done|reflexivity|..].
  - intros a. pose proof (inv_holder_index _ _ a Hinv) as Hi. cbn.
    change (holder_of a (set_state _ s)) with (holder_of a s). by apply accrued_index_add.
  - cbn. rewrite sum_map_mul_r, (inv_total _ _ Hinv).
    pose proof (N.mul_succ_div_gt ((coin_amount bal - prev_reward_balance st) * DECIMAL_ONE)
      (total_balance st) Hnz) as Hgt.
    pose proof (N.Div0.mul_div_le ((coin_amount bal - prev_reward_balance st) * DECIMAL_ONE)
      (total_balance st)) as Hle'.
    revert Hgt Hle'. generalize ((coin_amount bal - prev_reward_balance st) * DECIMAL_ONE).
    intros n. generalize (n / total_balance st). intros. lia.
Qed.

(** C33: moving tokens is neutral for rewards: when the token contract reports
    a change of balance, nobody's accrued rewards change, only the balance
    of the account and the total do. *)
Theorem balance_changes_keep_accrued deps env info msg addr amount s resp s' :
  msg = IncreaseBalance addr amount ∨ msg = DecreaseBalance addr amount →
  execute deps env info msg s = Ok (resp, s') →
  ∃ st st' a, state_cell s = Some st ∧ state_cell s' = Some st' ∧
    addr_canonicalize addr = Ok a ∧ messages resp = [] ∧
    prev_reward_balance st' = prev_reward_balance st ∧
    (∀ b, accrued (global_index st') (holder_of b s') = accrued (global_index st) (holder_of b s)) ∧
    (∀ b, b ≠ a → holder_of b s' = holder_of b s) ∧
    (msg = IncreaseBalance addr amount →
     balance (holder_of a s') = balance (holder_of a s) + amount ∧
     total_balance st' = total_balance st + amount) ∧
    (msg = DecreaseBalance addr amount →
     balance (holder_of a s') + amount = balance (holder_of a s) ∧
     total_balance st' + amount = total_balance st).
Proof.
  assert (∀ st a b s h', holder_of b (set_state st (with_holder a h' s)) =
    if decide (a = b) then h' else holder_of b s) as Hget.
  { intros. unfold holder_of. cbn. rewrite lookup_insert. by case_decide. }
  intros [-> | ->]; cbn.
  - intros (st & a & token & Hst & Ha & _ & -> & Hm & _)%increase_Ok.
    exists st. do 2 eexists. split_and!; try eassumption; try reflexivity; try done; cbn.
    + intros b. rewrite Hget by done. case_decide; [subst; apply accrued_settled|done].
    + intros b Hb. by rewrite Hget, decide_False by done.
    + intros _. by rewrite Hget, decide_True by done.
  - intros (st & a & Hst & Ha & _ & Hb & Ht & -> & Hm & _)%decrease_Ok.
    exists st. do 2 eexists. split_and!; try eassumption; try reflexivity; try done; cbn.
    + intros b. rewrite Hget by done. case_decide; [subst; apply accrued_settled|done].
    + intros b Hb'. by rewrite Hget, decide_False by done.
    + intros _. rewrite Hget, decide_True by done. cbn. lia.
Qed.

(** C34: [get_decimals], which prints the number, splits it at the dot and
    parses the fraction again, is the remainder modulo one. *)
Theorem get_decimals_is_fraction d : get_decimals d = Ok (d `mod` DECIMAL_ONE).
Proof. apply get_decimals_eq. Qed.

(** Balances change only at the word of the token contract that the hub
    has registered, and only the hub swaps rewards or updates the index. *)
Theorem reward_authorized deps env info msg s resp s' cfg :
  config_cell s = Some cfg → execute deps env info msg s = Ok (resp, s') →
  match msg with
  | IncreaseBalance _ _ | DecreaseBalance _ _ =>
      ∃ hub token, addr_humanize (hub_contract cfg) = Ok hub ∧
        query_token_contract deps hub = Ok token ∧ addr_canonicalize (sender info) = Ok token
  | SwapToRewardDenom | BassetReward.UpdateGlobalIndex =>
      addr_canonicalize (sender info) = Ok (hub_contract cfg)
  | ClaimRewards _ => True
  end.
Proof.
  intros Hcfg. destruct msg; cbn; intros E; [..|done].
  - apply swap_Ok in E as (_ & cfg' & ? & ? & Hcfg' & ? & _). congruence.
  - apply update_global_index_Ok in E as (? & cfg' & ? & _ & Hcfg' & ? & _). congruence.
  - apply increase_Ok in E as (? & ? & token & _ & _ & _ & _ & _ & cfg' & hub & raw & Hcfg' & Hh & Hq
      & Hraw & ->).
    assert (cfg' = cfg) as -> by congruence. exists hub, raw. split_and!; [done..|].
    by apply addr_canonicalize_humanize.
  - apply decrease_Ok in E as (? & ? & _ & _ & _ & _ & _ & _ & _ & cfg' & hub & raw & Hcfg' & Hh & Hq & Hs).
    assert (cfg' = cfg) as -> by congruence. by exists hub, raw.
Qed.
End spec.

(** ** Witnesses *)

(** The hub's configuration as the reward contract reads it, and a chain on
    which the contract holds [held] coins and the tax is one percent. *)
Definition demo_hub_config : BassetHub.Config :=
  BassetHub.mkConfig (canonical "owner") (Some (canonical "reward"))
    (Some (canonical "token")) None.

Definition reward_chain (held : Uint128) : Querier := {|
  query_all_delegations _ := Ok [];
  query_delegation _ _ := Ok None;
  query_all_validators := Ok [];
  query_balance _ denom := Ok (mkCoin denom held);
  query_all_balances _ := Ok [mkCoin "uusd" held; mkCoin "ukrw" 5; mkCoin "uxyz" 7];
  query_token_info _ := Ok (mkTokenInfo 0);
  query_cw20_balance _ _ := Ok 0;
  query_raw_hub_config _ := Ok demo_hub_config;
  query_tax_rate := Ok 10000000000000000;
  query_tax_cap _ := Ok 1000000;
  terra_exchange_rates base _ :=
    Ok (mkExchangeRatesResponse base (mkExchangeRateItem DECIMAL_ONE <$> ["uusd"; "ukrw"]))
|}.

Definition reward_env : Env := mkEnv 1 1 "reward".

(** Alice holds 100 tokens and bob 200 when 1000 coins of rewards arrive. *)
Definition reward_demo : StdResult Storage :=
  '(_, s) ← instantiate (BassetReward.mkInstantiateMsg "hub" "uusd") empty_storage;
  run_reward
    [(reward_chain 0, reward_env, mkInfo "token" [], IncreaseBalance "alice" 100);
     (reward_chain 0, reward_env, mkInfo "token" [], IncreaseBalance "bob" 200);
     (reward_chain 1000, reward_env, mkInfo "hub" [], BassetReward.UpdateGlobalIndex)] s.

Lemma reward_demo_reachable s : reward_demo = Ok s → reward_reachable s.
Proof.
  unfold reward_demo. destruct (instantiate _ empty_storage) as [[resp s0]| |] eqn:E; [|done..].
  cbn [mbind result_bind]. apply run_reward_reachable. exact (reward_reachable_init _ _ _ E).
Qed.

Lemma reward_invariant_witness : ∃ s, reward_demo = Ok s ∧ reward_ok s.
Proof.
  destruct reward_demo as [s| |] eqn:E; [|vm_compute in E; discriminate..].
  exists s. split; [done|]. exact (reward_invariant s (reward_demo_reachable s E)).
Defined.

Lemma claim_succeeds_witness : ∃ s,
  reward_demo = Ok s ∧ is_Ok (execute_claim_rewards (reward_chain 1000) (mkInfo "alice" []) (Some "bob") s).
Proof.
  destruct reward_demo as [s| |] eqn:E; [|vm_compute in E; discriminate..].
  exists s. split; [done|]. pose proof (reward_demo_reachable s E) as Hs.
  vm_compute in E. injection E as <-.
  eapply (claim_succeeds (reward_chain 1000) (mkInfo "alice" []) (Some "bob") _ _ _ (canonical "alice") _ _
    Hs); try reflexivity; [|vm_compute; discriminate]. intros r [= <-]. by eexists.
Defined.

(** Alice holds 2^128 / 10^18 tokens, rounded up. *)
Definition whale_demo : StdResult Storage :=
  '(_, s) ← instantiate (BassetReward.mkInstantiateMsg "hub" "uusd") empty_storage;
  run_reward [(reward_chain 0, reward_env, mkInfo "token" [],
    IncreaseBalance "alice" 340282366920938463464)] s.

Lemma large_holder_locked_witness : ∃ s,
  whale_demo = Ok s ∧
  ¬ is_Ok (execute_claim_rewards (reward_chain 1000) (mkInfo "alice" []) None s) ∧
  ¬ is_Ok (execute_decrease_balance (reward_chain 1000) (mkInfo "token" []) "alice" 1 s).
Proof.
  destruct whale_demo as [s| |] eqn:E; [|vm_compute in E; discriminate..].
  assert (U128_MOD ≤ balance (holder_of (canonical "alice") s) * DECIMAL_ONE) as Hb.
  { vm_compute in E. injection E as <-. vm_compute. discriminate. }
  exists s. split_and!; [done| |].
  - by apply (large_holder_locked (reward_chain 1000) (mkInfo "alice" []) s (canonical "alice") Hb).
  - by apply (large_holder_locked (reward_chain 1000) (mkInfo "token" []) s (canonical "alice") Hb).
Defined.

Lemma claim_pays_accrued_witness : ∃ s resp s',
  reward_demo = Ok s ∧
  execute_claim_rewards (reward_chain 1000) (mkInfo "alice" []) None s = Ok (resp, s') ∧
  ∃ to denom rate cap,
    messages resp = [Bank_Send to [mkCoin denom (333 - tax_of rate cap 333)]].
Proof.
  destruct (s ← reward_demo;
    r ← execute_claim_rewards (reward_chain 1000) (mkInfo "alice" []) None s; Ok (s, r))
    as [[s [resp s']]| |] eqn:E; [|vm_compute in E; discriminate..].
  apply result_bind_Ok in E as (s1 & Es & E).
  apply result_bind_Ok in E as ([resp' s2] & Ep & [= -> -> ->]).
  exists s, resp, s'. split_and!; [done|done|].
  assert (query_accrued_rewards "alice" s = Ok (mkAccruedRewardsResponse 333)) as Hq.
  { vm_compute in Es. injection Es as <-. vm_compute. reflexivity. }
  destruct (claim_pays_accrued _ _ _ _ _ _ _ Ep Hq)
    as (st & st' & a & to & denom & rate & cap & _ & _ & _ & _ & _ & _ & Hm & _).
  by exists to, denom, rate, cap.
Defined.

Lemma index_update_distributes_witness : ∃ s resp s' st inc,
  reward_demo = Ok s ∧
  execute_update_global_index (reward_chain 1900) reward_env (mkInfo "hub" []) s = Ok (resp, s') ∧
  state_cell s = Some st ∧ sum_map (λ _ h, balance h * inc) (holders_map s) ≤ 900 * DECIMAL_ONE.
Proof.
  destruct (s ← reward_demo;
    r ← execute_update_global_index (reward_chain 1900) reward_env (mkInfo "hub" []) s; Ok (s, r))
    as [[s [resp s']]| |] eqn:E; [|vm_compute in E; discriminate..].
  apply result_bind_Ok in E as (s1 & Es & E).
  apply result_bind_Ok in E as ([resp' s2] & Ep & [= -> -> ->]).
  pose proof (reward_demo_reachable s Es) as Hs.
  destruct (index_update_distributes _ _ _ _ _ _ Hs Ep)
    as (st & st' & inc & Hst & Hst' & _ & Hle & _).
  exists s, resp, s', st, inc. split_and!; [done..|].
  clear Hs. vm_compute in Es. injection Es as <-. vm_compute in Ep. injection Ep as _ <-.
  injection Hst as <-. injection Hst' as <-. exact Hle.
Defined.

Lemma balance_changes_keep_accrued_witness : ∃ s resp s' a,
  reward_demo = Ok s ∧
  execute (reward_chain 1000) reward_env (mkInfo "token" []) (DecreaseBalance "alice" 30) s =
    Ok (resp, s') ∧
  balance (holder_of a s') + 30 = balance (holder_of a s).
Proof.
  destruct (s ← reward_demo; r ← execute (reward_chain 1000) reward_env (mkInfo "token" [])
    (DecreaseBalance "alice" 30) s; Ok (s, r)) as [[s [resp s']]| |] eqn:E;
    [|vm_compute in E; discriminate..].
  apply result_bind_Ok in E as (s1 & Es & E).
  apply result_bind_Ok in E as ([resp' s2] & Ep & [= -> -> ->]).
  destruct (balance_changes_keep_accrued _ _ _ _ _ _ _ _ _ (or_intror eq_refl) Ep)
    as (st & st' & a & _ & _ & _ & _ & _ & _ & _ & _ & Hdec).
  exists s, resp, s', a. split_and!; [done|done|]. by apply Hdec.
Defined.

Lemma get_decimals_is_fraction_witness : get_decimals 333250000000000000000 = Ok 250000000000000000.
Proof. exact (get_decimals_is_fraction 333250000000000000000). Defined.

Lemma reward_authorized_witness : ∃ s resp s',
  reward_demo = Ok s ∧
  execute (reward_chain 1000) reward_env (mkInfo "hub" []) SwapToRewardDenom s = Ok (resp, s') ∧
  addr_canonicalize "hub" = Ok (canonical "hub").
Proof.
  destruct (s ← reward_demo; r ← execute (reward_chain 1000) reward_env (mkInfo "hub" [])
    SwapToRewardDenom s; Ok (s, r)) as [[s [resp s']]| |] eqn:E;
    [|vm_compute in E; discriminate..].
  apply result_bind_Ok in E as (s1 & Es & E).
  apply result_bind_Ok in E as ([resp' s2] & Ep & [= -> -> ->]).
  exists s, resp, s'. split_and!; [done|done|].
  assert (config_cell s = Some (mkConfig (canonical "hub") "uusd")) as Hcfg.
  { vm_compute in Es. injection Es as <-. reflexivity. }
  exact (reward_authorized _ _ _ _ _ _ _ _ Hcfg Ep).
Defined.
