(* ===== verification/RewardQueries.v ===== *)
(** * What the reward contract's listing reports

    Following the pages of [query_holders] reads every stored holder once,
    as [query_holder] reports it. *)
From S2P Require Import Prelude CwTypes CwMath BassetReward BassetHub CwApi Paging Reference.
From S2P Require Import RewardState RewardContract RewardSpec.

Open Scope N_scope.

Section queries.
  Context `{CwMathLaws, CwApiLaws, !CwAddrLaws}.
  Implicit Types (s : Storage) (k : list N) (h : Holder).

(** The stored accounts can be shown and entered again. *)
Definition accounts_readable s : Prop :=
  ∀ k, is_Some (holders_map s !! k) → ∃ a, addr_humanize k = Ok a ∧ is_Ok (addr_validate a).

(** ** The keys are canonical addresses *)

Definition keys_are_accounts s : Prop :=
  ∀ k, is_Some (holders_map s !! k) → ∃ a, addr_canonicalize a = Ok k.

Lemma with_holder_accounts s st a k h :
  addr_canonicalize a = Ok k → keys_are_accounts s →
  keys_are_accounts (set_state st (with_holder k h s)).
Proof.
  intros Ha Hs k'. cbn. rewrite lookup_insert_is_Some. intros [<-|[_ Hk]]; [by exists a|by apply Hs].
Qed.

Lemma reward_execute_accounts deps env info msg s resp s' :
  execute deps env info msg s = Ok (resp, s') → keys_are_accounts s → keys_are_accounts s'.
Proof.
  intros E Hs. destruct msg; cbn in E.
  - by apply swap_Ok in E as (-> & _).
  - by apply update_global_index_Ok in E as (st & cfg & bal & _ & _ & _ & _ & _ & _ & -> & _).
  - apply increase_Ok in E as (st & a & tok & _ & Ha & _ & -> & _). by eapply with_holder_accounts.
  - apply decrease_Ok in E as (st & a & _ & Ha & _ & _ & _ & -> & _). by eapply with_holder_accounts.
  - apply claim_Ok in E as (st & a & to & cfg & rate & cap & _ & Ha & _ & _ & _ & _ & _ & _ & -> & _).
    by eapply (with_holder_accounts s _ _ a).
Qed.

Lemma reachable_accounts s : reward_reachable s → keys_are_accounts s.
Proof.
  induction 1 as [msg resp s E|s s' _ IH Hstep].
  - unfold instantiate, store_config, store_state in E. inv_ok. intros k [? [=]].
  - destruct Hstep. by eapply reward_execute_accounts.
Qed.

Lemma accounts_prefix_free s : keys_are_accounts s → prefix_free (holders_map s).
Proof.
  intros Hs. apply same_length_prefix_free. intros k k' [a Ha]%Hs [b Hb]%Hs.
  by eapply addr_canonicalize_length.
Qed.

Lemma accounts_shown s : keys_are_accounts s → accounts_readable s.
Proof. intros Hs k [a Ha]%Hs. by eapply addr_humanize_canonicalize. Qed.

(** ** The pages *)

(** An entry of the list as it is shown. *)
Definition shown (kv : list N * Holder) (r : HolderResponse) : Prop :=
  addr_humanize kv.1 = Ok (hr_address r) ∧
  r = mkHolderResponse (hr_address r) (balance kv.2) (index kv.2) (pending_rewards kv.2).

Lemma holder_responses_shown l rs : Forall2 shown l rs → holder_responses l = Ok rs.
Proof.
  induction 1 as [|[k h] r l rs [Ha Hr] _ IH]; [done|]. cbn in *. rewrite Ha. cbn.
  rewrite IH. cbn. by rewrite Hr at 2.
Qed.

Lemma all_shown s :
  accounts_readable s → ∃ rs, Forall2 shown (range (holders_map s) None) rs.
Proof.
  intros Hread. assert (Forall (λ kv, ∃ a, addr_humanize kv.1 = Ok a) (range (holders_map s) None))
    as Hall.
  { apply Forall_forall. intros [k h] [Hk _]%elem_of_range.
    destruct (Hread k) as (a & Ha & _); [by eexists|]. by exists a. }
  induction Hall as [|[k h] l [a Ha] _ (rs & IH)]; [by exists []|].
  exists (mkHolderResponse a (balance h) (index h) (pending_rewards h) :: rs). by repeat constructor.
Qed.

Lemma holders_first_page s rs limit :
  Forall2 shown (range (holders_map s) None) rs →
  query_holders None limit s = Ok (mkHoldersResponse (take (page_size DEFAULT_LIMIT MAX_LIMIT limit) rs)).
Proof.
  intros Hrs. unfold query_holders, read_holders. cbn. rewrite range_after_None.
  by rewrite (holder_responses_shown _ (take (page_size DEFAULT_LIMIT MAX_LIMIT limit) rs)) by by apply Forall2_take.
Qed.

Lemma holders_next_page s rs limit i r :
  accounts_readable s → prefix_free (holders_map s) →
  Forall2 shown (range (holders_map s) None) rs → rs !! i = Some r →
  query_holders (Some (hr_address r)) limit s =
    Ok (mkHoldersResponse (take (page_size DEFAULT_LIMIT MAX_LIMIT limit) (drop (S i) rs))).
Proof.
  intros Hread Hpf Hrs Hi.
  destruct (Forall2_lookup_r _ _ _ _ _ Hrs Hi) as ([k h] & Hk & Ha & _). cbn in Ha.
  destruct (Hread k) as (a & Ha' & a' & Hval); [eexists; by eapply range_lookup|].
  rewrite Ha in Ha'. injection Ha' as <-.
  unfold query_holders, read_holders, calc_range_start. rewrite Hval. cbn [mbind result_bind].
  assert (addr_canonicalize a' = Ok k) as Hcan.
  { rewrite (addr_validate_canonical _ _ Hval). by apply addr_canonicalize_humanize. }
  unfold mret, result_ret. cbn [mbind result_bind]. rewrite Hcan. cbn [mbind result_bind].
  rewrite (range_after_next _ i k h) by done.
  by rewrite (holder_responses_shown _ (take (page_size DEFAULT_LIMIT MAX_LIMIT limit) (drop (S i) rs)))
    by by apply Forall2_take, Forall2_drop.
Qed.

Lemma shown_holder s k h r :
  holders_map s !! k = Some h → shown (k, h) r →
  addr_canonicalize (hr_address r) = Ok k ∧ query_holder (hr_address r) s = Ok r.
Proof.
  intros Hk [Ha Hr]. apply addr_canonicalize_humanize in Ha. split; [done|].
  unfold query_holder. rewrite Ha. cbn. unfold read_holder. rewrite Hk. cbn.
  by rewrite Hr at 2.
Qed.

(** ** Claims *)

(** C19: the holders are read back in full: in every reachable state, on a
    chain whose canonical addresses have one length and can be shown and
    entered ([CwAddrLaws]), a client that follows the pages, each from the
    last address of the one before, gets every stored account once, and of
    each what the query of that holder reports, whatever the page size, if
    it is not zero. *)
Theorem holders_roundtrip s limit :
  reward_reachable s → limit ≠ Some 0 →
  ∃ rs, follow (λ start, holders <$> query_holders start limit s) hr_address
      (S (size (holders_map s))) None = Ok rs ∧
    (λ r, addr_canonicalize (hr_address r)) <$> rs ≡ₚ Ok <$> (map_to_list (holders_map s)).*1 ∧
    Forall (λ r, query_holder (hr_address r) s = Ok r) rs.
Proof.
  intros Hreach%reachable_accounts Hlim. pose proof (accounts_shown s Hreach) as Hread.
  pose proof (accounts_prefix_free s Hreach) as Hpf. destruct (all_shown s Hread) as (rs & Hrs). exists rs.
  assert (Forall2 (λ kv r, addr_canonicalize (hr_address r) = Ok kv.1 ∧
    query_holder (hr_address r) s = Ok r) (range (holders_map s) None) rs) as Hboth.
  { apply Forall2_same_length_lookup. split; [by eapply Forall2_length|].
    intros i [k h] r Hk Hr. apply (shown_holder s k h); [by eapply range_lookup|].
    by eapply Forall2_lookup_lr. }
  split_and!.
  - apply (follow_all _ _ rs (page_size DEFAULT_LIMIT MAX_LIMIT limit)).
    + by apply page_size_pos.
    + by rewrite (holders_first_page s rs).
    + intros i r Hi. by rewrite (holders_next_page s rs limit i r).
    + rewrite <- (Forall2_length _ _ _ Hrs), range_all, length_map_to_list. lia.
  - rewrite <- range_all. clear Hrs. induction Hboth as [|[k h] r l rs' [Hk _] _ IH]; [done|].
    cbn in *. by rewrite Hk, IH.
  - by eapply Forall2_Forall_r; [exact Hboth|apply Forall_forall; naive_solver].
Qed.
End queries.

(** ** Witnesses *)

Lemma holders_roundtrip_witness : ∃ s rs,
  reward_demo = Ok s ∧
  follow (λ start, holders <$> query_holders start (Some 1) s) hr_address 3 None = Ok rs ∧
  length rs = 2%nat.
Proof.
  destruct reward_demo as [s| |] eqn:E; [|vm_compute in E; discriminate..].
  assert (size (holders_map s) = 2%nat) as Hsize.
  { vm_compute in E. injection E as <-. reflexivity. }
  destruct (holders_roundtrip s (Some 1) (reward_demo_reachable s E)) as (rs & Hf & Hperm & _).
  - done.
  - exists s, rs. split_and!; [done|by rewrite Hsize in Hf|].
    apply Permutation_length in Hperm. rewrite !length_fmap, length_map_to_list in Hperm. congruence.
Defined.
