(* ===== verification/AirdropContract.v ===== *)
(** * The airdrop registry
    (contracts/anchor_airdrop_registry/src/state.rs, contract.rs) *)
From S2P Require Import Prelude CwTypes CwMath BassetHub BassetAirdrop CwApi Reference.

Open Scope N_scope.

(** ** state.rs *)

Record Config := mkConfig {
  owner : CanonicalAddr;
  hub_contract : string;
  reward_contract : string;
  airdrop_tokens : list string
}.

(** [infos_map] is the namespace [airdrop_info], keys: serialised tokens. *)
Record Storage := mkStorage {
  config_cell : option Config;
  infos_map : gmap (list N) AirdropInfo
}.

Definition empty_storage : Storage := mkStorage None ∅.
Definition set_config (c : Config) (s : Storage) : Storage := mkStorage (Some c) (infos_map s).
Definition set_infos (m : gmap (list N) AirdropInfo) (s : Storage) : Storage :=
  mkStorage (config_cell s) m.

Definition CONFIG : Item Storage Config := mkItem config_cell set_config "Config".
Abbreviation AirdropM := (M Storage StdError).

Definition store_config (config : Config) : AirdropM () := save CONFIG config.
Definition read_config (s : Storage) : StdResult Config := load CONFIG s.

Definition MAX_LIMIT : u32 := 30.
Definition DEFAULT_LIMIT : u32 := 10.

Section operations.
  Context `{CwMath, CwApi}.

Definition store_airdrop_info (airdrop_token : string) (airdrop_info : AirdropInfo) : AirdropM () :=
  key ← lift (to_vec airdrop_token);
  modify (λ s, set_infos (<[key := airdrop_info]> (infos_map s)) s).

(** [AIRDROP_INFO.update(storage, &key, |_| Ok(airdrop_info))] *)
Definition update_airdrop_info (airdrop_token : string) (airdrop_info : AirdropInfo) : AirdropM () :=
  key ← lift (to_vec airdrop_token);
  modify (λ s, set_infos (<[key := airdrop_info]> (infos_map s)) s).

Definition remove_airdrop_info (airdrop_token : string) : AirdropM () :=
  key ← lift (to_vec airdrop_token);
  modify (λ s, set_infos (delete key (infos_map s)) s).

Definition read_airdrop_info (airdrop_token : string) (s : Storage) : StdResult AirdropInfo :=
  key ← unwrap (to_vec airdrop_token);
  ok_or (NotFound "AirdropInfo") (infos_map s !! key).

Definition calc_range_start (start_after : option string) : StdResult (option Bytes) :=
  match start_after with
  | Some air => v ← unwrap (to_vec air); mret (Some (v ++ [1]))
  | None => mret None
  end.

Fixpoint info_elems (entries : list (Bytes * AirdropInfo)) : StdResult (list AirdropInfoElem) :=
  match entries with
  | [] => mret []
  | (k, v) :: rest =>
      key ← unwrap (from_slice (A:=string) k);
      elems ← info_elems rest;
      mret (mkAirdropInfoElem key v :: elems)
  end.

Definition read_all_airdrop_infos (start_after : option string) (limit : option u32) (s : Storage) :
    StdResult (list AirdropInfoElem) :=
  let limit := N.to_nat (default DEFAULT_LIMIT limit `min` MAX_LIMIT) in
  start ← calc_range_start start_after;
  info_elems (take limit (range_after (infos_map s) start)).

(** ** contract.rs *)

Definition instantiate (info : MessageInfo) (msg : BassetAirdrop.InstantiateMsg) :
    AirdropM Response :=
  sndr_raw ← lift (addr_canonicalize (sender info));
  store_config (mkConfig sndr_raw (BassetAirdrop.im_hub_contract msg)
    (BassetAirdrop.im_reward_contract msg) []);;
  mret Response_default.

Definition execute_fabricate_mir_claim (stage : u8) (amount : Uint128) (proof : list string) :
    AirdropM Response :=
  config ← reading read_config;
  airdrop_info ← reading (λ s, unwrap (read_airdrop_info "MIR" s));
  claim_msg ← lift (to_binary (MIR_Claim stage amount proof));
  swap_msg ← lift (to_binary (Swap (swap_belief_price airdrop_info) (swap_max_spread airdrop_info)
                                (Some (reward_contract config))));
  msg ← lift (to_binary (ClaimAirdrop (airdrop_token_contract airdrop_info)
                (airdrop_contract airdrop_info) (airdrop_swap_contract airdrop_info)
                claim_msg swap_msg));
  mret (mkResponse [Wasm_Execute (hub_contract config) msg []]
    [attr "action" "fabricate_mir_claim"]).

Definition execute_fabricate_anchor_claim (stage : u8) (amount : Uint128) (proof : list string) :
    AirdropM Response :=
  config ← reading read_config;
  airdrop_info ← reading (read_airdrop_info "ANC");
  claim_msg ← lift (to_binary (ANC_Claim stage amount proof));
  swap_msg ← lift (to_binary (Swap (swap_belief_price airdrop_info) (swap_max_spread airdrop_info)
                                (Some (reward_contract config))));
  msg ← lift (to_binary (ClaimAirdrop (airdrop_token_contract airdrop_info)
                (airdrop_contract airdrop_info) (airdrop_swap_contract airdrop_info)
                claim_msg swap_msg));
  mret (mkResponse [Wasm_Execute (hub_contract config) msg []]
    [attr "action" "fabricate_anc_claim"]).

Definition execute_update_config (info : MessageInfo)
    (owner hub_contract reward_contract : option string) : AirdropM Response :=
  (* only owner can send this message. *)
  config ← reading read_config;
  sender_raw ← lift (addr_canonicalize (sender info));
  lift (throw_if (bool_decide (sender_raw ≠ AirdropContract.owner config))
    (generic_err "unauthorized"));;
  owner_raw ← match owner with
              | Some o => lift (addr_canonicalize o)
              | None => mret (AirdropContract.owner config)
              end;
  store_config (mkConfig owner_raw
    (default (AirdropContract.hub_contract config) hub_contract)
    (default (AirdropContract.reward_contract config) reward_contract)
    (airdrop_tokens config));;
  mret (mkResponse [] [attr "action" "update_config"]).

(** [exists.is_ok()]: whether the token is known; a panic stays one. *)
Definition info_exists (airdrop_token : string) (s : Storage) : StdResult bool :=
  match read_airdrop_info airdrop_token s with
  | Ok _ => mret true
  | Err _ => mret false
  | Panic msg => Panic msg
  end.

Definition execute_add_airdrop (info : MessageInfo) (airdrop_token : string)
    (airdrop_info : AirdropInfo) : AirdropM Response :=
  (* only owner can send this message. *)
  config ← reading read_config;
  sender_raw ← lift (addr_canonicalize (sender info));
  lift (throw_if (bool_decide (sender_raw ≠ owner config)) (generic_err "unauthorized"));;
  exists_ ← reading (info_exists airdrop_token);
  lift (throw_if exists_ (generic_err (String.app "There is a token info with this " airdrop_token)));;
  update CONFIG (λ conf, mret (mkConfig (owner conf) (hub_contract conf) (reward_contract conf)
    (airdrop_tokens conf ++ [airdrop_token])));;
  store_airdrop_info airdrop_token airdrop_info;;
  mret (mkResponse [] [attr "action" "add_airdrop_info"; attr "airdrop_token" airdrop_token]).

Definition execute_update_airdrop (info : MessageInfo) (airdrop_token : string)
    (airdrop_info : AirdropInfo) : AirdropM Response :=
  (* only owner can send this message. *)
  config ← reading read_config;
  sender_raw ← lift (addr_canonicalize (sender info));
  lift (throw_if (bool_decide (sender_raw ≠ owner config)) (generic_err "unauthorized"));;
  exists_ ← reading (info_exists airdrop_token);
  lift (throw_if (negb exists_)
    (generic_err (String.app "There is no token info with this " airdrop_token)));;
  update_airdrop_info airdrop_token airdrop_info;;
  mret (mkResponse [] [attr "action" "update_airdrop_info"; attr "airdrop_token" airdrop_token]).

Definition execute_remove_airdrop (info : MessageInfo) (airdrop_token : string) :
    AirdropM Response :=
  (* only owner can send this message. *)
  config ← reading read_config;
  sender_raw ← lift (addr_canonicalize (sender info));
  lift (throw_if (bool_decide (sender_raw ≠ owner config)) (generic_err "unauthorized"));;
  exists_ ← reading (info_exists airdrop_token);
  lift (throw_if (negb exists_)
    (generic_err (String.app "There is no token info with this " airdrop_token)));;
  update CONFIG (λ conf, mret (mkConfig (owner conf) (hub_contract conf) (reward_contract conf)
    (filter (λ item, item ≠ airdrop_token) (airdrop_tokens conf))));;
  remove_airdrop_info airdrop_token;;
  mret (mkResponse [] [attr "action" "remove_airdrop_info"; attr "airdrop_token" airdrop_token]).

Definition execute (info : MessageInfo) (msg : BassetAirdrop.ExecuteMsg) : AirdropM Response :=
  match msg with
  | FabricateMIRClaim stage amount proof => execute_fabricate_mir_claim stage amount proof
  | FabricateANCClaim stage amount proof => execute_fabricate_anchor_claim stage amount proof
  | BassetAirdrop.UpdateConfig owner hub_contract reward_contract =>
      execute_update_config info owner hub_contract reward_contract
  | AddAirdropInfo airdrop_token airdrop_info => execute_add_airdrop info airdrop_token airdrop_info
  | RemoveAirdropInfo airdrop_token => execute_remove_airdrop info airdrop_token
  | UpdateAirdropInfo airdrop_token airdrop_info =>
      execute_update_airdrop info airdrop_token airdrop_info
  end.

Definition query_config (s : Storage) : StdResult BassetAirdrop.ConfigResponse :=
  config ← read_config s;
  owner_addr ← addr_humanize (owner config);
  mret (BassetAirdrop.mkConfigResponse owner_addr (hub_contract config) (reward_contract config)
    (airdrop_tokens config)).

Definition query_airdrop_infos (airdrop_token start_after : option string) (limit : option u32)
    (s : Storage) : StdResult AirdropInfoResponse :=
  match airdrop_token with
  | Some air_token =>
      info ← unwrap (read_airdrop_info air_token s);
      mret (mkAirdropInfoResponse [mkAirdropInfoElem air_token info])
  | None =>
      infos ← read_all_airdrop_infos start_after limit s;
      mret (mkAirdropInfoResponse infos)
  end.

(** The answer to a query, before it is serialised. *)
Inductive QueryResponse :=
  | Answer_Config (r : BassetAirdrop.ConfigResponse)
  | Answer_AirdropInfo (r : AirdropInfoResponse).

Definition query (msg : BassetAirdrop.QueryMsg) (s : Storage) : StdResult QueryResponse :=
  match msg with
  | BassetAirdrop.QueryMsg_Config => Answer_Config <$> query_config s
  | QueryMsg_AirdropInfo airdrop_token start_after limit =>
      Answer_AirdropInfo <$> query_airdrop_infos airdrop_token start_after limit s
  end.
End operations.
