(* ===== verification/AirdropSpec.v ===== *)
(** * The airdrop registry keeps its two indexes in step

    The list of tokens in the configuration and the map of their contracts
    describe the same tokens, and only the owner changes them. *)
From S2P Require Import Prelude CwTypes CwMath BassetHub BassetAirdrop CwApi Reference.
From S2P Require Import AirdropContract.

Open Scope N_scope.

Ltac inv_airdrop :=
  match goal with
  | H : read_config _ = Ok _ |- _ => unfold read_config in H
  | H : store_config _ _ = Ok _ |- _ => unfold store_config in H
  | H : store_airdrop_info _ _ _ = Ok _ |- _ => unfold store_airdrop_info in H
  | H : update_airdrop_info _ _ _ = Ok _ |- _ => unfold update_airdrop_info in H
  | H : remove_airdrop_info _ _ = Ok _ |- _ => unfold remove_airdrop_info in H
  end.
Ltac inv_ok_hook ::= first [inv_cw_types | inv_cw_math | inv_cw_api | inv_airdrop].

Section spec.
  Context `{CwMathLaws, CwApiLaws}.
  Implicit Types (s : Storage) (t : string).

Definition registered t s : Prop := is_Some (infos_map s !! ser t).

Lemma info_exists_eq t s : info_exists t s = Ok (bool_decide (registered t s)).
Proof.
  unfold info_exists, read_airdrop_info, registered. rewrite to_vec_ser. cbn.
  destruct (infos_map s !! ser t); [by rewrite bool_decide_eq_true_2|].
  by rewrite bool_decide_eq_false_2 by (intros [? [=]]).
Qed.

(** The list and the map describe the same tokens, each once. *)
Definition in_sync s : Prop :=
  ∃ cfg, config_cell s = Some cfg ∧ NoDup (airdrop_tokens cfg) ∧
    ∀ t, t ∈ airdrop_tokens cfg ↔ registered t s.

(** ** Effects *)

(** What a message of the owner does to the tokens and the map. *)
Definition registry_effect (msg : BassetAirdrop.ExecuteMsg) (cfg cfg' : Config) s s' : Prop :=
  match msg with
  | FabricateMIRClaim _ _ _ | FabricateANCClaim _ _ _ => s' = s
  | BassetAirdrop.UpdateConfig _ _ _ =>
      airdrop_tokens cfg' = airdrop_tokens cfg ∧ infos_map s' = infos_map s
  | AddAirdropInfo t i => ¬ registered t s ∧
      airdrop_tokens cfg' = airdrop_tokens cfg ++ [t] ∧ infos_map s' = <[ser t := i]> (infos_map s)
  | UpdateAirdropInfo t i => registered t s ∧
      airdrop_tokens cfg' = airdrop_tokens cfg ∧ infos_map s' = <[ser t := i]> (infos_map s)
  | RemoveAirdropInfo t => registered t s ∧
      airdrop_tokens cfg' = filter (λ x, x ≠ t) (airdrop_tokens cfg) ∧
      infos_map s' = delete (ser t) (infos_map s)
  end.

Definition owner_msg (msg : BassetAirdrop.ExecuteMsg) : bool :=
  match msg with FabricateMIRClaim _ _ _ | FabricateANCClaim _ _ _ => false | _ => true end.

Ltac finish_guards :=
  repeat match goal with
  | H : bool_decide (_ ≠ _) = false |- _ => apply bool_decide_neq_false in H
  | H : info_exists _ _ = Ok _ |- _ => rewrite info_exists_eq in H; injection H as H; try subst
  | H : bool_decide (registered _ _) = false |- _ => apply bool_decide_eq_false in H
  | H : negb (bool_decide (registered _ _)) = false |- _ =>
      apply negb_false_iff, bool_decide_eq_true_1 in H
  end; subst.

Lemma airdrop_execute_Ok info msg s resp s' :
  execute info msg s = Ok (resp, s') →
  ∃ cfg cfg', config_cell s = Some cfg ∧ config_cell s' = Some cfg' ∧
    registry_effect msg cfg cfg' s s' ∧
    (owner_msg msg = true → addr_canonicalize (sender info) = Ok (owner cfg)).
Proof.
  destruct msg; cbn; intros E.
  - unfold execute_fabricate_mir_claim in E. inv_ok. eexists _, _. split_and!; done.
  - unfold execute_fabricate_anchor_claim in E. inv_ok. eexists _, _. split_and!; done.
  - unfold execute_update_config in E.
    destruct owner; inv_ok; finish_guards; eexists _, _; split_and!; done.
  - unfold execute_add_airdrop in E. inv_ok. finish_guards. simplify_eq.
    eexists _, _. split_and!; done.
  - unfold execute_remove_airdrop in E. inv_ok. finish_guards. simplify_eq.
    eexists _, _. split_and!; done.
  - unfold execute_update_airdrop in E. inv_ok. finish_guards. eexists _, _. split_and!; done.
Qed.

Lemma registered_insert t t' i s s' :
  infos_map s' = <[ser t := i]> (infos_map s) → registered t' s' ↔ t' = t ∨ registered t' s.
Proof.
  intros E. unfold registered. rewrite E, lookup_insert. case_decide as Hd.
  - apply (inj ser) in Hd as ->. split; [by left|by eexists].
  - assert (t' ≠ t) by congruence. tauto.
Qed.

Lemma registered_delete t t' s s' :
  infos_map s' = delete (ser t) (infos_map s) → registered t' s' ↔ t' ≠ t ∧ registered t' s.
Proof.
  intros E. unfold registered. rewrite E, lookup_delete. case_decide as Hd.
  - apply (inj ser) in Hd as ->. split; [by intros [? [=]]|by intros [? _]].
  - assert (t' ≠ t) by congruence. tauto.
Qed.

Lemma registry_effect_sync msg cfg cfg' s s' :
  config_cell s = Some cfg → config_cell s' = Some cfg' →
  registry_effect msg cfg cfg' s s' → in_sync s → in_sync s'.
Proof.
  intros Hcfg Hcfg' Heff Hs. destruct Hs as (cfg0 & Hcfg0 & Hnd & Hin).
  assert (cfg0 = cfg) as -> by congruence. clear Hcfg0.
  destruct msg; cbn in Heff; try (subst; exists cfg; done); exists cfg'; split; try done.
  - destruct Heff as [-> Hm]. split; [done|]. intros t. unfold registered. by rewrite Hm.
  - destruct Heff as (Hnew & -> & Hm). split.
    + apply NoDup_app. split_and!; [done| |apply NoDup_singleton].
      intros t Ht. rewrite Hin in Ht. intros ->%list_elem_of_singleton. done.
    + intros t. rewrite (registered_insert _ _ _ _ _ Hm), <- Hin. set_solver.
  - destruct Heff as (Hold & -> & Hm). split; [by apply NoDup_filter|].
    intros t. rewrite (registered_delete _ _ _ _ Hm), <- Hin, list_elem_of_filter. done.
  - destruct Heff as (Hold & -> & Hm). split; [done|].
    intros t. rewrite (registered_insert _ _ _ _ _ Hm), Hin. naive_solver.
Qed.

(** ** Executions *)

Inductive airdrop_reachable : Storage → Prop :=
  | airdrop_init info msg resp s :
      instantiate info msg empty_storage = Ok (resp, s) → airdrop_reachable s
  | airdrop_step info msg s resp s' :
      airdrop_reachable s → execute info msg s = Ok (resp, s') → airdrop_reachable s'.

(** The only messages of the registry are the claims it fabricates. *)
Lemma registry_messages info msg s resp s' cfg :
  config_cell s = Some cfg → execute info msg s = Ok (resp, s') →
  messages resp = [] ∨
  ∃ t i claim_msg swap_msg, infos_map s !! ser t = Some i ∧
    messages resp = [Wasm_Execute (hub_contract cfg)
      (ser (ClaimAirdrop (airdrop_token_contract i) (airdrop_contract i)
         (airdrop_swap_contract i) claim_msg swap_msg)) []].
Proof.
  intros Hcfg E. destruct msg; cbn in E.
  - unfold execute_fabricate_mir_claim, read_airdrop_info in E. inv_ok. simplify_eq.
    right. eexists "MIR", _, _, _. split; [eassumption|done].
  - unfold execute_fabricate_anchor_claim, read_airdrop_info in E. inv_ok. simplify_eq.
    right. eexists "ANC", _, _, _. split; [eassumption|done].
  - left. unfold execute_update_config in E. destruct owner; by inv_ok.
  - left. unfold execute_add_airdrop in E. by inv_ok.
  - left. unfold execute_remove_airdrop in E. by inv_ok.
  - left. unfold execute_update_airdrop in E. by inv_ok.
Qed.

(** Messages that neither reconnect the registry nor register the contract
    [bad] keep it so. *)
Lemma registry_kept info msg s resp s' bad hub :
  execute info msg s = Ok (resp, s') →
  match msg with
  | BassetAirdrop.UpdateConfig _ h _ => h = None ∨ h = Some hub
  | AddAirdropInfo _ i | UpdateAirdropInfo _ i => airdrop_contract i ≠ bad
  | _ => True
  end →
  (∃ cfg, config_cell s = Some cfg ∧ hub_contract cfg = hub) →
  (∀ k i, infos_map s !! k = Some i → airdrop_contract i ≠ bad) →
  (∃ cfg, config_cell s' = Some cfg ∧ hub_contract cfg = hub) ∧
  (∀ k i, infos_map s' !! k = Some i → airdrop_contract i ≠ bad).
Proof.
  intros E Hmsg (cfg & Hcfg & Hhub) Hinfos. split.
  - destruct msg; cbn in E; unfold execute_fabricate_mir_claim, execute_fabricate_anchor_claim,
      execute_update_config, execute_add_airdrop, execute_remove_airdrop, execute_update_airdrop in E;
      try (destruct owner); inv_ok; simplify_eq; cbn; eauto;
      eexists; (split; [reflexivity|]); by destruct Hmsg; subst.
  - apply airdrop_execute_Ok in E as (cfg0 & cfg' & _ & _ & Heff & _).
    destruct msg; cbn in Heff; try (by subst); intros k i Hi.
    + destruct Heff as [_ Hm]. rewrite Hm in Hi. by eapply Hinfos.
    + destruct Heff as (_ & _ & Hm). rewrite Hm, lookup_insert in Hi. case_decide; [by simplify_eq|].
      by eapply Hinfos.
    + destruct Heff as (_ & _ & Hm). rewrite Hm, lookup_delete in Hi. case_decide; [done|].
      by eapply Hinfos.
    + destruct Heff as (_ & _ & Hm). rewrite Hm, lookup_insert in Hi. case_decide; [by simplify_eq|].
      by eapply Hinfos.
Qed.

Lemma airdrop_in_sync s : airdrop_reachable s → in_sync s.
Proof.
  induction 1 as [info msg resp s E|info msg s resp s' _ IH E].
  - unfold instantiate in E. inv_ok. eexists. split_and!; [done|constructor|].
    intros t. unfold registered. cbn. rewrite lookup_empty.
    split; [by intros ?%not_elem_of_nil|by intros [? [=]]].
  - apply airdrop_execute_Ok in E as (cfg & cfg' & Hc & Hc' & Heff & _).
    by apply (registry_effect_sync msg cfg cfg' s s').
Qed.

(** ** Claims *)

(** C35: in every reachable state the list of airdrop tokens has no duplicates
    and names exactly the tokens whose contracts are registered. *)
Theorem registry_in_sync s : airdrop_reachable s → in_sync s.
Proof. apply airdrop_in_sync. Qed.

(** C36: only the owner changes the registry: a message from anyone else either
    fails or, for the two claims that anybody may trigger, changes nothing
    and sends the hub one message, the claim of the registered airdrop with
    the proceeds of the swap going to the reward contract. *)
Theorem registry_owner_only info msg s resp s' cfg :
  config_cell s = Some cfg → addr_canonicalize (sender info) ≠ Ok (owner cfg) →
  execute info msg s = Ok (resp, s') →
  s' = s ∧ ∃ t i claim_msg, (t = "MIR" ∨ t = "ANC") ∧ infos_map s !! ser t = Some i ∧
    messages resp =
      [Wasm_Execute (hub_contract cfg)
         (ser (ClaimAirdrop (airdrop_token_contract i) (airdrop_contract i)
            (airdrop_swap_contract i) claim_msg
            (ser (Swap (swap_belief_price i) (swap_max_spread i) (Some (reward_contract cfg)))))) []].
Proof.
  intros Hcfg Hown E. pose proof E as (cfg0 & cfg' & Hc & _ & Heff & Hauth)%airdrop_execute_Ok.
  assert (cfg0 = cfg) as -> by congruence.
  destruct msg; try (by specialize (Hauth eq_refl)); cbn in Heff; subst; split; try done; cbn in E.
  - unfold execute_fabricate_mir_claim, read_airdrop_info in E. inv_ok. cbn in *. simplify_eq.
    eexists "MIR", _, _. split_and!; [by left|done|done].
  - unfold execute_fabricate_anchor_claim, read_airdrop_info in E. inv_ok. cbn in *. simplify_eq.
    eexists "ANC", _, _. split_and!; [by right|done|done].
Qed.
End spec.

(** ** Witnesses *)

Definition demo_mir : AirdropInfo := mkAirdropInfo "mir-token" "mir-airdrop" "mir-pair" None None.

Definition airdrop_demo : StdResult Storage :=
  '(_, s) ← instantiate (mkInfo "owner" []) (mkInstantiateMsg "hub" "reward") empty_storage;
  '(_, s) ← execute (mkInfo "owner" []) (AddAirdropInfo "MIR" demo_mir) s;
  Ok s.

Lemma airdrop_demo_reachable s : airdrop_demo = Ok s → airdrop_reachable s.
Proof.
  unfold airdrop_demo. intros E. apply result_bind_Ok in E as ([r0 s0] & E0 & E).
  apply result_bind_Ok in E as ([r1 s1] & E1 & [= <-]).
  eapply airdrop_step; [|exact E1]. exact (airdrop_init _ _ _ _ E0).
Qed.

Lemma registry_in_sync_witness : ∃ s, airdrop_demo = Ok s ∧ in_sync s.
Proof.
  destruct airdrop_demo as [s| |] eqn:E; [|vm_compute in E; discriminate..].
  exists s. split; [done|]. exact (registry_in_sync s (airdrop_demo_reachable s E)).
Defined.

Lemma registry_owner_only_witness : ∃ s resp s',
  airdrop_demo = Ok s ∧
  execute (mkInfo "anyone" []) (FabricateMIRClaim 1 100 ["proof"]) s = Ok (resp, s') ∧ s' = s.
Proof.
  destruct (s ← airdrop_demo; r ← execute (mkInfo "anyone" []) (FabricateMIRClaim 1 100 ["proof"]) s;
    Ok (s, r)) as [[s [resp s']]| |] eqn:E; [|vm_compute in E; discriminate..].
  apply result_bind_Ok in E as (s1 & Es & E).
  apply result_bind_Ok in E as ([resp' s2] & Ep & [= -> -> ->]).
  exists s, resp, s'. split_and!; [done|done|].
  assert (config_cell s = Some (mkConfig (canonical "owner") "hub" "reward" ["MIR"])) as Hcfg.
  { vm_compute in Es. injection Es as <-. reflexivity. }
  refine (proj1 (registry_owner_only _ _ _ _ _ _ Hcfg _ Ep)). discriminate.
Defined.
