(* ===== verification/AirdropQueries.v ===== *)
(** * What the registry's listing reports

    Following the pages of [query_airdrop_infos] reads every registered
    airdrop once, as the query of its token reports it. *)
From S2P Require Import Prelude CwTypes CwMath BassetHub BassetAirdrop CwApi Paging Reference.
From S2P Require Import AirdropContract AirdropSpec.

Open Scope N_scope.

Section queries.
  Context `{CwMathLaws, CwApiLaws}.
  Implicit Types (s : Storage) (t : string).

(** ** The keys are serialised tokens *)

Definition keys_are_tokens s : Prop :=
  ∀ k, is_Some (infos_map s !! k) → ∃ t, k = ser t.

Lemma registry_effect_keys msg cfg cfg' s s' :
  registry_effect msg cfg cfg' s s' → keys_are_tokens s → keys_are_tokens s'.
Proof.
  intros Heff Hs k. destruct msg; cbn in Heff.
  - subst. apply Hs.
  - subst. apply Hs.
  - destruct Heff as [_ ->]. apply Hs.
  - destruct Heff as (_ & _ & ->). rewrite lookup_insert_is_Some.
    intros [<-|[_ Hk]]; [by eexists|by apply Hs].
  - destruct Heff as (_ & _ & ->). rewrite lookup_delete_is_Some. intros [_ Hk]. by apply Hs.
  - destruct Heff as (_ & _ & ->). rewrite lookup_insert_is_Some.
    intros [<-|[_ Hk]]; [by eexists|by apply Hs].
Qed.

Lemma reachable_keys s : airdrop_reachable s → keys_are_tokens s.
Proof.
  induction 1 as [info msg resp s E|info msg s resp s' _ IH E].
  - unfold instantiate in E. inv_ok. intros k [? [=]].
  - apply airdrop_execute_Ok in E as (cfg & cfg' & _ & _ & Heff & _).
    by eapply registry_effect_keys.
Qed.

(** No key extends another one, as the text of a string ends at its quote. *)
Lemma tokens_prefix_free s : keys_are_tokens s → prefix_free (infos_map s).
Proof.
  intros Hs k k' Hk Hk'. destruct (Hs _ Hk) as [t ->], (Hs _ Hk') as [t' ->].
  by intros ->%ser_string_prefix.
Qed.

(** ** The pages *)

Definition listed (kv : list N * AirdropInfo) (e : AirdropInfoElem) : Prop :=
  kv = (ser (aie_airdrop_token e), aie_info e).

Lemma info_elems_listed l es : Forall2 listed l es → info_elems l = Ok es.
Proof.
  induction 1 as [|kv [t i] l es -> _ IH]; [done|]. cbn. by rewrite from_slice_ser, IH.
Qed.

Lemma all_listed s : keys_are_tokens s → ∃ es, Forall2 listed (range (infos_map s) None) es.
Proof.
  intros Hkeys.
  assert (Forall (λ kv, ∃ t, kv.1 = ser t) (range (infos_map s) None)) as Hall.
  { apply Forall_forall. intros [k i] [Hk _]%elem_of_range. apply Hkeys. by eexists. }
  induction Hall as [|[k i] l [t Ht] _ (es & IH)]; [by exists []|]. cbn in Ht. subst.
  exists (mkAirdropInfoElem t i :: es). by constructor.
Qed.

Lemma infos_first_page s es limit :
  Forall2 listed (range (infos_map s) None) es →
  query_airdrop_infos None None limit s = Ok (mkAirdropInfoResponse (take (page_size DEFAULT_LIMIT MAX_LIMIT limit) es)).
Proof.
  intros Hes. unfold query_airdrop_infos, read_all_airdrop_infos. cbn. rewrite range_after_None.
  by rewrite (info_elems_listed _ (take (page_size DEFAULT_LIMIT MAX_LIMIT limit) es)) by by apply Forall2_take.
Qed.

Lemma infos_next_page s es limit i e :
  prefix_free (infos_map s) → Forall2 listed (range (infos_map s) None) es → es !! i = Some e →
  query_airdrop_infos None (Some (aie_airdrop_token e)) limit s =
    Ok (mkAirdropInfoResponse (take (page_size DEFAULT_LIMIT MAX_LIMIT limit) (drop (S i) es))).
Proof.
  intros Hpf Hes Hi. destruct (Forall2_lookup_r _ _ _ _ _ Hes Hi) as (kv & Hk & ->).
  unfold query_airdrop_infos, read_all_airdrop_infos, calc_range_start.
  rewrite to_vec_ser. cbn [unwrap mbind result_bind mret result_ret].
  unfold mret, result_ret. cbn [mbind result_bind]. rewrite (range_after_next _ i _ _ _ Hpf Hk).
  by rewrite (info_elems_listed _ (take (page_size DEFAULT_LIMIT MAX_LIMIT limit) (drop (S i) es)))
    by by apply Forall2_take, Forall2_drop.
Qed.

Lemma listed_info s e :
  infos_map s !! ser (aie_airdrop_token e) = Some (aie_info e) →
  query_airdrop_infos (Some (aie_airdrop_token e)) None None s = Ok (mkAirdropInfoResponse [e]).
Proof.
  intros Hk. unfold query_airdrop_infos, read_airdrop_info. rewrite to_vec_ser. cbn.
  rewrite Hk. cbn. by destruct e.
Qed.

Lemma listed_tokens s es cfg :
  airdrop_reachable s → config_cell s = Some cfg →
  Forall2 listed (range (infos_map s) None) es →
  aie_airdrop_token <$> es ≡ₚ airdrop_tokens cfg.
Proof.
  intros Hs Hcfg Hes. destruct (airdrop_in_sync s Hs) as (cfg' & Hcfg' & Hnd & Hin).
  assert (cfg' = cfg) as -> by congruence.
  assert ((range (infos_map s) None).*1 = ser <$> (aie_airdrop_token <$> es)) as Hk.
  { clear -Hes. induction Hes as [|kv e l es -> _ IH]; [done|]. cbn. by rewrite IH. }
  apply list.NoDup_Permutation; [|done|].
  - apply (NoDup_fmap_1 ser). rewrite <- Hk. apply range_NoDup.
  - intros t. rewrite Hin. unfold registered. split.
    + intros Ht. assert (ser t ∈ (range (infos_map s) None).*1) as Hr.
      { rewrite Hk. by apply list_elem_of_fmap_2. }
      apply list_elem_of_fmap in Hr as ([k i] & -> & [Hi _]%elem_of_range). by eexists.
    + intros [i Hi]. apply (list_elem_of_fmap_inj ser). rewrite <- Hk.
      apply list_elem_of_fmap. exists (ser t, i). by rewrite elem_of_range.
Qed.

(** ** Claims *)

(** C20: the registry is read back in full: in every reachable state a client
    that follows the pages, each from the last token of the one before, gets
    exactly the tokens the configuration names, each once, and of each the
    airdrop that the query of the token reports, whatever the page size, if
    it is not zero.  (The cursor is the serialised token and one byte more;
    it skips no entry, because no serialised token continues to another.) *)
Theorem registry_roundtrip s cfg limit :
  airdrop_reachable s → config_cell s = Some cfg → limit ≠ Some 0 →
  ∃ es, follow (λ start, airdrop_info <$> query_airdrop_infos None start limit s) aie_airdrop_token
      (S (length (airdrop_tokens cfg))) None = Ok es ∧
    aie_airdrop_token <$> es ≡ₚ airdrop_tokens cfg ∧
    Forall (λ e, query_airdrop_infos (Some (aie_airdrop_token e)) None None s =
      Ok (mkAirdropInfoResponse [e])) es.
Proof.
  intros Hs Hcfg Hlim. pose proof (reachable_keys s Hs) as Hkeys.
  pose proof (tokens_prefix_free s Hkeys) as Hpf. destruct (all_listed s Hkeys) as (es & Hes). exists es.
  pose proof (listed_tokens s es cfg Hs Hcfg Hes) as Htok. split_and!; [|done|].
  - apply (follow_all _ _ es (page_size DEFAULT_LIMIT MAX_LIMIT limit)).
    + by apply page_size_pos.
    + by rewrite (infos_first_page s es).
    + intros i e Hi. by rewrite (infos_next_page s es limit i e).
    + rewrite <- Htok, length_fmap. lia.
  - apply Forall_forall. intros e [i Hi]%list_elem_of_lookup. apply listed_info.
    destruct (Forall2_lookup_r _ _ _ _ _ Hes Hi) as (kv & Hk & ->). by eapply range_lookup.
Qed.
End queries.

(** ** Witnesses *)

Definition demo_anc : AirdropInfo := mkAirdropInfo "anc-token" "anc-airdrop" "anc-pair" None None.

(** A registry with two airdrops. *)
Definition airdrop_demo_two : StdResult Storage :=
  s ← airdrop_demo;
  '(_, s) ← execute (mkInfo "owner" []) (AddAirdropInfo "ANC" demo_anc) s;
  Ok s.

Lemma airdrop_demo_two_reachable s : airdrop_demo_two = Ok s → airdrop_reachable s.
Proof.
  unfold airdrop_demo_two. intros E. apply result_bind_Ok in E as (s0 & E0 & E).
  apply result_bind_Ok in E as ([r1 s1] & E1 & [= <-]).
  eapply airdrop_step; [|exact E1]. by apply airdrop_demo_reachable.
Qed.

Lemma registry_roundtrip_witness : ∃ s es,
  airdrop_demo_two = Ok s ∧
  follow (λ start, airdrop_info <$> query_airdrop_infos None start (Some 1) s) aie_airdrop_token
    3 None = Ok es ∧ aie_airdrop_token <$> es ≡ₚ ["MIR"; "ANC"].
Proof.
  destruct airdrop_demo_two as [s| |] eqn:E; [|vm_compute in E; discriminate..].
  destruct (config_cell s) as [cfg|] eqn:Hcfg.
  2: { exfalso. vm_compute in E. injection E as <-. discriminate. }
  assert (airdrop_tokens cfg = ["MIR"; "ANC"]) as Htok.
  { vm_compute in E. injection E as <-. by injection Hcfg as <-. }
  destruct (registry_roundtrip s cfg (Some 1) (airdrop_demo_two_reachable s E) Hcfg)
    as (es & Hf & Hperm & _); [done|].
  exists s, es. rewrite Htok in Hf, Hperm. done.
Defined.
