(* ===== verification/TokenContract.v ===== *)
(** * The bAsset token (contracts/anchor_basset_token/src)

    The token wraps the CW20 implementation of the package [cw20_legacy]:
    each handler that moves tokens calls it and tells the reward contract of
    the balances that changed.  That package is the parameter [Cw20Legacy],
    and [Cw20Laws] states what its operations do to the balances. *)
From S2P Require Import Prelude CwTypes CwMath BassetHub BassetReward CwApi Reference.

Open Scope N_scope.

(** ** Messages of [cw20_legacy] and of msg.rs *)

Inductive Expiration :=
  | AtHeight (height : u64)
  | AtTime (time : u64)
  | Never.

Inductive ExecuteMsg :=
  | Transfer (recipient : string) (amount : Uint128)
  | Burn (amount : Uint128)
  | Send (contract : string) (amount : Uint128) (msg : Binary)
  | Mint (recipient : string) (amount : Uint128)
  | IncreaseAllowance (spender : string) (amount : Uint128) (expires : option Expiration)
  | DecreaseAllowance (spender : string) (amount : Uint128) (expires : option Expiration)
  | TransferFrom (owner recipient : string) (amount : Uint128)
  | BurnFrom (owner : string) (amount : Uint128)
  | SendFrom (owner contract : string) (amount : Uint128) (msg : Binary).

Record MinterResponse := mkMinter { minter : string; cap : option Uint128 }.

Record InstantiateMsg := mkInstantiateMsg {
  im_name : string;
  im_symbol : string;
  im_decimals : u8;
  im_initial_balances : list (string * Uint128);
  im_mint : option MinterResponse
}.

Record TokenInitMsg := mkTokenInitMsg {
  tim_name : string;
  tim_symbol : string;
  tim_decimals : u8;
  tim_initial_balances : list (string * Uint128);
  tim_mint : option MinterResponse;
  tim_hub_contract : string
}.

(** ** [cw20_legacy] *)

(** The storage of [cw20_legacy] is of type [C]. *)
Class Cw20Legacy (C : Type) := {
  ContractError : Type;
  ContractError_from : StdError → ContractError;
  Cw20QueryMsg : Type;
  cw20_init : Env → MessageInfo → InstantiateMsg → M C StdError Response;
  cw20_transfer : Env → MessageInfo → string → Uint128 → M C ContractError Response;
  cw20_burn : Env → MessageInfo → Uint128 → M C ContractError Response;
  cw20_mint : Env → MessageInfo → string → Uint128 → M C ContractError Response;
  cw20_send : Env → MessageInfo → string → Uint128 → Binary → M C ContractError Response;
  cw20_increase_allowance :
    Env → MessageInfo → string → Uint128 → option Expiration → M C ContractError Response;
  cw20_decrease_allowance :
    Env → MessageInfo → string → Uint128 → option Expiration → M C ContractError Response;
  cw20_transfer_from : Env → MessageInfo → string → string → Uint128 → M C ContractError Response;
  cw20_burn_from : Env → MessageInfo → string → Uint128 → M C ContractError Response;
  cw20_send_from :
    Env → MessageInfo → string → string → Uint128 → Binary → M C ContractError Response;
  cw20_query : Env → Cw20QueryMsg → C → StdResult Binary
}.

(** The token's storage: the hub's address beside the CW20 state. *)
Record Storage (C : Type) := mkStorage {
  hub_cell : option CanonicalAddr;
  cw20_cell : C
}.
Arguments mkStorage {C} _ _.
Arguments hub_cell {C} _.
Arguments cw20_cell {C} _.

Section operations.
  Context `{CwApi, Cw20Legacy C}.

Abbreviation TokenM := (M (Storage C) ContractError).

Definition set_hub (a : CanonicalAddr) (s : Storage C) : Storage C := mkStorage (Some a) (cw20_cell s).
Definition set_cw20 (c : C) (s : Storage C) : Storage C := mkStorage (hub_cell s) c.

(** An operation of [cw20_legacy] on the storage of the token. *)
Definition on_cw20 {E A} (m : M C E A) : M (Storage C) E A := λ s,
  match m (cw20_cell s) with
  | Ok (a, c) => Ok (a, set_cw20 c s)
  | Err e => Err e
  | Panic msg => Panic msg
  end.

(** The conversion of errors that [?] makes. *)
Definition from_std {A} (r : StdResult A) : result ContractError A :=
  match r with
  | Ok a => Ok a
  | Err e => Err (ContractError_from e)
  | Panic msg => Panic msg
  end.

(** ** state.rs *)

Definition HUB_CONTRACT_KEY : Item (Storage C) CanonicalAddr :=
  mkItem hub_cell set_hub "CanonicalAddr".
Definition read_hub_contract (s : Storage C) : StdResult CanonicalAddr := load HUB_CONTRACT_KEY s.
Definition store_hub_contract (hub : CanonicalAddr) : M (Storage C) StdError () :=
  save HUB_CONTRACT_KEY hub.

(** ** querier.rs *)

Definition query_reward_contract (deps : Querier) (s : Storage C) : StdResult Addr :=
  hub ← unwrap (read_hub_contract s);
  hub_address ← unwrap (addr_humanize hub);
  config ← query_raw_hub_config deps hub_address;
  reward ← expect_opt "the reward contract must have been registered"
             (BassetHub.reward_contract config);
  unwrap (addr_humanize reward).

(** ** handler.rs *)

(** A message that tells the reward contract of a change. *)
Definition reward_msg (reward_contract : Addr) (op : BassetReward.ExecuteMsg) :
    result ContractError CosmosMsg :=
  msg ← from_std (unwrap (to_binary op));
  mret (Wasm_Execute reward_contract msg []).

Definition execute_transfer (deps : Querier) (env : Env) (info : MessageInfo) (recipient : string)
    (amount : Uint128) : TokenM Response :=
  let sender := sender info in
  reward_contract ← reading (λ s, from_std (query_reward_contract deps s));
  rcpt_addr ← lift (from_std (addr_validate recipient));
  res ← on_cw20 (cw20_transfer env info recipient amount);
  m1 ← lift (reward_msg reward_contract (DecreaseBalance sender amount));
  m2 ← lift (reward_msg reward_contract (IncreaseBalance rcpt_addr amount));
  mret (mkResponse [m1; m2] (attributes res)).

Definition execute_burn (deps : Querier) (env : Env) (info : MessageInfo) (amount : Uint128) :
    TokenM Response :=
  let sender := sender info in
  reward_contract ← reading (λ s, from_std (query_reward_contract deps s));
  res ← on_cw20 (cw20_burn env info amount);
  m1 ← lift (reward_msg reward_contract (DecreaseBalance sender amount));
  mret (mkResponse [m1] (attributes res)).

Definition execute_mint (deps : Querier) (env : Env) (info : MessageInfo) (recipient : string)
    (amount : Uint128) : TokenM Response :=
  reward_contract ← reading (λ s, from_std (query_reward_contract deps s));
  res ← on_cw20 (cw20_mint env info recipient amount);
  m1 ← lift (reward_msg reward_contract (IncreaseBalance recipient amount));
  mret (mkResponse [m1] (attributes res)).

Definition execute_send (deps : Querier) (env : Env) (info : MessageInfo) (contract : string)
    (amount : Uint128) (msg : Binary) : TokenM Response :=
  let sender := sender info in
  reward_contract ← reading (λ s, from_std (query_reward_contract deps s));
  res ← on_cw20 (cw20_send env info contract amount msg);
  m1 ← lift (reward_msg reward_contract (DecreaseBalance sender amount));
  m2 ← lift (reward_msg reward_contract (IncreaseBalance contract amount));
  mret (mkResponse ([m1; m2] ++ messages res) (attributes res)).

Definition execute_transfer_from (deps : Querier) (env : Env) (info : MessageInfo)
    (owner recipient : string) (amount : Uint128) : TokenM Response :=
  reward_contract ← reading (λ s, from_std (query_reward_contract deps s));
  valid_owner ← lift (from_std (addr_validate owner));
  res ← on_cw20 (cw20_transfer_from env info owner recipient amount);
  m1 ← lift (reward_msg reward_contract (DecreaseBalance valid_owner amount));
  m2 ← lift (reward_msg reward_contract (IncreaseBalance recipient amount));
  mret (mkResponse [m1; m2] (attributes res)).

Definition execute_burn_from (deps : Querier) (env : Env) (info : MessageInfo) (owner : string)
    (amount : Uint128) : TokenM Response :=
  reward_contract ← reading (λ s, from_std (query_reward_contract deps s));
  valid_owner ← lift (from_std (addr_validate owner));
  res ← on_cw20 (cw20_burn_from env info owner amount);
  m1 ← lift (reward_msg reward_contract (DecreaseBalance valid_owner amount));
  mret (mkResponse [m1] (attributes res)).

Definition execute_send_from (deps : Querier) (env : Env) (info : MessageInfo)
    (owner contract : string) (amount : Uint128) (msg : Binary) : TokenM Response :=
  reward_contract ← reading (λ s, from_std (query_reward_contract deps s));
  valid_owner ← lift (from_std (addr_validate owner));
  res ← on_cw20 (cw20_send_from env info owner contract amount msg);
  m1 ← lift (reward_msg reward_contract (DecreaseBalance valid_owner amount));
  m2 ← lift (reward_msg reward_contract (IncreaseBalance contract amount));
  mret (mkResponse ([m1; m2] ++ messages res) (attributes res)).

(** ** contract.rs *)

Definition instantiate (env : Env) (info : MessageInfo) (msg : TokenInitMsg) :
    M (Storage C) StdError Response :=
  hub ← lift (addr_canonicalize (tim_hub_contract msg));
  store_hub_contract hub;;
  on_cw20 (cw20_init env info (mkInstantiateMsg (tim_name msg) (tim_symbol msg) (tim_decimals msg)
    (tim_initial_balances msg) (Some (mkMinter (tim_hub_contract msg) None))));;
  mret Response_default.

Definition execute (deps : Querier) (env : Env) (info : MessageInfo) (msg : ExecuteMsg) :
    TokenM Response :=
  match msg with
  | Transfer recipient amount => execute_transfer deps env info recipient amount
  | Burn amount => execute_burn deps env info amount
  | Send contract amount msg => execute_send deps env info contract amount msg
  | Mint recipient amount => execute_mint deps env info recipient amount
  | IncreaseAllowance spender amount expires =>
      on_cw20 (cw20_increase_allowance env info spender amount expires)
  | DecreaseAllowance spender amount expires =>
      on_cw20 (cw20_decrease_allowance env info spender amount expires)
  | TransferFrom owner recipient amount =>
      execute_transfer_from deps env info owner recipient amount
  | BurnFrom owner amount => execute_burn_from deps env info owner amount
  | SendFrom owner contract amount msg => execute_send_from deps env info owner contract amount msg
  end.

Definition query (env : Env) (msg : Cw20QueryMsg) (s : Storage C) : StdResult Binary :=
  cw20_query env msg (cw20_cell s).
End operations.
