(* ===== verification/TokenSpec.v ===== *)
(** * The token and the reward contract agree on balances

    Every message of the token that changes balances tells the reward
    contract exactly which balances changed, and a reward contract that
    executes these messages has the balances of the token.  What a token
    starts with is not reported. *)
From S2P Require Import Prelude CwTypes CwMath BassetHub BassetReward CwApi Reference.
From S2P Require Import RewardState RewardContract RewardSpec.
From S2P Require Import TokenContract.

Open Scope N_scope.

(** ** Balances *)

Abbreviation Balances := (CanonicalAddr → N) (only parsing).

Definition upd (a : CanonicalAddr) (n : N) (b : Balances) : Balances :=
  λ x, if decide (x = a) then n else b x.

#[export] Instance upd_Proper a n : Proper (pointwise_relation _ (=) ==> pointwise_relation _ (=)) (upd a n).
Proof. intros b b' E x. unfold upd. by case_decide. Qed.

(** [n] tokens arrive at [a], or leave it. *)
Definition credited (a : CanonicalAddr) (n : N) (b b' : Balances) : Prop :=
  ∀ x, b' x = upd a (b a + n) b x.
Definition debited (a : CanonicalAddr) (n : N) (b b' : Balances) : Prop :=
  n ≤ b a ∧ ∀ x, b' x = upd a (b a - n) b x.
Definition moved (from to : CanonicalAddr) (n : N) (b b' : Balances) : Prop :=
  ∃ b1, debited from n b b1 ∧ credited to n b1 b'.

(** The balances after those of a list were written, one after the other. *)
Fixpoint initialised `{CwApi} (l : list (string * Uint128)) (b b' : Balances) : Prop :=
  match l with
  | [] => ∀ x, b' x = b x
  | (u, n) :: l => ∃ c, addr_canonicalize u = Ok c ∧ initialised l (upd c n b) b'
  end.

(** What the operations of [cw20_legacy] do to the balances, as the CW20
    specification describes them: they are kept by canonical address, and a
    token starts from an empty storage with its initial balances. *)
Class Cw20Laws C `{CwApi, Cw20Legacy C} := {
  cw20_balance : C → Balances;
  cw20_empty : C;
  cw20_init_spec env info msg r c' :
    cw20_init env info msg cw20_empty = Ok (r, c') →
    initialised (im_initial_balances msg) (λ _, 0) (cw20_balance c');
  cw20_transfer_spec env info to n c r c' :
    cw20_transfer env info to n c = Ok (r, c') →
    ∃ f t, addr_canonicalize (sender info) = Ok f ∧ addr_canonicalize to = Ok t ∧
      moved f t n (cw20_balance c) (cw20_balance c');
  cw20_burn_spec env info n c r c' :
    cw20_burn env info n c = Ok (r, c') →
    ∃ f, addr_canonicalize (sender info) = Ok f ∧ debited f n (cw20_balance c) (cw20_balance c');
  cw20_mint_spec env info to n c r c' :
    cw20_mint env info to n c = Ok (r, c') →
    ∃ t, addr_canonicalize to = Ok t ∧ credited t n (cw20_balance c) (cw20_balance c');
  cw20_send_spec env info to n m c r c' :
    cw20_send env info to n m c = Ok (r, c') →
    ∃ f t, addr_canonicalize (sender info) = Ok f ∧ addr_canonicalize to = Ok t ∧
      moved f t n (cw20_balance c) (cw20_balance c');
  cw20_transfer_from_spec env info o to n c r c' :
    cw20_transfer_from env info o to n c = Ok (r, c') →
    ∃ f t, addr_canonicalize o = Ok f ∧ addr_canonicalize to = Ok t ∧
      moved f t n (cw20_balance c) (cw20_balance c');
  cw20_burn_from_spec env info o n c r c' :
    cw20_burn_from env info o n c = Ok (r, c') →
    ∃ f, addr_canonicalize o = Ok f ∧ debited f n (cw20_balance c) (cw20_balance c');
  cw20_send_from_spec env info o to n m c r c' :
    cw20_send_from env info o to n m c = Ok (r, c') →
    ∃ f t, addr_canonicalize o = Ok f ∧ addr_canonicalize to = Ok t ∧
      moved f t n (cw20_balance c) (cw20_balance c');
  cw20_increase_allowance_spec env info sp n e c r c' :
    cw20_increase_allowance env info sp n e c = Ok (r, c') →
    messages r = [] ∧ ∀ x, cw20_balance c' x = cw20_balance c x;
  cw20_decrease_allowance_spec env info sp n e c r c' :
    cw20_decrease_allowance env info sp n e c = Ok (r, c') →
    messages r = [] ∧ ∀ x, cw20_balance c' x = cw20_balance c x
}.

(** What they do to the total supply, who may mint, and the hook that a send
    delivers to the receiving contract. *)
Class Cw20SupplyLaws C `{Cw20Laws C} := {
  cw20_supply : C → N;
  cw20_minter : C → option Addr;
  cw20_init_supply env info msg r c' :
    cw20_init env info msg cw20_empty = Ok (r, c') →
    cw20_supply c' = sumN snd (im_initial_balances msg) ∧
    ∀ m c, im_mint msg = Some m → addr_humanize c = Ok (minter m) →
      cw20_minter c' = Some (minter m);
  cw20_transfer_supply env info to n c r c' :
    cw20_transfer env info to n c = Ok (r, c') →
    cw20_supply c' = cw20_supply c ∧ cw20_minter c' = cw20_minter c;
  cw20_burn_supply env info n c r c' :
    cw20_burn env info n c = Ok (r, c') →
    cw20_supply c' + n = cw20_supply c ∧ cw20_minter c' = cw20_minter c;
  cw20_mint_supply env info to n c r c' :
    cw20_mint env info to n c = Ok (r, c') →
    cw20_minter c = Some (sender info) ∧
    cw20_supply c' = cw20_supply c + n ∧ cw20_minter c' = cw20_minter c;
  cw20_send_supply env info to n m c r c' :
    cw20_send env info to n m c = Ok (r, c') →
    messages r = [Wasm_Execute to (ser (Receive (mkCw20Receive (sender info) n m))) []] ∧
    cw20_supply c' = cw20_supply c ∧ cw20_minter c' = cw20_minter c;
  cw20_transfer_from_supply env info o to n c r c' :
    cw20_transfer_from env info o to n c = Ok (r, c') →
    cw20_supply c' = cw20_supply c ∧ cw20_minter c' = cw20_minter c;
  cw20_burn_from_supply env info o n c r c' :
    cw20_burn_from env info o n c = Ok (r, c') →
    cw20_supply c' + n = cw20_supply c ∧ cw20_minter c' = cw20_minter c;
  cw20_send_from_supply env info o to n m c r c' :
    cw20_send_from env info o to n m c = Ok (r, c') →
    messages r = [Wasm_Execute to (ser (Receive (mkCw20Receive (sender info) n m))) []] ∧
    cw20_supply c' = cw20_supply c ∧ cw20_minter c' = cw20_minter c;
  cw20_increase_allowance_supply env info sp n e c r c' :
    cw20_increase_allowance env info sp n e c = Ok (r, c') →
    cw20_supply c' = cw20_supply c ∧ cw20_minter c' = cw20_minter c;
  cw20_decrease_allowance_supply env info sp n e c r c' :
    cw20_decrease_allowance env info sp n e c = Ok (r, c') →
    cw20_supply c' = cw20_supply c ∧ cw20_minter c' = cw20_minter c
}.

Lemma initialised_ext `{CwApi} l b1 b2 b' :
  (∀ x, b1 x = b2 x) → initialised l b1 b' → initialised l b2 b'.
Proof.
  revert b1 b2. induction l as [|[u n] l IH]; intros b1 b2 E; cbn.
  - intros Hb x. by rewrite Hb.
  - intros (c & Hc & Hi). exists c. split; [done|]. eapply IH; [|exact Hi]. by apply upd_Proper.
Qed.

(** ** What the reward contract is told *)

(** The balances after a list of reports, each of which must be possible. *)
Fixpoint reported `{CwApi} (ops : list BassetReward.ExecuteMsg) (b b' : Balances) : Prop :=
  match ops with
  | [] => ∀ x, b' x = b x
  | IncreaseBalance a n :: ops =>
      ∃ c, addr_canonicalize a = Ok c ∧ reported ops (upd c (b c + n) b) b'
  | DecreaseBalance a n :: ops =>
      ∃ c, addr_canonicalize a = Ok c ∧ n ≤ b c ∧ reported ops (upd c (b c - n) b) b'
  | _ => False
  end.

(** What the reports add to the total, and what they take off it. *)
Definition incs (ops : list BassetReward.ExecuteMsg) : N :=
  sumN (λ op, match op with IncreaseBalance _ n => n | _ => 0 end) ops.
Definition decs (ops : list BassetReward.ExecuteMsg) : N :=
  sumN (λ op, match op with DecreaseBalance _ n => n | _ => 0 end) ops.

(** The hook of a send. *)
Definition is_hook `{CwApi} (m : CosmosMsg) : Prop :=
  ∃ contract r, m = Wasm_Execute contract (ser (Receive r)) [].

Section mirror.
  Context `{CwMathLaws} `{HA : CwApi, !CwApiLaws}.
  Context `{HC : Cw20Legacy C, !Cw20Laws C, !Cw20SupplyLaws C}.

(** The balances of the token. *)
Definition token_balance (s : Storage C) : Balances := cw20_balance (cw20_cell s).

Definition token_supply (s : Storage C) : N := cw20_supply (cw20_cell s).

(** The messages that carry the reports [ops] to the reward contract. *)
Definition report_msgs (reward : Addr) (ops : list BassetReward.ExecuteMsg) : list CosmosMsg :=
  (λ op, Wasm_Execute reward (ser op) []) <$> ops.

Lemma on_cw20_Ok {E A} (m : M C E A) s a s' :
  on_cw20 m s = Ok (a, s') → ∃ c, m (cw20_cell s) = Ok (a, c) ∧ s' = set_cw20 c s.
Proof. unfold on_cw20. destruct (m (cw20_cell s)) as [[]| |]; intros; inv_ok; eauto. Qed.

Lemma from_std_Ok {A} (r : StdResult A) (a : A) : from_std r = Ok a → r = Ok a.
Proof. destruct r; cbn; congruence. Qed.

Lemma reward_msg_Ok reward op m :
  reward_msg reward op = Ok m → m = Wasm_Execute reward (ser op) [].
Proof.
  unfold reward_msg. intros E. apply result_bind_Ok in E as (x & E & [= <-]).
  apply from_std_Ok in E. by inv_ok.
Qed.

Lemma reported_moved from to f t n b b' :
  addr_canonicalize from = Ok f → addr_canonicalize to = Ok t → moved f t n b b' →
  reported [DecreaseBalance from n; IncreaseBalance to n] b b'.
Proof.
  intros Hf Ht (b1 & [Hle Hb1] & Hb'). exists f. split_and!; [done..|]. exists t. split; [done|].
  intros x. rewrite Hb'. unfold upd at 1. unfold upd at 1. by rewrite !Hb1.
Qed.

Lemma reported_debited from f n b b' :
  addr_canonicalize from = Ok f → debited f n b b' → reported [DecreaseBalance from n] b b'.
Proof. intros Hf [Hle Hb']. by exists f. Qed.

Lemma reported_credited to t n b b' :
  addr_canonicalize to = Ok t → credited t n b b' → reported [IncreaseBalance to n] b b'.
Proof. intros Ht Hb'. by exists t. Qed.

Ltac inv_token :=
  match goal with
  | H : on_cw20 _ _ = Ok _ |- _ => apply on_cw20_Ok in H; destruct H as (? & ? & ?); subst
  | H : from_std _ = Ok _ |- _ => apply from_std_Ok in H
  | H : reward_msg _ _ = Ok _ |- _ => apply reward_msg_Ok in H; subst
  end.
Ltac inv_ok_hook ::= first [inv_cw_types | inv_cw_math | inv_cw_api | inv_token].

Lemma validated_canonical a a' c :
  addr_validate a = Ok a' → addr_canonicalize a = Ok c → addr_canonicalize a' = Ok c.
Proof. intros Hv Hc. by rewrite (addr_validate_canonical _ _ Hv). Qed.

(** What one message does: the reports it sends, which add up to the change
    of the supply, and the hooks that follow them. *)
Definition mirror_effect (deps : Querier) (s : Storage C) (resp : Response) (s' : Storage C) : Prop :=
  hub_cell s' = hub_cell s ∧ ∃ ops rest, reported ops (token_balance s) (token_balance s') ∧
    token_supply s' + decs ops = token_supply s + incs ops ∧ Forall is_hook rest ∧
    (ops = [] ∧ messages resp = [] ∨
     ∃ reward, query_reward_contract deps s = Ok reward ∧
       messages resp = report_msgs reward ops ++ rest).

(** The three shapes of a response with reports, and the silent one. *)
Lemma mirror_moved deps s c from to f t n reward rest attrs :
  query_reward_contract deps s = Ok reward → Forall is_hook rest →
  addr_canonicalize from = Ok f → addr_canonicalize to = Ok t →
  moved f t n (token_balance s) (cw20_balance c) → cw20_supply c = token_supply s →
  mirror_effect deps s
    (mkResponse (report_msgs reward [DecreaseBalance from n; IncreaseBalance to n] ++ rest) attrs)
    (set_cw20 c s).
Proof.
  intros Hq Hr Hf Ht Hm Hs. split; [done|]. eexists _, rest.
  split; [exact (reported_moved _ _ _ _ _ _ _ Hf Ht Hm)|].
  split_and!; [|done|right; by exists reward]. unfold token_supply in *. cbn. lia.
Qed.

Lemma mirror_debited deps s c from f n reward attrs :
  query_reward_contract deps s = Ok reward → addr_canonicalize from = Ok f →
  debited f n (token_balance s) (cw20_balance c) → cw20_supply c + n = token_supply s →
  mirror_effect deps s (mkResponse (report_msgs reward [DecreaseBalance from n]) attrs)
    (set_cw20 c s).
Proof.
  intros Hq Hf Hm Hs. split; [done|]. eexists _, [].
  split; [exact (reported_debited _ _ _ _ _ Hf Hm)|].
  split_and!; [|done|right; by exists reward]. unfold token_supply in *. cbn. lia.
Qed.

Lemma mirror_credited deps s c to t n reward attrs :
  query_reward_contract deps s = Ok reward → addr_canonicalize to = Ok t →
  credited t n (token_balance s) (cw20_balance c) → cw20_supply c = token_supply s + n →
  mirror_effect deps s (mkResponse (report_msgs reward [IncreaseBalance to n]) attrs)
    (set_cw20 c s).
Proof.
  intros Hq Ht Hm Hs. split; [done|]. eexists _, [].
  split; [exact (reported_credited _ _ _ _ _ Ht Hm)|].
  split_and!; [|done|right; by exists reward]. unfold token_supply in *. cbn. lia.
Qed.

Lemma mirror_silent deps s c resp :
  messages resp = [] → (∀ x, cw20_balance c x = token_balance s x) →
  cw20_supply c = token_supply s →
  mirror_effect deps s resp (set_cw20 c s).
Proof.
  intros Hm Hb Hs. split; [done|]. exists [], []. split; [exact Hb|].
  split_and!; [|constructor|by left]. unfold token_supply in *. cbn. lia.
Qed.

Lemma is_hooks msgs to r :
  msgs = [Wasm_Execute to (ser (Receive r)) []] → Forall is_hook msgs.
Proof. intros ->. repeat constructor. by eexists _, _. Qed.

(** Replaces a successful CW20 operation by what it does to the balances and
    to the supply. *)
Ltac inv_cw20 :=
  match goal with
  | H : cw20_transfer _ _ _ _ _ = Ok _ |- _ => pose proof (cw20_transfer_supply _ _ _ _ _ _ _ H); apply cw20_transfer_spec in H
  | H : cw20_burn _ _ _ _ = Ok _ |- _ => pose proof (cw20_burn_supply _ _ _ _ _ _ H); apply cw20_burn_spec in H
  | H : cw20_send _ _ _ _ _ _ = Ok _ |- _ => pose proof (cw20_send_supply _ _ _ _ _ _ _ _ H); apply cw20_send_spec in H
  | H : cw20_mint _ _ _ _ _ = Ok _ |- _ => pose proof (cw20_mint_supply _ _ _ _ _ _ _ H); apply cw20_mint_spec in H
  | H : cw20_transfer_from _ _ _ _ _ _ = Ok _ |- _ =>
      pose proof (cw20_transfer_from_supply _ _ _ _ _ _ _ _ H); apply cw20_transfer_from_spec in H
  | H : cw20_burn_from _ _ _ _ _ = Ok _ |- _ => pose proof (cw20_burn_from_supply _ _ _ _ _ _ _ H); apply cw20_burn_from_spec in H
  | H : cw20_send_from _ _ _ _ _ _ _ = Ok _ |- _ =>
      pose proof (cw20_send_from_supply _ _ _ _ _ _ _ _ _ H); apply cw20_send_from_spec in H
  | H : cw20_increase_allowance _ _ _ _ _ _ = Ok _ |- _ =>
      pose proof (cw20_increase_allowance_supply _ _ _ _ _ _ _ _ H); apply cw20_increase_allowance_spec in H
  | H : cw20_decrease_allowance _ _ _ _ _ _ = Ok _ |- _ =>
      pose proof (cw20_decrease_allowance_supply _ _ _ _ _ _ _ _ H); apply cw20_decrease_allowance_spec in H
  end;
  repeat match goal with
  | H : ∃ _, _ |- _ => destruct H
  | H : _ ∧ _ |- _ => destruct H
  end.

Lemma token_execute_Ok deps env info msg s resp s' :
  execute deps env info msg s = Ok (resp, s') → mirror_effect deps s resp s'.
Proof.
  destruct msg; cbn; intros E; unfold execute_transfer, execute_burn, execute_send, execute_mint,
    execute_transfer_from, execute_burn_from, execute_send_from in E; inv_ok; inv_cw20.
  - eapply (mirror_moved _ _ _ _ _ _ _ _ _ []); eauto using validated_canonical.
  - eapply mirror_debited; eauto.
  - eapply mirror_moved; eauto using is_hooks.
  - eapply mirror_credited; eauto.
  - by apply mirror_silent.
  - by apply mirror_silent.
  - eapply (mirror_moved _ _ _ _ _ _ _ _ _ []); eauto using validated_canonical.
  - eapply mirror_debited; eauto using validated_canonical.
  - eapply mirror_moved; eauto using validated_canonical, is_hooks.
Qed.

(** Only the minter enlarges the supply, and it stays the minter. *)
Lemma token_minter deps env info msg s resp s' :
  execute deps env info msg s = Ok (resp, s') →
  cw20_minter (cw20_cell s') = cw20_minter (cw20_cell s) ∧
  match msg with
  | Mint _ n => cw20_minter (cw20_cell s) = Some (sender info) ∧ token_supply s' = token_supply s + n
  | Burn n => token_supply s' + n = token_supply s
  | _ => token_supply s' ≤ token_supply s
  end.
Proof.
  unfold token_supply. destruct msg; cbn; intros E; unfold execute_transfer, execute_burn,
    execute_send, execute_mint, execute_transfer_from, execute_burn_from, execute_send_from in E;
    inv_ok; inv_cw20; cbn; split_and!; try done; lia.
Qed.

(** ** The reward contract executes the reports *)

Definition reward_balance (rs : RewardState.Storage) : Balances := λ a, balance (holder_of a rs).

(** The reports are executed in order, each sent by the token. *)
Fixpoint run_reports (deps : Querier) (env : Env) (info : MessageInfo)
    (ops : list BassetReward.ExecuteMsg) (rs : RewardState.Storage) :
    StdResult RewardState.Storage :=
  match ops with
  | [] => mret rs
  | op :: ops =>
      '(_, rs) ← RewardContract.execute deps env info op rs;
      run_reports deps env info ops rs
  end.

Lemma holder_of_with a b h st rs :
  holder_of b (RewardState.set_state st (with_holder a h rs)) =
  if decide (b = a) then h else holder_of b rs.
Proof. unfold holder_of. cbn. rewrite lookup_insert. repeat case_decide; subst; done. Qed.

Lemma reported_ext ops b1 b2 b' :
  (∀ x, b1 x = b2 x) → reported ops b1 b' → reported ops b2 b'.
Proof.
  revert b1 b2. induction ops as [|op ops IH]; intros b1 b2 E; cbn.
  - intros Hb x. by rewrite Hb.
  - destruct op; try done.
    + intros (c & Hc & Hr). exists c. split; [done|]. rewrite <- E. eapply IH; [|exact Hr].
      by apply upd_Proper.
    + intros (c & Hc & Hle & Hr). exists c. rewrite <- E. split_and!; [done..|].
      eapply IH; [|exact Hr]. by apply upd_Proper.
Qed.

Lemma run_reports_balance deps env info ops rs rs' b' :
  reported ops (reward_balance rs) b' → run_reports deps env info ops rs = Ok rs' →
  ∀ x, reward_balance rs' x = b' x.
Proof.
  revert rs. induction ops as [|op ops IH]; intros rs; cbn.
  - intros Hb E x. inv_ok. by rewrite Hb.
  - intros Hrep E. apply result_bind_Ok in E as ([resp rs1] & E1 & E).
    eapply IH; [|exact E]. destruct op; try done; cbn in E1.
    + destruct Hrep as (c & Hc & Hrep).
      apply increase_Ok in E1 as (st & a & tok & _ & Ha & _ & -> & _).
      assert (a = c) as -> by congruence. eapply reported_ext; [|exact Hrep].
      intros x. unfold reward_balance, upd. rewrite holder_of_with. by case_decide.
    + destruct Hrep as (c & Hc & _ & Hrep).
      apply decrease_Ok in E1 as (st & a & _ & Ha & _ & _ & _ & -> & _).
      assert (a = c) as -> by congruence. eapply reported_ext; [|exact Hrep].
      intros x. unfold reward_balance, upd. rewrite holder_of_with. by case_decide.
Qed.

(** ** Claims *)

(** Every message of the token that changes balances tells the reward
    contract so: its response begins with reports that lead exactly from the
    old balances of all accounts to the new ones and add up to the change of
    the supply, only the hook of a send comes after them, and an allowance
    changes no balance and sends nothing. *)
Theorem token_reports_balances deps env info msg s resp s' :
  execute deps env info msg s = Ok (resp, s') → mirror_effect deps s resp s'.
Proof. apply token_execute_Ok. Qed.

(** The two contracts stay in agreement: when the reward contract has the
    token's balances for all accounts and executes the reports of a message
    of the token, it has the token's new balances. *)
Theorem rewards_mirror_token deps env info msg s resp s' rs :
  (∀ a, token_balance s a = reward_balance rs a) →
  execute deps env info msg s = Ok (resp, s') →
  ∃ ops rest, (ops = [] ∧ messages resp = [] ∨
     ∃ reward, query_reward_contract deps s = Ok reward ∧
       messages resp = report_msgs reward ops ++ rest) ∧
    ∀ rdeps renv rinfo rs', run_reports rdeps renv rinfo ops rs = Ok rs' →
      ∀ a, token_balance s' a = reward_balance rs' a.
Proof.
  intros Heq (_ & ops & rest & Hrep & _ & _ & Hmsgs)%token_execute_Ok.
  exists ops, rest. split; [done|]. intros rdeps renv rinfo rs' Hrun a. symmetry.
  eapply run_reports_balance; [|exact Hrun]. by eapply reported_ext.
Qed.

(** ** Instantiation *)

Lemma token_instantiate_Ok env info msg resp s :
  instantiate env info msg (mkStorage None cw20_empty) = Ok (resp, s) →
  messages resp = [] ∧ (∃ c, addr_canonicalize (tim_hub_contract msg) = Ok c ∧ hub_cell s = Some c) ∧
  initialised (tim_initial_balances msg) (λ _, 0) (token_balance s) ∧
  token_supply s = sumN snd (tim_initial_balances msg) ∧
  ∀ c, addr_humanize c = Ok (tim_hub_contract msg) →
    cw20_minter (cw20_cell s) = Some (tim_hub_contract msg).
Proof.
  unfold instantiate, store_hub_contract. intros E. inv_ok.
  match goal with Hi : cw20_init _ _ _ _ = Ok _ |- _ => cbn in Hi;
    destruct (cw20_init_supply _ _ _ _ _ Hi) as [Hs Hm]; apply cw20_init_spec in Hi end.
  split_and!; [done|by eexists|done|done|]. intros c Hc. by apply (Hm _ c eq_refl).
Qed.

(** A list whose entries for account [a] all hold [n] leaves [n] there. *)
Lemma initialised_balance l b b' a n :
  initialised l b b' → (∀ u' n', (u', n') ∈ l → addr_canonicalize u' = Ok a → n' = n) →
  (b a = n ∨ ∃ u n', (u, n') ∈ l ∧ addr_canonicalize u = Ok a) → b' a = n.
Proof.
  revert b. induction l as [|[u k] l IH]; intros b; cbn.
  - intros Hb _ [<-|(? & ? & ?%not_elem_of_nil & _)]; [apply Hb|done].
  - intros (c & Hc & Hi) Hall Hex. eapply IH; [exact Hi|set_solver|]. unfold upd. case_decide; subst.
    + left. eapply Hall; [left|done].
    + destruct Hex as [?|(u' & n' & [[= -> ->]|?]%elem_of_cons & Hu)]; [by left|congruence|].
      right. eauto.
Qed.

Lemma reward_instantiate_Ok msg resp rs :
  RewardContract.instantiate msg RewardState.empty_storage = Ok (resp, rs) →
  (∃ c, addr_canonicalize (im_hub_contract msg) = Ok c ∧
     RewardState.config_cell rs = Some (RewardState.mkConfig c (BassetReward.im_reward_denom msg))) ∧
  RewardState.state_cell rs = Some (RewardState.mkState 0 0 0) ∧ ∀ a, reward_balance rs a = 0.
Proof.
  unfold RewardContract.instantiate, RewardState.store_config, RewardState.store_state.
  intros E. inv_ok. split_and!; [by eexists|done|]. intros a. done.
Qed.

(** A message by which its sender gives away [n] tokens. *)
Inductive gives (n : N) : TokenContract.ExecuteMsg → Prop :=
  | gives_transfer u : gives n (Transfer u n)
  | gives_burn : gives n (Burn n)
  | gives_send u b : gives n (Send u n b).

Lemma gives_first_report n deps env info msg s resp s' :
  gives n msg → execute deps env info msg s = Ok (resp, s') →
  ∃ reward rest, messages resp = Wasm_Execute reward (ser (DecreaseBalance (sender info) n)) [] :: rest.
Proof.
  intros [u| |u b]; cbn; unfold execute_transfer, execute_burn, execute_send; intros E; inv_ok; cbn; eauto.
Qed.

End mirror.

(** ** A CW20 that satisfies the laws *)

Definition ref_balance (m : gmap (list N) N) : Balances := λ a, default 0 (m !! a).

Definition ref_credit (a : list N) (n : N) (m : gmap (list N) N) : gmap (list N) N :=
  <[a := ref_balance m a + n]> m.

Definition ref_debit (a : list N) (n : N) (m : gmap (list N) N) : StdResult (gmap (list N) N) :=
  if decide (n ≤ ref_balance m a) then Ok (<[a := ref_balance m a - n]> m)
  else Err (Overflow (ref_balance m a) n).

(** A transfer, with the messages of its response. *)
Definition ref_move (msgs : list CosmosMsg) (from to : string) (n : N) (m : gmap (list N) N) :
    StdResult (Response * gmap (list N) N) :=
  f ← addr_canonicalize from;
  t ← addr_canonicalize to;
  m1 ← ref_debit f n m;
  Ok (mkResponse msgs [], ref_credit t n m1).

Definition ref_hook (info : MessageInfo) (to : string) (n : N) (b : Binary) : list CosmosMsg :=
  [Wasm_Execute to (ser (Receive (mkCw20Receive (sender info) n b))) []].

Definition ref_take (from : string) (n : N) (m : gmap (list N) N) :
    StdResult (Response * gmap (list N) N) :=
  f ← addr_canonicalize from;
  m1 ← ref_debit f n m;
  Ok (Response_default, m1).

(** The initial balances, each account once. *)
Fixpoint ref_init (l : list (string * Uint128)) (m : gmap (list N) N) : StdResult (gmap (list N) N) :=
  match l with
  | [] => Ok m
  | (u, n) :: l =>
      c ← addr_canonicalize u;
      match m !! c with
      | Some _ => Err (generic_err "Duplicate initial balance addresses")
      | None => ref_init l (<[c := n]> m)
      end
  end.

(** Only the hub mints. *)
Definition ref_mint (from to : string) (n : N) (m : gmap (list N) N) :
    StdResult (Response * gmap (list N) N) :=
  t ← addr_canonicalize to;
  if decide (from = "hub") then Ok (Response_default, ref_credit t n m)
  else Err (generic_err "Unauthorized").

#[export] Instance ref_cw20 : Cw20Legacy (gmap (list N) N) := {|
  ContractError := StdError;
  ContractError_from e := e;
  Cw20QueryMsg := ();
  cw20_init _ _ msg m :=
    if decide (minter <$> im_mint msg = Some "hub") then
      m' ← ref_init (im_initial_balances msg) m; Ok (Response_default, m')
    else Err (generic_err "Invalid minter");
  cw20_transfer _ info to n m := ref_move [] (sender info) to n m;
  cw20_burn _ info n m := ref_take (sender info) n m;
  cw20_mint _ info to n m := ref_mint (sender info) to n m;
  cw20_send _ info to n b m := ref_move (ref_hook info to n b) (sender info) to n m;
  cw20_increase_allowance _ _ _ _ _ m := Ok (Response_default, m);
  cw20_decrease_allowance _ _ _ _ _ m := Ok (Response_default, m);
  cw20_transfer_from _ _ o to n m := ref_move [] o to n m;
  cw20_burn_from _ _ o n m := ref_take o n m;
  cw20_send_from _ info o to n b m := ref_move (ref_hook info to n b) o to n m;
  cw20_query _ _ _ := Ok []
|}.

Lemma ref_init_spec l m m' : ref_init l m = Ok m' → initialised l (ref_balance m) (ref_balance m').
Proof.
  revert m. induction l as [|[u n] l IH]; intros m; [by intros [= <-]|]. cbn [ref_init].
  intros (c & Hc & E)%result_bind_Ok. destruct (m !! c); [done|]. exists c. split; [done|].
  apply IH in E. eapply initialised_ext; [|exact E].
  intros x. unfold upd, ref_balance. rewrite lookup_insert. repeat case_decide; by subst || congruence.
Qed.

Lemma ref_credit_spec a n m : credited a n (ref_balance m) (ref_balance (ref_credit a n m)).
Proof.
  intros x. unfold ref_credit, upd, ref_balance at 1. rewrite lookup_insert.
  repeat case_decide; subst; done.
Qed.

Lemma ref_debit_spec a n m m' :
  ref_debit a n m = Ok m' → debited a n (ref_balance m) (ref_balance m').
Proof.
  unfold ref_debit. case_decide; [|done]. intros [= <-]. split; [done|].
  intros x. unfold upd, ref_balance at 1. rewrite lookup_insert.
  repeat case_decide; subst; done.
Qed.

Lemma ref_move_spec msgs from to n m r m' :
  ref_move msgs from to n m = Ok (r, m') →
  ∃ f t, addr_canonicalize from = Ok f ∧ addr_canonicalize to = Ok t ∧
    moved f t n (ref_balance m) (ref_balance m').
Proof.
  unfold ref_move. intros E. apply result_bind_Ok in E as (f & Hf & E).
  apply result_bind_Ok in E as (t & Ht & E). apply result_bind_Ok in E as (m1 & Hm & [= <- <-]).
  exists f, t. split_and!; [done..|]. exists (ref_balance m1).
  split; [by apply ref_debit_spec|apply ref_credit_spec].
Qed.

Lemma ref_take_spec from n m r m' :
  ref_take from n m = Ok (r, m') →
  ∃ f, addr_canonicalize from = Ok f ∧ debited f n (ref_balance m) (ref_balance m').
Proof.
  unfold ref_take. intros E. apply result_bind_Ok in E as (f & Hf & E).
  apply result_bind_Ok in E as (m1 & Hm & [= <- <-]). exists f. split; [done|].
  by apply ref_debit_spec.
Qed.

#[export] Instance ref_cw20_laws : Cw20Laws (gmap (list N) N).
Proof.
  refine {| cw20_balance := ref_balance; cw20_empty := ∅ |}.
  - intros env info msg r c'. cbn. case_decide; [|done]. intros (m & Hm & [= _ <-])%result_bind_Ok.
    by apply ref_init_spec in Hm.
  - intros env info to n c r c'. apply ref_move_spec.
  - intros env info n c r c'. apply ref_take_spec.
  - intros env info to n c r c' E. apply result_bind_Ok in E as (t & Ht & E).
    case_decide; [|done]. injection E as <- <-. exists t. split; [done|]. apply ref_credit_spec.
  - intros env info to n m c r c'. apply ref_move_spec.
  - intros env info o to n c r c'. apply ref_move_spec.
  - intros env info o n c r c'. apply ref_take_spec.
  - intros env info o to n m c r c'. apply ref_move_spec.
  - intros env info sp n e c r c' [= <- <-]. done.
  - intros env info sp n e c r c' [= <- <-]. done.
Defined.

(** The supply is the sum of the balances. *)
Definition ref_supply (m : gmap (list N) N) : N := sum_map (λ _ n, n) m.

Lemma ref_insert_supply a n m : ref_supply (<[a := n]> m) + ref_balance m a = ref_supply m + n.
Proof.
  unfold ref_supply, ref_balance. rewrite <- (sum_map_insert (λ _ n, n) m a n).
  by destruct (m !! a).
Qed.

Lemma ref_init_supply l m m' : ref_init l m = Ok m' → ref_supply m' = ref_supply m + sumN snd l.
Proof.
  revert m. induction l as [|[u n] l IH]; intros m; [cbn; intros [= <-]; lia|].
  rewrite sumN_cons. cbn [ref_init snd]. intros (c & _ & E)%result_bind_Ok.
  destruct (m !! c) eqn:Hm; [done|]. apply IH in E. pose proof (ref_insert_supply c n m) as Hs.
  unfold ref_balance in Hs. rewrite Hm in Hs. cbn in Hs. lia.
Qed.

Lemma ref_credit_supply a n m : ref_supply (ref_credit a n m) = ref_supply m + n.
Proof. pose proof (ref_insert_supply a (ref_balance m a + n) m). unfold ref_credit. lia. Qed.

Lemma ref_debit_supply a n m m' : ref_debit a n m = Ok m' → ref_supply m' + n = ref_supply m.
Proof.
  unfold ref_debit. case_decide; [|done]. intros [= <-].
  pose proof (ref_insert_supply a (ref_balance m a - n) m). lia.
Qed.

Lemma ref_move_supply msgs from to n m r m' :
  ref_move msgs from to n m = Ok (r, m') → messages r = msgs ∧ ref_supply m' = ref_supply m.
Proof.
  unfold ref_move. intros E. apply result_bind_Ok in E as (f & Hf & E).
  apply result_bind_Ok in E as (t & Ht & E). apply result_bind_Ok in E as (m1 & Hm & [= <- <-]).
  split; [done|]. rewrite ref_credit_supply. by apply ref_debit_supply in Hm.
Qed.

Lemma ref_take_supply from n m r m' :
  ref_take from n m = Ok (r, m') → ref_supply m' + n = ref_supply m.
Proof.
  unfold ref_take. intros E. apply result_bind_Ok in E as (f & Hf & E).
  apply result_bind_Ok in E as (m1 & Hm & [= <- <-]). by apply ref_debit_supply in Hm.
Qed.

#[export] Instance ref_cw20_supply : Cw20SupplyLaws (gmap (list N) N).
Proof.
  refine {| cw20_supply := ref_supply; cw20_minter := λ _, Some "hub" |}.
  - intros env info msg r c'. cbn. case_decide as Hhub; [|done].
    intros (m & Hm & [= _ <-])%result_bind_Ok. apply ref_init_supply in Hm. split.
    + rewrite Hm. apply N.add_0_l.
    + intros mt c Hmt _. rewrite Hmt in Hhub. cbn in Hhub. congruence.
  - intros env info to n c r c' [_ E]%ref_move_supply. done.
  - intros env info n c r c' E%ref_take_supply. done.
  - intros env info to n c r c' E. apply result_bind_Ok in E as (t & Ht & E).
    case_decide as Hs; [|done]. injection E as <- <-.
    split_and!; [by rewrite Hs|apply ref_credit_supply|done].
  - intros env info to n m c r c' [Hm E]%ref_move_supply. done.
  - intros env info o to n c r c' [_ E]%ref_move_supply. done.
  - intros env info o n c r c' E%ref_take_supply. done.
  - intros env info o to n m c r c' [Hm E]%ref_move_supply. done.
  - intros env info sp n e c r c' [= <- <-]. done.
  - intros env info sp n e c r c' [= <- <-]. done.
Defined.

(** ** Witnesses *)

(** The token with the balances of [reward_demo]: alice 100, bob 200. *)
Definition demo_token : Storage (gmap (list N) N) :=
  mkStorage (Some (canonical "hub"))
    (<[canonical "alice" := 100]> (<[canonical "bob" := 200]> ∅)).

Definition demo_transfer : StdResult (Response * Storage (gmap (list N) N)) :=
  execute (reward_chain 0) reward_env (mkInfo "alice" []) (Transfer "bob" 40) demo_token.

Lemma demo_transfer_ok : (λ r, length (messages r.1)) <$> demo_transfer = Ok 2%nat.
Proof. vm_compute. reflexivity. Qed.

Lemma token_reports_balances_witness : ∃ resp s',
  demo_transfer = Ok (resp, s') ∧ mirror_effect (reward_chain 0) demo_token resp s'.
Proof.
  pose proof demo_transfer_ok as Hok.
  destruct demo_transfer as [[resp s']| |] eqn:E; [|discriminate Hok..].
  exists resp, s'. split; [done|]. exact (token_reports_balances _ _ _ _ _ _ _ E).
Defined.

(** A reward contract with the same balances. *)
Definition demo_mirror : RewardState.Storage :=
  RewardState.mkStorage (Some (RewardState.mkConfig (canonical "hub") "uusd"))
    (Some (RewardState.mkState 0 300 0))
    (<[canonical "alice" := RewardState.mkHolder 100 0 0]>
      (<[canonical "bob" := RewardState.mkHolder 200 0 0]> ∅)).

Lemma demo_agrees a : token_balance demo_token a = reward_balance demo_mirror a.
Proof.
  unfold token_balance, reward_balance, holder_of, demo_mirror, demo_token.
  cbn [cw20_balance ref_cw20_laws cw20_cell RewardState.holders_map]. unfold ref_balance.
  destruct (decide (a = canonical "alice")) as [->|Ha]; [by rewrite !lookup_insert_eq|].
  rewrite !(lookup_insert_ne _ (canonical "alice")) by done.
  destruct (decide (a = canonical "bob")) as [->|Hb]; [by rewrite !lookup_insert_eq|].
  by rewrite !(lookup_insert_ne _ (canonical "bob")) by done.
Qed.

Lemma rewards_mirror_token_witness : ∃ resp s' ops rest reward,
  demo_transfer = Ok (resp, s') ∧
  messages resp = report_msgs reward ops ++ rest ∧
  ∀ rdeps renv rinfo rs', run_reports rdeps renv rinfo ops demo_mirror = Ok rs' →
    ∀ a, token_balance s' a = reward_balance rs' a.
Proof.
  pose proof demo_transfer_ok as Hok.
  destruct demo_transfer as [[resp s']| |] eqn:E; [|discriminate Hok..].
  destruct (rewards_mirror_token _ _ _ _ _ _ _ demo_mirror demo_agrees E)
    as (ops & rest & [[_ Hnil]|(reward & _ & Hmsgs)] & Hrun).
  - exfalso. cbn in Hok. by rewrite Hnil in Hok.
  - by exists resp, s', ops, rest, reward.
Defined.

(** Alice owns 100 tokens from the start and tries to transfer 40 of them. *)
Definition premined : StdResult (Response * Storage (gmap (list N) N)) :=
  instantiate (mkEnv 2 5 "token") (mkInfo "owner" [])
    (mkTokenInitMsg "bonded luna" "BLUNA" 6 [("alice", 100)] None "hub") (mkStorage None cw20_empty).

(** The first transfer of the tokens, which the token accepts. *)
Definition premined_transfer :
    StdResult (Response * Storage (gmap (list N) N) * Response * Storage (gmap (list N) N)) :=
  match premined with
  | Ok (resp, s) =>
      match execute (reward_chain 0) reward_env (mkInfo "alice" []) (Transfer "bob" 40) s with
      | Ok (tresp, s') => Ok (resp, s, tresp, s')
      | Err e => Err e
      | Panic msg => Panic msg
      end
  | Err e => Err e
  | Panic msg => Panic msg
  end.

Lemma premined_transfer_ok : (λ _, true) <$> premined_transfer = Ok true.
Proof. vm_compute. reflexivity. Qed.

Definition fresh_reward : StdResult (Response * RewardState.Storage) :=
  RewardContract.instantiate (BassetReward.mkInstantiateMsg "hub" "uusd") RewardState.empty_storage.

Lemma fresh_reward_ok : (λ _, true) <$> fresh_reward = Ok true.
Proof. vm_compute. reflexivity. Qed.

