(* ===== verification/System.v ===== *)
(** * The four contracts together

    The hub, the token, the reward contract and the airdrop registry as one
    state machine.  A transaction is a queue of messages; the chain takes
    the first one, runs the contract it is addressed to, and puts the
    messages of the response in front of the others (CosmWasm dispatches
    depth first and in order).  Everything that is not one of the four
    contracts is unconstrained: users and other contracts may send any
    message at any time, and queries about the chain have any answer; only
    the queries that the four contracts make about each other are answered
    by their states. *)
From S2P Require Import Prelude CwTypes CwMath BassetHub BassetReward BassetAirdrop CwApi Reference.
From S2P Require Import HubState HubContract HubBacking RewardState RewardContract AirdropContract.
From S2P Require Import TokenContract TokenSpec.
From stdpp Require Import relations.

Open Scope N_scope.

(** The decoders of the messages of the token and of the registry. *)
Class SystemWire := {
  wire_token :: Serde TokenContract.ExecuteMsg;
  wire_registry :: Serde BassetAirdrop.ExecuteMsg
}.

(** What the wire format promises: the token understands what the hub sends
    it, and the hook of a send is no message of the reward contract or of
    the token. *)
Class SystemWireLaws `{CwApi, SystemWire} : Prop := {
  wire_mint u n : from_slice (A:=TokenContract.ExecuteMsg) (ser (Cw20_Mint u n)) = Ok (Mint u n);
  wire_burn n : from_slice (A:=TokenContract.ExecuteMsg) (ser (Cw20_Burn n)) = Ok (Burn n);
  wire_send c n b :
    from_slice (A:=TokenContract.ExecuteMsg) (ser (Cw20_Send c n b)) = Ok (Send c n b);
  wire_receive_reward r m : from_slice (A:=BassetReward.ExecuteMsg) (ser (Receive r)) ≠ Ok m
}.

(** The states of the contracts. *)
Record World (C : Type) := mkWorld {
  w_hub : HubState.Storage;
  w_token : TokenContract.Storage C;
  w_reward : RewardState.Storage;
  w_registry : AirdropContract.Storage
}.
Arguments mkWorld {C} _ _ _ _.
Arguments w_hub {C} _.
Arguments w_token {C} _.
Arguments w_reward {C} _.
Arguments w_registry {C} _.

(** Where they are deployed. *)
Record Deployment := mkDeployment {
  hub_addr : Addr;
  token_addr : Addr;
  reward_addr : Addr;
  registry_addr : Addr
}.

Definition members (d : Deployment) : list Addr :=
  [hub_addr d; token_addr d; reward_addr d; registry_addr d].

(** A message on its way, with its sender. *)
Abbreviation Call := (Addr * CosmosMsg)%type (only parsing).

Section system.
  Context `{CwMath, CwApi, Cw20Legacy C, !Cw20Laws C, !Cw20SupplyLaws C, SystemWire} (d : Deployment).
  Implicit Types (w : World C) (q : list Call).

Definition set_w_hub s w : World C := mkWorld s (w_token w) (w_reward w) (w_registry w).
Definition set_w_token s w : World C := mkWorld (w_hub w) s (w_reward w) (w_registry w).
Definition set_w_reward s w : World C := mkWorld (w_hub w) (w_token w) s (w_registry w).
Definition set_w_registry s w : World C := mkWorld (w_hub w) (w_token w) (w_reward w) s.

Definition supply w : N := cw20_supply (cw20_cell (w_token w)).

(** The addresses the chain hands to a contract are in the form the api
    prints them. *)
Definition normalized (a : Addr) : Prop := ∃ c, addr_humanize c = Ok a.

Definition outsider (a : Addr) : Prop := normalized a ∧ a ∉ members d.

(** The messages of a response of contract [a]. *)
Definition sends (a : Addr) (resp : Response) : list Call := pair a <$> messages resp.

(** The answers to the queries between the contracts. *)
Definition answers (deps : Querier) w : Prop :=
  query_token_info deps (token_addr d) = Ok (mkTokenInfo (supply w)) ∧
  ∀ cfg, HubState.config_cell (w_hub w) = Some cfg →
    query_raw_hub_config deps (hub_addr d) = Ok cfg.

(** What the owners are trusted with: they connect the contracts to each
    other and to no other contract, and the registry's owner does not
    register the token as an airdrop. *)
Definition connects (a : Addr) (o : option string) : bool := bool_decide (o = None ∨ o = Some a).

Definition trusted_hub (msg : BassetHub.ExecuteMsg) : bool :=
  match msg with
  | BassetHub.UpdateConfig _ reward token airdrop =>
      connects (reward_addr d) reward && connects (token_addr d) token &&
      connects (registry_addr d) airdrop
  | _ => true
  end.
Definition trusted_registry (msg : BassetAirdrop.ExecuteMsg) : bool :=
  match msg with
  | BassetAirdrop.UpdateConfig _ hub _ => connects (hub_addr d) hub
  | AddAirdropInfo _ i | UpdateAirdropInfo _ i => bool_decide (airdrop_contract i ≠ token_addr d)
  | _ => true
  end.

(** The start: each contract has just been instantiated with the address of
    the hub, the token without initial balances, and the messages of the
    hub's response are on the queue.  The hub knows no other contract yet. *)
Record genesis w q : Prop := mk_genesis {
  genesis_hub : ∃ height now info msg resp,
    HubContract.instantiate (mkEnv height now (hub_addr d)) info msg HubState.empty_storage =
      Ok (resp, w_hub w) ∧ q = sends (hub_addr d) resp;
  genesis_token : ∃ env info msg resp,
    tim_hub_contract msg = hub_addr d ∧ tim_initial_balances msg = [] ∧
    TokenContract.instantiate env info msg (TokenContract.mkStorage None cw20_empty) =
      Ok (resp, w_token w);
  genesis_reward : ∃ msg resp, BassetReward.im_hub_contract msg = hub_addr d ∧
    RewardContract.instantiate msg RewardState.empty_storage = Ok (resp, w_reward w);
  genesis_registry : ∃ info msg resp, BassetAirdrop.im_hub_contract msg = hub_addr d ∧
    AirdropContract.instantiate info msg AirdropContract.empty_storage = Ok (resp, w_registry w)
}.

Inductive step : World C * list Call → World C * list Call → Prop :=
  | step_hub deps height now w from b funds q msg resp s :
      answers deps w → from_slice b = Ok msg → trusted_hub msg = true →
      HubContract.execute deps (mkEnv height now (hub_addr d)) (mkInfo from funds) msg (w_hub w) =
        Ok (resp, s) →
      step (w, (from, Wasm_Execute (hub_addr d) b funds) :: q)
        (set_w_hub s w, sends (hub_addr d) resp ++ q)
  | step_token deps height now w from b funds q msg resp s :
      answers deps w → from_slice b = Ok msg →
      TokenContract.execute deps (mkEnv height now (token_addr d)) (mkInfo from funds) msg
        (w_token w) = Ok (resp, s) →
      step (w, (from, Wasm_Execute (token_addr d) b funds) :: q)
        (set_w_token s w, sends (token_addr d) resp ++ q)
  | step_reward deps height now w from b funds q msg resp s :
      answers deps w → from_slice b = Ok msg →
      RewardContract.execute deps (mkEnv height now (reward_addr d)) (mkInfo from funds) msg
        (w_reward w) = Ok (resp, s) →
      step (w, (from, Wasm_Execute (reward_addr d) b funds) :: q)
        (set_w_reward s w, sends (reward_addr d) resp ++ q)
  | step_registry w from b funds q msg resp s :
      from_slice b = Ok msg → trusted_registry msg = true →
      AirdropContract.execute (mkInfo from funds) msg (w_registry w) = Ok (resp, s) →
      step (w, (from, Wasm_Execute (registry_addr d) b funds) :: q)
        (set_w_registry s w, sends (registry_addr d) resp ++ q)
  (** Another contract runs and sends what it likes. *)
  | step_other w from to b funds q calls :
      to ∉ members d → Forall (outsider ∘ fst) calls →
      step (w, (from, Wasm_Execute to b funds) :: q) (w, calls ++ q)
  (** A module of the chain runs. *)
  | step_chain w from m q :
      chain_msg m = true → step (w, (from, m) :: q) (w, q)
  (** Users start transactions when the queue is empty. *)
  | step_user w calls :
      Forall (outsider ∘ fst) calls → step (w, []) (w, calls).

Definition steps := rtc step.

(** ** An executable dispatcher *)

(** One message of a transaction in which no other contract sends messages;
    [chain] answers the queries in each state of the world. *)
Definition dispatch (chain : World C → Querier) (height now : u64) w (c : Call) :
    result string (World C * list Call) :=
  let run {E S} (r : result E (Response * S)) (a : Addr) (set : S → World C) :=
    match r with
    | Ok (resp, s) => Ok (set s, sends a resp)
    | Err _ => Err "error"
    | Panic m => Panic m
    end in
  let decode {M} (r : StdResult M) (trusted : M → bool) :=
    match r with
    | Ok m => if trusted m then Ok m else Err "not trusted"
    | Err _ => Err "cannot decode"
    | Panic m => Panic m
    end in
  match c with
  | (from, Wasm_Execute to b funds) =>
      if decide (to = hub_addr d) then
        msg ← decode (from_slice b) trusted_hub;
        run (HubContract.execute (chain w) (mkEnv height now to) (mkInfo from funds) msg (w_hub w))
          to (λ s, set_w_hub s w)
      else if decide (to = token_addr d) then
        msg ← decode (from_slice b) (λ _, true);
        run (TokenContract.execute (chain w) (mkEnv height now to) (mkInfo from funds) msg
          (w_token w)) to (λ s, set_w_token s w)
      else if decide (to = reward_addr d) then
        msg ← decode (from_slice b) (λ _, true);
        run (RewardContract.execute (chain w) (mkEnv height now to) (mkInfo from funds) msg
          (w_reward w)) to (λ s, set_w_reward s w)
      else if decide (to = registry_addr d) then
        msg ← decode (from_slice b) trusted_registry;
        run (AirdropContract.execute (mkInfo from funds) msg (w_registry w)) to
          (λ s, set_w_registry s w)
      else Ok (w, [])
  | _ => Ok (w, [])
  end.

(** A whole transaction, with fuel for its messages. *)
Fixpoint run_tx (fuel : nat) (chain : World C → Querier) (height now : u64) w q :
    result string (World C) :=
  match fuel, q with
  | _, [] => Ok w
  | O, _ => Err "out of fuel"
  | S fuel, c :: q =>
      '(w, new) ← dispatch chain height now w c;
      run_tx fuel chain height now w (new ++ q)
  end.

Lemma dispatch_step chain height now w c w' new q :
  (∀ w, answers (chain w) w) → dispatch chain height now w c = Ok (w', new) →
  step (w, c :: q) (w', new ++ q).
Proof.
  intros Hans. destruct c as [from m]. destruct m as [| | | | | |to b funds|]; cbn;
    try (intros [= <- <-]; by apply step_chain).
  repeat case_decide; subst;
    try (destruct (from_slice b) as [msg| |] eqn:Hm; [|done..]).
  - destruct (trusted_hub msg) eqn:Ht; [|done]. cbn.
    destruct (HubContract.execute _ _ _ _ _) as [[resp s]| |] eqn:E; [|done..].
    intros [= <- <-]. by eapply step_hub.
  - cbn. destruct (TokenContract.execute _ _ _ _ _) as [[resp s]| |] eqn:E; [|done..].
    intros [= <- <-]. by eapply step_token.
  - cbn. destruct (RewardContract.execute _ _ _ _ _) as [[resp s]| |] eqn:E; [|done..].
    intros [= <- <-]. by eapply step_reward.
  - destruct (trusted_registry msg) eqn:Ht; [|done]. cbn.
    destruct (AirdropContract.execute _ _ _) as [[resp s]| |] eqn:E; [|done..].
    intros [= <- <-]. by eapply step_registry.
  - intros [= <- <-]. apply step_other; [|constructor].
    unfold members. set_solver.
Qed.

(** The dispatcher follows the steps. *)
Lemma run_tx_steps fuel chain height now w q w' :
  (∀ w, answers (chain w) w) → run_tx fuel chain height now w q = Ok w' →
  steps (w, q) (w', []).
Proof.
  intros Hans. revert w q. induction fuel as [|fuel IH]; intros w [|c q]; cbn; try done;
    try (intros [= <-]; constructor).
  intros E. apply result_bind_Ok in E as ([w1 new] & E1 & E).
  eapply rtc_l; [by eapply dispatch_step|]. by apply IH.
Qed.
End system.
