(* ===== verification/SystemDemo.v ===== *)
(** * A concrete deployment

    Decoders for the messages of the token and of the registry that satisfy
    the laws of System.v, and the four contracts just instantiated, on which
    the witnesses run whole transactions. *)
From S2P Require Import Prelude CwTypes CwMath BassetHub BassetReward BassetAirdrop CwApi Reference.
From S2P Require Import HubState HubScenario HubContract HubInvariant RewardState RewardContract.
From S2P Require Import AirdropContract TokenContract TokenSpec System.

Open Scope N_scope.

(** ** Decoders *)

(** The messages of [cw20] that the hub sends are those of the token. *)
Definition ref_serde_token : Serde TokenContract.ExecuteMsg := {|
  to_vec m :=
    match m with
    | Burn n => to_vec (Cw20_Burn n)
    | Mint u n => to_vec (Cw20_Mint u n)
    | Send c n b => to_vec (Cw20_Send c n b)
    | _ => Err (generic_err "not sent by the hub")
    end;
  from_slice b :=
    m ← from_slice b;
    Ok match m with
       | Cw20_Burn n => Burn n
       | Cw20_Mint u n => Mint u n
       | Cw20_Send c n b => Send c n b
       end
|}.

#[export] Instance AirdropInfo_countable : Countable AirdropInfo.
Proof.
  apply (inj_countable'
    (λ i, (airdrop_token_contract i, airdrop_contract i, airdrop_swap_contract i,
           swap_belief_price i, swap_max_spread i))
    (λ '(a, b, c, e, f), mkAirdropInfo a b c e f)). by intros [].
Defined.

#[export] Instance registry_msg_eq_dec : EqDecision BassetAirdrop.ExecuteMsg.
Proof. solve_decision. Defined.

#[export] Instance registry_msg_countable : Countable BassetAirdrop.ExecuteMsg.
Proof.
  apply (inj_countable'
    (λ m, match m with
          | FabricateMIRClaim a b c => inl (a, b, c)
          | FabricateANCClaim a b c => inr (inl (a, b, c))
          | BassetAirdrop.UpdateConfig a b c => inr (inr (inl (a, b, c)))
          | AddAirdropInfo t i => inr (inr (inr (inl (t, i))))
          | UpdateAirdropInfo t i => inr (inr (inr (inr (inl (t, i)))))
          | RemoveAirdropInfo t => inr (inr (inr (inr (inr t))))
          end)
    (λ m, match m with
          | inl (a, b, c) => FabricateMIRClaim a b c
          | inr (inl (a, b, c)) => FabricateANCClaim a b c
          | inr (inr (inl (a, b, c))) => BassetAirdrop.UpdateConfig a b c
          | inr (inr (inr (inl (t, i)))) => AddAirdropInfo t i
          | inr (inr (inr (inr (inl (t, i))))) => UpdateAirdropInfo t i
          | inr (inr (inr (inr (inr t)))) => RemoveAirdropInfo t
          end)). by intros [].
Defined.

#[export] Instance ref_wire : SystemWire := {|
  wire_token := ref_serde_token;
  wire_registry := serde_countable 11
|}.

#[export] Instance ref_wire_laws : SystemWireLaws.
Proof.
  split.
  - intros u n. unfold from_slice at 1. cbn [wire_token ref_wire ref_serde_token].
    by rewrite from_slice_ser.
  - intros n. unfold from_slice at 1. cbn [wire_token ref_wire ref_serde_token].
    by rewrite from_slice_ser.
  - intros c n b. unfold from_slice at 1. cbn [wire_token ref_wire ref_serde_token].
    by rewrite from_slice_ser.
  - intros r m. done.
Qed.

(** ** The deployment *)

Definition demo_deployment : Deployment := mkDeployment "hub" "token" "reward" "airdrop".

Definition demo_genesis : StdResult (World (gmap (list N) N) * list (Addr * CosmosMsg)) :=
  '(resp, hub) ← demo_init;
  '(_, token) ← TokenContract.instantiate (mkEnv 2 5 "token") (mkInfo "owner" [])
    (mkTokenInitMsg "bonded luna" "BLUNA" 6 [] None "hub") (TokenContract.mkStorage None cw20_empty);
  '(_, reward) ← RewardContract.instantiate (BassetReward.mkInstantiateMsg "hub" "uusd")
    RewardState.empty_storage;
  '(_, registry) ← AirdropContract.instantiate (mkInfo "owner" [])
    (BassetAirdrop.mkInstantiateMsg "hub" "reward") AirdropContract.empty_storage;
  Ok (mkWorld hub token reward registry, sends "hub" resp).

(** The chain answers from the states of the contracts. *)
Definition demo_answers (w : World (gmap (list N) N)) : Querier := {|
  query_all_delegations _ := Ok [mkDelegation "val1" (luna 1090)];
  query_delegation _ _ := Ok None;
  query_all_validators := Ok ["val1"];
  query_balance _ denom := Ok (mkCoin denom 0);
  query_all_balances _ := Ok [];
  query_token_info _ := Ok (mkTokenInfo (supply w));
  query_cw20_balance _ _ := Ok 0;
  query_raw_hub_config _ :=
    match HubState.config_cell (w_hub w) with
    | Some cfg => Ok cfg
    | None => Err (generic_err "not found")
    end;
  query_tax_rate := Ok 0;
  query_tax_cap _ := Ok 0;
  terra_exchange_rates base ds := Ok (mkExchangeRatesResponse base (mkExchangeRateItem DECIMAL_ONE <$> ds))
|}.

Lemma demo_answers_ok w : answers demo_deployment (demo_answers w) w.
Proof. split; [done|]. intros cfg Hcfg. cbn. by rewrite Hcfg. Qed.

(** The owner connects the hub, and alice bonds 90 coins and then unbonds 40
    of the tokens. *)
Definition demo_connect_tx : list (Addr * CosmosMsg) :=
  [("owner", Wasm_Execute "hub" (ser (BassetHub.UpdateConfig None (Some "reward") (Some "token")
    (Some "airdrop"))) [])].
Definition demo_bond_tx : list (Addr * CosmosMsg) :=
  [("alice", Wasm_Execute "hub" (ser (Bond "val1")) [luna 90])].
Definition demo_unbond_tx : list (Addr * CosmosMsg) :=
  [("alice", Wasm_Execute "token" (ser (Cw20_Send "hub" 40 (ser Unbond))) [])].
