(* ===== verification/SystemSpec.v ===== *)
(** * What the contracts guarantee together

    In every state between two transactions the reward contract has the
    balances of the token and shares rewards over its supply, and the tokens
    that are issued or wait to be unbonded are backed by the bond.  Both are
    consequences of one invariant, which the instantiation of the contracts
    establishes and the steps of System.v keep, and in which the messages at
    the head of the queue account for the difference. *)
From S2P Require Import Prelude CwTypes CwMath BassetHub BassetReward BassetAirdrop CwApi Reference.
From S2P Require Import HubState HubScenario HubContract HubBondSpec HubAdmin HubBacking HubSlashing.
From S2P Require Import RewardState RewardContract RewardSpec AirdropContract AirdropSpec.
From S2P Require Import TokenContract TokenSpec System SystemDemo.
From stdpp Require Import relations.

Open Scope N_scope.

Section spec.
  Context `{CwMathLaws} `{HA : CwApi, !CwApiLaws}.
  Context `{HC : Cw20Legacy C, !Cw20Laws C, !Cw20SupplyLaws C} `{HW : SystemWire, !SystemWireLaws}.
  Context (d : Deployment) (Hdistinct : NoDup (members d)) (Hmembers : Forall normalized (members d)).
  Implicit Types (w : World C) (q : list (Addr * CosmosMsg)).

(** ** The connections *)

(** The contract that a configuration names, if any, is the one at [a]. *)
Definition connected (a : Addr) (o : option CanonicalAddr) : Prop :=
  ∀ c, o = Some c → addr_humanize c = Ok a.

Definition links (cfg : BassetHub.Config) : Prop :=
  connected (reward_addr d) (BassetHub.reward_contract cfg) ∧
  connected (token_addr d) (BassetHub.token_contract cfg) ∧
  connected (registry_addr d) (airdrop_registry_contract cfg).

(** The contracts know each other by the addresses of the deployment; the hub
    may not know the others yet. *)
Record wired w : Prop := mk_wired {
  wired_hub : ∃ cfg, HubState.config_cell (w_hub w) = Some cfg ∧ links cfg;
  wired_token : ∃ c, hub_cell (w_token w) = Some c ∧ addr_humanize c = Ok (hub_addr d);
  wired_minter : cw20_minter (cw20_cell (w_token w)) = Some (hub_addr d);
  wired_reward : ∃ cfg, RewardState.config_cell (w_reward w) = Some cfg ∧
    addr_humanize (RewardState.hub_contract cfg) = Ok (hub_addr d);
  wired_registry : ∃ cfg, AirdropContract.config_cell (w_registry w) = Some cfg ∧
    AirdropContract.hub_contract cfg = hub_addr d;
  wired_airdrops k i :
    infos_map (w_registry w) !! k = Some i → airdrop_contract i ≠ token_addr d
}.

Lemma normalized_eq a b c :
  normalized a → addr_canonicalize a = Ok c → addr_humanize c = Ok b → a = b.
Proof.
  intros [c' Ha] Hc Hb. pose proof (addr_canonicalize_humanize _ _ Ha) as Ha'. congruence.
Qed.

Lemma normalized_humanize a c : normalized a → addr_canonicalize a = Ok c → addr_humanize c = Ok a.
Proof. intros [c' Ha] Hc. rewrite (addr_canonicalize_humanize _ _ Ha) in Hc. by injection Hc as <-. Qed.

Lemma hub_normalized : normalized (hub_addr d).
Proof. rewrite Forall_forall in Hmembers. apply Hmembers. set_solver. Qed.
Lemma token_normalized : normalized (token_addr d).
Proof. rewrite Forall_forall in Hmembers. apply Hmembers. set_solver. Qed.
Lemma reward_normalized : normalized (reward_addr d).
Proof. rewrite Forall_forall in Hmembers. apply Hmembers. set_solver. Qed.
Lemma registry_normalized : normalized (registry_addr d).
Proof. rewrite Forall_forall in Hmembers. apply Hmembers. set_solver. Qed.

Lemma wired_supply deps w cfg :
  wired w → answers d deps w → HubState.config_cell (w_hub w) = Some cfg →
  supply_known deps cfg (w_hub w) (supply w).
Proof.
  intros Hw [Hinfo _] Hcfg raw token Hraw Hh.
  destruct (wired_hub _ Hw) as (cfg' & Hcfg' & _ & Htok & _). simplify_eq.
  assert (token = token_addr d) as -> by (specialize (Htok _ Hraw); congruence).
  unfold query_total_issued, load. cbn. rewrite Hcfg. cbn. rewrite Hraw. cbn. rewrite Hh. cbn.
  by rewrite Hinfo.
Qed.

Lemma wired_reports deps w a :
  wired w → answers d deps w → query_reward_contract deps (w_token w) = Ok a → a = reward_addr d.
Proof.
  intros Hw [_ Hraw] E. destruct (wired_hub _ Hw) as (cfg & Hcfg & Hrew & _).
  destruct (wired_token _ Hw) as (h & Hhub & Hhh).
  unfold query_reward_contract, read_hub_contract, load in E. cbn in E. rewrite Hhub in E. cbn in E.
  rewrite Hhh in E. cbn in E. rewrite (Hraw _ Hcfg) in E. cbn in E. inv_ok.
  match goal with Hr : BassetHub.reward_contract _ = Some _ |- _ => apply Hrew in Hr end. congruence.
Qed.

(** The token that the reward contract accepts reports from. *)
Lemma wired_reporter deps w hub raw cfg :
  wired w → answers d deps w → RewardState.config_cell (w_reward w) = Some cfg →
  addr_humanize (RewardState.hub_contract cfg) = Ok hub → query_token_contract deps hub = Ok raw →
  addr_humanize raw = Ok (token_addr d).
Proof.
  intros Hw [_ Hraw] Hcfg Hh Hq. destruct (wired_reward _ Hw) as (cfg' & Hcfg' & Hh').
  assert (hub = hub_addr d) as -> by congruence.
  destruct (wired_hub _ Hw) as (cfg0 & Hcfg0 & _ & Htok & _).
  unfold query_token_contract in Hq. rewrite (Hraw _ Hcfg0) in Hq. cbn in Hq. inv_ok. by apply Htok.
Qed.

(** ** Messages that disturb nothing *)

(** The token sends nothing but reports that the reward contract would take
    for one, the hub mints only to settle the supply, and the registry has
    no claim against the token. *)
Definition harmless (c : Addr * CosmosMsg) : Prop :=
  match c with
  | (from, Wasm_Execute to b _) =>
      (from = token_addr d → to = reward_addr d →
       ∀ m : BassetReward.ExecuteMsg, from_slice b ≠ Ok m) ∧
      (from = hub_addr d → to = token_addr d →
       ∀ u n, from_slice b ≠ Ok (Mint u n)) ∧
      (from = registry_addr d → to = hub_addr d →
       ∀ t a x y z, from_slice b = Ok (ClaimAirdrop t a x y z) → a ≠ token_addr d)
  | _ => True
  end.

(** A message on the queue: its sender is an address of the chain. *)
Definition queued (c : Addr * CosmosMsg) : Prop := normalized c.1 ∧ harmless c.

Lemma outsider_queued c : outsider d c.1 → queued c.
Proof.
  destruct c as [a m]. intros [Hn Hout]. split; [done|]. cbn in *.
  destruct m; try done. unfold members in Hout. split_and!; intros ->; set_solver.
Qed.

Lemma outsiders_queued calls : Forall (outsider d ∘ fst) calls → Forall queued calls.
Proof. intros Hc. eapply Forall_impl; [exact Hc|]. intros c. apply outsider_queued. Qed.

(** ** The messages that account for a difference *)

Definition reward_total w : N :=
  match RewardState.state_cell (w_reward w) with Some st => total_balance st | None => 0 end.

(** The reports [ops] that are still on the queue lead from the state of the
    reward contract to that of the token. *)
Definition reporting (ops : list BassetReward.ExecuteMsg) w : Prop :=
  reported ops (reward_balance (w_reward w)) (token_balance (w_token w)) ∧
  is_Some (RewardState.state_cell (w_reward w)) ∧
  reward_total w + incs ops = supply w + decs ops.

Definition from_token (m : CosmosMsg) : Addr * CosmosMsg := (token_addr d, m).
Definition from_hub (m : CosmosMsg) : Addr * CosmosMsg := (hub_addr d, m).

Inductive pending w : list (Addr * CosmosMsg) → Prop :=
  (** the token has reported [ops]; none is left when [ops] is empty *)
  | pending_reports ops :
      reporting ops w → covered (supply w) (w_hub w) →
      pending w (from_token <$> report_msgs (reward_addr d) ops)
  (** the hub has asked the chain to move coins and the token to settle *)
  | pending_settle pre m :
      reporting [] w → Forall (λ m, chain_msg m = true) pre → settles m = true →
      covered (settled_supply m (supply w)) (w_hub w) →
      pending w (from_hub <$> pre ++ [Wasm_Execute (token_addr d) (ser m) []]).

Definition system_inv (x : World C * list (Addr * CosmosMsg)) : Prop :=
  wired x.1 ∧ ∃ pre q, x.2 = pre ++ q ∧ pending x.1 pre ∧ Forall queued q.

(** Between transactions nothing is pending. *)
Lemma system_inv_idle w :
  system_inv (w, []) → wired w ∧ reporting [] w ∧ covered (supply w) (w_hub w).
Proof.
  intros (Hw & pre & q & Hq & Hp & _). symmetry in Hq. apply app_nil in Hq as [-> ->].
  cbn in Hp. split; [done|]. remember [] as l eqn:El. destruct Hp as [ops|pre m].
  - destruct ops; [done|]. by inversion El.
  - destruct pre; by inversion El.
Qed.

Lemma idle_inv w q :
  wired w → reporting [] w → covered (supply w) (w_hub w) → Forall queued q → system_inv (w, q).
Proof.
  intros Hw Hr Hc Hq. split; [done|]. exists [], q. split_and!; [done| |done].
  by apply (pending_reports w []).
Qed.

(** ** Steps of the token *)

Lemma addresses_differ :
  hub_addr d ≠ token_addr d ∧ hub_addr d ≠ reward_addr d ∧ hub_addr d ≠ registry_addr d ∧
  token_addr d ≠ reward_addr d ∧ token_addr d ≠ registry_addr d ∧ reward_addr d ≠ registry_addr d.
Proof. unfold members in Hdistinct. rewrite !NoDup_cons in Hdistinct. set_solver. Qed.

Lemma hooks_queued rest : Forall is_hook rest → Forall queued (from_token <$> rest).
Proof.
  intros Hr. apply Forall_fmap. eapply Forall_impl; [exact Hr|].
  intros m (to & r & ->). split; [apply token_normalized|]. cbn.
  destruct addresses_differ as (? & ? & ? & ? & ? & ?). split_and!; try congruence.
  intros _ _ m. apply wire_receive_reward.
Qed.

Lemma token_step_inv deps height now w from funds msg resp s q :
  wired w → answers d deps w → reporting [] w →
  TokenContract.execute deps (mkEnv height now (token_addr d)) (mkInfo from funds) msg (w_token w) =
    Ok (resp, s) →
  covered (token_supply s) (w_hub w) → Forall queued q →
  system_inv (set_w_token s w, sends (token_addr d) resp ++ q).
Proof.
  intros Hw Hans (Hbal & Hst & Htot) E Hcov Hq.
  pose proof (token_minter _ _ _ _ _ _ _ E) as [Hmint _].
  apply token_execute_Ok in E as (Hhub & ops & rest & Hrep & Hsup & Hhooks & Hmsgs).
  assert (wired (set_w_token s w)) as Hw'.
  { destruct Hw. constructor; cbn; rewrite ?Hhub, ?Hmint; done. }
  assert (reporting ops (set_w_token s w)) as Hrep'.
  { split_and!; [|done|].
    - eapply reported_ext; [|exact Hrep]. cbn in *. done.
    - unfold supply, token_supply, reward_total in *. cbn in *. lia. }
  destruct Hmsgs as [[-> Hnil]|(reward & Hr & Hmsgs)].
  - unfold sends. rewrite Hnil. by apply idle_inv.
  - apply (wired_reports _ _ _ Hw Hans) in Hr as ->.
    split; [done|]. exists (from_token <$> report_msgs (reward_addr d) ops), ((from_token <$> rest) ++ q).
    split_and!.
    + cbn. unfold sends. by rewrite Hmsgs, fmap_app, <- app_assoc.
    + by apply pending_reports.
    + apply Forall_app_2; [by apply hooks_queued|done].
Qed.

(** ** Steps of the reward contract *)

Lemma report_totals w op ops st :
  RewardState.state_cell (w_reward w) = Some st →
  reward_total w + incs (op :: ops) = supply w + decs (op :: ops) →
  match op with
  | IncreaseBalance _ n => total_balance st + n + incs ops = supply w + decs ops
  | DecreaseBalance _ n => n ≤ total_balance st → total_balance st - n + incs ops = supply w + decs ops
  | _ => True
  end.
Proof.
  intros Hst. unfold reward_total. rewrite Hst. unfold incs, decs. rewrite !sumN_cons.
  destruct op; lia || done.
Qed.

Lemma report_step_inv deps height now w from funds op ops resp s :
  reporting (op :: ops) w →
  RewardContract.execute deps (mkEnv height now (reward_addr d)) (mkInfo from funds) op (w_reward w) =
    Ok (resp, s) →
  messages resp = [] ∧ reporting ops (set_w_reward s w) ∧
  RewardState.config_cell s = RewardState.config_cell (w_reward w).
Proof.
  intros (Hrep & _ & Htot) E. destruct op; try done; cbn in E, Hrep.
  - destruct Hrep as (c & Hc & Hrep).
    apply increase_Ok in E as (st & a & tok & Hst & Ha & _ & -> & Hmsgs & _).
    assert (a = c) as -> by congruence. split_and!; [done| |done]. split_and!.
    + eapply reported_ext; [|exact Hrep]. intros x. cbn. unfold reward_balance, upd.
      rewrite holder_of_with. by case_decide.
    + by eexists.
    + by apply (report_totals _ _ _ _ Hst Htot).
  - destruct Hrep as (c & Hc & _ & Hrep).
    apply decrease_Ok in E as (st & a & Hst & Ha & _ & _ & Hle & -> & Hmsgs & _).
    assert (a = c) as -> by congruence. split_and!; [done| |done]. split_and!.
    + eapply reported_ext; [|exact Hrep]. intros x. cbn. unfold reward_balance, upd.
      rewrite holder_of_with. by case_decide.
    + by eexists.
    + by apply (report_totals _ _ _ _ Hst Htot).
Qed.

(** Every other message leaves the balances and their total alone. *)
Definition is_report (m : BassetReward.ExecuteMsg) : bool :=
  match m with IncreaseBalance _ _ | DecreaseBalance _ _ => true | _ => false end.

Lemma reward_quiet deps height now w from funds msg resp s :
  is_report msg = false → reporting [] w →
  RewardContract.execute deps (mkEnv height now (reward_addr d)) (mkInfo from funds) msg (w_reward w) =
    Ok (resp, s) →
  reporting [] (set_w_reward s w) ∧ Forall (λ m, chain_msg m = true) (messages resp) ∧
  RewardState.config_cell s = RewardState.config_cell (w_reward w).
Proof.
  intros Hmsg (Hbal & Hst & Htot) E. destruct msg; try done; cbn in E.
  - apply swap_Ok in E as (-> & cfg & bals & known & _ & _ & _ & _ & ->).
    split_and!; [done| |done]. by apply Forall_fmap, Forall_true.
  - apply update_global_index_Ok in E as (st & cfg & bal & Hst' & _ & _ & _ & _ & _ & -> & ->).
    split_and!; [|constructor|done]. unfold reporting, reward_total in *. rewrite Hst' in Htot.
    by split_and!; [|eexists|].
  - apply claim_Ok in E as (st & a & to & cfg & rate & cap & Hst' & _ & _ & _ & _ & _ & _ & _ & -> & ->).
    split_and!; [|repeat constructor|done]. unfold reporting, reward_total in *. rewrite Hst' in Htot.
    split_and!; [|by eexists|done]. intros x. rewrite Hbal. cbn. unfold reward_balance.
    change (with_holder a ?h (RewardState.set_state ?st ?s)) with
      (RewardState.set_state st (with_holder a h s)).
    rewrite holder_of_with. by case_decide; subst.
Qed.

(** Reports are accepted from the token only. *)
Lemma report_sender deps height now w from funds msg resp s :
  wired w → answers d deps w → normalized from → is_report msg = true →
  RewardContract.execute deps (mkEnv height now (reward_addr d)) (mkInfo from funds) msg (w_reward w) =
    Ok (resp, s) → from = token_addr d.
Proof.
  intros Hw Hans Hn Hmsg E. destruct msg; try done; cbn in E.
  - apply increase_Ok in E as (st & a & tok & _ & _ & _ & _ & _ & cfg & hub & raw & Hcfg & Hh & Hq & Ht & Hs).
    cbn in Hs. subst. pose proof (wired_reporter _ _ _ _ _ Hw Hans Hcfg Hh Hq). congruence.
  - apply decrease_Ok in E as (st & a & _ & _ & _ & _ & _ & _ & _ & cfg & hub & raw & Hcfg & Hh & Hq & Hs).
    pose proof (wired_reporter _ _ _ _ _ Hw Hans Hcfg Hh Hq) as Ht. by eapply normalized_eq.
Qed.

(** ** Steps of the hub *)

Lemma connects_connected a o c :
  normalized a → connects a (Some o) = true → addr_canonicalize o = Ok c → connected a (Some c).
Proof.
  intros Hn Hc Ho c' [= <-]. apply bool_decide_eq_true_1 in Hc as [?|[= ->]]; [done|].
  by apply normalized_humanize.
Qed.

(** The owner's message keeps the connections of the hub. *)
Lemma update_config_links info owner reward token airdrop s resp s' cfg :
  HubState.config_cell s = Some cfg → links cfg →
  trusted_hub d (BassetHub.UpdateConfig owner reward token airdrop) = true →
  HubConfig.execute_update_config info owner reward token airdrop s = Ok (resp, s') →
  ∃ cfg', HubState.config_cell s' = Some cfg' ∧ links cfg'.
Proof.
  cbn. intros Hcfg (Hr & Ht & Ha) [[Tr Tt]%andb_true_iff Ta]%andb_true_iff E.
  unfold HubConfig.execute_update_config in E.
  destruct owner, reward, token, airdrop; inv_ok; cbn in *; simplify_eq;
    (eexists; split; [first [reflexivity|eassumption]|]); unfold links; cbn; split_and!;
    eauto using connects_connected, reward_normalized, token_normalized, registry_normalized.
Qed.

(** A trusted message keeps the connections of the hub. *)
Lemma trusted_links deps env info msg s resp s' cfg :
  HubState.config_cell s = Some cfg → links cfg → trusted_hub d msg = true →
  HubContract.execute deps env info msg s = Ok (resp, s') →
  ∃ cfg', HubState.config_cell s' = Some cfg' ∧ links cfg'.
Proof.
  intros Hcfg Hl Ht E. destruct (admin_msg msg) eqn:Hadm.
  2: { apply (execute_admin _ _ _ _ _ _ _ Hadm) in E as (Hc & _). rewrite Hc. eauto. }
  destruct msg; try done; cbn [HubContract.execute] in E.
  - by eapply update_config_links.
  - unfold HubConfig.execute_register_validator, store_white_validators in E. inv_ok. cbn. eauto.
  - unfold HubConfig.execute_deregister_validator, remove_white_validators in E. inv_ok.
    match goal with x : (string * list CosmosMsg)%type |- _ => destruct x end. inv_ok.
    destruct (query_delegation _ _ _) as [[c|]| |]; inv_ok; cbn; eauto.
  - unfold HubConfig.execute_update_params in E. inv_ok. cbn. eauto.
Qed.

(** The claim of an airdrop comes from the registry, and not for the token. *)
Lemma claim_target deps height now w from funds b t a x y z resp s cfg :
  wired w → HubState.config_cell (w_hub w) = Some cfg →
  queued (from, Wasm_Execute (hub_addr d) b funds) → from_slice b = Ok (ClaimAirdrop t a x y z) →
  HubContract.execute deps (mkEnv height now (hub_addr d)) (mkInfo from funds)
    (ClaimAirdrop t a x y z) (w_hub w) = Ok (resp, s) → a ≠ token_addr d.
Proof.
  intros Hw Hcfg [Hn (_ & _ & Hclaim)] Hb E.
  apply (execute_authorized_Ok _ _ _ _ _ _ _ _ Hcfg) in E as (c & Hc & Hs).
  destruct (wired_hub _ Hw) as (cfg' & Hcfg' & _ & _ & Hreg).
  assert (cfg' = cfg) as -> by congruence.
  eapply Hclaim; [|done|exact Hb]. eapply normalized_eq; [exact Hn|exact Hs|by apply Hreg].
Qed.

Lemma quiet_queued deps height now w from funds b msg resp s cfg :
  wired w → HubState.config_cell (w_hub w) = Some cfg →
  queued (from, Wasm_Execute (hub_addr d) b funds) → from_slice b = Ok msg →
  HubContract.execute deps (mkEnv height now (hub_addr d)) (mkInfo from funds) msg (w_hub w) =
    Ok (resp, s) →
  Forall (quiet (mkEnv height now (hub_addr d)) cfg msg) (messages resp) →
  Forall queued (sends (hub_addr d) resp).
Proof.
  intros Hw Hcfg Hhead Hb E Hquiet. apply Forall_fmap. eapply Forall_impl; [exact Hquiet|].
  intros m Hm. split; [apply hub_normalized|]. cbn.
  destruct addresses_differ as (? & ? & ? & ? & ? & ?). destruct m as [| | | | | |to b' f|]; try done.
  split_and!; try congruence. intros _ -> u n Hmint.
  destruct Hm as [Hto|[(c & Hc & Hto)|[(c & k & x & ->)|(t & c & x & y & ->)]]].
  - cbn in Hto. congruence.
  - destruct (wired_hub _ Hw) as (cfg' & Hcfg' & Hrew & _ & Hreg).
    assert (cfg' = cfg) as -> by congruence.
    destruct Hc as [Hc|Hc]; [specialize (Hrew _ Hc)|specialize (Hreg _ Hc)]; congruence.
  - rewrite wire_send in Hmint. discriminate.
  - by eapply claim_target in E.
Qed.

Lemma hub_step_inv deps height now w from funds b msg resp s q :
  wired w → answers d deps w → reporting [] w → covered (supply w) (w_hub w) →
  queued (from, Wasm_Execute (hub_addr d) b funds) → from_slice b = Ok msg →
  trusted_hub d msg = true →
  HubContract.execute deps (mkEnv height now (hub_addr d)) (mkInfo from funds) msg (w_hub w) =
    Ok (resp, s) →
  Forall queued q → system_inv (set_w_hub s w, sends (hub_addr d) resp ++ q).
Proof.
  intros Hw Hans Hrep Hcov Hhead Hb Ht E Hq.
  destruct (wired_hub _ Hw) as (cfg & Hcfg & Hlinks).
  assert (wired (set_w_hub s w)) as Hw'.
  { pose proof (trusted_links _ _ _ _ _ _ _ _ Hcfg Hlinks Ht E). by destruct Hw; constructor. }
  destruct (hub_settling _ _ _ _ _ _ _ _ _ Hcfg (wired_supply _ _ _ Hw Hans Hcfg) Hcov E)
    as [(pre & m & raw & token & Hm & Hpre & Hset & Hraw & Hh & Hcov')|[Hquiet Hcov']].
  - destruct Hlinks as (_ & Htok & _).
    assert (token = token_addr d) as -> by (specialize (Htok _ Hraw); congruence).
    split; [done|]. eexists _, q. split_and!; [|by apply (pending_settle _ pre m)|done].
    cbn. unfold sends. by rewrite Hm.
  - apply idle_inv; [done|done|done|]. apply Forall_app_2; [|done].
    exact (quiet_queued _ _ _ _ _ _ _ _ _ _ _ Hw Hcfg Hhead Hb E Hquiet).
Qed.

(** ** Steps of the registry *)

Lemma registry_step_inv w from funds msg resp s q :
  wired w → reporting [] w → covered (supply w) (w_hub w) → trusted_registry d msg = true →
  AirdropContract.execute (mkInfo from funds) msg (w_registry w) = Ok (resp, s) →
  Forall queued q →
  system_inv (set_w_registry s w, sends (registry_addr d) resp ++ q).
Proof.
  intros Hw Hrep Hcov Ht E Hq.
  assert (Forall queued (sends (registry_addr d) resp)) as Hsent.
  { destruct (wired_registry _ Hw) as (cfg & Hcfg & Hhub).
    destruct addresses_differ as (? & ? & ? & ? & ? & ?).
    unfold sends.
    pose proof (registry_messages _ _ _ _ _ _ Hcfg E) as [->|(t & i & x & y & Hi & ->)]; [constructor|].
    apply Forall_singleton. split; [apply registry_normalized|]. cbn. split_and!; try congruence.
    intros _ _ ? ? ? ? ? Hdec. rewrite from_slice_ser in Hdec. injection Hdec as <- <- <- <- <-.
    by eapply (wired_airdrops _ Hw). }
  apply idle_inv; [|done|done|by apply Forall_app_2].
  destruct (registry_kept _ _ _ _ _ (token_addr d) (hub_addr d) E) as [Hc Hi].
  - destruct msg; try done; by apply bool_decide_eq_true_1 in Ht.
  - apply Hw.
  - apply Hw.
  - destruct Hw. constructor; cbn; done.
Qed.

(** ** The invariant *)

(** A message of the pending prefix is executed. *)
Lemma pending_step w w' c q q' pre :
  wired w → pending w (c :: pre) → Forall queued q →
  step d (w, c :: pre ++ q) (w', q') → system_inv (w', q').
Proof.
  intros Hw Hp Hq Hstep. remember (c :: pre) as l eqn:El.
  destruct addresses_differ as (? & ? & ? & ? & ? & ?).
  destruct Hp as [ops Hrep Hcov|ms m Hrep Hms Hset Hcov].
  - destruct ops as [|op ops]; [done|]. injection El as <- <-.
    inversion Hstep; subst; try congruence; try done.
    + rewrite from_slice_ser in *. simplify_eq.
      match goal with E : RewardContract.execute _ _ _ _ _ = Ok _ |- _ =>
        destruct (report_step_inv _ _ _ _ _ _ _ _ _ _ Hrep E) as (Hnil & Hrep' & Hcfg) end.
      unfold sends. rewrite Hnil. split.
      * destruct Hw. constructor; cbn; rewrite ?Hcfg; done.
      * eexists _, q. split_and!; [reflexivity|by apply pending_reports|done].
    + exfalso. unfold members in *. set_solver.
  - destruct ms as [|m0 ms]; injection El as <- <-.
    + inversion Hstep; subst; try congruence; try done.
      * match goal with E : TokenContract.execute _ _ _ _ _ = Ok _ |- _ =>
          pose proof (token_minter _ _ _ _ _ _ _ E) as [_ Hsup];
          eapply token_step_inv; try eassumption end.
        destruct m as [a|u a|]; [| |done]; rewrite ?wire_burn, ?wire_mint in *; simplify_eq;
          cbn in Hcov, Hsup; unfold supply, token_supply in *;
          eapply covered_le; try exact Hcov; lia.
      * exfalso. unfold members in *. set_solver.
    + inversion_clear Hms as [|? ? Hm0 Hms'].
      inversion Hstep; subst; try done. split; [done|].
      eexists _, q. split_and!; [reflexivity|by apply pending_settle|done].
Qed.

(** A message is executed when nothing is pending. *)
Lemma idle_step w w' q q' :
  wired w → reporting [] w → covered (supply w) (w_hub w) → Forall queued q →
  step d (w, q) (w', q') → system_inv (w', q').
Proof.
  intros Hw Hrep Hcov Hq Hstep. destruct addresses_differ as (? & ? & ? & ? & ? & ?).
  inversion Hstep as [deps height now w0 from b funds q0 msg resp s Hans Hb Ht E
    |deps height now w0 from b funds q0 msg resp s Hans Hb E
    |deps height now w0 from b funds q0 msg resp s Hans Hb E
    |w0 from b funds q0 msg resp s Hb Ht E|w0 from to b funds q0 calls Hto Hcalls
    |w0 from m q0 Hm|w0 calls Hcalls]; subst; try (inversion_clear Hq as [|? ? Hhead Hq']).
  - by eapply hub_step_inv.
  - eapply token_step_inv; try eassumption.
    eapply covered_le; [|exact Hcov]. apply token_minter in E as [_ Hsup].
    unfold supply, token_supply in *. destruct msg; try lia. destruct Hsup as [Hminter _].
    exfalso. rewrite (wired_minter _ Hw) in Hminter. injection Hminter as <-.
    destruct Hhead as [_ (_ & Hmint & _)]. by eapply Hmint.
  - destruct (is_report msg) eqn:Hr.
    + exfalso. destruct Hhead as [Hn (Hrew & _)].
      eapply Hrew; [|done|exact Hb]. by eapply report_sender.
    + destruct (reward_quiet _ _ _ _ _ _ _ _ _ Hr Hrep E) as (Hrep' & Hms & Hcfg).
      apply idle_inv; [|done|done|apply Forall_app_2; [|done]].
      * destruct Hw. constructor; cbn; rewrite ?Hcfg; done.
      * apply Forall_fmap. eapply Forall_impl; [exact Hms|]. intros m Hm.
        split; [apply reward_normalized|]. by destruct m.
  - by eapply registry_step_inv.
  - apply idle_inv; [done..|]. apply Forall_app_2; [by apply outsiders_queued|done].
  - by apply idle_inv.
  - apply idle_inv; [done..|]. by apply outsiders_queued.
Qed.

Lemma step_inv x y : step d x y → system_inv x → system_inv y.
Proof.
  destruct x as [w q0], y as [w' q']. intros Hstep (Hw & pre & q & Hq0 & Hp & Hq). cbn in *. subst.
  destruct pre as [|c pre]; [|by eapply pending_step].
  destruct (system_inv_idle w) as (_ & Hrep & Hcov); [|by eapply idle_step].
  split; [done|]. by exists [], [].
Qed.

(** ** The start *)

Lemma genesis_inv w q : genesis d w q → system_inv (w, q).
Proof.
  intros [(ht & now & info & msg & resp & Eh & ->) (tenv & tinfo & tmsg & tresp & Hth & Hnil & Et)
    (rmsg & rresp & Hrh & Er) (ainfo & amsg & aresp & Hah & Ea)].
  apply token_instantiate_Ok in Et as (_ & (tc & Htc & Hcell) & Hbal & Hsup & Hmint).
  apply reward_instantiate_Ok in Er as ((rc & Hrc & Hrcfg) & Hrst & Hzero).
  rewrite Hnil in Hbal, Hsup. rewrite Hth in Htc, Hmint. rewrite Hrh in Hrc.
  unfold HubContract.instantiate in Eh. inv_ok.
  unfold AirdropContract.instantiate, AirdropContract.store_config in Ea. inv_ok.
  repeat match goal with Hx : _ = w_hub w |- _ => symmetry in Hx | Hx : _ = w_registry w |- _ => symmetry in Hx end.
  apply idle_inv.
  - constructor.
    + eexists. split; [by match goal with Hx : w_hub w = _ |- _ => rewrite Hx end|]. done.
    + exists tc. split; [done|]. eapply normalized_humanize; [apply hub_normalized|done].
    + destruct hub_normalized as [c Hc]. by eapply Hmint.
    + eexists. split; [exact Hrcfg|]. cbn. eapply normalized_humanize; [apply hub_normalized|done].
    + eexists. split; [by match goal with Hx : w_registry w = _ |- _ => rewrite Hx end|]. done.
    + intros k i. match goal with Hx : w_registry w = _ |- _ => rewrite Hx end. cbn. by rewrite lookup_empty.
  - split_and!.
    + intros a. cbn in Hbal. by rewrite Hbal, Hzero.
    + by eexists.
    + unfold reward_total, supply. unfold token_supply in Hsup. rewrite Hrst, Hsup. done.
  - intros st. match goal with Hx : w_hub w = _ |- _ => rewrite Hx end. cbn. intros [= <-] _.
    eexists _, _. split_and!; [done|done|]. unfold supply. unfold token_supply in Hsup. rewrite Hsup.
    cbn. lia.
  - apply Forall_fmap. repeat constructor; try apply hub_normalized; cbn;
      destruct addresses_differ as (? & ? & ? & ? & ? & ?); try congruence.
Qed.

Lemma steps_inv w q w' q' : genesis d w q → steps d (w, q) (w', q') → system_inv (w', q').
Proof.
  intros Hg%genesis_inv Hs. remember (w, q) as x eqn:Ex. remember (w', q') as y eqn:Ey. clear Ex.
  revert w' q' Ey. induction Hs as [x|x y z Hxy _ IH]; intros; subst; [done|].
  eapply IH; [|done]. by eapply step_inv.
Qed.

(** ** Claims *)

(** C1: the token and the reward contract agree.  The four contracts start
    from their instantiation, the token without initial balances; from then
    on any messages are executed in any order, those of users, of other
    contracts and of the contracts themselves, provided that the owners of
    the hub and of the registry connect them to no contract outside the
    deployment and that the token is not registered as an airdrop.  In every
    state between two transactions the reward contract has the token's
    balance of every account, and the total by which it divides rewards is
    the token's supply. *)
Theorem system_agrees w q w' :
  genesis d w q → steps d (w, q) (w', []) →
  (∀ a, token_balance (w_token w') a = reward_balance (w_reward w') a) ∧
  reward_total w' = supply w'.
Proof.
  intros Hg Hs. destruct (system_inv_idle _ (steps_inv _ _ _ _ Hg Hs)) as (_ & (Hb & _ & Ht) & _).
  split; [exact Hb|]. cbn in Ht. lia.
Qed.

(** C2: the tokens are backed.  From the instantiation of the four contracts,
    the token without initial balances, and under any messages with the
    owners trusted not to connect the contracts to others nor to register the
    token as an airdrop: in every state between two transactions, while
    anything is bonded, the tokens that are issued or wait in the current
    batch are worth at most the bond at the hub's exchange rate. *)
Theorem system_backed w q w' st cb :
  genesis d w q → steps d (w, q) (w', []) →
  HubState.state_cell (w_hub w') = Some st → current_batch_cell (w_hub w') = Some cb →
  total_bond_amount st ≠ 0 →
  (supply w' + requested_with_fee cb) * exchange_rate st ≤ total_bond_amount st * DECIMAL_ONE.
Proof.
  intros Hg Hs Hst Hcb Hb. destruct (system_inv_idle _ (steps_inv _ _ _ _ Hg Hs)) as (_ & _ & Hc).
  destruct (Hc _ Hst Hb) as (st' & cb' & Hst' & Hcb' & Hle). congruence.
Qed.
End spec.

(** ** Witnesses *)

Lemma demo_distinct : NoDup (members demo_deployment).
Proof. apply (bool_decide_unpack _). vm_compute. done. Qed.

Lemma demo_normalized : Forall normalized (members demo_deployment).
Proof.
  apply Forall_forall. intros a Ha. exists (canonical a). unfold members in Ha. cbn in Ha.
  repeat (apply elem_of_cons in Ha as [->|Ha]; [reflexivity|]). by apply not_elem_of_nil in Ha.
Qed.

Lemma demo_genesis_ok w q : demo_genesis = Ok (w, q) → genesis demo_deployment w q.
Proof.
  unfold demo_genesis. intros ([resp hub] & Eh & E)%result_bind_Ok.
  apply result_bind_Ok in E as ([tresp token] & Et & E).
  apply result_bind_Ok in E as ([rresp reward] & Er & E).
  apply result_bind_Ok in E as ([aresp registry] & Ea & [= <- <-]).
  constructor; cbn [w_hub w_token w_reward w_registry].
  - do 5 eexists. split; [exact Eh|done].
  - do 4 eexists. split_and!; [| |exact Et]; done.
  - do 2 eexists. split; [|exact Er]. done.
  - do 3 eexists. split; [|exact Ea]. done.
Qed.

(** The transactions of the demonstration, the hub's first messages first. *)
Definition demo_txs :
    result string (World (gmap (list N) N) * list (Addr * CosmosMsg) * World (gmap (list N) N)) :=
  match demo_genesis with
  | Ok (w, q) =>
      w0 ← run_tx demo_deployment 10 demo_answers 2 5 w q;
      w1 ← run_tx demo_deployment 10 demo_answers 3 6 w0 demo_connect_tx;
      w2 ← run_tx demo_deployment 10 demo_answers 5 10 w1 demo_bond_tx;
      w3 ← run_tx demo_deployment 10 demo_answers 6 12 w2 demo_unbond_tx;
      Ok (w, q, w3)
  | _ => Err "not instantiated"
  end.

Lemma alice_outside : outsider demo_deployment "alice".
Proof. split; [by exists (canonical "alice")|]. unfold members. cbn. set_solver. Qed.
Lemma owner_outside : outsider demo_deployment "owner".
Proof. split; [by exists (canonical "owner")|]. unfold members. cbn. set_solver. Qed.

(** A transaction of somebody outside. *)
Lemma demo_tx height now w w' from m :
  outsider demo_deployment from →
  run_tx demo_deployment 10 demo_answers height now w [(from, m)] = Ok w' →
  steps demo_deployment (w, []) (w', []).
Proof.
  intros Hf E. eapply rtc_l; [by apply (step_user _ _ [(from, m)]), Forall_singleton|].
  exact (run_tx_steps _ _ _ _ _ _ _ _ demo_answers_ok E).
Qed.

Lemma demo_steps w q w' :
  demo_txs = Ok (w, q, w') →
  genesis demo_deployment w q ∧ steps demo_deployment (w, q) (w', []).
Proof.
  unfold demo_txs. destruct demo_genesis as [[w0 q0]| |] eqn:E0; [|done..].
  intros (w1 & E1 & E)%result_bind_Ok. apply result_bind_Ok in E as (w2 & E2 & E).
  apply result_bind_Ok in E as (w3 & E3 & E). apply result_bind_Ok in E as (w4 & E4 & [= <- <- <-]).
  split; [by apply demo_genesis_ok|].
  apply (run_tx_steps _ _ _ _ _ _ _ _ demo_answers_ok) in E1.
  apply (demo_tx _ _ _ _ _ _ owner_outside) in E2.
  apply (demo_tx _ _ _ _ _ _ alice_outside) in E3, E4.
  etrans; [exact E1|]. etrans; [exact E2|]. etrans; [exact E3|exact E4].
Qed.

(** What they leave behind: 50 tokens are issued and 40 wait to be unbonded. *)
Definition demo_books : BassetHub.State := BassetHub.mkState 12111111111111111111 1090 0 0 0 0 0.

Lemma demo_outcome :
  (λ '(_, w), (supply w, HubState.state_cell (w_hub w), current_batch_cell (w_hub w))) <$> demo_txs =
  Ok (50, Some demo_books, Some (mkCurrentBatch 1 40)).
Proof. vm_compute. reflexivity. Qed.

Lemma demo_outcome_Ok : ∃ w q w', demo_txs = Ok (w, q, w') ∧ supply w' = 50 ∧
  HubState.state_cell (w_hub w') = Some demo_books ∧
  current_batch_cell (w_hub w') = Some (mkCurrentBatch 1 40).
Proof.
  pose proof demo_outcome as Ho. destruct demo_txs as [[[w q] w']| |]; [|discriminate..].
  injection Ho as Hs Hst Hcb. by exists w, q, w'.
Qed.

Lemma system_agrees_witness : ∃ w q w',
  demo_txs = Ok (w, q, w') ∧ supply w' = 50 ∧ reward_total w' = 50 ∧
  reward_balance (w_reward w') (canonical "alice") =
    token_balance (w_token w') (canonical "alice").
Proof.
  destruct demo_outcome_Ok as (w & q & w' & E & Hsup & _).
  destruct (demo_steps _ _ _ E) as [Hg Hs].
  destruct (system_agrees _ demo_distinct demo_normalized _ _ _ Hg Hs) as [Hb Ht].
  exists w, q, w'. split_and!; [exact E|exact Hsup|by rewrite Ht|symmetry; apply Hb].
Defined.

Lemma system_backed_witness : ∃ w q w',
  demo_txs = Ok (w, q, w') ∧ supply w' = 50 ∧
  (supply w' + 40) * exchange_rate demo_books ≤ 1090 * DECIMAL_ONE.
Proof.
  destruct demo_outcome_Ok as (w & q & w' & E & Hsup & Hst & Hcb).
  destruct (demo_steps _ _ _ E) as [Hg Hs]. exists w, q, w'. split_and!; [exact E|exact Hsup|].
  exact (system_backed _ demo_distinct demo_normalized w q w' _ _ Hg Hs Hst Hcb ltac:(discriminate)).
Defined.
